(* ===== verification/_CoqProject ===== *)
-Q . S2P
Prelude.v
Channel.v
Text.v
Utf16.v
External.v
Digests.v
Codec.v
Core.v
Protocol.v
Transport.v
Fs.v
Keys.v
Trust.v
Pairing.v
TransferMsg.v
Transfer.v
Clipboard.v
Windows.v
Session.v
Notifications.v
Discovery.v
Node.v
Broadcast.v
Runtime.v
Cli.v
Args.v
EndToEnd.v
UnitTests.v
Fixtures.v
IntegrationTests.v
