(* ===== verification/Prelude.v ===== *)
(** * BridgeOS: a verification library

    BridgeOS connects the devices of one user over a local network: they find each
    other, authenticate, pair by a short authentication string, and then exchange
    clipboard content, files and notifications.  This library models the Rust
    workspace under [src/] and proves the properties that make it correct.

    ** The program and the files that model it

    The crates form a stack; each file models one part and requires the files of
    the parts it calls.
    - [Prelude.v] (this file): [Result] and the state-and-error monad [st] with
      its laws, bytes, fixed-size arrays, integer casts, slices, and the
      development's automation.
    - [Channel.v]: the receiving end of the [tokio] channels (broadcast and watch) and
      the loops that read them.
    - [Text.v]: the string functions of the standard library that the source
      calls (UTF-8 validity, character boundaries, trimming, formatting).
    - [Utf16.v]: code points, UTF-8 and UTF-16 of the standard library, for the
      Windows clipboard.
    - [External.v]: the third-party crates as interfaces (hex, BLAKE3, SHA-256,
      Ed25519, Postcard), operations in one class, documented laws in another, and
      the concrete instances [Toy] with which witnesses evaluate.
    - [Digests.v]: SHA-256 and BLAKE3 from their specifications, as instances of
      those interfaces, for the golden vectors and the integration tests.
    - [Codec.v]: the documented Postcard format as combinators; every wire type
      gets an instance of the [Postcard] interface from them.
    - [Core.v] ([crates/bridge-core]): versions, node identifiers, device types,
      capability masks, errors.
    - [Protocol.v] ([crates/bridge-protocol]): frames, handshake messages, the
      framing codec.
    - [Transport.v] ([crates/bridge-transport]): [FramedStream] over a byte stream
      with any peer and any failure point.
    - [Fs.v]: the file system operations that key storage and transfers use.
    - [Keys.v], [Trust.v], [Pairing.v] ([crates/bridge-identity]): identity keys and
      the key file; the SQLite trust store, its rows and statements; the pairing
      ceremony of both roles.
    - [TransferMsg.v], [Transfer.v] ([crates/bridge-transfer]): manifests, chunks and
      messages; the sender and the receiver.
    - [Clipboard.v] ([crates/bridge-clipboard]): policy, echo guard, backends (the
      trait as a class with laws, the in-memory backend as its instance) and the
      synchronization engine, proved against the class.
    - [Windows.v] ([crates/bridge-clipboard/src/backend/windows.rs]): the native
      backend over an interface [Win32] whose laws are the documented behaviour of
      the system calls; its listener thread, and its [Drop] against that thread as a
      step relation.
    - [Session.v] ([crates/bridge-session]): both handshakes, the trust gate in
      front of the application channels, pairing over the connection.
    - [Notifications.v] ([crates/bridge-notifications]): entries, privacy policy,
      deduplication guard, engine.
    - [Discovery.v] ([crates/bridge-discovery]): beacons, peer directory, the UDP and
      mDNS workers, the unified engine.
    - [Node.v] ([tools/bridge-cli/src/{node,client}.rs]): the node's connection loop
      and file-transfer handler; the client's handshake, ping and file stream.
    - [Broadcast.v] ([node.rs], [run_node] and [handle_connection]): the tasks of a
      node at the level of their await points, with the lock of the registry and the
      bounded channels, as a step relation.
    - [Runtime.v] ([node.rs], [run_node]): the whole node, from its configuration and
      data directory to its shutdown, as a step function over the inputs of all its
      connections, the clipboard, the broadcaster and discovery.
    - [Cli.v] ([tools/bridge-cli/src/{lib,client}.rs]): the commands on a machine with
      files and databases, and [execute_cli].
    - [Args.v] ([tools/bridge-cli/src/{lib,main}.rs]): the declarations of the command
      line, how options become a command, and [main].
    - [EndToEnd.v]: a command and a node, or two nodes, over one connection or
      network; properties that span the components.
    - [UnitTests.v] ([#[cfg(test)]] modules of the crates): the unit tests, evaluated
      on the model.
    - [Fixtures.v] ([tests/integration/tests/interop_fixtures.rs]): the messages of the
      golden vectors, encoded by the model and compared with the files of
      [tests/interop/fixtures].
    - [IntegrationTests.v] ([tests/] of the crates): integration tests, evaluated on the
      model.

    ** How state and effects correspond to the code

    A struct is a [Record] with its fields, an enum an [Inductive] with its
    variants.  A function that mutates [&mut self] or does I/O is a computation
    [st S E A] on an explicit state, which returns the state after an error too,
    because the effects before a failing [?] stay.  Code that can panic fails with
    [stop E].  What the source takes from its surroundings (random nonces, the
    clock, the user's answer, how a read is cut, the outcome of a system call) is
    an argument, so theorems hold for all of it; faults of the disk, the database
    and the stream are part of the state that the environment chooses.  Worker
    loops over [select!] are step functions over sequences of inputs, so a theorem
    about a sequence covers every interleaving; where the losing arm of a [select!]
    is a [recv_frame], the input carries how much of a frame it had read
    ([recv_dropped]).  Broadcast channels are logs, a receiver is its position in one
    ([Channel.v]).
    Machine integers are [Z], with wrap-around and casts written out where the
    source has them.

    ** What the theorems show

    - Trust and isolation: a server session exists only for a peer that signed
      both nonces with the key that is its identifier
      ([server_handshake_authenticates]); an untrusted session's frames reach
      nothing ([untrusted_gate]), and a whole connection of an untrusted peer
      changes nothing unless the user accepts ([untrusted_connection_isolated]);
      pairing stores a peer only with consent and a signature
      ([execute_pairing_safe], [finalize_safe]) and completes between honest
      devices ([pairing_completes], [pairing_over_wire], [handshake_completes]);
      the SQL store refines a map of peers ([trust_store_refines],
      [is_trusted_decision]) and revocation lasts ([revocation_lasts]).
    - The running node: a connection that the user has not accepted hears nothing
      of what the others do, in any run ([untrusted_hears_nothing]); the registry
      names only connections with their own peers ([registry_sound]); a copy reaches
      every trusted connection ([copy_reaches_peer]); the rows of the trust database
      stay readable ([store_readable]); frames are forwarded in order,
      once, within the capacity of the channels ([broadcast_ordered]); the discovery
      log is complete while it keeps up ([logger_prints]); a node that was shut down
      starts again with its identity and its peers ([node_restarts]).
    - End to end: a ping against a running node is answered in full
      ([ping_over_wire]); a copy on one node becomes the clipboard of the other and
      stops there ([copy_synchronised]); a started node is found by a scan
      ([node_discovered]).
    - Commands: a revoked peer is not served by a node on the same directory
      ([revoked_shut_out]); pairing needs the user's yes ([run_pair_consent]); the
      labels of discovered peers are those of the database ([run_peers_labels]).  Every
      command can be written on the command line and is read back ([command_roundtrip]),
      what is read fits its types ([command_typed]), and no two options of a command
      clash ([options_distinct]).
    - Wire format: frames round-trip ([frame_roundtrip]), arrive in order
      ([send_recv_all]), and the streaming reader is the slice decoder with a bound
      ([recv_frame_decode], [recv_frame_bounded]); the formats, the pairing code and the
      content hash are those of the golden files ([golden_files_agree], [golden_sas]).
    - Files: chunks partition a file ([chunk_layout]); the streamed manifest is the
      whole one ([manifest_streaming]); transfers resume and reassemble
      ([transfer_resumes], [transfer_any_order]), accept exactly what fits
      ([receive_chunk_guarded]), release only verified bytes ([finalize_verified],
      [offer_confined]); client and node, run against each other, deliver the file
      ([file_transfer_over_wire]).
    - Clipboard: a copy reaches the peer and does not come back
      ([clipboard_sync_no_echo]); incoming content is guarded ([incoming_guarded]);
      the echo guard rejects replays and remembers a full window
      ([echo_guard_replay], [echo_guard_window]); the monitor task handles every notice
      while it keeps up, and ends otherwise ([monitor_task_keeps_up]).  On Windows, text round-trips
      ([windows_roundtrip]), the clipboard is always closed and its memory accounted
      for ([windows_set_accounted]), waiting is bounded ([open_retry_bounded]), the
      listener cleans up ([listener_releases]) and dropping the backend ends
      ([drop_terminates]).
    - Notifications: bounded memory and only admissible entries under any messages
      ([notifications_invariant]), dismissals stick ([dismissal_sticks]), delivery
      happens once ([notification_once]) and across devices
      ([notification_mirrored]).
    - Discovery: the directory is what its events say ([directory_follows_events]),
      lists only peers heard from within the TTL ([directory_heard_recently]);
      beacons and TXT records round-trip ([beacon_roundtrip], [txt_roundtrip]);
      a beacon announces and a goodbye withdraws a device ([beacon_discovers]).
    - Defects that the models exhibit: [client_trusts_claimed_id],
      [pairing_request_lost], [outbound_breaks_stream], [broadcast_deadlock],
      [copy_breaks_send], [offer_replaces_identity], [golden_request_refused]; further
      ones ([untrusted_offer_unanswered], [shutdown_signal], [new_hides_failure], [broadcaster_lag_ends], [pairing_failure_stuck],
      [action_misses_origin], [revoke_unknown], [identity_always_fresh],
      [old_connection_unregisters], [windows_echo], [failed_start_sticks], [drop_weak_deadlock], [stale_part_blocks],
      [memory_receiver_panics], [chunk_count_wraps], [second_clear_ignored],
      [restart_suppressed], [recv_frame_eof]) beside the parts they concern.

    ** Fuel

    Loops that are not structural carry fuel computed from their input, and each
    has a lemma that it is enough: receive loops run at most once per byte left on
    the stream, because a frame consumes at least its header
    ([recv_frame_shrinks], [recv_data_loop_fuel], [chunk_wire_fuel]); chunk loops at
    most once per chunk ([drain_spec], [stream_loop_run]); the search for the next
    missing chunk at most once per received chunk ([next_from_least]); reads of a
    file at most once per byte ([hash_file_whole]); UTF-8 validation once per byte.

    ** What is not modelled

    The asynchronous runtime and scheduling below the level of whole operations,
    apart from the await points of [Broadcast.v] and the two threads of [Windows.v];
    inside [Runtime.v] a step of one connection (a ceremony or a transfer included)
    is not interleaved with steps of the others.  The internals of SQLite, the mDNS
    daemon, the socket and clipboard calls of the operating system and the
    cryptographic crates; directories and permissions of the file system; logging and
    the layout of console output; how [clap] splits the words of the command line and
    prints usage errors (an interface of [Args.v]); the placeholder applications; the
    integration tests that run both ends of a connection or of discovery as tasks, and
    two that transfer about 200,000 bytes, which the theorems cover. *)
From stdpp Require Export base tactics decidable numbers list gmap strings pretty.
From Stdlib Require Export ZArith Lia.
From Stdlib Require Export Strings.Byte.
From Stdlib Require Import Ascii.

#[global] Open Scope Z_scope.
#[global] Set Default Goal Selector "!".

(** ** Scope of the development's own notations *)

Declare Scope bridge_scope.
Delimit Scope bridge_scope with bridge.
#[global] Open Scope bridge_scope.

(** Machine integers are kept as [Z]; the aliases record the width the source
    declares, and every place where the source wraps or casts is written out. *)
Abbreviation u8 := Z (only parsing).
Abbreviation u16 := Z (only parsing).
Abbreviation u32 := Z (only parsing).
Abbreviation u64 := Z (only parsing).
Abbreviation i64 := Z (only parsing).
Abbreviation usize := Z (only parsing).

(** ** Rust's [Result] *)

Inductive result (E T : Type) : Type :=
| Ok (t : T)
| Err (e : E).
Arguments Ok {E T} t.
Arguments Err {E T} e.

#[global] Instance result_eq_dec `{EqDecision E, EqDecision T} : EqDecision (result E T).
Proof. solve_decision. Defined.

(** The [?] operator is [mbind]. *)
#[global] Instance result_ret {E} : MRet (result E) := λ T t, Ok t.
#[global] Instance result_bind {E} : MBind (result E) := λ T U f r,
  match r with Ok t => f t | Err e => Err e end.
#[global] Instance result_fmap {E} : FMap (result E) := λ T U f r,
  match r with Ok t => Ok (f t) | Err e => Err e end.

Definition map_err {E F T} (f : E → F) (r : result E T) : result F T :=
  match r with Ok t => Ok t | Err e => Err (f e) end.

Definition ok_or {E T} (e : E) (o : option T) : result E T :=
  match o with Some t => Ok t | None => Err e end.

Definition is_ok {E T} (r : result E T) : bool :=
  match r with Ok _ => true | Err _ => false end.

(** ** Stateful, fallible code

    [st S E A] is a computation on a mutable state [S] that may stop early with
    an error of type [E]: the state that the error leaves behind is returned
    too, because the source keeps the effects performed before a failing call. *)

Definition st (S E A : Type) : Type := S → result E A * S.

#[global] Instance st_ret {S E} : MRet (st S E) := λ A a s, (Ok a, s).
#[global] Instance st_bind {S E} : MBind (st S E) := λ A B f m s,
  match m s with
  | (Ok a, s') => f a s'
  | (Err e, s') => (Err e, s')
  end.

Definition fail {S E A} (e : E) : st S E A := λ s, (Err e, s).
Definition get {S E} : st S E S := λ s, (Ok s, s).
Definition put {S E} (s : S) : st S E unit := λ _, (Ok tt, s).
Definition modify {S E} (f : S → S) : st S E unit := λ s, (Ok tt, f s).
Definition lift {S E A} (r : result E A) : st S E A := λ s, (r, s).
Definition gets {S E A} (f : S → A) : st S E A := λ s, (Ok (f s), s).

(** [let _ = c] of the source: the effects stay, the outcome is dropped. *)
Definition ignore {S E F A} (m : st S E A) : st S F unit := λ s, (Ok tt, (m s).2).

(** Observe the outcome instead of propagating it. *)
Definition try {S E F A} (m : st S E A) : st S F (result E A) := λ s,
  let '(r, s') := m s in (Ok r, s').

Definition st_map_err {S E F A} (f : E → F) (m : st S E A) : st S F A := λ s,
  let '(r, s') := m s in (map_err f r, s').

(** Run a computation on a component of a larger state. *)
Definition zoom {S T E A} (getf : S → T) (setf : T → S → S) (m : st T E A) : st S E A :=
  λ s, let '(r, t') := m (getf s) in (r, setf t' s).

(** Code that may panic as well as return an error. *)
Inductive stop (E : Type) : Type :=
| Raise (e : E)
| Panic (msg : string).
Arguments Raise {E} e.
Arguments Panic {E} msg.

Lemma st_bind_ok {S E A B} (f : A → st S E B) m s a s' :
  m s = (Ok a, s') → mbind (M := st S E) f m s = f a s'.
Proof. unfold mbind, st_bind. by intros ->. Qed.

Lemma st_bind_err {S E A B} (f : A → st S E B) m s e s' :
  m s = (Err e, s') → mbind (M := st S E) f m s = (Err e, s').
Proof. unfold mbind, st_bind. by intros ->. Qed.

Lemma st_bind_Ok_inv {S E A B} (f : A → st S E B) m s b s' :
  mbind (M := st S E) f m s = (Ok b, s') → ∃ a s1, m s = (Ok a, s1) ∧ f a s1 = (Ok b, s').
Proof. unfold mbind, st_bind. destruct (m s) as [[a|e] s1]; [eauto|done]. Qed.

Lemma st_bind_Err_inv {S E A B} (f : A → st S E B) m s e s' :
  mbind (M := st S E) f m s = (Err e, s') →
  m s = (Err e, s') ∨ ∃ a s1, m s = (Ok a, s1) ∧ f a s1 = (Err e, s').
Proof. unfold mbind, st_bind. destruct (m s) as [[a|x] s1]; [eauto|]. intros. simplify_eq. by left. Qed.

(** A relation between states that every step keeps, along a sequence. *)
Lemma st_bind_rel {S E A B} (R : S → S → Prop) `{!Transitive R} (f : A → st S E B) (m : st S E A) s :
  R s (m s).2 → (∀ a s1, m s = (Ok a, s1) → R s1 (f a s1).2) →
  R s (mbind (M := st S E) f m s).2.
Proof.
  intros Hm Hf. unfold mbind, st_bind. destruct (m s) as [[a|e] s1] eqn:Em; [|done].
  etrans; [exact Hm|]. by apply Hf.
Qed.

(** ** Bytes *)

Definition b2z (b : byte) : Z := Z.of_N (Byte.to_N b).
Definition z2b (z : Z) : byte :=
  match Byte.of_N (Z.to_N (z mod 256)) with Some b => b | None => x00 end.

Lemma b2z_range b : 0 ≤ b2z b < 256.
Proof. unfold b2z. pose proof (Byte.to_N_bounded b). lia. Qed.

Lemma z2b_b2z b : z2b (b2z b) = b.
Proof.
  unfold z2b. rewrite Z.mod_small by apply b2z_range.
  unfold b2z. by rewrite N2Z.id, Byte.of_to_N.
Qed.

Lemma b2z_z2b z : b2z (z2b z) = z mod 256.
Proof.
  unfold z2b, b2z. pose proof (Z.mod_pos_bound z 256 ltac:(lia)).
  destruct (Byte.of_N (Z.to_N (z mod 256))) as [b|] eqn:E.
  - apply Byte.to_of_N in E. rewrite E. lia.
  - apply Byte.of_N_None_iff in E. lia.
Qed.

#[global] Instance b2z_inj : Inj (=) (=) b2z.
Proof. intros x y E. by rewrite <-(z2b_b2z x), <-(z2b_b2z y), E. Qed.

#[global] Instance byte_eq_dec : EqDecision byte.
Proof. intros x y. destruct (Byte.byte_eq_dec x y); [left|right]; done. Defined.

#[global] Program Instance byte_countable : Countable byte :=
  inj_countable Byte.to_N Byte.of_N _.
Next Obligation. intros x. apply Byte.of_to_N. Qed.

(** Byte length of a buffer, as the [usize] the source computes with. *)
Definition zlen {A} (l : list A) : usize := Z.of_nat (length l).

Lemma zlen_nonneg {A} (l : list A) : 0 ≤ zlen l.
Proof. unfold zlen. lia. Qed.

Lemma zlen_app {A} (l k : list A) : zlen (l ++ k) = zlen l + zlen k.
Proof. unfold zlen. rewrite length_app. lia. Qed.

Lemma zlen_nil {A} : zlen (A := A) [] = 0.
Proof. done. Qed.

Lemma zlen_cons {A} (x : A) l : zlen (x :: l) = 1 + zlen l.
Proof. unfold zlen. simpl. lia. Qed.

(** ** Fixed-size arrays [[u8; N]] *)

Definition array (n : nat) : Type := dsig (λ l : list byte, length l = n).

Definition arr {n} (a : array n) : list byte := proj1_sig a.

(** [try_into] from a slice. *)
Definition to_array (n : nat) (l : list byte) : option (array n) :=
  match decide (length l = n) with
  | left H => Some (dexist l H)
  | right _ => None
  end.

Definition arr_rep (n : nat) (b : byte) : array n :=
  dexist (replicate n b) (length_replicate n b).

Lemma arr_length {n} (a : array n) : length (arr a) = n.
Proof. exact (proj2_dsig a). Qed.

Lemma arr_zlen {n} (a : array n) : zlen (arr a) = Z.of_nat n.
Proof. unfold zlen. by rewrite arr_length. Qed.

Lemma arr_inj {n} (a b : array n) : arr a = arr b → a = b.
Proof. apply dsig_eq. Qed.

Lemma to_array_arr {n} (a : array n) : to_array n (arr a) = Some a.
Proof.
  unfold to_array. destruct (decide _) as [H|H].
  - f_equal. by apply arr_inj.
  - destruct H. apply arr_length.
Qed.

Lemma to_array_Some n l a : to_array n l = Some a ↔ arr a = l.
Proof.
  split.
  - unfold to_array. destruct (decide _); intros; by simplify_eq.
  - intros <-. apply to_array_arr.
Qed.

Lemma to_array_length n l : length l = n → ∃ a, to_array n l = Some a ∧ arr a = l.
Proof.
  intros H. unfold to_array. destruct (decide _) as [H'|]; [|done]. by eexists.
Qed.

Lemma to_array_None n l : to_array n l = None ↔ length l ≠ n.
Proof. unfold to_array. destruct (decide _); naive_solver. Qed.

#[global] Instance array_eq_dec n : EqDecision (array n).
Proof.
  intros a b. destruct (decide (arr a = arr b)) as [H|H].
  - left. by apply arr_inj.
  - right. congruence.
Defined.

#[global] Program Instance array_countable n : Countable (array n) :=
  inj_countable (arr (n := n)) (to_array n) _.
Next Obligation. intros n a. apply to_array_arr. Qed.

(** ** Integer casts *)

(** [as uW]: truncation to [w] bits. *)
Definition wrap (w z : Z) : Z := z mod 2 ^ w.
Definition as_u32 (z : Z) : u32 := wrap 32 z.
Definition as_u64 (z : Z) : u64 := wrap 64 z.
(** [as i64] of a [u64]: two's complement reinterpretation. *)
Definition as_i64 (z : Z) : i64 :=
  if decide (as_u64 z < 2 ^ 63) then as_u64 z else as_u64 z - 2 ^ 64.

Definition in_width (w z : Z) : Prop := 0 ≤ z < 2 ^ w.
#[global] Instance in_width_dec w z : Decision (in_width w z).
Proof. unfold in_width. apply _. Defined.

Lemma wrap_small w z : in_width w z → wrap w z = z.
Proof. apply Z.mod_small. Qed.

Lemma wrap_in_width w z : 0 ≤ w → in_width w (wrap w z).
Proof. intros. apply Z.mod_pos_bound. lia. Qed.

Lemma as_i64_small z : 0 ≤ z < 2 ^ 63 → as_i64 z = z.
Proof.
  intros H. unfold as_i64, as_u64.
  rewrite (wrap_small 64) by (unfold in_width; lia). case_decide; lia.
Qed.

(** [to_be_bytes] / [from_be_bytes]: most significant byte first. *)
Fixpoint be_bytes (n : nat) (z : Z) : list byte :=
  match n with
  | O => []
  | S n' => z2b (z / 256 ^ Z.of_nat n') :: be_bytes n' z
  end.

Definition be_val (l : list byte) : Z :=
  foldl (λ acc b, acc * 256 + b2z b) 0 l.

(** [to_le_bytes]. *)
Fixpoint le_bytes (n : nat) (z : Z) : list byte :=
  match n with
  | O => []
  | S n' => z2b z :: le_bytes n' (z / 256)
  end.

Lemma be_bytes_length n z : length (be_bytes n z) = n.
Proof. induction n; simpl; congruence. Qed.

Lemma be_val_acc l acc :
  foldl (λ acc b, acc * 256 + b2z b) acc l = acc * 256 ^ zlen l + be_val l.
Proof.
  unfold be_val. revert acc. induction l as [|b l IH]; intros acc.
  - unfold zlen. simpl. lia.
  - simpl. rewrite IH, (IH (0 * 256 + b2z b)), zlen_cons.
    rewrite Z.pow_add_r by (pose proof (zlen_nonneg l); lia). lia.
Qed.

Lemma be_val_cons b l : be_val (b :: l) = b2z b * 256 ^ zlen l + be_val l.
Proof. unfold be_val at 1. simpl. by rewrite be_val_acc. Qed.

Lemma be_val_range l : 0 ≤ be_val l < 256 ^ zlen l.
Proof.
  induction l as [|b l IH]; [unfold be_val, zlen; simpl; lia|].
  rewrite be_val_cons, zlen_cons, Z.pow_add_r by (pose proof (zlen_nonneg l); lia).
  pose proof (b2z_range b). nia.
Qed.

Lemma be_val_be_bytes n z : 0 ≤ z < 256 ^ Z.of_nat n → be_val (be_bytes n z) = z.
Proof.
  intros Hz. cut (be_val (be_bytes n z) = z mod 256 ^ Z.of_nat n).
  { intros ->. by apply Z.mod_small. }
  clear Hz. induction n as [|n IH].
  { change (0 = z mod 1). by rewrite Z.mod_1_r. }
  simpl be_bytes. rewrite be_val_cons, IH, b2z_z2b.
  unfold zlen. rewrite be_bytes_length.
  rewrite Nat2Z.inj_succ, Z.pow_succ_r by lia.
  rewrite (Z.mul_comm 256), Z.rem_mul_r by lia. lia.
Qed.

Lemma be_bytes_add n z y :
  be_bytes n (y * 256 ^ Z.of_nat n + z) = be_bytes n z.
Proof.
  revert y z. induction n as [|n IH]; intros y z; [done|]. simpl be_bytes.
  rewrite Nat2Z.inj_succ, Z.pow_succ_r by lia.
  replace (y * (256 * 256 ^ Z.of_nat n) + z)
    with (y * 256 * 256 ^ Z.of_nat n + z) by lia.
  rewrite IH. f_equal. apply (inj b2z). rewrite !b2z_z2b.
  rewrite Z.div_add_l by lia. rewrite Z.add_comm. apply Z.mod_add. lia.
Qed.

Lemma be_bytes_be_val n l : length l = n → be_bytes n (be_val l) = l.
Proof.
  intros <-. induction l as [|b l IH]; [done|]. rewrite be_val_cons.
  pose proof (be_val_range l) as Hr. unfold zlen in Hr.
  simpl length. simpl be_bytes. f_equal.
  - apply (inj b2z). rewrite b2z_z2b. unfold zlen.
    rewrite Z.div_add_l, Z.div_small, Z.add_0_r by lia.
    apply Z.mod_small, b2z_range.
  - unfold zlen. by rewrite be_bytes_add, IH.
Qed.

(** ** Slices and in-place writes *)

(** [&l[a..b]] for [a <= b <= l.len()]. *)
Definition slice {A} (a b : Z) (l : list A) : list A :=
  take (Z.to_nat (b - a)) (drop (Z.to_nat a) l).

(** [l[off..off + d.len()].copy_from_slice(d)] for a range inside [l]. *)
Definition splice {A} (off : nat) (d l : list A) : list A :=
  take off l ++ d ++ drop (off + length d) l.

Lemma splice_length {A} off (d l : list A) :
  (off + length d ≤ length l)%nat → length (splice off d l) = length l.
Proof.
  intros H. unfold splice. rewrite !length_app, length_take, length_drop. lia.
Qed.

Lemma splice_lookup_in {A} off (d l : list A) i :
  (off + length d ≤ length l)%nat → (off ≤ i < off + length d)%nat →
  splice off d l !! i = d !! (i - off)%nat.
Proof.
  intros H Hi. unfold splice.
  rewrite lookup_app_r by (rewrite length_take; lia).
  rewrite length_take, Nat.min_l by lia. by rewrite lookup_app_l by lia.
Qed.

Lemma splice_lookup_out {A} off (d l : list A) i :
  (off + length d ≤ length l)%nat → (i < off ∨ off + length d ≤ i)%nat →
  splice off d l !! i = l !! i.
Proof.
  intros H [Hi|Hi]; unfold splice.
  - rewrite lookup_app_l by (rewrite length_take; lia). by apply lookup_take_lt.
  - rewrite lookup_app_r by (rewrite length_take; lia).
    rewrite length_take, Nat.min_l by lia. rewrite lookup_app_r by lia.
    rewrite lookup_drop. f_equal. lia.
Qed.

(** ** Lists *)

(** Keys without repetition determine their elements. *)
Lemma NoDup_fmap_inj_on {A B} (f : A → B) (l : list A) (x y : A) :
  NoDup (f <$> l) → x ∈ l → y ∈ l → f x = f y → x = y.
Proof.
  induction l as [|a l IH]; simpl; [by intros _ ?%not_elem_of_nil|].
  intros [Ha Hn]%NoDup_cons Hx Hy Hf. apply elem_of_cons in Hx as [->|Hx], Hy as [->|Hy]; [done| | |by apply IH].
  - destruct Ha. rewrite Hf. by apply list_elem_of_fmap_2.
  - destruct Ha. rewrite <-Hf. by apply list_elem_of_fmap_2.
Qed.

(** ** Automation *)

Create HintDb bridge discriminated.
#[export] Hint Resolve b2z_range zlen_nonneg arr_length wrap_in_width : bridge.

(** Split every conjunction, [if decide] and [match] on results in sight. *)
Ltac crush_cases :=
  repeat first
    [ progress simplify_eq/=
    | case_decide
    | case_match
    | match goal with H : _ ∧ _ |- _ => destruct H end ].

(** An equivalence between outcomes of a decision table. *)
Ltac solve_iff :=
  split; intros;
  repeat match goal with
    | H : _ ∧ _ |- _ => destruct H
    | H : _ ∨ _ |- _ => destruct H
    | H : ∃ _, _ |- _ => destruct H
    end;
  simplify_eq; try congruence; eauto 8.
