(* ===== verification/Channel.v ===== *)
(** * Channel: the receiving end of a [tokio::sync::broadcast] channel

    Every event bus of the program is a broadcast channel: the clipboard backends,
    the clipboard engine, discovery and notifications send to one, and tasks of the
    form [while let Ok(x) = rx.recv().await { … }] read from it.  The channel is the
    log of what was sent; a receiver is its position in the log.  As documented, a
    receiver that is more than the capacity behind is told [Lagged], which is an
    [Err], so that it ends such a loop. *)
From S2P Require Import Prelude.

Inductive Received (A : Type) := Value (a : A) | Lagged | Waiting.
Arguments Value {A} a.
Arguments Lagged {A}.
Arguments Waiting {A}.

(** What [recv] answers a receiver that has read [seen] of the [log]. *)
Definition recv_at {A} (capacity seen : nat) (log : list A) : Received A :=
  let backlog := drop seen log in
  if decide (capacity < length backlog)%nat then Lagged
  else match backlog with [] => Waiting | a :: _ => Value a end.

(** A task that reads: it has read [n] events, or its loop is over. *)
Inductive Task := Reading (seen : nat) | Ended.
#[global] Instance Task_eq_dec : EqDecision Task.
Proof. solve_decision. Defined.

Section WhileRecv.
Context {A St Out : Type} (capacity : nat) (log : St → list A) (body : A → St → list Out * St).

(** One round of [while let Ok(a) = rx.recv().await { body }] over the state [St],
    with what it puts out; a round in which nothing has arrived changes nothing. *)
Definition task_round (t : Task) (s : St) : list Out * (Task * St) :=
  match t with
  | Reading seen =>
    match recv_at capacity seen (log s) with
    | Value a => let '(out, s) := body a s in (out, (Reading (1 + seen), s))
    | Lagged => ([], (Ended, s))
    | Waiting => ([], (Reading seen, s))
    end
  | Ended => ([], (Ended, s))
  end.
Fixpoint task_rounds (n : nat) (t : Task) (s : St) : list Out * (Task * St) :=
  match n with
  | O => ([], (t, s))
  | S n =>
    let '(out, (t, s)) := task_round t s in
    let '(outs, ts) := task_rounds n t s in
    (out ++ outs, ts)
  end.
(** The body, over a list of events. *)
Fixpoint each (l : list A) (s : St) : list Out * St :=
  match l with
  | [] => ([], s)
  | a :: l => let '(out, s) := body a s in let '(outs, s) := each l s in (out ++ outs, s)
  end.

Lemma recv_at_value seen (l backlog : list A) a :
  drop seen l = a :: backlog → (length backlog < capacity)%nat → recv_at capacity seen l = Value a.
Proof. intros E Hl. unfold recv_at. rewrite E, decide_False by (cbn; lia). done. Qed.
Lemma recv_at_lagged seen (l : list A) : (capacity < length (drop seen l))%nat → recv_at capacity seen l = Lagged.
Proof. intros Hl. unfold recv_at. by rewrite decide_True. Qed.
Lemma recv_at_waiting (l : list A) : recv_at capacity (length l) l = Waiting.
Proof. unfold recv_at. rewrite drop_all. rewrite decide_False by (cbn; lia). done. Qed.

(** The task handles every event that waits, in order, when it is not behind by more
    than the capacity and its body sends nothing to the channel it reads. *)
Lemma task_catches_up seen s :
  (∀ a s, log (body a s).2 = log s) → (length (drop seen (log s)) ≤ capacity)%nat →
  task_rounds (length (drop seen (log s))) (Reading seen) s
  = let '(outs, s') := each (drop seen (log s)) s in (outs, (Reading (seen + length (drop seen (log s))), s')).
Proof.
  intros Hb. remember (drop seen (log s)) as backlog eqn:Eb. revert seen s Eb.
  induction backlog as [|a backlog IH]; intros seen s Eb Hl; cbn; [by rewrite Nat.add_0_r|].
  rewrite (recv_at_value seen (log s) backlog a); [|done|cbn in Hl; lia].
  specialize (Hb a s) as Hs. destruct (body a s) as [out s1]. cbn in Hs.
  rewrite (IH (S seen) s1); [|by rewrite Hs, <-Nat.add_1_r, <-drop_drop, <-Eb|cbn in Hl; lia].
  destruct (each backlog s1) as [outs s2]. by rewrite Nat.add_succ_r.
Qed.

(** A task that has ended does nothing, however often it is looked at. *)
Lemma task_ended n s : task_rounds n Ended s = ([], (Ended, s)).
Proof. induction n as [|n IH]; cbn; [done|]. by rewrite IH. Qed.
Lemma task_lags n seen s :
  (capacity < length (drop seen (log s)))%nat → task_rounds (1 + n) (Reading seen) s = ([], (Ended, s)).
Proof. intros Hl. cbn. by rewrite recv_at_lagged, task_ended. Qed.
End WhileRecv.

(** ** The shutdown signal of the discovery workers: [tokio::sync::watch] *)

(** The receiver's view of a [watch::channel(false)]: the value, whether it has
    changed since the receiver last looked, and whether the sender is gone. *)
Record Watch := { wt_value : bool; wt_changed : bool; wt_closed : bool }.
Definition watch_channel : Watch := {| wt_value := false; wt_changed := false; wt_closed := false |}.
Definition watch_send (v : bool) (w : Watch) : Watch := {| wt_value := v; wt_changed := true; wt_closed := wt_closed w |}.
Definition watch_drop (w : Watch) : Watch :=
  {| wt_value := wt_value w; wt_changed := wt_changed w; wt_closed := true |}.

(** The arm [_ = shutdown_rx.changed() => if *shutdown_rx.borrow() { break; }] of a
    worker's [select!]: [None] while it is not ready, otherwise whether the loop is
    left.  [changed] is ready with [Ok] for a new value and with [Err] when the sender
    is gone; the pattern takes both. *)
Definition shutdown_arm (w : Watch) : option (bool * Watch) :=
  if wt_changed w || wt_closed w
  then Some (wt_value w, {| wt_value := wt_value w; wt_changed := false; wt_closed := wt_closed w |})
  else None.
(** The arm, taken [n] times: how often the loop went on, and whether it was left. *)
Fixpoint shutdown_rounds (n : nat) (w : Watch) : nat * bool :=
  match n with
  | O => (O, false)
  | S n =>
    match shutdown_arm w with
    | None => (O, false)
    | Some (true, _) => (O, true)
    | Some (false, w) => let '(k, b) := shutdown_rounds n w in (S k, b)
    end
  end.

(** The signal of [shutdown] (a value, then the end of the sender) ends the worker at
    its first look, and before it the arm is silent; but a worker whose owner was
    dropped without [shutdown] finds the arm ready at every look and never leaves: it
    goes round as often as it is let. *)
Theorem shutdown_signal (n : nat) :
  shutdown_arm watch_channel = None
  ∧ shutdown_rounds (1 + n) (watch_drop (watch_send true watch_channel)) = (O, true)
  ∧ shutdown_rounds n (watch_drop watch_channel) = (n, false).
Proof.
  split_and!; [done|done|]. induction n as [|n IH]; [done|]. cbn. change (Build_Watch false false true) with (watch_drop watch_channel).
  by rewrite IH.
Qed.
