(* ===== verification/Text.v ===== *)
(** * Text: the string operations of the Rust standard library that the source uses

    A Rust [String]/[&str] is a Rocq [string], which is a sequence of bytes; that
    the bytes are valid UTF-8 is the predicate [utf8_valid].  The file has
    - [is_char_boundary], [String::truncate] and the walk-back loop with which
      [bridge-discovery/src/beacon.rs] and [bridge-notifications/src/types.rs]
      cut a string to a byte budget;
    - [trim], [to_ascii_lowercase], [contains] and the decimal formatting that
      the parsers and the formatters of the source call. *)
From Stdlib Require Import Ascii.
From S2P Require Import Prelude.

(** ** Bytes of a string *)

Definition as_bytes (s : string) : list byte := String.list_byte_of_string s.
Definition of_bytes (l : list byte) : string := String.string_of_list_byte l.

(** [str::len]: the number of bytes. *)
Definition str_len (s : string) : usize := zlen (as_bytes s).

(** ** UTF-8 *)

Definition is_cont (b : byte) : bool := bool_decide (128 ≤ b2z b < 192).

(** The well-formed UTF-8 sequences of one character (Unicode, Table 3-7), which
    is what [core::str::from_utf8] accepts: [utf8_width l] is the length of the
    character [l] starts with. *)
Definition in_range (lo hi : Z) (b : byte) : bool := bool_decide (lo ≤ b2z b ≤ hi).

Definition utf8_width (l : list byte) : option nat :=
  match l with
  | [] => None
  | b0 :: l1 =>
    if in_range 0 127 b0 then Some 1%nat
    else if in_range 194 223 b0 then
      match l1 with
      | b1 :: _ => if is_cont b1 then Some 2%nat else None
      | _ => None
      end
    else if in_range 224 239 b0 then
      match l1 with
      | b1 :: b2 :: _ =>
        let lo := if decide (b2z b0 = 224) then 160 else 128 in
        let hi := if decide (b2z b0 = 237) then 159 else 191 in
        if in_range lo hi b1 && is_cont b2 then Some 3%nat else None
      | _ => None
      end
    else if in_range 240 244 b0 then
      match l1 with
      | b1 :: b2 :: b3 :: _ =>
        let lo := if decide (b2z b0 = 240) then 144 else 128 in
        let hi := if decide (b2z b0 = 244) then 143 else 191 in
        if in_range lo hi b1 && is_cont b2 && is_cont b3 then Some 4%nat else None
      | _ => None
      end
    else None
  end.

(** [core::str::from_utf8(l).is_ok()]; the fuel is the number of bytes, and each
    round consumes at least one. *)
Fixpoint utf8_ok (fuel : nat) (l : list byte) : bool :=
  match l with
  | [] => true
  | _ =>
    match fuel, utf8_width l with
    | S fuel', Some n => utf8_ok fuel' (drop n l)
    | _, _ => false
    end
  end.
Definition from_utf8_ok (l : list byte) : bool := utf8_ok (length l) l.
Definition utf8_valid (s : string) : Prop := from_utf8_ok (as_bytes s) = true.

(** ** [str::is_char_boundary] and [String::truncate] *)

Definition char_boundary (l : list byte) (i : nat) : bool :=
  match decide (i = 0%nat) with
  | left _ => true
  | right _ =>
    match l !! i with
    | Some b => negb (is_cont b)
    | None => bool_decide (i = length l)
    end
  end.
Definition is_char_boundary (s : string) (i : nat) : bool := char_boundary (as_bytes s) i.

(** [while !s.is_char_boundary(end) { end -= 1; }], which counts down from [end];
    index 0 is always a boundary, so the loop stops there at the latest. *)
Fixpoint walk_back (l : list byte) (i : nat) : nat :=
  if char_boundary l i then i
  else match i with O => O | S i' => walk_back l i' end.

(** Truncation of a string to at most [max_bytes] bytes at a character boundary. *)
Definition truncate_bytes (l : list byte) (max_bytes : nat) : list byte :=
  if decide (length l ≤ max_bytes)%nat then l
  else take (walk_back l max_bytes) l.

Definition truncate_str (s : string) (max_bytes : nat) : string :=
  of_bytes (truncate_bytes (as_bytes s) max_bytes).

(** ** [str::trim], which strips the Unicode [White_Space] characters *)

Definition ws_chars : list (list byte) :=
  map (λ z, [z2b z]) [9; 10; 11; 12; 13; 32].
Definition ws_wide : list (list byte) :=
  map (map z2b)
    ([ [194; 133]; [194; 160]; [225; 154; 128]; [226; 128; 168]; [226; 128; 169];
       [226; 128; 175]; [226; 129; 159]; [227; 128; 128] ]
     ++ map (λ z, [226; 128; z]) [128; 129; 130; 131; 132; 133; 134; 135; 136; 137; 138]).

Definition starts_with (p l : list byte) : bool := bool_decide (take (length p) l = p).

Definition strip_one (ws : list (list byte)) (l : list byte) : option (list byte) :=
  match filter (λ w, starts_with w l) ws with
  | w :: _ => Some (drop (length w) l)
  | [] => None
  end.

Fixpoint strip_all (ws : list (list byte)) (fuel : nat) (l : list byte) : list byte :=
  match fuel with
  | O => l
  | S fuel' => match strip_one ws l with Some l' => strip_all ws fuel' l' | None => l end
  end.

Definition trim_bytes (l : list byte) : list byte :=
  let ws := ws_chars ++ ws_wide in
  let l1 := strip_all ws (length l) l in
  reverse (strip_all (map reverse ws) (length l1) (reverse l1)).
Definition trim (s : string) : string := of_bytes (trim_bytes (as_bytes s)).

(** ** ASCII case and substring search *)

Definition ascii_lower (b : byte) : byte :=
  if bool_decide (65 ≤ b2z b ≤ 90) then z2b (b2z b + 32) else b.
Definition to_ascii_lowercase (s : string) : string := of_bytes (map ascii_lower (as_bytes s)).

(** [str::to_lowercase] follows the Unicode tables; all the development relies on
    is what it does to ASCII text. *)
Class Lowercase := to_lowercase : string → string.
Class LowercaseLaws `{Lowercase} :=
  to_lowercase_ascii s : Forall (λ b, b2z b < 128) (as_bytes s) → to_lowercase s = to_ascii_lowercase s.

Fixpoint contains_bytes (needle l : list byte) : bool :=
  starts_with needle l || match l with [] => false | _ :: l' => contains_bytes needle l' end.
Definition str_contains (s needle : string) : bool :=
  contains_bytes (as_bytes needle) (as_bytes s).

(** ** Formatting *)

(** [{}] of an unsigned integer. *)
Definition dec (z : Z) : string := pretty z.
(** [{:03}]. *)
Definition dec03 (z : Z) : string :=
  of_bytes (replicate (3 - length (as_bytes (dec z))) (z2b 48) ++ as_bytes (dec z)).

(** ** Lemmas *)

Lemma as_of_bytes l : as_bytes (of_bytes l) = l.
Proof. apply String.list_byte_of_string_of_list_byte. Qed.

Lemma of_as_bytes s : of_bytes (as_bytes s) = s.
Proof. apply String.string_of_list_byte_of_string. Qed.

#[global] Instance as_bytes_inj : Inj (=) (=) as_bytes.
Proof. intros s t E. by rewrite <-(of_as_bytes s), <-(of_as_bytes t), E. Qed.

Lemma as_bytes_app s t : as_bytes (s +:+ t) = as_bytes s ++ as_bytes t.
Proof.
  unfold as_bytes, String.list_byte_of_string. rewrite <-map_app. f_equal.
  induction s as [|c s IH]; [done|]. simpl. by rewrite <-IH.
Qed.

Lemma walk_back_le l i : (walk_back l i ≤ i)%nat.
Proof. induction i; simpl; [lia|]. case_match; lia. Qed.

Lemma walk_back_boundary l i : char_boundary l (walk_back l i) = true.
Proof. induction i as [|i IH]; simpl; [done|]. case_match; done. Qed.

(** The loop stops at the first boundary it meets: nothing between it and the
    starting point is one. *)
Lemma walk_back_greatest l i j :
  (walk_back l i < j ≤ i)%nat → char_boundary l j = false.
Proof.
  induction i as [|i IH]; simpl; [lia|]. case_match eqn:E; intros; [lia|].
  destruct (decide (j = S i)) as [->|]; [done|]. apply IH. lia.
Qed.

Lemma in_range_spec lo hi b : in_range lo hi b = true ↔ lo ≤ b2z b ≤ hi.
Proof. unfold in_range. by rewrite bool_decide_eq_true. Qed.

Lemma in_range_cont lo hi b :
  128 ≤ lo → hi ≤ 191 → in_range lo hi b = true → is_cont b = true.
Proof.
  rewrite in_range_spec. unfold is_cont. rewrite bool_decide_eq_true. lia.
Qed.

(** Every byte of a character but the first is a continuation byte. *)
Lemma utf8_width_spec l n :
  utf8_width l = Some n →
  (1 ≤ n ≤ length l)%nat
  ∧ (∀ j b, (0 < j < n)%nat → l !! j = Some b → is_cont b = true).
Proof.
  destruct l as [|b0 l]; [done|]. unfold utf8_width. intros H.
  repeat case_match; simplify_eq;
    repeat match goal with H : _ && _ = true |- _ => apply andb_prop in H; destruct H end;
    (split; [simpl; lia|
      intros j c Hj; do 4 (destruct j as [|j]; [try lia; simpl; intros; simplify_eq;
        first [assumption | eapply in_range_cont; [| |eassumption]; repeat case_decide; lia]|]);
      lia]).
Qed.

(** The width is read off the character's own bytes. *)
Lemma utf8_width_take l n i :
  utf8_width l = Some n → (n ≤ i)%nat → utf8_width (take i l) = Some n.
Proof.
  intros H Hi. pose proof (utf8_width_spec _ _ H) as [Hn _].
  destruct l as [|b0 l]; [done|]. destruct i as [|i]; [lia|].
  destruct l as [|b1 l]; [by rewrite take_ge by (simpl in *; lia)|].
  destruct i as [|i]; [revert H; unfold utf8_width; cbn [take]; repeat case_match; intros; simplify_eq; done || lia|].
  destruct l as [|b2 l]; [by rewrite take_ge by (simpl in *; lia)|].
  destruct i as [|i]; [revert H; unfold utf8_width; cbn [take]; repeat case_match; intros; simplify_eq; done || lia|].
  destruct l as [|b3 l]; [by rewrite take_ge by (simpl in *; lia)|].
  destruct i as [|i]; [revert H; unfold utf8_width; cbn [take]; repeat case_match; intros; simplify_eq; done || lia|].
  exact H.
Qed.

Lemma utf8_ok_fuel f f' l :
  utf8_ok f l = true → (length l ≤ f')%nat → utf8_ok f' l = true.
Proof.
  revert f' l. induction f as [|f IH]; intros f' l H Hf.
  - destruct l; simpl in H; [by destruct f'|done].
  - destruct l as [|b l]; [by destruct f'|]. destruct f' as [|f']; [simpl in Hf; lia|].
    cbn [utf8_ok] in H |- *. destruct (utf8_width (b :: l)) as [n|] eqn:E; [|done].
    apply utf8_width_spec in E as ((?&?)&_); apply IH; [done|].
    rewrite length_drop. simpl in *. lia.
Qed.

Lemma char_boundary_drop l n i :
  (n ≤ i)%nat → (i ≤ length l)%nat → char_boundary l i = true →
  char_boundary (drop n l) (i - n) = true.
Proof.
  intros Hn Hi. unfold char_boundary. rewrite lookup_drop, length_drop.
  replace (n + (i - n))%nat with i by lia.
  repeat case_decide; try done; [lia..|].
  case_match; [done|]. rewrite !bool_decide_eq_true. lia.
Qed.

Lemma utf8_ok_take f l i :
  utf8_ok f l = true → (i ≤ length l)%nat → char_boundary l i = true →
  utf8_ok f (take i l) = true.
Proof.
  revert l i. induction f as [|f IH]; intros l i H Hi Hb.
  - destruct l; [|done]. by rewrite take_nil.
  - destruct l as [|b l]; [by rewrite take_nil|].
    destruct i as [|i]; [done|]. cbn [take utf8_ok] in *.
    destruct (utf8_width (b :: l)) as [n|] eqn:E; [|done].
    pose proof (λ i, utf8_width_take _ _ i E) as Htake.
    apply utf8_width_spec in E as ((?&?)&Hcont).
    assert (n ≤ S i)%nat as Hn.
    { destruct (decide (S i < n)%nat) as [Hlt|]; [|lia].
      assert (S i < length (b :: l))%nat as Hlen by lia.
      destruct (lookup_lt_is_Some_2 _ _ Hlen) as [c Hc].
      specialize (Hcont (S i) c ltac:(lia) Hc).
      unfold char_boundary in Hb. rewrite Hc, Hcont in Hb. by case_decide. }
    specialize (Htake (S i) Hn). cbn [take] in Htake. rewrite Htake.
    change (b :: take i l) with (take (S i) (b :: l)).
    replace (drop n (take (S i) (b :: l))) with (take (S i - n) (drop n (b :: l))).
    + apply IH; [done| |by apply char_boundary_drop].
      rewrite length_drop. simpl in *. lia.
    + symmetry. by rewrite skipn_firstn_comm.
Qed.

(** Cutting a valid string at a character boundary leaves a valid string. *)
Lemma from_utf8_ok_take l i :
  from_utf8_ok l = true → (i ≤ length l)%nat → char_boundary l i = true →
  from_utf8_ok (take i l) = true.
Proof.
  intros H Hi Hb. eapply utf8_ok_fuel; [by eapply utf8_ok_take|]. done.
Qed.

Lemma truncate_bytes_length l n : (length (truncate_bytes l n) ≤ n)%nat.
Proof.
  unfold truncate_bytes. case_decide; [done|].
  rewrite length_take. pose proof (walk_back_le l n). lia.
Qed.

Lemma truncate_bytes_utf8 l n :
  from_utf8_ok l = true → from_utf8_ok (truncate_bytes l n) = true.
Proof.
  intros H. unfold truncate_bytes. case_decide; [done|].
  apply from_utf8_ok_take; [done| |apply walk_back_boundary].
  pose proof (walk_back_le l n). lia.
Qed.

Lemma truncate_bytes_prefix l n : truncate_bytes l n `prefix_of` l.
Proof.
  unfold truncate_bytes. case_decide; [done|].
  eexists. symmetry. apply take_drop.
Qed.

Lemma truncate_str_short s n : (length (as_bytes s) ≤ n)%nat → truncate_str s n = s.
Proof.
  intros H. unfold truncate_str, truncate_bytes. rewrite decide_True by done.
  apply of_as_bytes.
Qed.

(** Truncating twice is truncating once. *)
Lemma truncate_str_idemp s n : truncate_str (truncate_str s n) n = truncate_str s n.
Proof.
  apply truncate_str_short. unfold truncate_str at 1. rewrite as_of_bytes.
  apply truncate_bytes_length.
Qed.

Lemma truncate_str_len s n : (length (as_bytes (truncate_str s n)) ≤ n)%nat.
Proof. unfold truncate_str. rewrite as_of_bytes. apply truncate_bytes_length. Qed.

Lemma truncate_str_valid s n : utf8_valid s → utf8_valid (truncate_str s n).
Proof.
  unfold utf8_valid, truncate_str. rewrite as_of_bytes. apply truncate_bytes_utf8.
Qed.

#[export] Hint Resolve truncate_str_len truncate_str_valid walk_back_le : bridge.
