(* ===== verification/Utf16.v ===== *)
(** * Utf16: characters, UTF-8 and UTF-16

    [str::chars], [str::encode_utf16] and [String::from_utf16_lossy] of the Rust
    standard library, which [bridge-clipboard/src/backend/windows.rs] uses to
    exchange text with the operating system.  A character is its scalar value.
    The file shows that UTF-16 loses nothing of a valid string, and what is left of
    one that is cut at its first zero unit. *)
From S2P Require Import Prelude Text.

#[local] Ltac Zify.zify_post_hook ::= Z.to_euclidean_division_equations.

(** ** Characters of a string *)

(** [char]: a Unicode scalar value. *)
Definition is_scalar (c : Z) : Prop := 0 ≤ c < 0xD800 ∨ 0xE000 ≤ c < 0x110000.

(** The scalar value of the character of [n] bytes that [l] starts with. *)
Definition code_point (n : nat) (l : list byte) : Z :=
  match n, map b2z l with
  | 1%nat, b0 :: _ => b0
  | 2%nat, b0 :: b1 :: _ => (b0 - 192) * 64 + (b1 - 128)
  | 3%nat, b0 :: b1 :: b2 :: _ => (b0 - 224) * 4096 + (b1 - 128) * 64 + (b2 - 128)
  | _, b0 :: b1 :: b2 :: b3 :: _ =>
    (b0 - 240) * 262144 + (b1 - 128) * 4096 + (b2 - 128) * 64 + (b3 - 128)
  | _, _ => 0
  end.

(** [str::chars]; the bytes of a [str] are valid, so no branch stops early. *)
Fixpoint utf8_chars (fuel : nat) (l : list byte) : list Z :=
  match fuel, utf8_width l with
  | S fuel', Some n => code_point n l :: utf8_chars fuel' (drop n l)
  | _, _ => []
  end.
Definition chars (s : string) : list Z := utf8_chars (length (as_bytes s)) (as_bytes s).

(** [char::encode_utf8], with which a [String] is built from characters. *)
Definition encode_utf8 (c : Z) : list byte :=
  map z2b
    (if decide (c < 0x80) then [c]
     else if decide (c < 0x800) then [192 + c / 64; 128 + c mod 64]
     else if decide (c < 0x10000) then [224 + c / 4096; 128 + c / 64 mod 64; 128 + c mod 64]
     else [240 + c / 262144; 128 + c / 4096 mod 64; 128 + c / 64 mod 64; 128 + c mod 64]).
Definition from_chars (cs : list Z) : string := of_bytes (flat_map encode_utf8 cs).

(** ** UTF-16 *)

Definition utf16_units (c : Z) : list u16 :=
  if decide (c < 0x10000) then [c]
  else let code := c - 0x10000 in [0xD800 + code / 1024; 0xDC00 + code mod 1024].

(** [str::encode_utf16]. *)
Definition encode_utf16 (s : string) : list u16 := flat_map utf16_units (chars s).

Definition is_surrogate (u : u16) : bool := bool_decide (0xD800 ≤ u < 0xE000).
Definition is_low_surrogate (u : u16) : bool := bool_decide (0xDC00 ≤ u < 0xE000).
Definition REPLACEMENT_CHARACTER : Z := 0xFFFD.

(** [char::decode_utf16] with every unpaired surrogate replaced. *)
Fixpoint decode_utf16_lossy (l : list u16) : list Z :=
  match l with
  | [] => []
  | u :: rest =>
    if negb (is_surrogate u) then u :: decode_utf16_lossy rest
    else if is_low_surrogate u then REPLACEMENT_CHARACTER :: decode_utf16_lossy rest
    else match rest with
    | u2 :: rest2 =>
      if is_low_surrogate u2 then
        ((u - 0xD800) * 1024 + (u2 - 0xDC00) + 0x10000) :: decode_utf16_lossy rest2
      else REPLACEMENT_CHARACTER :: decode_utf16_lossy rest
    | [] => [REPLACEMENT_CHARACTER]
    end
  end.
(** [String::from_utf16_lossy]. *)
Definition from_utf16_lossy (l : list u16) : string := from_chars (decode_utf16_lossy l).

(** What precedes the first zero. *)
Fixpoint until_zero (l : list Z) : list Z :=
  match l with
  | [] => []
  | x :: rest => if decide (x = 0) then [] else x :: until_zero rest
  end.
Definition until_nul (s : string) : string := from_chars (until_zero (chars s)).
Definition has_nul (s : string) : bool := bool_decide (0 ∈ chars s).

(** ** Lemmas *)

Lemma is_cont_spec b : is_cont b = true ↔ 128 ≤ b2z b < 192.
Proof. unfold is_cont. by rewrite bool_decide_eq_true. Qed.

(** A byte is determined by its value. *)
Lemma z2b_eq z b : z = b2z b → z2b z = b.
Proof. intros ->. apply z2b_b2z. Qed.

(** Decoding a character and encoding it gives its bytes back. *)
Lemma code_point_encode l n :
  utf8_width l = Some n → encode_utf8 (code_point n l) = take n l ∧ is_scalar (code_point n l).
Proof.
  destruct l as [|b0 l]; [done|]. unfold utf8_width. intros H.
  repeat case_match; simplify_eq;
    repeat match goal with H : _ && _ = true |- _ => apply andb_prop in H; destruct H end;
    rewrite ?in_range_spec, ?is_cont_spec in *; unfold code_point, encode_utf8, is_scalar; simpl map;
    repeat match goal with |- context [b2z ?b] =>
      let z := fresh "z" in let E := fresh "E" in pose proof (b2z_range b); set (z := b2z b) in *;
      assert (E : z = b2z b) by reflexivity; clearbody z end;
    cbn [take]; repeat case_decide; try lia;
    (split; [simpl; repeat f_equal; apply z2b_eq; lia|lia]).
Qed.

Lemma utf8_chars_spec f l :
  utf8_ok f l = true →
  flat_map encode_utf8 (utf8_chars f l) = l ∧ Forall is_scalar (utf8_chars f l).
Proof.
  revert l. induction f as [|f IH]; intros l H.
  { destruct l; simpl in *; [by split|done]. }
  destruct l as [|b l]; [by split|]. cbn [utf8_ok utf8_chars] in *.
  destruct (utf8_width (b :: l)) as [n|] eqn:E; [|done].
  destruct (code_point_encode _ _ E) as [Hc Hs]. destruct (IH _ H) as [Hf Hss].
  cbn [flat_map]. rewrite Hc, Hf. split; [apply take_drop|by constructor].
Qed.

Lemma from_chars_chars s : utf8_valid s → from_chars (chars s) = s.
Proof.
  intros Hv. unfold from_chars, chars. rewrite (proj1 (utf8_chars_spec _ _ Hv)). apply of_as_bytes.
Qed.

Lemma chars_scalar s : utf8_valid s → Forall is_scalar (chars s).
Proof. intros Hv. apply (utf8_chars_spec _ _ Hv). Qed.

Lemma decode_units c rest :
  is_scalar c → decode_utf16_lossy (utf16_units c ++ rest) = c :: decode_utf16_lossy rest.
Proof.
  unfold is_scalar, utf16_units. intros Hc. case_decide; cbn [app decode_utf16_lossy];
    unfold is_surrogate, is_low_surrogate.
  - rewrite bool_decide_eq_false_2 by lia. done.
  - rewrite (bool_decide_eq_true_2 (0xD800 ≤ 0xD800 + _ < _)) by lia.
    rewrite (bool_decide_eq_false_2 (0xDC00 ≤ 0xD800 + _ < _)) by lia.
    rewrite (bool_decide_eq_true_2 (0xDC00 ≤ 0xDC00 + _ < _)) by lia. cbn [negb]. f_equal. lia.
Qed.

Lemma decode_encode_utf16 cs : Forall is_scalar cs → decode_utf16_lossy (flat_map utf16_units cs) = cs.
Proof.
  induction 1 as [|c cs Hc Hcs IH]; [done|]. cbn [flat_map]. by rewrite decode_units, IH.
Qed.

Lemma until_zero_app l k : Forall (λ x, x ≠ 0) l → until_zero (l ++ k) = l ++ until_zero k.
Proof. induction 1; [done|]. simpl. rewrite decide_False by done. by f_equal. Qed.

Lemma utf16_units_nonzero c : is_scalar c → c ≠ 0 → Forall (λ x, x ≠ 0) (utf16_units c).
Proof.
  unfold is_scalar, utf16_units. intros. case_decide; [by constructor|].
  repeat constructor; lia.
Qed.

(** Cutting the units at the first zero is cutting the characters there. *)
Lemma until_zero_units cs k :
  Forall is_scalar cs →
  until_zero (flat_map utf16_units cs ++ 0 :: k) = flat_map utf16_units (until_zero cs).
Proof.
  induction 1 as [|c cs Hc Hcs IH]; [done|]. cbn [flat_map until_zero]. case_decide as E.
  - by subst.
  - by rewrite <-app_assoc, until_zero_app, IH by (by apply utf16_units_nonzero).
Qed.

Lemma until_zero_Forall P l : Forall P l → Forall P (until_zero l).
Proof. induction 1; simpl; [done|]. case_decide; by constructor. Qed.

Lemma until_zero_id l : 0 ∉ l → until_zero l = l.
Proof.
  induction l as [|x l IH]; [done|]. rewrite not_elem_of_cons. intros [??]. simpl.
  rewrite decide_False by done. by rewrite IH.
Qed.

(** A valid string, written as UTF-16 with a terminator and read up to the first
    zero unit, is the string up to its first NUL. *)
Lemma utf16_roundtrip s k :
  utf8_valid s → from_utf16_lossy (until_zero (encode_utf16 s ++ 0 :: k)) = until_nul s.
Proof.
  intros Hv. unfold from_utf16_lossy, until_nul, encode_utf16. f_equal.
  rewrite until_zero_units by (by apply chars_scalar).
  apply decode_encode_utf16, until_zero_Forall, chars_scalar, Hv.
Qed.

Lemma until_nul_id s : utf8_valid s → has_nul s = false → until_nul s = s.
Proof.
  intros Hv Hn. unfold until_nul, has_nul in *. apply bool_decide_eq_false in Hn.
  rewrite until_zero_id by done. by apply from_chars_chars.
Qed.

Lemma encode_utf16_width s : utf8_valid s → Forall (in_width 16) (encode_utf16 s).
Proof.
  intros Hv%chars_scalar. unfold encode_utf16. induction Hv as [|c cs Hc Hcs IH]; [constructor|].
  cbn [flat_map]. apply Forall_app. split; [|done]. unfold utf16_units, is_scalar, in_width in *.
  case_decide; repeat constructor; lia.
Qed.

#[export] Hint Resolve from_chars_chars chars_scalar until_nul_id encode_utf16_width : bridge.
