(* ===== verification/External.v ===== *)
(** * External: the third-party crates the source calls

    The crates are not part of the repository, so each is an interface: a class
    with the operations the source calls and a second class with the documented
    behaviour that theorems may rely on.  Definitions take the operations as
    arguments; only the theorems that need a law ask for it.
    - [Hex]: [hex::{encode, decode, decode_to_slice}];
    - [Blake3], [Sha256]: the one-shot and the incremental hash functions;
    - [Ed25519]: [ed25519_dalek::{SigningKey, VerifyingKey}];
    - [Postcard]: [postcard::{to_allocvec, from_bytes}] at a wire type.
    The [Display] text of a third-party error is a [string].

    [Module Toy] has one small concrete implementation of each interface with
    its laws proved: the witnesses of the development are evaluated with it.  It
    is not meant to be secure, only to show that the laws can hold together. *)
From S2P Require Import Prelude Text.

(** ** hex *)

Class Hex := {
  hex_encode : list byte → string;
  hex_decode : string → result string (list byte);
  hex_decode_to_slice : nat → string → result string (list byte);
}.

Class HexLaws `{Hex} := {
  hex_decode_encode l : hex_decode (hex_encode l) = Ok l;
  hex_to_slice_encode l : hex_decode_to_slice (length l) (hex_encode l) = Ok l;
  hex_to_slice_length n s l : hex_decode_to_slice n s = Ok l → length l = n;
  hex_encode_len l : str_len (hex_encode l) = 2 * zlen l;
}.

(** ** blake3 and sha2 *)

Class Blake3 := {
  b3_hasher : Type;
  b3_new : b3_hasher;
  b3_update : b3_hasher → list byte → b3_hasher;
  b3_finalize : b3_hasher → array 32;
  b3_hash : list byte → array 32;
}.

Class Blake3Laws `{Blake3} := {
  (** Feeding the input in pieces does not change the digest. *)
  b3_update_app h x y : b3_update (b3_update h x) y = b3_update h (x ++ y);
  b3_finalize_hash x : b3_finalize (b3_update b3_new x) = b3_hash x;
  b3_finalize_new : b3_finalize b3_new = b3_hash [];
}.

Class Sha256 := {
  sha_hasher : Type;
  sha_new : sha_hasher;
  sha_update : sha_hasher → list byte → sha_hasher;
  sha_finalize : sha_hasher → array 32;
}.

Class Sha256Laws `{Sha256} := {
  sha_update_app h x y : sha_update (sha_update h x) y = sha_update h (x ++ y);
}.

(** ** ed25519_dalek *)

Class Ed25519 := {
  SigningKey : Type;
  VerifyingKey : Type;
  #[global] vk_eq_dec :: EqDecision VerifyingKey;
  sk_from_bytes : array 32 → SigningKey;
  sk_to_bytes : SigningKey → array 32;
  sk_verifying_key : SigningKey → VerifyingKey;
  sk_sign : SigningKey → list byte → array 64;
  vk_from_bytes : array 32 → result string VerifyingKey;
  vk_to_bytes : VerifyingKey → array 32;
  vk_verify_strict : VerifyingKey → list byte → array 64 → result string unit;
}.

Class Ed25519Laws `{Ed25519} := {
  sk_to_from_bytes b : sk_to_bytes (sk_from_bytes b) = b;
  sk_from_to_bytes k : sk_from_bytes (sk_to_bytes k) = k;
  (** A [VerifyingKey] keeps the compressed bytes it was built from. *)
  vk_from_to_bytes v : vk_from_bytes (vk_to_bytes v) = Ok v;
  vk_to_from_bytes b v : vk_from_bytes b = Ok v → vk_to_bytes v = b;
  vk_verify_sign k m : vk_verify_strict (sk_verifying_key k) m (sk_sign k m) = Ok tt;
}.

(** ** postcard *)

(** [valid a]: [a] is a value the Rust type has (integers inside their width,
    strings in UTF-8). *)
Class Valid (A : Type) := valid : A → Prop.

Class Postcard (A : Type) := {
  to_allocvec : A → result string (list byte);
  from_bytes : list byte → result string A;
}.

Class PostcardLaws (A : Type) `{Postcard A, Valid A} := {
  postcard_roundtrip a : valid a →
    ∃ bs, to_allocvec a = Ok bs ∧ from_bytes bs = Ok a;
  (** What is decoded is a value of the Rust type. *)
  postcard_valid bs a : from_bytes bs = Ok a → valid a;
}.

(** ** Shared consequences *)

Lemma vk_to_bytes_inj `{Ed25519, !Ed25519Laws} (v w : VerifyingKey) :
  vk_to_bytes v = vk_to_bytes w → v = w.
Proof.
  intros E. pose proof (vk_from_to_bytes v) as Hv.
  rewrite E, vk_from_to_bytes in Hv. congruence.
Qed.

Lemma hex_encode_inj `{Hex, !HexLaws} (x y : list byte) :
  hex_encode x = hex_encode y → x = y.
Proof.
  intros E. pose proof (hex_decode_encode x) as Hx.
  rewrite E, hex_decode_encode in Hx. congruence.
Qed.

Lemma b3_update_list `{Blake3, !Blake3Laws} (h : b3_hasher) (ls : list (list byte)) x :
  foldl b3_update (b3_update h x) ls = b3_update h (x ++ concat ls).
Proof.
  revert x. induction ls as [|l ls IH]; intros x; simpl; [by rewrite app_nil_r|].
  by rewrite b3_update_app, IH, <-app_assoc.
Qed.

Lemma b3_hash_pieces `{Blake3, !Blake3Laws} (ls : list (list byte)) :
  b3_finalize (foldl b3_update b3_new ls) = b3_hash (concat ls).
Proof.
  destruct ls as [|l ls]; simpl; [apply b3_finalize_new|].
  by rewrite b3_update_list, b3_finalize_hash.
Qed.

Lemma sha_update_list `{Sha256, !Sha256Laws} (h : sha_hasher) (ls : list (list byte)) x :
  foldl sha_update (sha_update h x) ls = sha_update h (x ++ concat ls).
Proof.
  revert x. induction ls as [|l ls IH]; intros x; simpl; [by rewrite app_nil_r|].
  by rewrite sha_update_app, IH, <-app_assoc.
Qed.

(** ** A concrete implementation of the interfaces *)

Module Toy.

Definition digit (z : Z) : byte := z2b (if decide (z < 10) then 48 + z else 87 + z).
Definition undigit (b : byte) : option Z :=
  let z := b2z b in
  if decide (48 ≤ z ≤ 57) then Some (z - 48)
  else if decide (97 ≤ z ≤ 102) then Some (z - 87)
  else if decide (65 ≤ z ≤ 70) then Some (z - 55)
  else None.

Fixpoint encode (l : list byte) : list byte :=
  match l with
  | [] => []
  | b :: l' => digit (b2z b / 16) :: digit (b2z b mod 16) :: encode l'
  end.

Fixpoint decode (l : list byte) : option (list byte) :=
  match l with
  | [] => Some []
  | h :: d :: l' =>
    match undigit h, undigit d, decode l' with
    | Some x, Some y, Some r => Some (z2b (16 * x + y) :: r)
    | _, _, _ => None
    end
  | [_] => None
  end.

Lemma undigit_digit z : 0 ≤ z < 16 → undigit (digit z) = Some z.
Proof.
  intros H. unfold undigit, digit. rewrite b2z_z2b.
  destruct (decide (z < 10)); rewrite Z.mod_small by lia; repeat case_decide; f_equal; lia.
Qed.

Lemma decode_encode l : decode (encode l) = Some l.
Proof.
  induction l as [|b l IH]; [done|]. simpl.
  pose proof (b2z_range b). pose proof (Z.mod_pos_bound (b2z b) 16 ltac:(lia)).
  assert (0 ≤ b2z b / 16 < 16).
  { split; [apply Z.div_pos; lia|apply Z.div_lt_upper_bound; lia]. }
  rewrite !undigit_digit, IH by lia.
  rewrite <-Z.div_mod by lia. by rewrite z2b_b2z.
Qed.

Lemma encode_length l : length (encode l) = (2 * length l)%nat.
Proof. induction l; simpl; lia. Qed.

#[export] Instance hex : Hex := {
  hex_encode l := of_bytes (encode l);
  hex_decode s := ok_or "Invalid character or odd length" (decode (as_bytes s));
  hex_decode_to_slice n s :=
    match decode (as_bytes s) with
    | Some l => if decide (length l = n) then Ok l else Err "Invalid string length"
    | None => Err "Invalid character or odd length"
    end;
}.

#[export] Instance hex_laws : HexLaws.
Proof.
  split; simpl; intros.
  - by rewrite as_of_bytes, decode_encode.
  - rewrite as_of_bytes, decode_encode. by rewrite decide_True by done.
  - crush_cases; done.
  - unfold str_len, zlen. rewrite as_of_bytes, encode_length. lia.
Qed.

(** A polynomial checksum in place of a cryptographic hash. *)
Definition poly (m : Z) (l : list byte) : Z :=
  foldl (λ acc b, (acc * m + b2z b + 1) mod 2 ^ 256) 7 l.
Definition digest (m : Z) (l : list byte) : array 32 :=
  dexist (be_bytes 32 (poly m l)) (be_bytes_length 32 _).

#[export] Instance blake3 : Blake3 := {
  b3_hasher := list byte; b3_new := []; b3_update h x := h ++ x;
  b3_finalize := digest 257; b3_hash := digest 257;
}.
#[export] Instance blake3_laws : Blake3Laws.
Proof. split; simpl; intros; [by rewrite <-app_assoc|done..]. Qed.

#[export] Instance sha256 : Sha256 := {
  sha_hasher := list byte; sha_new := []; sha_update h x := h ++ x;
  sha_finalize := digest 263;
}.
#[export] Instance sha256_laws : Sha256Laws.
Proof. split. simpl. intros. by rewrite <-app_assoc. Qed.

Definition toy_sign (k : array 32) (m : list byte) : array 64 :=
  dexist (be_bytes 64 (poly 65537 (arr k ++ m))) (be_bytes_length 64 _).

#[export] Program Instance ed25519 : Ed25519 := {
  SigningKey := array 32; VerifyingKey := array 32;
  sk_from_bytes b := b; sk_to_bytes k := k; sk_verifying_key k := k;
  sk_sign := toy_sign;
  vk_from_bytes b := Ok b; vk_to_bytes v := v;
  vk_verify_strict v m s :=
    if decide (s = toy_sign v m) then Ok tt else Err "signature error";
}.
#[export] Instance ed25519_laws : Ed25519Laws.
Proof.
  split; simpl; intros; try done; [congruence|]. by rewrite decide_True.
Qed.

End Toy.
