(* ===== verification/Digests.v ===== *)
(** * Digests: SHA-256 and BLAKE3

    The hash functions that [sha2] and [blake3] implement, from their specifications
    (FIPS 180-4 and the BLAKE3 paper), as instances of the interfaces of [External]
    with their laws.  Theorems do not depend on them; the golden vectors and the
    integration tests of the repository are evaluated with them, so that what those
    say of the model holds of the functions that the program really calls. *)
From S2P Require Import Prelude Text External.

(** ** 32-bit words *)

Definition rotr (n x : Z) : Z := Z.lor (Z.shiftr x n) (wrap 32 (Z.shiftl x (32 - n))).
Definition add32 (x y : Z) : Z := wrap 32 (x + y).
Definition not32 (x : Z) : Z := Z.lxor x (2 ^ 32 - 1).

(** The list in pieces of [n], the last one possibly shorter. *)
Fixpoint pieces {A} (fuel n : nat) (l : list A) : list (list A) :=
  match fuel, l with
  | S fuel, _ :: _ => take n l :: pieces fuel n (drop n l)
  | _, _ => []
  end.
Definition split_every {A} (n : nat) (l : list A) : list (list A) := pieces (length l) n l.

Definition words_be (l : list byte) : list Z := be_val <$> split_every 4 l.
Definition words_le (l : list byte) : list Z := (λ w, be_val (reverse w)) <$> split_every 4 l.
Definition digest_of (l : list byte) : array 32 := default (arr_rep 32 x00) (to_array 32 l).

(** ** SHA-256 *)

Module Fips180.
(** The constants are the first 32 bits of the fractional parts of the cube roots of
    the first 64 primes, and of the square roots of the first eight. *)
Definition primes (bound : Z) : list Z :=
  filter (λ n, Forall (λ d, n mod d ≠ 0) (seqZ 2 (n - 2))) (seqZ 2 (bound - 1)).
(** The integer cube root, bit by bit from [2 ^ n] down. *)
Fixpoint cube_root (n : nat) (r x : Z) {struct n} : Z :=
  match n with
  | O => r
  | S n => let r' := r + 2 ^ Z.of_nat n in cube_root n (if decide (r' ^ 3 ≤ x) then r' else r) x
  end.
Definition K : list Z := Eval vm_compute in (λ p, wrap 32 (cube_root 36 0 (p * 2 ^ 96))) <$> primes 311.
Definition H0 : list Z := Eval vm_compute in (λ p, wrap 32 (Z.sqrt (p * 2 ^ 64))) <$> primes 19.

Definition Ch (x y z : Z) : Z := Z.lxor (Z.land x y) (Z.land (not32 x) z).
Definition Maj (x y z : Z) : Z := Z.lxor (Z.land x y) (Z.lxor (Z.land x z) (Z.land y z)).
Definition Sigma0 (x : Z) : Z := Z.lxor (rotr 2 x) (Z.lxor (rotr 13 x) (rotr 22 x)).
Definition Sigma1 (x : Z) : Z := Z.lxor (rotr 6 x) (Z.lxor (rotr 11 x) (rotr 25 x)).
Definition sigma0 (x : Z) : Z := Z.lxor (rotr 7 x) (Z.lxor (rotr 18 x) (Z.shiftr x 3)).
Definition sigma1 (x : Z) : Z := Z.lxor (rotr 17 x) (Z.lxor (rotr 19 x) (Z.shiftr x 10)).

(** A one, zeros, and the length in bits. *)
Definition padding (l : list byte) : list byte :=
  let n := length l in
  l ++ [x80] ++ replicate ((119 - n mod 64) mod 64) x00 ++ be_bytes 8 (8 * Z.of_nat n).

(** The message schedule, last word first: sixteen words of the block and the rest. *)
Fixpoint schedule (n : nat) (w : list Z) : list Z :=
  match n with
  | O => w
  | S n =>
    let W i := default 0 (w !! i) in
    schedule n (add32 (add32 (sigma1 (W 1%nat)) (W 6%nat)) (add32 (sigma0 (W 14%nat)) (W 15%nat)) :: w)
  end.

Definition round (v : list Z) (kw : Z * Z) : list Z :=
  match v with
  | [a; b; c; d; e; f; g; h] =>
    let T1 := add32 (add32 h (Sigma1 e)) (add32 (Ch e f g) (add32 kw.1 kw.2)) in
    let T2 := add32 (Sigma0 a) (Maj a b c) in
    [add32 T1 T2; a; b; c; add32 d T1; e; f; g]
  | _ => v
  end.
Definition block (H : list Z) (b : list byte) : list Z :=
  let W := reverse (schedule 48 (reverse (words_be b))) in
  zip_with add32 H (foldl round H (zip K W)).
Definition sha256 (l : list byte) : array 32 :=
  digest_of (foldl block H0 (split_every 64 (padding l)) ≫= be_bytes 4).
End Fips180.

(** ** BLAKE3 *)

Module B3.
Definition IV : list Z := Fips180.H0.
Definition CHUNK_START : Z := 1.
Definition CHUNK_END : Z := 2.
Definition PARENT : Z := 4.
Definition ROOT : Z := 8.
Definition PERMUTATION : list nat := [2; 6; 3; 10; 7; 0; 4; 13; 1; 11; 12; 5; 9; 14; 15; 8]%nat.

Definition at_ (v : list Z) (i : nat) : Z := default 0 (v !! i).
Definition G (v : list Z) (q : (nat * nat * nat * nat) * (Z * Z)) : list Z :=
  let '(a, b, c, d, (x, y)) := q in
  let va := add32 (add32 (at_ v a) (at_ v b)) x in
  let vd := rotr 16 (Z.lxor (at_ v d) va) in
  let vc := add32 (at_ v c) vd in
  let vb := rotr 12 (Z.lxor (at_ v b) vc) in
  let va := add32 (add32 va vb) y in
  let vd := rotr 8 (Z.lxor vd va) in
  let vc := add32 vc vd in
  let vb := rotr 7 (Z.lxor vb vc) in
  <[a := va]> (<[b := vb]> (<[c := vc]> (<[d := vd]> v))).
Definition quarters : list (nat * nat * nat * nat) := [
  (0, 4, 8, 12); (1, 5, 9, 13); (2, 6, 10, 14); (3, 7, 11, 15);
  (0, 5, 10, 15); (1, 6, 11, 12); (2, 7, 8, 13); (3, 4, 9, 14)]%nat.
Fixpoint pairs (m : list Z) : list (Z * Z) :=
  match m with x :: y :: m => (x, y) :: pairs m | _ => [] end.
Definition round (v m : list Z) : list Z := foldl G v (zip quarters (pairs m)).
Fixpoint rounds (n : nat) (v m : list Z) {struct n} : list Z :=
  match n with O => v | S n => rounds n (round v m) (at_ m <$> PERMUTATION) end.

Definition compress (cv m : list Z) (counter block_len flags : Z) : list Z :=
  let v := rounds 7 (cv ++ take 4 IV ++ [wrap 32 counter; wrap 32 (Z.shiftr counter 32); block_len; flags]) m in
  zip_with Z.lxor (take 8 v) (drop 8 v).

(** The words of a block, padded with zeros. *)
Definition block_words (b : list byte) : list Z := words_le (b ++ replicate (64 - length b) x00).
(** The blocks of a chunk; [last] has the flags of the last one. *)
Fixpoint blocks (cv : list Z) (counter start last : Z) (bs : list (list byte)) {struct bs} : list Z :=
  match bs with
  | [] => cv
  | b :: bs =>
    let final := bool_decide (bs = []) in
    let flags := if final then Z.lor CHUNK_END last else 0 in
    blocks (compress cv (block_words b) counter (zlen b) (Z.lor start flags)) counter 0 last bs
  end.
Definition chunk (counter last : Z) (c : list byte) : list Z :=
  blocks IV counter CHUNK_START last (match split_every 64 c with [] => [[]] | bs => bs end).

(** The chaining value of the chunks from [counter] on: of a single one, or of the two
    subtrees, the left with the largest power of two of chunks that leaves one. *)
Fixpoint tree (fuel : nat) (counter last : Z) (cs : list (list byte)) : list Z :=
  match fuel, cs with
  | S fuel, _ :: _ :: _ =>
    let n := 2 ^ Z.log2 (zlen cs - 1) in
    let left := tree fuel counter 0 (take (Z.to_nat n) cs) in
    let right := tree fuel (counter + n) 0 (drop (Z.to_nat n) cs) in
    compress IV (left ++ right) 0 64 (Z.lor PARENT last)
  | _, [c] => chunk counter last c
  | _, _ => chunk counter last []
  end.
Definition blake3 (l : list byte) : array 32 :=
  let cs := split_every 1024 l in
  digest_of (tree (length cs) 0 ROOT cs ≫= λ w, reverse (be_bytes 4 w)).
End B3.

(** ** The instances *)

Module Std.
#[export] Instance sha256 : Sha256 := {
  sha_hasher := list byte; sha_new := []; sha_update h x := h ++ x; sha_finalize := Fips180.sha256;
}.
#[export] Instance sha256_laws : Sha256Laws.
Proof. split. intros h x y. cbn. by rewrite <-app_assoc. Qed.

#[export] Instance blake3 : Blake3 := {
  b3_hasher := list byte; b3_new := []; b3_update h x := h ++ x; b3_finalize := B3.blake3; b3_hash := B3.blake3;
}.
#[export] Instance blake3_laws : Blake3Laws.
Proof. split; cbn; intros; [by rewrite <-app_assoc|done..]. Qed.
End Std.

(** ** Test vectors of the specifications *)

Section Vectors.
Import Toy.
Definition counting (n : nat) : list byte := (λ i, z2b (Z.of_nat i mod 251)) <$> seq 0 n.

Example sha256_empty :
  hex_encode (arr (Fips180.sha256 [])) = "e3b0c44298fc1c149afbf4c8996fb92427ae41e4649b934ca495991b7852b855".
Proof. by vm_compute. Qed.
Example sha256_abc :
  hex_encode (arr (Fips180.sha256 (as_bytes "abc"))) = "ba7816bf8f01cfea414140de5dae2223b00361a396177a9cb410ff61f20015ad".
Proof. by vm_compute. Qed.
Example sha256_two_blocks :
  hex_encode (arr (Fips180.sha256 (as_bytes "abcdbcdecdefdefgefghfghighijhijkijkljklmklmnlmnomnopnopq")))
  = "248d6a61d20638b8e5c026930c3e6039a33ce45964ff2167f6ecedd419db06c1".
Proof. by vm_compute. Qed.
Example blake3_empty :
  hex_encode (arr (B3.blake3 [])) = "af1349b9f5f9a1a6a0404dea36dcc9499bcb25c9adc112b7cc9a93cae41f3262".
Proof. by vm_compute. Qed.
Example blake3_three_chunks :
  hex_encode (arr (B3.blake3 (counting 2049))) = "5f4d72f40d7a5f82b15ca2b2e44b1de3c2ef86c426c95c1af0b6879522563030".
Proof. by vm_compute. Qed.
End Vectors.
