(* ===== verification/Codec.v ===== *)
(** * Codec: the Postcard wire format as encoder/decoder pairs

    [serde]'s derive and [postcard] turn the wire types of the source into bytes.
    The theorems take them as the interface [External.Postcard]; this file has
    the format that the Postcard specification documents, as combinators, so
    that each wire type of the development gets a concrete instance of the
    interface (and its laws) next to its definition:
    - [varint w]: unsigned LEB128 of at most [ceil(w/7)] bytes, for [u16], [u32],
      [u64], [usize] and enum discriminants;
    - raw bytes for [u8] arrays, a length prefix for [Vec<u8>], [&[u8]] and
      [String] (checked to be UTF-8 on the way in), one tag byte for [Option]
      and [bool].
    As with [postcard::from_bytes], bytes left over after a value are ignored. *)
From S2P Require Import Prelude Text External.

(** ** Codecs *)

Record codec (A : Type) := Codec {
  enc : A → list byte;
  dcd : list byte → option (A * list byte);
}.
Arguments Codec {A} enc dcd.
Arguments enc {A} c a.
Arguments dcd {A} c l.

(** [c] writes the values satisfying [V], reads back what it wrote whatever
    follows it, and reads only values satisfying [V]. *)
Record codec_ok {A} (c : codec A) (V : A → Prop) : Prop := {
  dcd_enc a r : V a → dcd c (enc c a ++ r) = Some (a, r);
  dcd_valid l a r : dcd c l = Some (a, r) → V a;
}.
Arguments dcd_enc {A c V} _ a r _.
Arguments dcd_valid {A c V} _ l a r _.

(** ** Unsigned LEB128 *)

Fixpoint enc_leb (fuel : nat) (z : Z) : list byte :=
  match fuel with
  | O => []
  | S fuel' =>
    if decide (z < 128) then [z2b z]
    else z2b (z mod 128 + 128) :: enc_leb fuel' (z / 128)
  end.

Fixpoint dec_leb (fuel : nat) (l : list byte) : option (Z * list byte) :=
  match fuel, l with
  | S fuel', b :: l' =>
    if decide (b2z b < 128) then Some (b2z b, l')
    else match dec_leb fuel' l' with
         | Some (z, r) => Some (b2z b - 128 + 128 * z, r)
         | None => None
         end
  | _, _ => None
  end.

Definition leb_bytes (w : Z) : nat := Z.to_nat ((w + 6) / 7).

Definition varint (w : Z) : codec Z := Codec
  (enc_leb (leb_bytes w))
  (λ l, match dec_leb (leb_bytes w) l with
        | Some (z, r) => if decide (z < 2 ^ w) then Some (z, r) else None
        | None => None
        end).

(** ** Bytes, strings, options, products *)

Definition c_raw (n : nat) : codec (array n) := Codec
  arr
  (λ l, match to_array n (take n l) with Some a => Some (a, drop n l) | None => None end).

Definition c_bytes : codec (list byte) := Codec
  (λ d, enc (varint 64) (zlen d) ++ d)
  (λ l, match dcd (varint 64) l with
        | Some (n, r) =>
          if decide (n ≤ zlen r) then Some (take (Z.to_nat n) r, drop (Z.to_nat n) r) else None
        | None => None
        end).

Definition c_string : codec string := Codec
  (λ s, enc c_bytes (as_bytes s))
  (λ l, match dcd c_bytes l with
        | Some (d, r) => if from_utf8_ok d then Some (of_bytes d, r) else None
        | None => None
        end).

Definition c_bool : codec bool := Codec
  (λ b, [z2b (if b : bool then 1 else 0)])
  (λ l, match l with
        | b :: r => if decide (b2z b = 0) then Some (false, r)
                    else if decide (b2z b = 1) then Some (true, r) else None
        | [] => None
        end).

Definition c_option {A} (c : codec A) : codec (option A) := Codec
  (λ o, match o with None => [z2b 0] | Some a => z2b 1 :: enc c a end)
  (λ l, match l with
        | b :: r => if decide (b2z b = 0) then Some (None, r)
                    else if decide (b2z b = 1) then
                      match dcd c r with Some (a, r') => Some (Some a, r') | None => None end
                    else None
        | [] => None
        end).

Definition c_unit : codec unit := Codec (λ _, []) (λ l, Some (tt, l)).

Definition c_pair {A B} (ca : codec A) (cb : codec B) : codec (A * B) := Codec
  (λ p, enc ca p.1 ++ enc cb p.2)
  (λ l, match dcd ca l with
        | Some (a, r) =>
          match dcd cb r with Some (b, r') => Some ((a, b), r') | None => None end
        | None => None
        end).

(** A record is the tuple of its fields. *)
Definition c_iso {A B} (f : A → B) (g : B → A) (c : codec A) : codec B := Codec
  (λ b, enc c (g b))
  (λ l, match dcd c l with Some (a, r) => Some (f a, r) | None => None end).

(** An enum is its variant index followed by the variant's fields: [c_sum] puts
    the variants in a table of alternatives [A + B]. *)
Definition c_alt {A B} (i : Z) (ca : codec A) (cb : codec B) : codec (A + B) := Codec
  (λ x, match x with inl a => enc (varint 32) i ++ enc ca a | inr b => enc cb b end)
  (λ l, match dcd (varint 32) l with
        | Some (t, r) =>
          if decide (t = i) then
            match dcd ca r with Some (a, r') => Some (inl a, r') | None => None end
          else match dcd cb l with Some (b, r') => Some (inr b, r') | None => None end
        | None => None
        end).

Definition c_last {A} (i : Z) (ca : codec A) : codec A := Codec
  (λ a, enc (varint 32) i ++ enc ca a)
  (λ l, match dcd (varint 32) l with
        | Some (t, r) => if decide (t = i) then dcd ca r else None
        | None => None
        end).

(** The interface's operations from a codec. *)
Definition codec_postcard {A} (c : codec A) : Postcard A := {|
  to_allocvec a := Ok (enc c a);
  from_bytes l := match dcd c l with
                  | Some (a, _) => Ok a
                  | None => Err "deserialization error"
                  end;
|}.

(** ** The codecs satisfy their specifications *)

Lemma leb_spec n z r :
  0 ≤ z < 128 ^ Z.of_nat n → (0 < n)%nat → dec_leb n (enc_leb n z ++ r) = Some (z, r).
Proof.
  revert z r. induction n as [|n IH]; intros z r Hz Hn; [lia|].
  rewrite Nat2Z.inj_succ, Z.pow_succ_r in Hz by lia. simpl.
  case_decide as Hs; simpl.
  - rewrite b2z_z2b, Z.mod_small by lia. by rewrite decide_True by lia.
  - pose proof (Z.mod_pos_bound z 128 ltac:(lia)).
    rewrite b2z_z2b, (Z.mod_small (z mod 128 + 128)) by lia.
    rewrite decide_False by lia.
    destruct n as [|n]; [simpl in Hz; lia|].
    rewrite IH; [|split; [apply Z.div_pos; lia|apply Z.div_lt_upper_bound; lia]|lia].
    f_equal. f_equal. pose proof (Z.div_mod z 128 ltac:(lia)). lia.
Qed.

Lemma dec_leb_nonneg n l z r : dec_leb n l = Some (z, r) → 0 ≤ z.
Proof.
  revert l z. induction n as [|n IH]; intros l z; simpl; [done|].
  destruct l as [|b l]; [done|]. pose proof (b2z_range b).
  case_decide; [intros; simplify_eq; lia|].
  destruct (dec_leb n l) as [[z' r']|] eqn:E; intros; simplify_eq.
  apply IH in E. lia.
Qed.

Lemma varint_ok w : 0 < w → codec_ok (varint w) (in_width w).
Proof.
  intros Hw. pose proof (Z.div_mod (w + 6) 7 ltac:(lia)).
  pose proof (Z.mod_pos_bound (w + 6) 7 ltac:(lia)).
  split.
  - intros z r [Hz1 Hz2]. unfold varint, enc, dcd. rewrite leb_spec.
    + by rewrite decide_True.
    + split; [done|]. eapply Z.lt_le_trans; [done|].
      change 128 with (2 ^ 7). rewrite <-Z.pow_mul_r by lia.
      apply Z.pow_le_mono_r; unfold leb_bytes; lia.
    + unfold leb_bytes. lia.
  - unfold varint, dcd. intros l z r Hd.
    destruct (dec_leb _ l) as [[z' r']|] eqn:E; [|done]. case_decide; simplify_eq.
    apply dec_leb_nonneg in E. by split.
Qed.

Lemma c_raw_ok n : codec_ok (c_raw n) (λ _, True).
Proof.
  split; [|done]. intros a r _. unfold c_raw, enc, dcd.
  rewrite take_app_length', to_array_arr, drop_app_length' by (by rewrite arr_length).
  done.
Qed.

Lemma c_unit_ok : codec_ok c_unit (λ _, True).
Proof. split; [by intros [] r _|done]. Qed.

Lemma c_bytes_ok : codec_ok c_bytes (λ d, zlen d < 2 ^ 64).
Proof.
  pose proof (varint_ok 64 ltac:(lia)) as V. split.
  - intros d r H. unfold c_bytes. cbn [enc dcd]. rewrite <-app_assoc.
    rewrite (dcd_enc V) by (split; [apply zlen_nonneg|done]).
    rewrite zlen_app, decide_True by (pose proof (zlen_nonneg r); lia).
    unfold zlen. rewrite Nat2Z.id, take_app_length, drop_app_length. done.
  - unfold c_bytes. cbn [enc dcd]. intros l d r H.
    destruct (dcd (varint 64) l) as [[n r']|] eqn:E; [|done].
    apply (dcd_valid V) in E as [??]. case_decide; simplify_eq.
    unfold zlen in *. rewrite length_take. lia.
Qed.

Lemma c_string_ok : codec_ok c_string (λ s, utf8_valid s ∧ str_len s < 2 ^ 64).
Proof.
  split.
  - intros s r [Hv Hl]. unfold c_string. cbn [enc dcd].
    rewrite (dcd_enc c_bytes_ok) by done. unfold utf8_valid in Hv. rewrite Hv.
    by rewrite of_as_bytes.
  - unfold c_string. cbn [enc dcd]. intros l s r H.
    destruct (dcd c_bytes l) as [[d r']|] eqn:E; [|done].
    apply (dcd_valid c_bytes_ok) in E. case_match; simplify_eq.
    unfold utf8_valid, str_len. by rewrite as_of_bytes.
Qed.

Lemma c_bool_ok : codec_ok c_bool (λ _, True).
Proof. split; [|done]. by intros [|] r _. Qed.

Section Combinators.
Context {A B : Type} (ca : codec A) (cb : codec B) (VA : A → Prop) (VB : B → Prop).
Context (Ha : codec_ok ca VA) (Hb : codec_ok cb VB).

Lemma c_option_ok : codec_ok (c_option ca) (λ o, match o with Some a => VA a | None => True end).
Proof.
  split.
  - intros [a|] r H; [|done]. unfold c_option. cbn [enc dcd app].
    by rewrite decide_False, decide_True, (dcd_enc Ha).
  - unfold c_option. cbn [enc dcd]. intros [|b l] o r H; [done|].
    repeat case_decide; simplify_eq; [done|].
    destruct (dcd ca l) as [[a r']|] eqn:E; simplify_eq. by apply (dcd_valid Ha) in E.
Qed.

Lemma c_pair_ok : codec_ok (c_pair ca cb) (λ p, VA p.1 ∧ VB p.2).
Proof.
  split.
  - intros [a b] r [? ?]. unfold c_pair. cbn [enc dcd]. rewrite <-app_assoc.
    by rewrite (dcd_enc Ha), (dcd_enc Hb).
  - unfold c_pair. cbn [enc dcd]. intros l [a b] r H.
    destruct (dcd ca l) as [[a' r']|] eqn:E; [|done].
    destruct (dcd cb r') as [[b' r'']|] eqn:E'; simplify_eq.
    split; [by apply (dcd_valid Ha) in E|by apply (dcd_valid Hb) in E'].
Qed.

Lemma c_iso_ok (f : A → B) (g : B → A) (V : B → Prop) :
  (∀ b, f (g b) = b) → (∀ b, V b → VA (g b)) → (∀ a, VA a → V (f a)) →
  codec_ok (c_iso f g ca) V.
Proof.
  intros Hfg HV HV'. split.
  - intros b r H. unfold c_iso. cbn [enc dcd]. rewrite (dcd_enc Ha) by auto.
    by rewrite Hfg.
  - unfold c_iso. cbn [enc dcd]. intros l b r H.
    destruct (dcd ca l) as [[a r']|] eqn:E; simplify_eq.
    apply HV'. by apply (dcd_valid Ha) in E.
Qed.

(** The alternatives of an enum have distinct indices: whatever the rest of
    the table writes does not start with the index of this alternative. *)
Definition tag_free (i : Z) (c : codec B) (V : B → Prop) : Prop :=
  ∀ b r, V b → ∃ t r', dcd (varint 32) (enc c b ++ r) = Some (t, r') ∧ i ≠ t.

Lemma c_alt_ok i :
  in_width 32 i → tag_free i cb VB →
  codec_ok (c_alt i ca cb) (λ x, match x with inl a => VA a | inr b => VB b end).
Proof.
  intros Hi Hf. pose proof (varint_ok 32 ltac:(lia)) as V. split.
  - intros [a|b] r H; unfold c_alt; cbn [enc dcd].
    + rewrite <-app_assoc, (dcd_enc V) by done.
      by rewrite decide_True, (dcd_enc Ha).
    + destruct (Hf b r H) as (t & r' & -> & Hne).
      by rewrite decide_False, (dcd_enc Hb) by congruence.
  - unfold c_alt. cbn [enc dcd]. intros l x r H.
    destruct (dcd (varint 32) l) as [[t r']|]; [|done]. case_decide.
    + destruct (dcd ca r') as [[a r'']|] eqn:E; simplify_eq. by apply (dcd_valid Ha) in E.
    + destruct (dcd cb l) as [[b r'']|] eqn:E; simplify_eq. by apply (dcd_valid Hb) in E.
Qed.

Lemma c_last_ok i : in_width 32 i → codec_ok (c_last i ca) VA.
Proof.
  intros Hi. pose proof (varint_ok 32 ltac:(lia)) as V. split.
  - intros a r H. unfold c_last. cbn [enc dcd].
    rewrite <-app_assoc, (dcd_enc V), decide_True by done. by rewrite (dcd_enc Ha).
  - unfold c_last. cbn [enc dcd]. intros l a r H.
    destruct (dcd (varint 32) l) as [[t r']|]; [|done]. case_decide; [|done].
    by apply (dcd_valid Ha) in H.
Qed.
End Combinators.

Lemma tag_free_last {A} i j (c : codec A) V :
  in_width 32 j → i ≠ j → tag_free i (c_last j c) V.
Proof.
  intros Hj Hij a r _. exists j, (enc c a ++ r). split; [|done].
  unfold c_last. cbn [enc]. rewrite <-app_assoc.
  by apply (dcd_enc (varint_ok 32 ltac:(lia))).
Qed.

Lemma tag_free_alt {A B} i j (ca : codec A) (cb : codec B) VA VB :
  in_width 32 j → i ≠ j → tag_free i cb VB →
  tag_free i (c_alt j ca cb) (λ x, match x with inl a => VA a | inr b => VB b end).
Proof.
  intros Hj Hij Hf [a|b] r H; [|by apply Hf].
  exists j, (enc ca a ++ r). split; [|done].
  unfold c_alt. cbn [enc]. rewrite <-app_assoc.
  by apply (dcd_enc (varint_ok 32 ltac:(lia))).
Qed.

(** Any codec that meets its specification discharges the interface. *)
Lemma codec_postcard_laws {A} `{VA : Valid A} (c : codec A) :
  codec_ok c valid → @PostcardLaws A (codec_postcard c) VA.
Proof.
  intros H. split.
  - intros a Ha. exists (enc c a). split; [done|]. cbn.
    rewrite <-(app_nil_r (enc c a)). by rewrite (dcd_enc H).
  - cbn. intros bs a E. destruct (dcd c bs) as [[a' r]|] eqn:E'; simplify_eq.
    by apply (dcd_valid H) in E'.
Qed.

(** Proof search for codec specifications: the combinators are applied along the
    structure of the codec. *)
#[export] Hint Resolve c_raw_ok c_unit_ok c_bytes_ok c_string_ok c_bool_ok : bridge.
Ltac codec_ok_step :=
  first
    [ exact (c_raw_ok _) | exact c_unit_ok | exact c_bytes_ok | exact c_string_ok
    | exact c_bool_ok
    | apply varint_ok; lia
    | apply c_option_ok | apply c_pair_ok | apply c_alt_ok | apply c_last_ok
    | apply tag_free_alt | apply tag_free_last
    | eassumption
    | unfold in_width; lia
    | lia ].
Ltac codec_solve := repeat codec_ok_step.
