(* ===== verification/Core.v ===== *)
(** * Core: [crates/bridge-core]

    The types every other crate shares: protocol versions, node identifiers,
    device types, capability bit masks and the error type. *)
From S2P Require Import Prelude Text External Codec.

(** ** [types.rs]: protocol versions *)

Record ProtocolVersion := { pv_major : u16; pv_minor : u16 }.
#[global] Instance ProtocolVersion_eq_dec : EqDecision ProtocolVersion.
Proof. solve_decision. Defined.

Definition ProtocolVersion_CURRENT : ProtocolVersion := {| pv_major := 1; pv_minor := 0 |}.
Definition ProtocolVersion_new (major minor : u16) : ProtocolVersion :=
  {| pv_major := major; pv_minor := minor |}.
Definition is_compatible_with (self other : ProtocolVersion) : bool :=
  bool_decide (pv_major self = pv_major other).
Definition ProtocolVersion_to_string (v : ProtocolVersion) : string :=
  dec (pv_major v) +:+ "." +:+ dec (pv_minor v).

(** ** [types.rs]: node identifiers *)

Record NodeId := { node_bytes : array 32 }.
#[global] Instance NodeId_eq_dec : EqDecision NodeId.
Proof. solve_decision. Defined.
#[global] Program Instance NodeId_countable : Countable NodeId :=
  inj_countable' node_bytes Build_NodeId _.
Next Obligation. by intros []. Qed.

Definition NodeId_from_bytes (bytes : array 32) : NodeId := {| node_bytes := bytes |}.
Definition NodeId_as_bytes (self : NodeId) : list byte := arr (node_bytes self).

Section NodeIdHex.
Context `{Hex}.

Definition NodeId_to_hex (self : NodeId) : string := hex_encode (arr (node_bytes self)).

Definition NodeId_from_hex (s : string) : result string NodeId :=
  bytes ← hex_decode_to_slice 32 s;
  match to_array 32 bytes with
  | Some a => Ok {| node_bytes := a |}
  | None => Err s
  end.

Definition NodeId_from_str (s : string) : result string NodeId := NodeId_from_hex s.
Definition NodeId_to_string (self : NodeId) : string := NodeId_to_hex self.
(** [Debug]: the two ends of the hexadecimal text. *)
Definition NodeId_debug (self : NodeId) : string :=
  "NodeId(" +:+ of_bytes (take 8 (as_bytes (NodeId_to_hex self))) +:+ ".."
  +:+ of_bytes (drop 56 (as_bytes (NodeId_to_hex self))) +:+ ")".
End NodeIdHex.

(** ** [types.rs]: device types *)

Inductive DeviceType := Windows | Android | Linux | MacOS | UnknownDevice.
#[global] Instance DeviceType_eq_dec : EqDecision DeviceType.
Proof. solve_decision. Defined.

Definition DeviceType_to_string (d : DeviceType) : string :=
  match d with
  | Windows => "Windows" | Android => "Android" | Linux => "Linux"
  | MacOS => "macOS" | UnknownDevice => "Unknown"
  end.

Definition DeviceType_from_str (s : string) : DeviceType :=
  let k := to_ascii_lowercase (trim s) in
  if decide (k = "windows") then Windows
  else if decide (k = "android") then Android
  else if decide (k = "linux") then Linux
  else if decide (k = "macos" ∨ k = "darwin") then MacOS
  else UnknownDevice.

(** ** [types.rs]: capabilities *)

Record Capabilities := { flags : u32 }.
#[global] Instance Capabilities_eq_dec : EqDecision Capabilities.
Proof. solve_decision. Defined.

Definition CAP_NONE : u32 := 0.
Definition CAP_FILE_TRANSFER : u32 := Z.shiftl 1 0.
Definition CAP_CLIPBOARD_TEXT : u32 := Z.shiftl 1 1.
Definition CAP_CLIPBOARD_IMAGE : u32 := Z.shiftl 1 2.
Definition CAP_NOTIFICATIONS : u32 := Z.shiftl 1 3.
Definition CAP_REMOTE_INPUT : u32 := Z.shiftl 1 4.
Definition CAP_RELAY_SUPPORT : u32 := Z.shiftl 1 5.

Definition Capabilities_from_bits (f : u32) : Capabilities := {| flags := f |}.
Definition Capabilities_default : Capabilities := {| flags := 0 |}.
Definition Capabilities_all : Capabilities := {|
  flags := Z.lor (Z.lor (Z.lor (Z.lor (Z.lor CAP_FILE_TRANSFER CAP_CLIPBOARD_TEXT)
    CAP_CLIPBOARD_IMAGE) CAP_NOTIFICATIONS) CAP_REMOTE_INPUT) CAP_RELAY_SUPPORT |}.

Definition caps_contains (self : Capabilities) (flag : u32) : bool :=
  bool_decide (Z.land (flags self) flag = flag).
Definition caps_insert (self : Capabilities) (flag : u32) : Capabilities :=
  {| flags := Z.lor (flags self) flag |}.
(** [!flag] on a [u32] flips 32 bits. *)
Definition not_u32 (f : u32) : u32 := Z.lxor f (2 ^ 32 - 1).
Definition caps_remove (self : Capabilities) (flag : u32) : Capabilities :=
  {| flags := Z.land (flags self) (not_u32 flag) |}.
Definition caps_intersect (self other : Capabilities) : Capabilities :=
  {| flags := Z.land (flags self) (flags other) |}.

(** ** [error.rs] *)

Inductive BridgeError :=
| VersionMismatch (expected received : u16)
| Framing (msg : string)
| FrameTooLarge (length max : usize)
| InvalidMagic
| Identity (msg : string)
| AuthenticationFailed
| Serialization (msg : string)
| ConnectionClosed
| IncompatibleCapabilities (msg : string)
| Internal (msg : string).
#[global] Instance BridgeError_eq_dec : EqDecision BridgeError.
Proof. solve_decision. Defined.

(** The [Display] text that [thiserror] derives from the [#[error]] attributes. *)
Definition BridgeError_to_string (e : BridgeError) : string :=
  match e with
  | VersionMismatch x r =>
    "Invalid protocol version: expected major " +:+ dec x +:+ ", received " +:+ dec r
  | Framing m => "Framing error: " +:+ m
  | FrameTooLarge l m =>
    "Frame length " +:+ dec l +:+ " exceeds maximum allowable bound " +:+ dec m
  | InvalidMagic => "Invalid magic bytes in frame header"
  | Identity m => "Cryptographic identity error: " +:+ m
  | AuthenticationFailed => "Authentication challenge failed"
  | Serialization m => "Serialization error: " +:+ m
  | ConnectionClosed => "Connection closed unexpectedly"
  | IncompatibleCapabilities m => "Incompatible capabilities: " +:+ m
  | Internal m => "Internal error: " +:+ m
  end.

(** ** Wire formats of the shared types *)

#[global] Instance ProtocolVersion_valid : Valid ProtocolVersion :=
  λ v, in_width 16 (pv_major v) ∧ in_width 16 (pv_minor v).
#[global] Instance Capabilities_valid : Valid Capabilities := λ c, in_width 32 (flags c).

Definition c_version : codec ProtocolVersion :=
  c_iso (λ p, ProtocolVersion_new p.1 p.2) (λ v, (pv_major v, pv_minor v))
    (c_pair (varint 16) (varint 16)).
Definition c_node_id : codec NodeId := c_iso Build_NodeId node_bytes (c_raw 32).
Definition c_caps : codec Capabilities := c_iso Build_Capabilities flags (varint 32).

Definition device_index (d : DeviceType) : Z :=
  match d with Windows => 0 | Android => 1 | Linux => 2 | MacOS => 3 | UnknownDevice => 4 end.
Definition device_of_index (z : Z) : option DeviceType :=
  match z with
  | 0 => Some Windows | 1 => Some Android | 2 => Some Linux
  | 3 => Some MacOS | 4 => Some UnknownDevice | _ => None
  end.
Definition c_device : codec DeviceType := Codec
  (λ d, enc (varint 32) (device_index d))
  (λ l, match dcd (varint 32) l with
        | Some (z, r) => match device_of_index z with Some d => Some (d, r) | None => None end
        | None => None
        end).

Lemma c_version_ok : codec_ok c_version valid.
Proof.
  eapply c_iso_ok; [codec_solve|by intros []|by intros b [? ?]|by intros [? ?] [? ?]].
Qed.
Lemma c_node_id_ok : codec_ok c_node_id (λ _, True).
Proof. eapply c_iso_ok; [codec_solve|by intros []|done|done]. Qed.
Lemma c_caps_ok : codec_ok c_caps valid.
Proof. eapply c_iso_ok; [codec_solve|by intros []|done|done]. Qed.
Lemma c_device_ok : codec_ok c_device (λ _, True).
Proof.
  split; [|done]. intros d r _. unfold c_device. cbn [enc dcd].
  rewrite (dcd_enc (varint_ok 32 ltac:(lia))).
  - by destruct d.
  - destruct d; split; simpl; lia.
Qed.
#[export] Hint Resolve c_version_ok c_node_id_ok c_caps_ok c_device_ok : bridge.

(** ** Lemmas *)

Lemma caps_contains_spec c f :
  caps_contains c f = true ↔ ∀ i, 0 ≤ i → Z.testbit f i = true → Z.testbit (flags c) i = true.
Proof.
  unfold caps_contains. rewrite bool_decide_eq_true. split.
  - intros E i Hi Hf. rewrite <-E, Z.land_spec in Hf. by apply andb_prop in Hf as [? _].
  - intros Hall. apply Z.bits_inj'. intros i Hi. rewrite Z.land_spec.
    destruct (Z.testbit f i) eqn:Ef; [by rewrite Hall|by rewrite andb_false_r].
Qed.

Lemma not_u32_spec f i :
  0 ≤ i < 32 → Z.testbit (not_u32 f) i = negb (Z.testbit f i).
Proof.
  intros Hi. unfold not_u32. rewrite Z.lxor_spec.
  change (2 ^ 32 - 1) with (Z.ones 32). rewrite Z.ones_spec_low by lia.
  by rewrite xorb_true_r.
Qed.

Lemma testbit_in_width w f i : in_width w f → 0 ≤ w → w ≤ i → Z.testbit f i = false.
Proof.
  intros [H0 H1] Hw Hi. destruct (decide (f = 0)) as [->|]; [apply Z.bits_0|].
  apply Z.bits_above_log2; [done|].
  apply Z.lt_le_trans with w; [|done]. apply Z.log2_lt_pow2; lia.
Qed.

Lemma NodeId_to_hex_inj `{Hex, !HexLaws} (a b : NodeId) :
  NodeId_to_hex a = NodeId_to_hex b → a = b.
Proof.
  unfold NodeId_to_hex. intros E%hex_encode_inj%arr_inj.
  destruct a, b. simpl in *. congruence.
Qed.

Lemma NodeId_hex_ok `{Hex, !HexLaws} (n : NodeId) :
  NodeId_from_hex (NodeId_to_hex n) = Ok n.
Proof.
  unfold NodeId_from_hex, NodeId_to_hex.
  rewrite <-(arr_length (node_bytes n)) at 1. rewrite hex_to_slice_encode.
  cbn. rewrite to_array_arr. by destruct n.
Qed.

Lemma DeviceType_roundtrip d : DeviceType_from_str (DeviceType_to_string d) = d.
Proof. destruct d; vm_compute; done. Qed.

(** ** Properties *)

(** A capability set agreed by intersection offers exactly what both sides
    offer: a flag mask is contained in the intersection iff each side contains it. *)
Theorem intersect_contains (a b : Capabilities) (f : u32) :
  caps_contains (caps_intersect a b) f = caps_contains a f && caps_contains b f.
Proof.
  apply eq_true_iff_eq. rewrite andb_true_iff, !caps_contains_spec. simpl.
  setoid_rewrite Z.land_spec. setoid_rewrite andb_true_iff.
  split; [intros Hi; split; intros i ? ?; by destruct (Hi i)|intros [? ?] i ? ?; auto].
Qed.

(** Removing a mask from a capability set keeps exactly the masks that were
    contained and share no bit with the removed one; this is the 32-bit
    complement, so it holds for every pair of [u32] masks. *)
Theorem remove_contains (c : Capabilities) (f g : u32) :
  in_width 32 f → in_width 32 g →
  caps_contains (caps_remove c f) g = caps_contains c g && bool_decide (Z.land f g = 0).
Proof.
  intros Hf Hg. apply eq_true_iff_eq.
  rewrite andb_true_iff, !caps_contains_spec, bool_decide_eq_true. simpl.
  setoid_rewrite Z.land_spec. setoid_rewrite andb_true_iff.
  assert (∀ i, 0 ≤ i → Z.testbit g i = true → i < 32) as Hi.
  { intros i ? Hb. destruct (decide (i < 32)) as [|?]; [done|].
    rewrite (testbit_in_width 32) in Hb; [done|done|lia|lia]. }
  split.
  - intros Hr. split; [intros i ? ?; by destruct (Hr i)|].
    apply Z.bits_inj'. intros i Hi0. rewrite Z.land_spec, Z.bits_0.
    destruct (Z.testbit g i) eqn:Eg; [|by rewrite andb_false_r].
    destruct (Hr i Hi0 Eg) as [_ Hn]. rewrite not_u32_spec in Hn by (split; auto).
    by destruct (Z.testbit f i).
  - intros [Hc Hz] i Hi0 Eg. split; [by apply Hc|].
    rewrite not_u32_spec by (split; auto).
    assert (Z.testbit (Z.land f g) i = false) as Hb by (by rewrite Hz, Z.bits_0).
    rewrite Z.land_spec, Eg, andb_true_r in Hb. by rewrite Hb.
Qed.

(** The hexadecimal form of a node identifier reads back as the same
    identifier, and two identifiers never share a form, so the trust table can
    be keyed by it. *)
Theorem node_id_hex_roundtrip `{Hex, !HexLaws} (n m : NodeId) :
  NodeId_from_str (NodeId_to_string n) = Ok n
  ∧ (NodeId_to_string n = NodeId_to_string m ↔ n = m).
Proof.
  split; [apply NodeId_hex_ok|]. split; [apply NodeId_to_hex_inj|by intros ->].
Qed.

(** Every device type reads back from its printed form, and reading ignores
    ASCII case and surrounding white space. *)
Theorem device_type_roundtrip (d : DeviceType) :
  DeviceType_from_str (DeviceType_to_string d) = d
  ∧ DeviceType_from_str (to_ascii_lowercase (DeviceType_to_string d)) = d
  ∧ DeviceType_from_str (" " +:+ DeviceType_to_string d +:+ " ") = d.
Proof. destruct d; vm_compute; done. Qed.

(** ** Witnesses *)

Section Witnesses.
Import Toy.

Example remove_contains_witness :
  caps_contains (caps_remove Capabilities_all CAP_CLIPBOARD_TEXT) CAP_FILE_TRANSFER = true
  ∧ caps_contains (caps_remove Capabilities_all CAP_CLIPBOARD_TEXT) 3 = false.
Proof.
  split.
  - rewrite (remove_contains Capabilities_all CAP_CLIPBOARD_TEXT CAP_FILE_TRANSFER);
      [reflexivity|unfold in_width; vm_compute; split; congruence..].
  - rewrite (remove_contains Capabilities_all CAP_CLIPBOARD_TEXT 3);
      [reflexivity|unfold in_width; vm_compute; split; congruence..].
Defined.

Example node_id_hex_roundtrip_witness :
  let n := {| node_bytes := arr_rep 32 (z2b 42) |} in
  NodeId_from_str (NodeId_to_string n) = Ok n.
Proof. intros n. exact (proj1 (node_id_hex_roundtrip n n)). Defined.

End Witnesses.
