(* ===== verification/Protocol.v ===== *)
(** * Protocol: [crates/bridge-protocol]

    The frames of the wire protocol ([frame.rs], [handshake.rs]) and the framing
    codec ([codec.rs]): 4 bytes of magic, a 4-byte big-endian length, the
    Postcard payload.  The payload codec is the interface [Postcard Frame]; the
    end of the file gives the frames their Postcard format, which [Fixtures] checks
    against the golden vectors of [tests/interop/fixtures]. *)
From S2P Require Import Prelude Text External Codec Core.

(** ** [handshake.rs] *)

Record ClientHello := {
  ch_version : ProtocolVersion; ch_node_id : NodeId; ch_device_name : string;
  ch_client_nonce : array 32; ch_capabilities : Capabilities }.
Record ServerHello := {
  sh_agreed_version : ProtocolVersion; sh_node_id : NodeId; sh_device_name : string;
  sh_server_nonce : array 32; sh_negotiated_capabilities : Capabilities }.
Record AuthResponse := { ar_signature : array 64 }.
Record AuthResult := { au_success : bool; au_reason : option string }.

Definition AuthResult_ok : AuthResult := {| au_success := true; au_reason := None |}.
Definition AuthResult_failed (reason : string) : AuthResult :=
  {| au_success := false; au_reason := Some reason |}.

Inductive HandshakeFrame :=
| HClientHello (h : ClientHello)
| HServerHello (h : ServerHello)
| HAuthResponse (r : AuthResponse)
| HAuthResult (r : AuthResult).

(** [signature_serde]: the signature travels as a byte string, and reading one of
    another length is an error. *)
Definition visit_bytes (v : list byte) : result string (array 64) :=
  ok_or ("expected 64 bytes, got " +:+ dec (zlen v)) (to_array 64 v).

(** ** [frame.rs] *)

Definition MAGIC : list byte := as_bytes "BRG1".
Definition MAX_FRAME_LENGTH : usize := 16 * 1024 * 1024.

Inductive DisconnectReason :=
| Graceful | ProtocolErrorReason | AuthenticationFailedReason | TimeoutReason.
Inductive ControlFrame :=
| Ping (nonce : u64) | Pong (nonce : u64) | Disconnect (reason : DisconnectReason).
Record DataFrame := { df_channel : u16; df_payload : list byte }.
Inductive Frame :=
| Handshake (h : HandshakeFrame) | Control (c : ControlFrame) | Data (d : DataFrame).

Definition CHANNEL_CLIPBOARD : u16 := 1.
Definition CHANNEL_FILE_TRANSFER : u16 := 2.
Definition CHANNEL_NOTIFICATIONS : u16 := 3.
Definition CHANNEL_REMOTE_INPUT : u16 := 4.
Definition CHANNEL_PAIRING : u16 := 5.
Definition DataFrame_new (channel : u16) (payload : list byte) : DataFrame :=
  {| df_channel := channel; df_payload := payload |}.

#[global] Instance ClientHello_eq_dec : EqDecision ClientHello.
Proof. solve_decision. Defined.
#[global] Instance ServerHello_eq_dec : EqDecision ServerHello.
Proof. solve_decision. Defined.
#[global] Instance AuthResponse_eq_dec : EqDecision AuthResponse.
Proof. solve_decision. Defined.
#[global] Instance AuthResult_eq_dec : EqDecision AuthResult.
Proof. solve_decision. Defined.
#[global] Instance HandshakeFrame_eq_dec : EqDecision HandshakeFrame.
Proof. solve_decision. Defined.
#[global] Instance DisconnectReason_eq_dec : EqDecision DisconnectReason.
Proof. solve_decision. Defined.
#[global] Instance ControlFrame_eq_dec : EqDecision ControlFrame.
Proof. solve_decision. Defined.
#[global] Instance DataFrame_eq_dec : EqDecision DataFrame.
Proof. solve_decision. Defined.
#[global] Instance Frame_eq_dec : EqDecision Frame.
Proof. solve_decision. Defined.

(** ** [codec.rs] *)

Section FrameCodec.
Context `{Postcard Frame}.

Definition decode_payload (payload : list byte) : result BridgeError Frame :=
  map_err (λ e, Serialization ("Postcard deserialization error: " +:+ e)) (from_bytes payload).

Definition encode_frame (frame : Frame) : result BridgeError (list byte) :=
  payload ← map_err (λ e, Serialization ("Postcard serialization error: " +:+ e))
              (to_allocvec frame);
  let len := zlen payload in
  if decide (MAX_FRAME_LENGTH < len) then Err (FrameTooLarge len MAX_FRAME_LENGTH)
  else
    (* [u32::try_from(len)] *)
    if decide (2 ^ 32 ≤ len) then Err (FrameTooLarge len MAX_FRAME_LENGTH)
    else Ok (MAGIC ++ be_bytes 4 len ++ payload).

Definition decode_frame (bytes : list byte) : result BridgeError Frame :=
  if decide (zlen bytes < 8) then
    Err (Framing ("Buffer too short for header: got " +:+ dec (zlen bytes)
                  +:+ " bytes, expected at least 8"))
  else if decide (slice 0 4 bytes ≠ MAGIC) then Err InvalidMagic
  else
    let len := be_val (slice 4 8 bytes) in
    if decide (MAX_FRAME_LENGTH < len) then Err (FrameTooLarge len MAX_FRAME_LENGTH)
    else if decide (zlen bytes < 8 + len) then
      Err (Framing ("Incomplete frame: expected " +:+ dec (8 + len)
                    +:+ " bytes total, have " +:+ dec (zlen bytes)))
    else decode_payload (slice 8 (8 + len) bytes).
End FrameCodec.

(** ** The Postcard format of the frames *)

Definition valid_str (s : string) : Prop := utf8_valid s ∧ str_len s < 2 ^ 64.
Definition valid_opt_str (o : option string) : Prop :=
  match o with Some s => valid_str s | None => True end.

#[global] Instance ClientHello_valid : Valid ClientHello := λ h,
  valid (ch_version h) ∧ valid_str (ch_device_name h) ∧ valid (ch_capabilities h).
#[global] Instance ServerHello_valid : Valid ServerHello := λ h,
  valid (sh_agreed_version h) ∧ valid_str (sh_device_name h)
  ∧ valid (sh_negotiated_capabilities h).
#[global] Instance AuthResult_valid : Valid AuthResult := λ r, valid_opt_str (au_reason r).
#[global] Instance HandshakeFrame_valid : Valid HandshakeFrame := λ f,
  match f with
  | HClientHello h => valid h | HServerHello h => valid h
  | HAuthResponse _ => True | HAuthResult r => valid r
  end.
#[global] Instance ControlFrame_valid : Valid ControlFrame := λ f,
  match f with Ping n | Pong n => in_width 64 n | Disconnect _ => True end.
#[global] Instance DataFrame_valid : Valid DataFrame := λ d,
  in_width 16 (df_channel d) ∧ zlen (df_payload d) < 2 ^ 64.
#[global] Instance Frame_valid : Valid Frame := λ f,
  match f with Handshake h => valid h | Control c => valid c | Data d => valid d end.

Definition c_client_hello : codec ClientHello :=
  c_iso (λ '(v, (n, (s, (r, c)))), Build_ClientHello v n s r c)
    (λ h, (ch_version h, (ch_node_id h, (ch_device_name h, (ch_client_nonce h, ch_capabilities h)))))
    (c_pair c_version (c_pair c_node_id (c_pair c_string (c_pair (c_raw 32) c_caps)))).
Definition c_server_hello : codec ServerHello :=
  c_iso (λ '(v, (n, (s, (r, c)))), Build_ServerHello v n s r c)
    (λ h, (sh_agreed_version h, (sh_node_id h, (sh_device_name h,
             (sh_server_nonce h, sh_negotiated_capabilities h)))))
    (c_pair c_version (c_pair c_node_id (c_pair c_string (c_pair (c_raw 32) c_caps)))).
Definition c_auth_response : codec AuthResponse := Codec
  (λ r, enc c_bytes (arr (ar_signature r)))
  (λ l, match dcd c_bytes l with
        | Some (d, r) =>
          match visit_bytes d with Ok a => Some (Build_AuthResponse a, r) | Err _ => None end
        | None => None
        end).
Definition c_auth_result : codec AuthResult :=
  c_iso (λ '(b, o), Build_AuthResult b o) (λ r, (au_success r, au_reason r))
    (c_pair c_bool (c_option c_string)).
Definition c_handshake : codec HandshakeFrame :=
  c_iso (λ x, match x with inl h => HClientHello h | inr (inl h) => HServerHello h
              | inr (inr (inl r)) => HAuthResponse r | inr (inr (inr r)) => HAuthResult r end)
    (λ f, match f with HClientHello h => inl h | HServerHello h => inr (inl h)
          | HAuthResponse r => inr (inr (inl r)) | HAuthResult r => inr (inr (inr r)) end)
    (c_alt 0 c_client_hello (c_alt 1 c_server_hello
       (c_alt 2 c_auth_response (c_last 3 c_auth_result)))).
Definition c_reason : codec DisconnectReason :=
  c_iso (λ x, match x with inl _ => Graceful | inr (inl _) => ProtocolErrorReason
              | inr (inr (inl _)) => AuthenticationFailedReason
              | inr (inr (inr _)) => TimeoutReason end)
    (λ f, match f with Graceful => inl tt | ProtocolErrorReason => inr (inl tt)
          | AuthenticationFailedReason => inr (inr (inl tt))
          | TimeoutReason => inr (inr (inr tt)) end)
    (c_alt 0 c_unit (c_alt 1 c_unit (c_alt 2 c_unit (c_last 3 c_unit)))).
Definition c_control : codec ControlFrame :=
  c_iso (λ x, match x with inl n => Ping n | inr (inl n) => Pong n
              | inr (inr r) => Disconnect r end)
    (λ f, match f with Ping n => inl n | Pong n => inr (inl n)
          | Disconnect r => inr (inr r) end)
    (c_alt 0 (varint 64) (c_alt 1 (varint 64) (c_last 2 c_reason))).
Definition c_data : codec DataFrame :=
  c_iso (λ '(c, p), Build_DataFrame c p) (λ d, (df_channel d, df_payload d))
    (c_pair (varint 16) c_bytes).
Definition c_frame : codec Frame :=
  c_iso (λ x, match x with inl h => Handshake h | inr (inl c) => Control c
              | inr (inr d) => Data d end)
    (λ f, match f with Handshake h => inl h | Control c => inr (inl c)
          | Data d => inr (inr d) end)
    (c_alt 0 c_handshake (c_alt 1 c_control (c_last 2 c_data))).

Lemma c_client_hello_ok : codec_ok c_client_hello valid.
Proof.
  eapply c_iso_ok.
  - codec_solve; eauto with bridge.
  - by intros [].
  - by intros ? (?&?&?).
  - by intros (?&?&?&?&?) (?&?&?&?&?).
Qed.
Lemma c_server_hello_ok : codec_ok c_server_hello valid.
Proof.
  eapply c_iso_ok.
  - codec_solve; eauto with bridge.
  - by intros [].
  - by intros ? (?&?&?).
  - by intros (?&?&?&?&?) (?&?&?&?&?).
Qed.
Lemma c_auth_response_ok : codec_ok c_auth_response (λ _, True).
Proof.
  split; [|done]. intros [a] r _. unfold c_auth_response. cbn [enc dcd ar_signature].
  rewrite (dcd_enc c_bytes_ok) by (rewrite arr_zlen; lia).
  unfold visit_bytes. by rewrite to_array_arr.
Qed.
Lemma c_auth_result_ok : codec_ok c_auth_result valid.
Proof.
  eapply c_iso_ok; [codec_solve|by intros []|done|by intros [? ?] [? ?]].
Qed.
#[export] Hint Resolve c_client_hello_ok c_server_hello_ok c_auth_response_ok
  c_auth_result_ok : bridge.

Lemma c_handshake_ok : codec_ok c_handshake valid.
Proof.
  eapply c_iso_ok; [codec_solve; eauto with bridge|by intros []|by intros []|].
  by intros [?|[?|[?|?]]].
Qed.
Lemma c_reason_ok : codec_ok c_reason (λ _, True).
Proof.
  eapply c_iso_ok; [codec_solve; eauto with bridge|by intros []|by intros []|done].
Qed.
#[export] Hint Resolve c_reason_ok : bridge.
Lemma c_control_ok : codec_ok c_control valid.
Proof.
  eapply c_iso_ok; [codec_solve; eauto with bridge|by intros []|by intros []|].
  by intros [?|[?|?]].
Qed.
Lemma c_data_ok : codec_ok c_data valid.
Proof. eapply c_iso_ok; [codec_solve|by intros []|done|by intros [? ?] [? ?]]. Qed.
#[export] Hint Resolve c_handshake_ok c_control_ok c_data_ok : bridge.
Lemma c_frame_ok : codec_ok c_frame valid.
Proof.
  eapply c_iso_ok; [codec_solve; eauto with bridge|by intros []|by intros []|].
  by intros [?|[?|?]].
Qed.

(** Importing the module makes the format the payload codec of the frames. *)
Module FrameWire.
#[export] Instance frame_postcard : Postcard Frame := codec_postcard c_frame.
#[export] Instance frame_laws : PostcardLaws Frame := codec_postcard_laws _ c_frame_ok.
End FrameWire.

(** ** Lemmas on framing *)

Lemma MAGIC_length : length MAGIC = 4%nat.
Proof. done. Qed.

Lemma slice_app_head {A} (l k : list A) n : n = zlen l → slice 0 n (l ++ k) = l.
Proof.
  intros ->. unfold slice, zlen. rewrite Z.sub_0_r, Nat2Z.id, Z2Nat.inj_0, drop_0.
  apply take_app_length.
Qed.

Lemma slice_app_skip {A} (l k : list A) n a b :
  n = zlen l → n ≤ a → slice a b (l ++ k) = slice (a - n) (b - n) k.
Proof.
  intros -> Ha. unfold slice, zlen in *. rewrite drop_app_ge by lia.
  f_equal; [lia|]. f_equal. lia.
Qed.

Lemma slice_all {A} (l : list A) n : zlen l ≤ n → slice 0 n l = l.
Proof. intros H. unfold slice, zlen in *. simpl. apply take_ge. lia. Qed.

Section FramingLemmas.
Context `{Postcard Frame}.

(** What a successful encoding looks like. *)
Lemma encode_frame_inv frame bs :
  encode_frame frame = Ok bs →
  ∃ payload, to_allocvec frame = Ok payload
    ∧ bs = MAGIC ++ be_bytes 4 (zlen payload) ++ payload
    ∧ zlen payload ≤ MAX_FRAME_LENGTH.
Proof.
  unfold encode_frame. intros E.
  destruct (to_allocvec frame) as [payload|e] eqn:Ep; [|done]. cbn in E.
  repeat case_decide; try done. simplify_eq. exists payload. repeat split. lia.
Qed.

Lemma encode_frame_ok frame payload :
  to_allocvec frame = Ok payload → zlen payload ≤ MAX_FRAME_LENGTH →
  encode_frame frame = Ok (MAGIC ++ be_bytes 4 (zlen payload) ++ payload).
Proof.
  intros E Hlen. unfold encode_frame. rewrite E. cbn.
  rewrite decide_False by lia.
  rewrite decide_False by (unfold MAX_FRAME_LENGTH in *; lia). done.
Qed.

Lemma be_val_len n :
  0 ≤ n ≤ MAX_FRAME_LENGTH → be_val (be_bytes 4 n) = n.
Proof.
  intros Hn. apply be_val_be_bytes. unfold MAX_FRAME_LENGTH in Hn. simpl. lia.
Qed.

(** Header fields of an encoded buffer. *)
Lemma frame_header payload tail :
  let bs := MAGIC ++ be_bytes 4 (zlen payload) ++ payload ++ tail in
  zlen payload ≤ MAX_FRAME_LENGTH →
  slice 0 4 bs = MAGIC ∧ be_val (slice 4 8 bs) = zlen payload
  ∧ slice 8 (8 + zlen payload) bs = payload ∧ zlen bs = 8 + zlen payload + zlen tail.
Proof.
  intros bs Hlen. pose proof (zlen_nonneg payload). subst bs. split_and!.
  - by apply slice_app_head.
  - rewrite (slice_app_skip _ _ 4) by (done || lia). change (4 - 4) with 0.
    rewrite slice_app_head by (unfold zlen; by rewrite be_bytes_length).
    by apply be_val_len.
  - rewrite (slice_app_skip _ _ 4) by (done || lia).
    rewrite (slice_app_skip _ _ 4) by (try lia; unfold zlen; by rewrite be_bytes_length).
    change (8 - 4 - 4) with 0. apply slice_app_head. lia.
  - rewrite !zlen_app. unfold zlen at 2. rewrite be_bytes_length.
    unfold zlen at 1. rewrite MAGIC_length. lia.
Qed.

Lemma decode_frame_encoded payload tail :
  zlen payload ≤ MAX_FRAME_LENGTH →
  decode_frame (MAGIC ++ be_bytes 4 (zlen payload) ++ payload ++ tail)
  = decode_payload payload.
Proof.
  intros Hlen. destruct (frame_header payload tail Hlen) as (H1 & H2 & H3 & H4).
  pose proof (zlen_nonneg payload). pose proof (zlen_nonneg tail).
  unfold decode_frame. rewrite H1, H2, H3, H4.
  rewrite decide_False by lia. rewrite decide_False by (intros []; done).
  rewrite decide_False by lia. by rewrite decide_False by lia.
Qed.
End FramingLemmas.

(** A buffer the decoder accepts has the shape of an encoded frame. *)
Lemma decode_frame_guarded_aux `{Postcard Frame} (bytes : list byte) (f : Frame) :
  decode_frame bytes = Ok f →
  ∃ payload tail, bytes = MAGIC ++ be_bytes 4 (zlen payload) ++ payload ++ tail
    ∧ zlen payload ≤ MAX_FRAME_LENGTH ∧ decode_payload payload = Ok f.
Proof.
  unfold decode_frame. intros E.
  case_decide as H1; [done|]. case_decide as H2; [done|].
  case_decide as H3; [done|]. case_decide as H4; [done|].
  set (len := be_val (slice 4 8 bytes)) in *.
  pose proof (be_val_range (slice 4 8 bytes)) as Hr. fold len in Hr.
  exists (slice 8 (8 + len) bytes), (drop (Z.to_nat (8 + len)) bytes).
  assert (zlen (slice 8 (8 + len) bytes) = len) as Hl.
  { unfold zlen, slice in *. rewrite length_take, length_drop. lia. }
  rewrite Hl. split; [|split; [lia|done]].
  assert (be_bytes 4 len = slice 4 8 bytes) as ->.
  { unfold len. apply be_bytes_be_val. unfold slice, zlen in *.
    rewrite length_take, length_drop. lia. }
  rewrite <-H2. unfold slice. simpl.
  replace (Z.to_nat (8 + len - 8)) with (Z.to_nat len) by lia.
  replace (Z.to_nat (8 + len)) with (8 + Z.to_nat len)%nat by lia.
  rewrite <-(drop_drop bytes _ 8), take_drop.
  change (Pos.to_nat 4) with 4%nat. change (Pos.to_nat 8) with 8%nat.
  change 8%nat with (4 + 4)%nat at 1. rewrite <-(drop_drop bytes 4 4). by rewrite !take_drop.
Qed.

(** ** Properties *)

(** C30: framing round trip.  A frame that a Rust value can be is encoded unless
    its payload exceeds 16 MiB, and then decoding the buffer, with any bytes
    following it, gives the frame back; a larger payload is refused with the
    length in the error and nothing is produced. *)
Theorem frame_roundtrip `{Postcard Frame, !PostcardLaws Frame} (f : Frame) :
  valid f →
  ∃ payload, to_allocvec f = Ok payload
  ∧ (zlen payload ≤ MAX_FRAME_LENGTH →
      ∃ bs, encode_frame f = Ok bs ∧ zlen bs = 8 + zlen payload
        ∧ ∀ tail, decode_frame (bs ++ tail) = Ok f)
  ∧ (MAX_FRAME_LENGTH < zlen payload →
      encode_frame f = Err (FrameTooLarge (zlen payload) MAX_FRAME_LENGTH)).
Proof.
  intros Hv. destruct (postcard_roundtrip f Hv) as (payload & Et & Ef).
  exists payload. split; [done|]. split.
  - intros Hlen. eexists. split; [by apply encode_frame_ok|]. split.
    + destruct (frame_header payload [] Hlen) as (_ & _ & _ & Hl).
      rewrite app_nil_r, zlen_nil in Hl. rewrite Hl. lia.
    + intros tail. rewrite <-!app_assoc, decode_frame_encoded by done.
      unfold decode_payload. by rewrite Ef.
  - intros Hlen. unfold encode_frame. rewrite Et. cbn. by rewrite decide_True.
Qed.

(** The decoder is guarded before it looks at the payload.  It accepts a
    buffer only if it starts with the magic, announces at most 16 MiB and holds
    the whole announced payload; what it returns depends on that payload alone. *)
Theorem decode_frame_guarded `{Postcard Frame} (bytes : list byte) (f : Frame) :
  decode_frame bytes = Ok f →
  ∃ payload tail, bytes = MAGIC ++ be_bytes 4 (zlen payload) ++ payload ++ tail
    ∧ zlen payload ≤ MAX_FRAME_LENGTH ∧ decode_payload payload = Ok f.
Proof. apply decode_frame_guarded_aux. Qed.

(** ** Witnesses *)

Section Witnesses.
Import FrameWire.

Example frame_roundtrip_witness :
  valid (Control (Ping 987654321))
  ∧ ∃ payload, to_allocvec (Control (Ping 987654321)) = Ok payload
    ∧ (zlen payload ≤ MAX_FRAME_LENGTH → ∃ bs, encode_frame (Control (Ping 987654321)) = Ok bs
        ∧ decode_frame bs = Ok (Control (Ping 987654321))).
Proof.
  assert (valid (Control (Ping 987654321))) as Hv by (split; vm_compute; congruence).
  split; [exact Hv|].
  destruct (frame_roundtrip (Control (Ping 987654321)) Hv) as (p & Hp & Hok & _).
  exists p. split; [exact Hp|]. intros Hl. destruct (Hok Hl) as (bs & He & _ & Hd).
  exists bs. split; [exact He|]. rewrite <-(app_nil_r bs). apply Hd.
Defined.

Example decode_frame_guarded_witness :
  ∃ payload tail, MAGIC ++ be_bytes 4 3 ++ [x01; x01; x07; x00] = MAGIC ++ be_bytes 4 (zlen payload) ++ payload ++ tail
    ∧ zlen payload ≤ MAX_FRAME_LENGTH ∧ decode_payload payload = Ok (Control (Pong 7)).
Proof. apply decode_frame_guarded. vm_compute. reflexivity. Defined.

End Witnesses.
