(* ===== verification/Transport.v ===== *)
(** * Transport: [crates/bridge-transport]

    [FramedStream] over a byte stream.  The stream ([tokio::io::AsyncRead +
    AsyncWrite]) is its two byte sequences: what the peer will still deliver
    before the stream ends, and what has been written.  How it ends and when a
    write breaks are chosen by the environment, so every statement below holds
    for any peer and any failure point. *)
From S2P Require Import Prelude Text External Codec Core Protocol.

(** ** The byte stream *)

Inductive IoError := UnexpectedEof | IoOther (msg : string).

Definition IoError_to_string (e : IoError) : string :=
  match e with UnexpectedEof => "early eof" | IoOther m => m end.

Record Io := {
  rx : list byte;              (* bytes still to be received *)
  rx_end : option string;      (* [None]: end of file after them; [Some e]: error [e] *)
  tx : list byte;              (* bytes sent so far *)
  tx_room : option nat;        (* [Some n]: the write side breaks after [n] more bytes *)
  flush_err : option string;   (* [Some e]: flushing fails with [e] *)
}.

Definition with_rx (l : list byte) (io : Io) : Io :=
  {| rx := l; rx_end := rx_end io; tx := tx io; tx_room := tx_room io;
     flush_err := flush_err io |}.
Definition with_tx (l : list byte) (room : option nat) (io : Io) : Io :=
  {| rx := rx io; rx_end := rx_end io; tx := l; tx_room := room;
     flush_err := flush_err io |}.

(** [AsyncReadExt::read_exact] into a buffer of [n] bytes: on a short stream the
    bytes that were there are consumed. *)
Definition read_exact (n : nat) : st Io IoError (list byte) := λ io,
  if decide (n ≤ length (rx io))%nat then (Ok (take n (rx io)), with_rx (drop n (rx io)) io)
  else (Err (match rx_end io with None => UnexpectedEof | Some e => IoOther e end),
        with_rx [] io).

(** [AsyncWriteExt::write_all] and [flush]. *)
Definition write_all (d : list byte) : st Io IoError unit := λ io,
  match tx_room io with
  | None => (Ok tt, with_tx (tx io ++ d) None io)
  | Some n =>
    if decide (length d ≤ n)%nat then (Ok tt, with_tx (tx io ++ d) (Some (n - length d)%nat) io)
    else (Err (IoOther "broken pipe"), with_tx (tx io ++ take n d) (Some 0%nat) io)
  end.
Definition flush : st Io IoError unit := λ io,
  (match flush_err io with None => Ok tt | Some e => Err (IoOther e) end, io).

(** ** [framed.rs] *)

Record FramedStream (T : Type) := { inner : T }.
Arguments inner {T} _.
Definition FramedStream_new {T} (t : T) : FramedStream T := {| inner := t |}.
Definition into_inner {T} (f : FramedStream T) : T := inner f.

Section Framed.
Context `{Postcard Frame}.

Definition recv_frame : st Io BridgeError (option Frame) :=
  r ← try (read_exact 8);
  match r with
  | Err UnexpectedEof => mret None
  | Err (IoOther e) => fail (Internal ("Transport read error: " +:+ e))
  | Ok header =>
    if decide (slice 0 4 header ≠ MAGIC) then fail InvalidMagic
    else
      let length := be_val (slice 4 8 header) in
      if decide (MAX_FRAME_LENGTH < length) then fail (FrameTooLarge length MAX_FRAME_LENGTH)
      else
        payload ← st_map_err
          (λ e, Framing ("Failed to read frame payload: " +:+ IoError_to_string e))
          (read_exact (Z.to_nat length));
        frame ← lift (decode_payload payload);
        mret (Some frame)
  end.

Definition send_frame (frame : Frame) : st Io BridgeError unit :=
  encoded ← lift (encode_frame frame);
  _ ← st_map_err (λ e, Internal ("Transport write error: " +:+ IoError_to_string e))
        (write_all encoded);
  st_map_err (λ e, Internal ("Transport flush error: " +:+ IoError_to_string e)) flush.

(** A [recv_frame] future dropped while it waits (an arm of a [select!] that lost):
    the bytes it has read are in its buffers and go with it.  [recv_pending] is the
    most it can have read without being done. *)
Definition recv_pending (io : Io) : nat :=
  if decide (length (rx io) < 8)%nat then length (rx io)
  else
    let len := be_val (slice 4 8 (rx io)) in
    if decide (slice 0 4 (rx io) ≠ MAGIC ∨ MAX_FRAME_LENGTH < len) then 7%nat
    else Nat.min (length (rx io)) (7 + Z.to_nat len)%nat.
Definition recv_dropped (consumed : nat) (io : Io) : Io :=
  with_rx (drop (Nat.min consumed (recv_pending io)) (rx io)) io.

(** A receiver that calls [recv_frame] until the stream ends. *)
Fixpoint recv_all (fuel : nat) : st Io BridgeError (list Frame) :=
  match fuel with
  | O => mret []
  | S fuel' =>
    o ← recv_frame;
    match o with
    | None => mret []
    | Some f => fs ← recv_all fuel'; mret (f :: fs)
    end
  end.

(** A sender that sends a list of frames. *)
Fixpoint send_all (fs : list Frame) : st Io BridgeError unit :=
  match fs with
  | [] => mret tt
  | f :: fs' => _ ← send_frame f; send_all fs'
  end.
End Framed.

(** ** Lemmas *)

Lemma read_exact_app io n l k :
  rx io = l ++ k → length l = n → read_exact n io = (Ok l, with_rx k io).
Proof.
  intros E <-. unfold read_exact. rewrite E, length_app, decide_True by lia.
  by rewrite take_app_length, drop_app_length.
Qed.

Lemma with_rx_rx l k io : with_rx l (with_rx k io) = with_rx l io.
Proof. done. Qed.

Section FramedLemmas.
Context `{Postcard Frame}.

(** Receiving when a well-formed header is next. *)
Lemma recv_frame_header io payload k :
  rx io = MAGIC ++ be_bytes 4 (zlen payload) ++ payload ++ k →
  zlen payload ≤ MAX_FRAME_LENGTH →
  recv_frame io = (match decode_payload payload with Ok f => Ok (Some f) | Err e => Err e end,
                   with_rx k io).
Proof.
  intros E Hlen. pose proof (zlen_nonneg payload).
  assert (length (MAGIC ++ be_bytes 4 (zlen payload)) = 8%nat) as H8.
  { by rewrite length_app, be_bytes_length. }
  unfold recv_frame, mbind, st_bind, try. rewrite (app_assoc MAGIC) in E.
  rewrite (read_exact_app io 8 _ _ E H8).
  rewrite slice_app_head by done. rewrite decide_False by (intros []; done).
  rewrite (slice_app_skip _ _ 4) by (done || lia).
  rewrite slice_all by (unfold zlen; rewrite be_bytes_length; lia).
  rewrite be_val_len by lia. rewrite decide_False by lia. unfold st_map_err.
  rewrite (read_exact_app _ _ payload k) by (done || (unfold zlen; lia)).
  cbn. by destruct (decode_payload payload).
Qed.

Lemma recv_frame_encoded io f bs k :
  encode_frame f = Ok bs → rx io = bs ++ k →
  decode_frame bs = Ok f → recv_frame io = (Ok (Some f), with_rx k io).
Proof.
  intros (payload & Et & -> & Hlen)%encode_frame_inv E Hd.
  rewrite <-!app_assoc in E. rewrite (recv_frame_header io payload k E Hlen).
  rewrite <-(app_nil_r payload) in Hd at 2.
  rewrite decode_frame_encoded in Hd by done. by rewrite Hd.
Qed.

Lemma recv_dropped_0 io : recv_dropped 0 io = io.
Proof. unfold recv_dropped. rewrite Nat.min_0_l. by destruct io. Qed.

(** Receiving looks at the input side only, and sending leaves it alone. *)
Lemma read_exact_rx n io io' :
  rx io = rx io' → rx_end io = rx_end io' →
  (read_exact n io).1 = (read_exact n io').1 ∧ rx (read_exact n io).2 = rx (read_exact n io').2
  ∧ rx_end (read_exact n io).2 = rx_end (read_exact n io').2.
Proof. intros E1 E2. unfold read_exact. rewrite E1, E2. case_decide; by cbn. Qed.

Lemma recv_frame_rx io io' :
  rx io = rx io' → rx_end io = rx_end io' → (recv_frame io).1 = (recv_frame io').1.
Proof.
  intros E1 E2. destruct (read_exact_rx 8 io io' E1 E2) as (Ea & Eb & Ec).
  unfold recv_frame, mbind, st_bind, try.
  destruct (read_exact 8 io) as [r1 io1], (read_exact 8 io') as [r2 io2]. simpl in *. subst r2.
  destruct r1 as [h|[]]; [|done|done]. case_decide; [done|]. cbv zeta. case_decide; [done|].
  destruct (read_exact_rx (Z.to_nat (be_val (slice 4 8 h))) io1 io2 Eb Ec) as (Ed & _ & _).
  unfold st_map_err. destruct (read_exact _ io1) as [r3 io3], (read_exact _ io2) as [r4 io4].
  simpl in Ed. subst r4. destruct r3; [|done]. unfold lift. simpl. by destruct (decode_payload _).
Qed.

Lemma send_frame_rx f io : rx (send_frame f io).2 = rx io ∧ rx_end (send_frame f io).2 = rx_end io.
Proof.
  unfold send_frame, mbind, st_bind, lift, st_map_err, write_all, flush.
  destruct (encode_frame f); [|done]. repeat case_match; simplify_eq; done.
Qed.

(** Dropping a receive that has read one to four bytes of a frame leaves a stream
    whose next bytes are not the magic. *)
Lemma recv_dropped_desync io f bs k c :
  encode_frame f = Ok bs → rx io = bs ++ k → (12 ≤ length (bs ++ k))%nat → (1 ≤ c ≤ 4)%nat →
  (recv_frame (recv_dropped c io)).1 = Err InvalidMagic.
Proof.
  intros (payload & _ & -> & Hlen)%encode_frame_inv E H12 Hc. pose proof (zlen_nonneg payload) as Hp.
  set (lb := be_bytes 4 (zlen payload)) in *.
  assert (be_val lb = zlen payload) as Hv by (apply be_val_len; lia).
  assert (length lb = 4%nat) as Hl by apply be_bytes_length.
  rewrite <-!app_assoc in *.
  destruct lb as [|b0 [|b1 [|b2 [|b3 []]]]]; try done.
  assert (∃ r, (4 ≤ length r)%nat ∧ recv_dropped c io
      = with_rx (drop c (MAGIC ++ [b0; b1; b2; b3]) ++ r) io) as (r & Hr & ->).
  { exists (payload ++ k). rewrite !length_app in *. cbn in H12. split; [lia|].
    unfold recv_dropped. rewrite <-drop_app_le by (cbn; lia). f_equal. rewrite E, app_assoc. f_equal.
    rewrite Nat.min_l; [done|]. unfold recv_pending. rewrite E, decide_False by (rewrite !length_app; cbn; lia).
    case_decide; [lia|]. rewrite !length_app. cbn. lia. }
  destruct r as [|r0 [|r1 [|r2 [|r3 r]]]]; cbn in Hr; try lia.
  assert ([b0; b1; b2; b3] ≠ MAGIC) as Hm.
  { intros Eb. rewrite Eb in Hv. unfold MAX_FRAME_LENGTH in Hlen. vm_compute be_val in Hv. lia. }
  destruct c as [|[|[|[|[|c]]]]]; try lia; unfold recv_frame, mbind, st_bind, try, read_exact; cbn.
  all: rewrite decide_True by lia; cbn.
  all: unfold slice; cbn; rewrite decide_True by (try apply Hm; intros [=]); reflexivity.
Qed.

Lemma send_frame_ok io f bs :
  encode_frame f = Ok bs → tx_room io = None → flush_err io = None →
  send_frame f io = (Ok tt, with_tx (tx io ++ bs) None io).
Proof.
  intros E Hr Hf. unfold send_frame, mbind, st_bind, lift. rewrite E.
  unfold st_map_err, write_all. rewrite Hr. cbn. unfold flush. cbn. by rewrite Hf.
Qed.

Lemma send_all_ok fs io :
  Forall (λ f, is_ok (encode_frame f) = true) fs →
  tx_room io = None → flush_err io = None →
  ∃ bss, Forall2 (λ f bs, encode_frame f = Ok bs) fs bss
    ∧ send_all fs io = (Ok tt, with_tx (tx io ++ concat bss) None io).
Proof.
  intros Hall. revert io. induction Hall as [|f fs Hf Hfs IH]; intros io Hr He.
  - exists []. split; [done|]. simpl. rewrite app_nil_r. destruct io; simpl in *. by subst.
  - destruct (encode_frame f) as [bs|] eqn:E; [|done].
    destruct (IH (with_tx (tx io ++ bs) None io)) as (bss & HF & Hs); [done..|].
    exists (bs :: bss). split; [by constructor|]. simpl.
    rewrite (st_bind_ok _ _ _ _ _ (send_frame_ok io f bs E Hr He)), Hs.
    unfold with_tx. simpl. by rewrite <-app_assoc.
Qed.

(** A frame sent whole is received whole. *)
Lemma recv_frame_sent `{!Valid Frame, !PostcardLaws Frame} io f bs k :
  valid f → encode_frame f = Ok bs → rx io = bs ++ k → recv_frame io = (Ok (Some f), with_rx k io).
Proof.
  intros Hv E Hrx. apply (recv_frame_encoded io f bs k E Hrx).
  destruct (encode_frame_inv f bs E) as (payload & Et & -> & Hl).
  destruct (postcard_roundtrip f Hv) as (payload' & Et' & Efb).
  rewrite Et in Et'. simplify_eq.
  rewrite <-(app_nil_r payload') at 2. rewrite decode_frame_encoded by done.
  unfold decode_payload. by rewrite Efb.
Qed.

(** Receiving a frame consumes at least its header, and touches nothing else. *)
Lemma recv_frame_shrinks io f io' :
  recv_frame io = (Ok (Some f), io') →
  (length (rx io') + 8 ≤ length (rx io))%nat ∧ io' = with_rx (rx io') io.
Proof.
  unfold recv_frame, mbind, st_bind, try, read_exact.
  case_decide as H8; [|by destruct (rx_end io)]. case_decide; [done|]. case_decide; [done|].
  unfold st_map_err, read_exact. simpl. case_decide; [|by destruct (rx_end io)].
  simpl. unfold mret, st_ret. destruct (decode_payload _); intros; simplify_eq/=.
  split; [|done]. rewrite length_drop, length_drop. lia.
Qed.

Lemma recv_all_ok fs bss io fuel :
  Forall2 (λ f bs, encode_frame f = Ok bs) fs bss →
  Forall2 (λ f bs, decode_frame bs = Ok f) fs bss →
  rx io = concat bss → rx_end io = None → (length fs < fuel)%nat →
  recv_all fuel io = (Ok fs, with_rx [] io).
Proof.
  intros HF. revert io fuel. induction HF as [|f bs fs bss E HF IH]; intros io fuel HD Hrx He Hfu.
  - destruct fuel as [|fuel]; [lia|]. simpl.
    unfold recv_frame, mbind, st_bind, try, read_exact. rewrite Hrx. simpl.
    by rewrite He.
  - destruct fuel as [|fuel]; [lia|]. apply Forall2_cons_1 in HD as [Hd HD].
    simpl in Hrx |- *.
    rewrite (st_bind_ok _ _ _ _ _ (recv_frame_encoded io f bs _ E Hrx Hd)).
    rewrite (st_bind_ok _ _ _ fs (with_rx [] io)); [done|].
    rewrite (IH (with_rx (concat bss) io) fuel HD); simpl in *; done || lia.
Qed.
End FramedLemmas.

(** ** Properties *)

(** C31: a list of frames sent over one end of a stream is received on the other
    end, in order and complete, and then the stream ends cleanly. *)
Theorem send_recv_all `{Postcard Frame, !PostcardLaws Frame} (fs : list Frame) (a b : Io) :
  Forall valid fs → Forall (λ f, is_ok (encode_frame f) = true) fs →
  tx_room a = None → flush_err a = None → tx a = [] →
  rx_end b = None → rx b = tx (send_all fs a).2 →
  (send_all fs a).1 = Ok tt
  ∧ ∀ fuel, (length fs < fuel)%nat → (recv_all fuel b).1 = Ok fs.
Proof.
  intros Hv Hok Hr Hf Ht He Hrx.
  destruct (send_all_ok fs a Hok Hr Hf) as (bss & HF & Hs).
  rewrite Hs, Ht in Hrx |- *. simpl in Hrx. split; [done|]. intros fuel Hfu.
  rewrite (recv_all_ok fs bss b fuel HF); [done| |done..].
  clear -Hv HF PostcardLaws0. induction HF as [|f bs fs bss E HF IH]; [done|].
  apply Forall_cons in Hv as [Hv Hvs]. constructor; [|by apply IH].
  destruct (encode_frame_inv f bs E) as (payload & Et & -> & Hl).
  destruct (postcard_roundtrip f Hv) as (payload' & Et' & Efb).
  rewrite Et in Et'. simplify_eq.
  rewrite <-(app_nil_r payload') at 2. rewrite decode_frame_encoded by done.
  unfold decode_payload. by rewrite Efb.
Qed.

(** The reader accepts what the slice decoder accepts. *)
Lemma recv_frame_decode_aux `{Postcard Frame} (io : Io) (f : Frame) :
  (recv_frame io).1 = Ok (Some f) → decode_frame (rx io) = Ok f.
Proof.
  unfold recv_frame, mbind, st_bind, try, read_exact.
  case_decide as H8; [|by destruct (rx_end io)]. intros E.
  case_decide as Hm; [done|].
  assert (∀ a b, 0 ≤ a ≤ b → b ≤ 8 → slice a b (take 8 (rx io)) = slice a b (rx io)) as Hsl.
  { intros a b Ha Hb. unfold slice.
    by rewrite take_drop_commute, take_take, Nat.min_l, <-take_drop_commute by lia. }
  rewrite !Hsl in E by lia. rewrite Hsl in Hm by lia. simpl in E.
  case_decide as Hl; [done|]. unfold st_map_err, read_exact in E. simpl in E.
  pose proof (be_val_range (slice 4 8 (rx io))) as Hr.
  case_decide as Hp; [|by destruct (rx_end io)]. simpl in E.
  unfold decode_frame. rewrite length_drop in Hp.
  rewrite decide_False by (unfold zlen; lia). rewrite decide_False by (intros []; done).
  rewrite decide_False by done. rewrite decide_False by (unfold zlen; lia).
  unfold slice at 1. rewrite Z.add_simpl_l.
  change (Z.to_nat 8) with 8%nat.
  by destruct (decode_payload _); simplify_eq/=.
Qed.

(** C32: the streaming reader and the slice decoder agree.  [recv_frame] delivers
    a frame iff [decode_frame] accepts the bytes that are waiting, it delivers the
    same frame, and it consumes exactly the header and the announced payload. *)
Theorem recv_frame_decode `{Postcard Frame} (io : Io) (f : Frame) :
  ((recv_frame io).1 = Ok (Some f) ↔ decode_frame (rx io) = Ok f)
  ∧ (decode_frame (rx io) = Ok f →
      ∃ payload, rx io = MAGIC ++ be_bytes 4 (zlen payload) ++ payload ++ rx (recv_frame io).2
        ∧ tx (recv_frame io).2 = tx io).
Proof.
  assert (decode_frame (rx io) = Ok f → ∃ payload tail,
    rx io = MAGIC ++ be_bytes 4 (zlen payload) ++ payload ++ tail
    ∧ recv_frame io = (Ok (Some f), with_rx tail io)) as Hd.
  { intros (payload & tail & E & Hl & Hd)%decode_frame_guarded_aux.
    exists payload, tail. split; [done|].
    by rewrite (recv_frame_header io payload tail E Hl), Hd. }
  split.
  - split; [apply recv_frame_decode_aux|]. intros (p & t & _ & ->)%Hd. done.
  - intros (p & t & E & ->)%Hd. exists p. by rewrite E at 1.
Qed.

(** Bounded reads.  Whatever the peer announces, one call takes at most
    8 + 16 MiB bytes from the stream, and a frame announcing more than 16 MiB is
    refused with only its header consumed. *)
Theorem recv_frame_bounded `{Postcard Frame} (io : Io) :
  zlen (rx io) - zlen (rx (recv_frame io).2) ≤ 8 + MAX_FRAME_LENGTH
  ∧ (∀ l m, (recv_frame io).1 = Err (FrameTooLarge l m) →
      MAX_FRAME_LENGTH < l ∧ rx (recv_frame io).2 = drop 8 (rx io)).
Proof.
  unfold recv_frame, mbind, st_bind, try, read_exact.
  case_decide as H8; [|destruct (rx_end io); unfold zlen, MAX_FRAME_LENGTH; simpl; split; done || lia].
  assert (∀ n, zlen (rx io) - zlen (drop n (rx io)) ≤ Z.of_nat n) as Hdrop.
  { intros n. unfold zlen. rewrite length_drop. lia. }
  case_decide as Hm; simpl; [split; [specialize (Hdrop 8%nat); unfold MAX_FRAME_LENGTH; lia|done]|].
  case_decide as Hl; simpl.
  { split; [specialize (Hdrop 8%nat); unfold MAX_FRAME_LENGTH; lia|]. intros. by simplify_eq. }
  unfold st_map_err, read_exact. simpl.
  pose proof (be_val_range (slice 4 8 (take 8 (rx io)))).
  case_decide as Hp; simpl.
  - rewrite drop_drop. rewrite length_drop in Hp.
    destruct (decode_payload _) as [f|e] eqn:E; simpl; (split; [etrans; [apply Hdrop|lia]|]); [done|].
    intros l m ?. simplify_eq. unfold decode_payload in E. by destruct (from_bytes _); simplify_eq/=.
  - rewrite length_drop in Hp. destruct (rx_end io); simpl; (split; [unfold zlen; simpl; lia|done]).
Qed.

(** A stream that ends in the middle of a header is reported as a clean end
    of the connection, exactly as one that ends at a frame boundary; the doc
    comment of [recv_frame] promises an error for the former.  An end inside the
    payload is an error. *)
Theorem recv_frame_eof `{Postcard Frame} (io : Io) :
  rx_end io = None →
  (zlen (rx io) < 8 → recv_frame io = (Ok None, with_rx [] io))
  ∧ (∀ payload k, rx io = MAGIC ++ be_bytes 4 (zlen payload) ++ take k payload →
      (k < length payload)%nat → zlen payload ≤ MAX_FRAME_LENGTH →
      (recv_frame io).1 = Err (Framing "Failed to read frame payload: early eof")).
Proof.
  intros He. split.
  - intros Hl. unfold recv_frame, mbind, st_bind, try, read_exact.
    rewrite decide_False by (unfold zlen in Hl; lia). by rewrite He.
  - intros payload k E Hk Hlen. unfold recv_frame, mbind, st_bind, try.
    rewrite (app_assoc MAGIC) in E. rewrite (read_exact_app io 8 _ _ E).
    2: { by rewrite length_app, be_bytes_length. }
    rewrite slice_app_head by done. rewrite decide_False by (intros []; done).
    rewrite (slice_app_skip _ _ 4) by (done || lia).
    rewrite slice_all by (unfold zlen; rewrite be_bytes_length; lia).
    pose proof (zlen_nonneg payload). rewrite be_val_len by lia. rewrite decide_False by lia.
    unfold st_map_err, read_exact. simpl.
    rewrite decide_False by (rewrite length_take; unfold zlen; lia). by rewrite He.
Qed.

(** ** Witnesses *)

Section Witnesses.
Import FrameWire.

Definition io_of (l : list byte) : Io :=
  {| rx := l; rx_end := None; tx := []; tx_room := None; flush_err := None |}.

Definition two_frames : list Frame :=
  [Control (Ping 42); Data (DataFrame_new CHANNEL_CLIPBOARD [x01; x02])].

Example send_recv_all_witness :
  (send_all two_frames (io_of [])).1 = Ok tt
  ∧ (recv_all 3 (io_of (tx (send_all two_frames (io_of [])).2))).1 = Ok two_frames.
Proof.
  destruct (send_recv_all two_frames (io_of []) (io_of (tx (send_all two_frames (io_of [])).2)))
    as [Hs Hr]; try reflexivity.
  - repeat constructor; vm_compute; congruence.
  - repeat constructor.
  - split; [exact Hs|]. apply Hr. simpl. lia.
Defined.

Example recv_frame_decode_witness :
  (recv_frame (io_of (MAGIC ++ be_bytes 4 3 ++ [x01; x01; x07; x00]))).1 = Ok (Some (Control (Pong 7))).
Proof. apply recv_frame_decode. vm_compute. reflexivity. Defined.

Example recv_frame_eof_witness :
  recv_frame (io_of [x42; x52]) = (Ok None, io_of []).
Proof. apply (recv_frame_eof (io_of [x42; x52])); [reflexivity|vm_compute; reflexivity]. Defined.

End Witnesses.
