(* ===== verification/Fs.v ===== *)
(** * Fs: the part of the file system the source uses

    A file system maps path strings to file contents.  Directories are not
    modelled, so [create_dir_all] has no effect of its own; a fault chosen by the
    environment makes every change fail (a read-only or full disk). *)
From S2P Require Import Prelude Text.

Record Fs := { files : gmap string (list byte); fs_fault : option string }.

Definition with_files (m : gmap string (list byte)) (fs : Fs) : Fs :=
  {| files := m; fs_fault := fs_fault fs |}.

(** A change goes through unless the environment refuses it. *)
Definition fs_change (f : gmap string (list byte) → gmap string (list byte)) : st Fs string unit :=
  λ fs, match fs_fault fs with
        | Some e => (Err e, fs)
        | None => (Ok tt, with_files (f (files fs)) fs)
        end.

(** [Path::exists]. *)
Definition fs_exists (p : string) (fs : Fs) : bool := bool_decide (is_Some (files fs !! p)).
(** [std::fs::read]. *)
Definition fs_read (p : string) : st Fs string (list byte) := λ fs,
  (ok_or "No such file or directory" (files fs !! p), fs).
(** [std::fs::write]: create or replace. *)
Definition fs_write (p : string) (d : list byte) : st Fs string unit := fs_change <[p:=d]>.
(** [std::fs::create_dir_all]. *)
Definition fs_create_dir_all : st Fs string unit := fs_change id.
(** [std::fs::set_permissions]: file modes are not modelled, a refusal is. *)
Definition fs_set_permissions : st Fs string unit := fs_change id.
(** [OpenOptions::new().read(true).write(true).create(true).truncate(false).open]. *)
Definition fs_open_rw (p : string) : st Fs string unit :=
  fs_change (λ m, match m !! p with Some _ => m | None => <[p:=[]]> m end).
(** [File::set_len]: cut, or extend with zeros. *)
Definition resize (n : nat) (d : list byte) : list byte :=
  take n d ++ replicate (n - length d) x00.
Definition fs_set_len (p : string) (n : nat) : st Fs string unit := fs_change (alter (resize n) p).
(** [seek(SeekFrom::Start(off))] then [write_all]: a gap is filled with zeros. *)
Definition write_at (off : nat) (d old : list byte) : list byte :=
  splice off d (old ++ replicate (off + length d - length old) x00).
Definition fs_write_at (p : string) (off : nat) (d : list byte) : st Fs string unit :=
  fs_change (alter (write_at off d) p).
(** [std::fs::rename]. *)
Definition fs_rename (a b : string) : st Fs string unit := λ fs,
  match fs_fault fs, files fs !! a with
  | Some e, _ => (Err e, fs)
  | None, None => (Err "No such file or directory", fs)
  | None, Some d => (Ok tt, with_files (<[b:=d]> (delete a (files fs))) fs)
  end.

(** [Path::join] on Unix: an absolute second path replaces the first. *)
Definition path_join (dir name : string) : string :=
  if starts_with (as_bytes "/") (as_bytes name) then name
  else if bool_decide (dir = "") then name
  else if bool_decide (last (as_bytes dir) = Some (z2b 47)) then dir +:+ name
  else dir +:+ "/" +:+ name.

(** ** Lemmas *)

Lemma write_at_length off d old :
  (off + length d ≤ length old)%nat → length (write_at off d old) = length old.
Proof.
  intros H. unfold write_at. replace (off + length d - length old)%nat with 0%nat by lia.
  simpl. rewrite app_nil_r. by apply splice_length.
Qed.

Lemma resize_small n d : (n ≤ length d)%nat → resize n d = take n d.
Proof.
  intros H. unfold resize. replace (n - length d)%nat with 0%nat by lia. apply app_nil_r.
Qed.

Lemma write_at_len off d old :
  length (write_at off d old) = Nat.max (length old) (off + length d).
Proof.
  unfold write_at. rewrite splice_length; rewrite length_app, length_replicate; lia.
Qed.

Lemma write_at_lookup_in off d old k :
  (off ≤ k < off + length d)%nat → write_at off d old !! k = d !! (k - off)%nat.
Proof.
  intros Hk. unfold write_at. apply splice_lookup_in; [rewrite length_app, length_replicate; lia|done].
Qed.

Lemma write_at_lookup_old off d old k :
  (k < off ∨ off + length d ≤ k)%nat → (k < length old)%nat → write_at off d old !! k = old !! k.
Proof.
  intros Hk Hl. unfold write_at.
  rewrite splice_lookup_out; [|rewrite length_app, length_replicate; lia|done].
  by apply lookup_app_l.
Qed.

Lemma write_at_splice off d old :
  (off + length d ≤ length old)%nat → splice off d old = write_at off d old.
Proof.
  intros Hl. unfold write_at. replace (off + length d - length old)%nat with 0%nat by lia.
  by rewrite app_nil_r.
Qed.

(** A longer file name gives another path. *)
Lemma path_join_ext dir name ext :
  ext ≠ "" → starts_with (as_bytes "/") (as_bytes ext) = false →
  path_join dir name ≠ path_join dir (name +:+ ext).
Proof.
  intros He Hs E.
  assert (∀ s : string, String.length s = length (as_bytes s)) as Hlen.
  { intros s. induction s as [|c s IH]; [done|]. simpl. by rewrite IH. }
  assert (0 < String.length ext)%nat as Hpos by (destruct ext; [done|simpl; lia]).
  apply (f_equal (λ s, length (as_bytes s))) in E. revert E. unfold path_join.
  assert (∀ s t, length (as_bytes (s +:+ t)) = (length (as_bytes s) + length (as_bytes t))%nat) as Happ.
  { intros s t. by rewrite as_bytes_app, length_app. }
  assert (starts_with (as_bytes "/") (as_bytes (name +:+ ext)) = starts_with (as_bytes "/") (as_bytes name)) as ->.
  { destruct name as [|c name]; [exact Hs|]. done. }
  rewrite Hlen in Hpos. repeat case_match; rewrite ?Happ; lia.
Qed.
