(* ===== verification/Keys.v ===== *)
(** * Keys: [crates/bridge-identity/src/{keys,storage,error}.rs]

    Ed25519 identities, the handshake challenge, and the key file. *)
From S2P Require Import Prelude Text External Codec Core Fs.

(** ** [error.rs] *)

(** [rusqlite::Error], as far as the source tells errors apart. *)
Inductive SqlError :=
| SqlFault (msg : string)
| FromSqlConversionFailure (column : Z) (msg : string).

Inductive IdentityError :=
| Database (e : SqlError)
| IoErr (msg : string)
| CoreErr (e : BridgeError)
| KeyMismatch (node_id : NodeId) (expected presented : string)
| PeerRevoked (id : NodeId)
| PeerUntrusted (id : NodeId)
| PairingFailed (msg : string)
| SasMismatch
| PairingTimeout
| InvalidSecretKeyFile (msg : string)
| Crypto (msg : string).

(** ** [keys.rs] *)

Section Keys.
Context `{Ed25519, Sha256}.

Record IdentityKey := { signing_key : SigningKey }.
Record PublicKey := { verifying_key : VerifyingKey }.

#[global] Instance PublicKey_eq_dec : EqDecision PublicKey.
Proof. solve_decision. Defined.

(** [SigningKey::generate] takes its 32 secret bytes from the generator. *)
Definition IdentityKey_generate (entropy : array 32) : IdentityKey :=
  {| signing_key := sk_from_bytes entropy |}.
Definition IdentityKey_from_bytes (bytes : array 32) : IdentityKey :=
  {| signing_key := sk_from_bytes bytes |}.
Definition IdentityKey_to_bytes (self : IdentityKey) : array 32 := sk_to_bytes (signing_key self).
Definition public_key (self : IdentityKey) : PublicKey :=
  {| verifying_key := sk_verifying_key (signing_key self) |}.

Definition PublicKey_from_bytes (bytes : array 32) : result BridgeError PublicKey :=
  match vk_from_bytes bytes with
  | Ok v => Ok {| verifying_key := v |}
  | Err e => Err (Identity ("Invalid Ed25519 public key bytes: " +:+ e))
  end.
Definition PublicKey_to_bytes (self : PublicKey) : array 32 := vk_to_bytes (verifying_key self).
Definition PublicKey_node_id (self : PublicKey) : NodeId :=
  NodeId_from_bytes (PublicKey_to_bytes self).
Definition PublicKey_verify (self : PublicKey) (message : list byte) (signature : array 64) :
    result BridgeError unit :=
  map_err (λ e, Identity ("Signature verification failed: " +:+ e))
    (vk_verify_strict (verifying_key self) message signature).

Definition IdentityKey_node_id (self : IdentityKey) : NodeId := PublicKey_node_id (public_key self).
Definition IdentityKey_sign (self : IdentityKey) (message : list byte) : array 64 :=
  sk_sign (signing_key self) message.

(** The digest both sides compute over the nonces. *)
Definition handshake_digest (client_nonce server_nonce : array 32) : array 32 :=
  let hasher := sha_new in
  let hasher := sha_update hasher (as_bytes "BridgeOS-Handshake-v1") in
  let hasher := sha_update hasher (arr client_nonce) in
  let hasher := sha_update hasher (arr server_nonce) in
  sha_finalize hasher.
Definition sign_handshake_challenge (self : IdentityKey) (client_nonce server_nonce : array 32) :
    array 64 :=
  IdentityKey_sign self (arr (handshake_digest client_nonce server_nonce)).
Definition verify_handshake_challenge (self : PublicKey) (client_nonce server_nonce : array 32)
    (signature : array 64) : result BridgeError unit :=
  PublicKey_verify self (arr (handshake_digest client_nonce server_nonce)) signature.

(** [Serialize] and [Deserialize]: the 32 bytes, which must be those of a key. *)
Definition c_public_key : codec PublicKey := Codec
  (λ k, enc (c_raw 32) (PublicKey_to_bytes k))
  (λ l, match dcd (c_raw 32) l with
        | Some (bytes, r) => match PublicKey_from_bytes bytes with Ok k => Some (k, r) | Err _ => None end
        | None => None
        end).
End Keys.

(** ** [storage.rs] *)

Section Storage.
Context `{Ed25519, Hex}.

Definition IdentityStorage_load (path : string) : st Fs IdentityError IdentityKey :=
  content ← st_map_err IoErr (fs_read path);
  if decide (length content = 32%nat) then
    match to_array 32 content with
    | Some bytes => mret (IdentityKey_from_bytes bytes)
    | None => fail (InvalidSecretKeyFile "")   (* unreachable: [unwrap] *)
    end
  else if decide (64 ≤ length content)%nat then
    if from_utf8_ok content then
      match hex_decode (trim (of_bytes content)) with
      | Err e => fail (InvalidSecretKeyFile ("Hex decode failed: " +:+ e))
      | Ok decoded =>
        match to_array 32 decoded with
        | None => fail (InvalidSecretKeyFile "Decoded hex key is not 32 bytes")
        | Some bytes => mret (IdentityKey_from_bytes bytes)
        end
      end
    else fail (InvalidSecretKeyFile "File is not valid UTF-8 hex")
  else fail (InvalidSecretKeyFile ("Expected 32 binary bytes or 64 hex characters, found "
                                   +:+ dec (zlen content) +:+ " bytes")).

Definition IdentityStorage_save (path : string) (key : IdentityKey) : st Fs IdentityError unit :=
  _ ← st_map_err IoErr fs_create_dir_all;
  _ ← st_map_err IoErr (fs_write path (arr (IdentityKey_to_bytes key)));
  st_map_err IoErr fs_set_permissions.

(** [entropy] is what the generator would deliver if a key must be made. *)
Definition load_or_generate (entropy : array 32) (path : string) : st Fs IdentityError IdentityKey :=
  present ← gets (fs_exists path);
  if present : bool then IdentityStorage_load path
  else
    let key := IdentityKey_generate entropy in
    _ ← IdentityStorage_save path key;
    mret key.
End Storage.

(** ** Lemmas *)

Section KeysLemmas.
Context `{Ed25519, Sha256, !Ed25519Laws}.

Lemma PublicKey_to_bytes_inj (a b : PublicKey) :
  PublicKey_to_bytes a = PublicKey_to_bytes b → a = b.
Proof.
  destruct a as [a], b as [b]. unfold PublicKey_to_bytes. simpl.
  by intros ->%vk_to_bytes_inj.
Qed.

Lemma PublicKey_from_to_bytes (k : PublicKey) :
  PublicKey_from_bytes (PublicKey_to_bytes k) = Ok k.
Proof.
  unfold PublicKey_from_bytes, PublicKey_to_bytes. rewrite vk_from_to_bytes. by destruct k.
Qed.

(** A public key that is serialized is read back, with what follows it. *)
Lemma c_public_key_ok : codec_ok c_public_key (λ _, True).
Proof.
  split; [|done]. intros k r _. unfold c_public_key. cbn [enc dcd].
  by rewrite (dcd_enc (c_raw_ok 32)), PublicKey_from_to_bytes.
Qed.

(** A key rebuilt from bytes is the key whose identifier those bytes are. *)
Lemma PublicKey_from_bytes_node (n : NodeId) (k : PublicKey) :
  PublicKey_from_bytes (node_bytes n) = Ok k → PublicKey_node_id k = n.
Proof.
  unfold PublicKey_from_bytes, PublicKey_node_id, PublicKey_to_bytes. intros E.
  destruct (vk_from_bytes (node_bytes n)) as [v|] eqn:Ev; simplify_eq/=.
  apply vk_to_from_bytes in Ev. rewrite Ev. by destruct n.
Qed.

Lemma verify_sign_ok (k : IdentityKey) m :
  PublicKey_verify (public_key k) m (IdentityKey_sign k m) = Ok tt.
Proof. unfold PublicKey_verify, IdentityKey_sign. simpl. by rewrite vk_verify_sign. Qed.
End KeysLemmas.

(** ** Properties *)

(** A signature over the handshake challenge made by a key verifies under
    the public key rebuilt from that key's node identifier, for the same pair of
    nonces: this is what lets a server authenticate a client from its
    [ClientHello] alone. *)
Theorem handshake_challenge_complete `{Ed25519, Sha256, !Ed25519Laws}
    (k : IdentityKey) (cn sn : array 32) :
  ∃ pk, PublicKey_from_bytes (node_bytes (IdentityKey_node_id k)) = Ok pk
    ∧ pk = public_key k
    ∧ verify_handshake_challenge pk cn sn (sign_handshake_challenge k cn sn) = Ok tt.
Proof.
  exists (public_key k). split; [apply PublicKey_from_to_bytes|]. split; [done|].
  apply verify_sign_ok.
Qed.

(** The identity of a node is stable across restarts.  On a disk that
    accepts writes, starting with no key file makes a key and stores it, and every
    later start, whatever the generator would deliver, loads that same key and
    leaves the file alone. *)
Theorem identity_persistent `{Ed25519, Hex, !Ed25519Laws} (fs : Fs) (path : string) (e1 e2 : array 32) :
  fs_fault fs = None → files fs !! path = None →
  let '(r1, fs1) := load_or_generate e1 path fs in
  r1 = Ok (IdentityKey_generate e1)
  ∧ load_or_generate e2 path fs1 = (Ok (IdentityKey_generate e1), fs1).
Proof.
  intros Hf Hp.
  assert (load_or_generate e1 path fs = (Ok (IdentityKey_generate e1),
    with_files (<[path:=arr e1]> (files fs)) fs)) as ->.
  { unfold load_or_generate, gets, mbind, st_bind, fs_exists. rewrite Hp. simpl.
    unfold IdentityStorage_save, mbind, st_bind, st_map_err, fs_create_dir_all, fs_set_permissions, fs_write, fs_change.
    rewrite Hf. simpl. rewrite ?Hf. simpl. rewrite ?Hf. simpl. unfold IdentityKey_to_bytes. simpl.
    by rewrite sk_to_from_bytes. }
  split; [done|].
  unfold load_or_generate, gets, mbind, st_bind, fs_exists. simpl.
  rewrite lookup_insert_eq. simpl.
  unfold IdentityStorage_load, mbind, st_bind, st_map_err, fs_read. simpl.
  rewrite lookup_insert_eq. simpl. rewrite decide_True by apply arr_length.
  by rewrite to_array_arr.
Qed.

(** ** Witnesses *)

Section Witnesses.
Import Toy.

Example handshake_challenge_complete_witness :
  let k := IdentityKey_generate (arr_rep 32 x07) in
  ∃ pk, PublicKey_from_bytes (node_bytes (IdentityKey_node_id k)) = Ok pk
    ∧ pk = public_key k
    ∧ verify_handshake_challenge pk (arr_rep 32 x01) (arr_rep 32 x02)
        (sign_handshake_challenge k (arr_rep 32 x01) (arr_rep 32 x02)) = Ok tt.
Proof. intros k. exact (handshake_challenge_complete k (arr_rep 32 x01) (arr_rep 32 x02)). Defined.

Example identity_persistent_witness :
  let '(r1, fs1) := load_or_generate (arr_rep 32 x05) "id/secret.key" {| files := ∅; fs_fault := None |} in
  r1 = Ok (IdentityKey_generate (arr_rep 32 x05))
  ∧ load_or_generate (arr_rep 32 x09) "id/secret.key" fs1
    = (Ok (IdentityKey_generate (arr_rep 32 x05)), fs1).
Proof.
  apply (identity_persistent {| files := ∅; fs_fault := None |} "id/secret.key"
    (arr_rep 32 x05) (arr_rep 32 x09)); reflexivity.
Defined.

End Witnesses.
