(* ===== verification/Trust.v ===== *)
(** * Trust: [crates/bridge-identity/src/trust.rs]

    The SQLite trust store.  The table [trusted_peers] is a map from its primary
    key (the hexadecimal node identifier) to a row of [TEXT] and [INTEGER]
    columns, and each SQL statement of the source is its effect on that map.
    Whether a statement reaches the database is up to the environment: the store
    carries the faults that the next statements will meet.

    The abstract store is a map from node identifiers to peers (related to the table by [represents]); the
    theorems show that the string and [i64] columns implement it. *)
From stdpp Require Import sorting.
From S2P Require Import Prelude Text External Core Fs Keys.

(** ** Trust states and peers *)

Inductive TrustState := Trusted | Pending | Revoked.
#[global] Instance TrustState_eq_dec : EqDecision TrustState.
Proof. solve_decision. Defined.

Definition TrustState_as_str (s : TrustState) : string :=
  match s with Trusted => "trusted" | Pending => "pending" | Revoked => "revoked" end.
Definition TrustState_from_str (s : string) : TrustState :=
  let k := to_ascii_lowercase (trim s) in
  if decide (k = "trusted") then Trusted
  else if decide (k = "revoked") then Revoked
  else Pending.

Section Store.
Context `{Ed25519, Hex}.

Record TrustedPeer := {
  tp_node_id : NodeId; tp_public_key : PublicKey; tp_device_name : string;
  tp_device_type : DeviceType; tp_first_paired_at : u64; tp_last_seen_at : u64;
  tp_trust_state : TrustState }.

#[global] Instance TrustedPeer_eq_dec : EqDecision TrustedPeer.
Proof. solve_decision. Defined.

Definition with_state (s : TrustState) (p : TrustedPeer) : TrustedPeer := {|
  tp_node_id := tp_node_id p; tp_public_key := tp_public_key p;
  tp_device_name := tp_device_name p; tp_device_type := tp_device_type p;
  tp_first_paired_at := tp_first_paired_at p; tp_last_seen_at := tp_last_seen_at p;
  tp_trust_state := s |}.
Definition with_last_seen (t : u64) (p : TrustedPeer) : TrustedPeer := {|
  tp_node_id := tp_node_id p; tp_public_key := tp_public_key p;
  tp_device_name := tp_device_name p; tp_device_type := tp_device_type p;
  tp_first_paired_at := tp_first_paired_at p; tp_last_seen_at := t;
  tp_trust_state := tp_trust_state p |}.
Definition with_first_paired (t : u64) (p : TrustedPeer) : TrustedPeer := {|
  tp_node_id := tp_node_id p; tp_public_key := tp_public_key p;
  tp_device_name := tp_device_name p; tp_device_type := tp_device_type p;
  tp_first_paired_at := t; tp_last_seen_at := tp_last_seen_at p;
  tp_trust_state := tp_trust_state p |}.

(** ** The database *)

Record Row := {
  r_node_id : string; r_public_key : string; r_device_name : string;
  r_device_type : string; r_first_paired_at : i64; r_last_seen_at : i64;
  r_trust_state : string }.

Record TrustStore := {
  peers_table : gmap string Row;
  schema_versions : list Z;
  sql_faults : list (option string);   (* what the next statements meet *)
}.

Definition with_table (t : gmap string Row) (s : TrustStore) : TrustStore :=
  {| peers_table := t; schema_versions := schema_versions s; sql_faults := sql_faults s |}.

(** One SQL statement: it may meet a fault, and otherwise does [f]. *)
Definition sql {A} (f : TrustStore → A * TrustStore) : st TrustStore IdentityError A := λ s,
  let s' := {| peers_table := peers_table s; schema_versions := schema_versions s;
               sql_faults := tail (sql_faults s) |} in
  match head (sql_faults s) with
  | Some (Some e) => (Err (Database (SqlFault e)), s')
  | _ => let '(a, s'') := f s' in (Ok a, s'')
  end.

Definition init_schema : st TrustStore IdentityError unit :=
  (* CREATE TABLE IF NOT EXISTS ...: the tables of an existing file are kept. *)
  _ ← sql (λ s, (tt, s));
  count ← sql (λ s, (zlen (schema_versions s), s));
  if decide (count = 0) then
    sql (λ s, (tt, {| peers_table := peers_table s; schema_versions := [1];
                      sql_faults := sql_faults s |}))
  else mret tt.

(** [TrustStore::open] on the database found at the path, after the directory
    was created; [open_in_memory] starts from the empty database. *)
Definition TrustStore_open (db : TrustStore) : result IdentityError unit * TrustStore :=
  init_schema db.
Definition TrustStore_open_in_memory : result IdentityError unit * TrustStore :=
  init_schema {| peers_table := ∅; schema_versions := []; sql_faults := [] |}.

(** The parameters of the [INSERT] statement. *)
Definition peer_params (peer : TrustedPeer) : Row := {|
  r_node_id := NodeId_to_hex (tp_node_id peer);
  r_public_key := hex_encode (arr (PublicKey_to_bytes (tp_public_key peer)));
  r_device_name := tp_device_name peer;
  r_device_type := DeviceType_to_string (tp_device_type peer);
  r_first_paired_at := as_i64 (tp_first_paired_at peer);
  r_last_seen_at := as_i64 (tp_last_seen_at peer);
  r_trust_state := TrustState_as_str (tp_trust_state peer) |}.

(** [ON CONFLICT(node_id) DO UPDATE SET ...]: every column but [node_id] and
    [first_paired_at]. *)
Definition on_conflict (old excluded : Row) : Row := {|
  r_node_id := r_node_id old;
  r_public_key := r_public_key excluded;
  r_device_name := r_device_name excluded;
  r_device_type := r_device_type excluded;
  r_first_paired_at := r_first_paired_at old;
  r_last_seen_at := r_last_seen_at excluded;
  r_trust_state := r_trust_state excluded |}.

Definition upsert (row : Row) (t : gmap string Row) : gmap string Row :=
  <[r_node_id row := match t !! r_node_id row with
                     | Some old => on_conflict old row
                     | None => row
                     end]> t.

Definition save_peer (peer : TrustedPeer) : st TrustStore IdentityError unit :=
  sql (λ s, (tt, with_table (upsert (peer_params peer) (peers_table s)) s)).

Definition row_to_peer (row : Row) : result SqlError TrustedPeer :=
  node_id ← map_err (FromSqlConversionFailure 0) (NodeId_from_str (r_node_id row));
  pubkey_bytes ← map_err (FromSqlConversionFailure 1) (hex_decode (r_public_key row));
  pubkey_arr ← ok_or (FromSqlConversionFailure 1 "Invalid pubkey length") (to_array 32 pubkey_bytes);
  public_key ← map_err (λ e, FromSqlConversionFailure 1 (BridgeError_to_string e))
                 (PublicKey_from_bytes pubkey_arr);
  Ok {|
    tp_node_id := node_id; tp_public_key := public_key;
    tp_device_name := r_device_name row;
    tp_device_type := DeviceType_from_str (r_device_type row);
    tp_first_paired_at := Z.max (r_first_paired_at row) 0;
    tp_last_seen_at := Z.max (r_last_seen_at row) 0;
    tp_trust_state := TrustState_from_str (r_trust_state row) |}.

Definition get_peer (node_id : NodeId) : st TrustStore IdentityError (option TrustedPeer) :=
  row ← sql (λ s, (peers_table s !! NodeId_to_hex node_id, s));
  match row with
  | Some row => p ← lift (map_err Database (row_to_peer row)); mret (Some p)
  | None => mret None
  end.

(** [ORDER BY last_seen_at DESC]. *)
Definition later (a b : Row) : Prop := r_last_seen_at b ≤ r_last_seen_at a.
#[global] Instance later_dec a b : Decision (later a b).
Proof. unfold later. apply _. Defined.
Definition rows_by_last_seen (t : gmap string Row) : list Row :=
  merge_sort later (map_to_list t).*2.

Fixpoint collect_rows (rows : list Row) : result SqlError (list TrustedPeer) :=
  match rows with
  | [] => Ok []
  | r :: rows' => p ← row_to_peer r; ps ← collect_rows rows'; Ok (p :: ps)
  end.

Definition list_peers : st TrustStore IdentityError (list TrustedPeer) :=
  rows ← sql (λ s, (rows_by_last_seen (peers_table s), s));
  lift (map_err Database (collect_rows rows)).

Definition list_trusted_peers : st TrustStore IdentityError (list TrustedPeer) :=
  rows ← sql (λ s, (rows_by_last_seen
                      (filter (λ kr, r_trust_state kr.2 = "trusted") (peers_table s)), s));
  lift (map_err Database (collect_rows rows)).

Definition is_trusted (node_id : NodeId) (presented_key : PublicKey) :
    st TrustStore IdentityError bool :=
  peer_opt ← get_peer node_id;
  match peer_opt with
  | None => mret false
  | Some peer =>
    if decide (tp_public_key peer ≠ presented_key) then
      fail (KeyMismatch node_id (hex_encode (arr (PublicKey_to_bytes (tp_public_key peer))))
              (hex_encode (arr (PublicKey_to_bytes presented_key))))
    else match tp_trust_state peer with
         | Revoked => fail (PeerRevoked node_id)
         | Trusted => mret true
         | Pending => mret false
         end
  end.

Definition row_set_last_seen (t : i64) (r : Row) : Row := {|
  r_node_id := r_node_id r; r_public_key := r_public_key r; r_device_name := r_device_name r;
  r_device_type := r_device_type r; r_first_paired_at := r_first_paired_at r;
  r_last_seen_at := t; r_trust_state := r_trust_state r |}.
Definition update_last_seen (node_id : NodeId) (timestamp : u64) : st TrustStore IdentityError unit :=
  sql (λ s, (tt, with_table
    (alter (row_set_last_seen (as_i64 timestamp)) (NodeId_to_hex node_id) (peers_table s)) s)).

Definition row_set_state (t : string) (r : Row) : Row := {|
  r_node_id := r_node_id r; r_public_key := r_public_key r; r_device_name := r_device_name r;
  r_device_type := r_device_type r; r_first_paired_at := r_first_paired_at r;
  r_last_seen_at := r_last_seen_at r; r_trust_state := t |}.
Definition set_trust_state (node_id : NodeId) (state : TrustState) : st TrustStore IdentityError unit :=
  sql (λ s, (tt, with_table
    (alter (row_set_state (TrustState_as_str state)) (NodeId_to_hex node_id) (peers_table s)) s)).

Definition revoke_peer (node_id : NodeId) : st TrustStore IdentityError unit :=
  set_trust_state node_id Revoked.

Definition delete_peer (node_id : NodeId) : st TrustStore IdentityError bool :=
  sql (λ s, let k := NodeId_to_hex node_id in
            (bool_decide (is_Some (peers_table s !! k)), with_table (delete k (peers_table s)) s)).

(** ** The abstract store *)

(** What survives the round trip through an [i64] column: times from [2^63] on
    come back as 0. *)
Definition clamp (t : u64) : u64 := if decide (t < 2 ^ 63) then t else 0.
Definition norm (p : TrustedPeer) : TrustedPeer :=
  with_first_paired (clamp (tp_first_paired_at p)) (with_last_seen (clamp (tp_last_seen_at p)) p).

(** The table implements the map [m]: the row under the identifier of a peer
    reads back as that peer, its state column is in the canonical spelling, and
    every row belongs to a peer of [m]. *)
Definition represents (t : gmap string Row) (m : gmap NodeId TrustedPeer) : Prop :=
  (∀ n p, m !! n = Some p → tp_node_id p = n ∧
     ∃ r, t !! NodeId_to_hex n = Some r ∧ row_to_peer r = Ok p
       ∧ r_trust_state r = TrustState_as_str (tp_trust_state p))
  ∧ (∀ k r, t !! k = Some r → ∃ n p, k = NodeId_to_hex n ∧ m !! n = Some p).

Definition peer_ok (p : TrustedPeer) : Prop :=
  in_width 64 (tp_first_paired_at p) ∧ in_width 64 (tp_last_seen_at p).

(** The abstract operations. *)
Definition a_save (p : TrustedPeer) (m : gmap NodeId TrustedPeer) : gmap NodeId TrustedPeer :=
  <[tp_node_id p := match m !! tp_node_id p with
                    | Some old => with_first_paired (tp_first_paired_at old) (norm p)
                    | None => norm p
                    end]> m.
Definition a_seen (n : NodeId) (t : u64) (m : gmap NodeId TrustedPeer) : gmap NodeId TrustedPeer :=
  alter (with_last_seen (clamp t)) n m.
Definition a_set_state (n : NodeId) (s : TrustState) (m : gmap NodeId TrustedPeer) :=
  alter (with_state s) n m.
Definition a_is_trusted (n : NodeId) (k : PublicKey) (m : gmap NodeId TrustedPeer) :
    result IdentityError bool :=
  match m !! n with
  | None => Ok false
  | Some p =>
    if decide (tp_public_key p = k) then
      match tp_trust_state p with
      | Trusted => Ok true | Pending => Ok false | Revoked => Err (PeerRevoked n)
      end
    else Err (KeyMismatch n (hex_encode (arr (PublicKey_to_bytes (tp_public_key p))))
                (hex_encode (arr (PublicKey_to_bytes k))))
  end.

(** The operations that change the store, as steps. *)
Inductive Op :=
| OSave (p : TrustedPeer)
| OSeen (n : NodeId) (t : u64)
| OSetState (n : NodeId) (s : TrustState)
| ORevoke (n : NodeId)
| ODelete (n : NodeId).

Definition run_op (o : Op) : st TrustStore IdentityError unit :=
  match o with
  | OSave p => save_peer p
  | OSeen n t => update_last_seen n t
  | OSetState n s => set_trust_state n s
  | ORevoke n => revoke_peer n
  | ODelete n => _ ← delete_peer n; mret tt
  end.

Definition a_op (o : Op) (m : gmap NodeId TrustedPeer) : gmap NodeId TrustedPeer :=
  match o with
  | OSave p => a_save p m
  | OSeen n t => a_seen n t m
  | OSetState n s => a_set_state n s m
  | ORevoke n => a_set_state n Revoked m
  | ODelete n => delete n m
  end.

Definition op_ok (o : Op) : Prop :=
  match o with OSave p => peer_ok p | OSeen _ t => in_width 64 t | _ => True end.

(** The table entry an operation touches, and what it does to the table. *)
Definition op_node (o : Op) : NodeId :=
  match o with
  | OSave p => tp_node_id p
  | OSeen n _ | OSetState n _ | ORevoke n | ODelete n => n
  end.
Definition op_table (o : Op) (t : gmap string Row) : gmap string Row :=
  match o with
  | OSave p => upsert (peer_params p) t
  | OSeen n x => alter (row_set_last_seen (as_i64 x)) (NodeId_to_hex n) t
  | OSetState n s => alter (row_set_state (TrustState_as_str s)) (NodeId_to_hex n) t
  | ORevoke n => alter (row_set_state (TrustState_as_str Revoked)) (NodeId_to_hex n) t
  | ODelete n => delete (NodeId_to_hex n) t
  end.

Fixpoint run_ops (os : list Op) : st TrustStore IdentityError unit :=
  match os with
  | [] => mret tt
  | o :: os' => _ ← run_op o; run_ops os'
  end.
End Store.

(** ** Lemmas *)

Lemma TrustState_roundtrip s : TrustState_from_str (TrustState_as_str s) = s.
Proof. destruct s; vm_compute; done. Qed.

Lemma TrustState_as_str_inj a b : TrustState_as_str a = TrustState_as_str b → a = b.
Proof. destruct a, b; done. Qed.

Lemma clamp_as_i64 t : in_width 64 t → Z.max (as_i64 t) 0 = clamp t.
Proof.
  intros H. unfold as_i64, as_u64, clamp. rewrite wrap_small by done.
  destruct H. repeat case_decide; lia.
Qed.

Section StoreLemmas.
Context `{Ed25519, Hex, !Ed25519Laws, !HexLaws}.

Lemma row_to_peer_params p : peer_ok p → row_to_peer (peer_params p) = Ok (norm p).
Proof.
  intros [Hf Hl]. unfold row_to_peer, peer_params. simpl.
  unfold NodeId_from_str. rewrite NodeId_hex_ok. simpl.
  rewrite hex_decode_encode. simpl. rewrite to_array_arr. simpl.
  rewrite PublicKey_from_to_bytes. simpl.
  rewrite DeviceType_roundtrip, TrustState_roundtrip, !clamp_as_i64 by done. done.
Qed.

(** A row that reads back has a key pair that reads back; the other columns are
    converted one by one. *)
Definition row_keys (r : Row) (n : NodeId) (k : PublicKey) : Prop :=
  NodeId_from_str (r_node_id r) = Ok n ∧
  ∃ pb pa, hex_decode (r_public_key r) = Ok pb ∧ to_array 32 pb = Some pa
    ∧ PublicKey_from_bytes pa = Ok k.

Definition row_peer (r : Row) (n : NodeId) (k : PublicKey) : TrustedPeer := {|
  tp_node_id := n; tp_public_key := k; tp_device_name := r_device_name r;
  tp_device_type := DeviceType_from_str (r_device_type r);
  tp_first_paired_at := Z.max (r_first_paired_at r) 0;
  tp_last_seen_at := Z.max (r_last_seen_at r) 0;
  tp_trust_state := TrustState_from_str (r_trust_state r) |}.

Lemma row_to_peer_iff r q : row_to_peer r = Ok q ↔ ∃ n k, row_keys r n k ∧ q = row_peer r n k.
Proof.
  unfold row_to_peer, row_keys. split.
  - intros Hq.
    destruct (NodeId_from_str (r_node_id r)) as [n|] eqn:E1; [|done]. simpl in Hq.
    destruct (hex_decode (r_public_key r)) as [pb|] eqn:E2; [|done]. simpl in Hq.
    destruct (to_array 32 pb) as [pa|] eqn:E3; [|done]. simpl in Hq.
    destruct (PublicKey_from_bytes pa) as [k|] eqn:E4; [|done]. simpl in Hq. simplify_eq.
    exists n, k. split; [|done]. split; [done|]. by exists pb, pa.
  - intros (n & k & (-> & pb & pa & -> & E3 & E4) & ->). simpl. rewrite E3. simpl. by rewrite E4.
Qed.

Lemma row_to_peer_conflict p old q :
  peer_ok p → row_to_peer old = Ok q → tp_node_id q = tp_node_id p →
  row_to_peer (on_conflict old (peer_params p))
  = Ok (with_first_paired (tp_first_paired_at q) (norm p)).
Proof.
  intros [Hf Hl] (n & k & [Hn _] & ->)%row_to_peer_iff En. simpl in En. subst n.
  apply row_to_peer_iff. exists (tp_node_id p), (tp_public_key p). split.
  - split; [done|]. exists (arr (PublicKey_to_bytes (tp_public_key p))), (PublicKey_to_bytes (tp_public_key p)).
    simpl. rewrite hex_decode_encode, to_array_arr, PublicKey_from_to_bytes. done.
  - unfold row_peer, on_conflict, peer_params. simpl.
    rewrite DeviceType_roundtrip, TrustState_roundtrip, clamp_as_i64 by done. done.
Qed.

Lemma row_to_peer_seen r q t :
  in_width 64 t → row_to_peer r = Ok q →
  row_to_peer (row_set_last_seen (as_i64 t) r) = Ok (with_last_seen (clamp t) q).
Proof.
  intros Ht (n & k & Hk & ->)%row_to_peer_iff. apply row_to_peer_iff.
  exists n, k. split; [done|]. unfold row_peer, with_last_seen. simpl. by rewrite clamp_as_i64.
Qed.

Lemma row_to_peer_state r q s :
  row_to_peer r = Ok q →
  row_to_peer (row_set_state (TrustState_as_str s) r) = Ok (with_state s q).
Proof.
  intros (n & k & Hk & ->)%row_to_peer_iff. apply row_to_peer_iff.
  exists n, k. split; [done|]. unfold row_peer, with_state. simpl. by rewrite TrustState_roundtrip.
Qed.

(** A table that agrees with the map everywhere but at one entry, and there too. *)
Lemma represents_at (t t' : gmap string Row) (m m' : gmap NodeId TrustedPeer) n :
  represents t m →
  (∀ k, k ≠ NodeId_to_hex n → t' !! k = t !! k) →
  (∀ n', n' ≠ n → m' !! n' = m !! n') →
  match m' !! n with
  | Some p => tp_node_id p = n ∧ ∃ r, t' !! NodeId_to_hex n = Some r ∧ row_to_peer r = Ok p
      ∧ r_trust_state r = TrustState_as_str (tp_trust_state p)
  | None => t' !! NodeId_to_hex n = None
  end →
  represents t' m'.
Proof.
  intros [R1 R2] Ht Hm Hn. split.
  - intros n' p Hp. destruct (decide (n' = n)) as [->|Hne]; [by rewrite Hp in Hn|].
    rewrite Hm in Hp by done. apply R1 in Hp as (? & r & ? & ?).
    split; [done|]. exists r. rewrite Ht; [done|]. by intros ?%NodeId_to_hex_inj.
  - intros k r Hk. destruct (decide (k = NodeId_to_hex n)) as [->|Hne].
    + destruct (m' !! n) as [p|] eqn:E; [by exists n, p|congruence].
    + rewrite Ht in Hk by done. destruct (R2 _ _ Hk) as (n' & p & -> & ?).
      exists n', p. split; [done|]. rewrite Hm; [done|congruence].
Qed.

Lemma represents_None t m n :
  represents t m → m !! n = None → t !! NodeId_to_hex n = None.
Proof.
  intros [_ R2] Hn. destruct (t !! NodeId_to_hex n) as [r|] eqn:E; [|done].
  destruct (R2 _ _ E) as (n' & p & En & ?). apply NodeId_to_hex_inj in En. congruence.
Qed.

Lemma op_represents o t m :
  op_ok o → represents t m → represents (op_table o t) (a_op o m).
Proof.
  intros Ho R. pose proof R as [R1 _].
  apply (represents_at t _ m _ (op_node o) R).
  - intros k Hk. destruct o as [p|n x|n x|n|n]; simpl in *.
    + unfold upsert. by rewrite lookup_insert_ne.
    + by rewrite lookup_alter_ne.
    + by rewrite lookup_alter_ne.
    + by rewrite lookup_alter_ne.
    + by rewrite lookup_delete_ne.
  - intros k Hk. destruct o as [p|n x|n x|n|n]; simpl in *.
    + unfold a_save. by rewrite lookup_insert_ne.
    + unfold a_seen. by rewrite lookup_alter_ne.
    + unfold a_set_state. by rewrite lookup_alter_ne.
    + unfold a_set_state. by rewrite lookup_alter_ne.
    + by rewrite lookup_delete_ne.
  - destruct o as [p|n x|n x|n|n]; simpl in *;
      [unfold a_save, upsert; rewrite !lookup_insert_eq|
       unfold a_seen; rewrite !lookup_alter_eq|
       unfold a_set_state; rewrite !lookup_alter_eq..|by rewrite !lookup_delete_eq].
    + destruct (m !! tp_node_id p) as [q|] eqn:E; simpl.
      * destruct (R1 _ _ E) as (En & r & -> & Hr & _). split; [done|].
        eexists. split; [done|]. split; [by apply row_to_peer_conflict|done].
      * rewrite (represents_None t m) by done. split; [done|].
        eexists. split; [done|]. split; [by apply row_to_peer_params|done].
    + destruct (m !! n) as [q|] eqn:E; simpl; [|by rewrite (represents_None t m)].
      destruct (R1 _ _ E) as (En & r & -> & Hr & Hst). split; [done|].
      eexists. split; [done|]. split; [by apply row_to_peer_seen|done].
    + destruct (m !! n) as [q|] eqn:E; simpl; [|by rewrite (represents_None t m)].
      destruct (R1 _ _ E) as (En & r & -> & Hr & _). split; [done|].
      eexists. split; [done|]. split; [by apply row_to_peer_state|done].
    + destruct (m !! n) as [q|] eqn:E; simpl; [|by rewrite (represents_None t m)].
      destruct (R1 _ _ E) as (En & r & -> & Hr & _). split; [done|].
      eexists. split; [done|]. split; [by apply (row_to_peer_state r q Revoked)|done].
Qed.

(** One statement either meets a fault and changes nothing, or takes effect. *)
Lemma run_op_spec o s :
  ∃ s', sql_faults s' = tail (sql_faults s) ∧
  (run_op o s = (Ok tt, s') ∧ peers_table s' = op_table o (peers_table s)
   ∨ ∃ e, run_op o s = (Err (Database (SqlFault e)), s') ∧ peers_table s' = peers_table s
          ∧ head (sql_faults s) = Some (Some e)).
Proof.
  exists (run_op o s).2. destruct o as [p|n x|n x|n|n]; simpl;
    unfold save_peer, update_last_seen, revoke_peer, set_trust_state, delete_peer, sql,
      mbind, st_bind; simpl;
    destruct (head (sql_faults s)) as [[e|]|]; simpl; eauto 10.
Qed.

Definition no_fault (s : TrustStore) : Prop :=
  head (sql_faults s) = None ∨ head (sql_faults s) = Some None.

Lemma get_peer_spec n s m :
  represents (peers_table s) m → no_fault s → (get_peer n s).1 = Ok (m !! n).
Proof.
  intros R Hf. pose proof R as [R1 _]. unfold get_peer, sql, mbind, st_bind.
  destruct (m !! n) as [q|] eqn:E.
  - destruct (R1 _ _ E) as (En & r & Er & Hr & _).
    destruct Hf as [-> | ->]; simpl; rewrite Er; unfold lift; by rewrite Hr.
  - destruct Hf as [-> | ->]; simpl; by rewrite (represents_None _ m n R E).
Qed.

Lemma is_trusted_spec n k s m :
  represents (peers_table s) m → no_fault s →
  (is_trusted n k s).1 = a_is_trusted n k m
  ∧ peers_table (is_trusted n k s).2 = peers_table s
  ∧ sql_faults (is_trusted n k s).2 = tail (sql_faults s).
Proof.
  intros R Hf. pose proof R as [R1 _]. unfold is_trusted, get_peer, sql, a_is_trusted.
  unfold mbind, st_bind.
  destruct (m !! n) as [q|] eqn:E.
  - destruct (R1 _ _ E) as (En & r & Er & Hr & _).
    destruct Hf as [-> | ->]; simpl; rewrite Er; unfold lift; rewrite Hr; simpl;
      (destruct (decide (tp_public_key q ≠ k)); [rewrite decide_False by done; done|]);
      rewrite decide_True by (by apply dec_stable); by destruct (tp_trust_state q).
  - assert (peers_table s !! NodeId_to_hex n = None) as Er by by apply (represents_None _ m).
    destruct Hf as [-> | ->]; simpl; by rewrite Er.
Qed.

(** Reading the rows of a table that represents [m] gives the peers of [m]. *)
Lemma collect_rows_ok rows :
  Forall (λ r, ∃ p, row_to_peer r = Ok p) rows →
  ∃ ps, collect_rows rows = Ok ps ∧ Forall2 (λ r p, row_to_peer r = Ok p) rows ps.
Proof.
  induction 1 as [|r rows [p Hp] _ (ps & E & IH)]; [by exists []|].
  exists (p :: ps). simpl. rewrite Hp. simpl. rewrite E. split; [done|by constructor].
Qed.

Lemma elem_of_rows (t : gmap string Row) r :
  r ∈ rows_by_last_seen t ↔ ∃ k, t !! k = Some r.
Proof.
  unfold rows_by_last_seen. rewrite merge_sort_Permutation, list_elem_of_fmap. split.
  - intros ([k r'] & -> & ?%elem_of_map_to_list). by exists k.
  - intros [k Hk]. exists (k, r). split; [done|]. by apply elem_of_map_to_list.
Qed.

#[local] Instance later_total : Total later.
Proof. intros a b. unfold later. lia. Qed.
#[local] Instance later_trans : Transitive later.
Proof. intros a b c. unfold later. lia. Qed.

Lemma rows_sorted (t : gmap string Row) : StronglySorted later (rows_by_last_seen t).
Proof. apply StronglySorted_merge_sort; apply _. Qed.

Lemma collect_sorted rows ps :
  StronglySorted later rows → Forall2 (λ r p, row_to_peer r = Ok p) rows ps →
  StronglySorted (λ p q, tp_last_seen_at q ≤ tp_last_seen_at p) ps.
Proof.
  intros Hs HF. revert Hs. induction HF as [|r p rows ps Hr HF IH]; intros Hs; [constructor|].
  apply StronglySorted_cons in Hs as [Hr' Hs]. constructor; [by apply IH|].
  apply row_to_peer_iff in Hr as (n & k & _ & ->). clear IH Hs.
  revert Hr'. induction HF as [|r2 p2 rows ps Hr2 HF IH]; intros Hr'; [done|].
  apply Forall_cons in Hr' as [? ?]. constructor; [|by apply IH].
  apply row_to_peer_iff in Hr2 as (n2 & k2 & _ & ->). unfold later in *. simpl. lia.
Qed.
End StoreLemmas.

(** ** Properties *)

(** C8: the SQLite table implements a map from node identifiers to peers.  Every
    mutating operation, under any database fault, either performs the abstract
    operation (a re-saved peer keeps its first pairing time) or reports the fault
    and leaves the table as it was; and reading a peer is looking it up. *)
Theorem trust_store_refines `{Ed25519, Hex, !Ed25519Laws, !HexLaws}
    (s : TrustStore) (m : gmap NodeId TrustedPeer) (o : Op) :
  op_ok o → represents (peers_table s) m →
  match run_op o s with
  | (Ok _, s') => represents (peers_table s') (a_op o m)
      ∧ ∀ n, no_fault s' → (get_peer n s').1 = Ok (a_op o m !! n)
  | (Err e, s') => (∃ msg, e = Database (SqlFault msg)) ∧ peers_table s' = peers_table s
  end.
Proof.
  intros Ho R. destruct (run_op_spec o s) as (s' & _ & [(-> & Ht) | (e & -> & Ht & _)]).
  - pose proof (op_represents o _ m Ho R) as R'. rewrite <-Ht in R'.
    split; [done|]. intros n Hn. by apply get_peer_spec.
  - eauto.
Qed.

(** The trust decision.  A presented key is trusted exactly when the stored
    peer has that key and is in state [Trusted]; a different key under a known
    identifier is a key mismatch, a revoked peer with the right key is refused,
    and everybody else is untrusted without an error. *)
Theorem is_trusted_decision `{Ed25519, Hex, !Ed25519Laws, !HexLaws}
    (s : TrustStore) (m : gmap NodeId TrustedPeer) (n : NodeId) (k : PublicKey) :
  represents (peers_table s) m → no_fault s →
  let r := (is_trusted n k s).1 in
  (r = Ok true ↔ ∃ p, m !! n = Some p ∧ tp_public_key p = k ∧ tp_trust_state p = Trusted)
  ∧ (r = Ok false ↔ m !! n = None
       ∨ ∃ p, m !! n = Some p ∧ tp_public_key p = k ∧ tp_trust_state p = Pending)
  ∧ (r = Err (PeerRevoked n) ↔ ∃ p, m !! n = Some p ∧ tp_public_key p = k ∧ tp_trust_state p = Revoked)
  ∧ ((∃ x y, r = Err (KeyMismatch n x y)) ↔ ∃ p, m !! n = Some p ∧ tp_public_key p ≠ k)
  ∧ peers_table (is_trusted n k s).2 = peers_table s.
Proof.
  intros R Hf. destruct (is_trusted_spec n k s m R Hf) as (E & Et & _). simpl. rewrite E.
  unfold a_is_trusted. destruct (m !! n) as [p|]; [case_decide; [destruct (tp_trust_state p) eqn:?|]|];
    (split_and!; [solve_iff..|done]).
Qed.

(** What re-admits a peer: saving it again, setting its state, or forgetting it. *)
Definition readmits `{Ed25519, Hex} (n : NodeId) (o : Op) : Prop :=
  match o with
  | OSave p => tp_node_id p = n
  | OSetState n' _ | ODelete n' => n' = n
  | _ => False
  end.

(** C21: revocation lasts.  Once a peer is revoked, no sequence of operations on
    other peers, of [update_last_seen] and of further revocations, under any
    faults, makes [is_trusted] answer [true] for it, whatever key is presented. *)
Theorem revocation_lasts `{Ed25519, Hex, !Ed25519Laws, !HexLaws}
    (os : list Op) (s : TrustStore) (m : gmap NodeId TrustedPeer) (n : NodeId) (p : TrustedPeer) :
  represents (peers_table s) m → m !! n = Some p → tp_trust_state p = Revoked →
  Forall (λ o, op_ok o ∧ ¬ readmits n o) os →
  ∀ k, (is_trusted n k (run_ops os s).2).1 ≠ Ok true.
Proof.
  intros R Hn Hp Hos k. revert s m p R Hn Hp. induction Hos as [|o os [Ho Hr] Hos IH]; intros s m p R Hn Hp.
  - simpl. destruct (head (sql_faults s)) as [[e|]|] eqn:Eh.
    { unfold is_trusted, get_peer, sql, mbind, st_bind. by rewrite Eh. }
    all: destruct (is_trusted_spec n k s m R) as (-> & _); [unfold no_fault; eauto|];
      unfold a_is_trusted; rewrite Hn; case_decide; [by rewrite Hp|done].
  - simpl. destruct (run_op_spec o s) as (s' & _ & [(E & Ht) | (e & E & Ht & _)]).
    + rewrite (st_bind_ok _ _ _ _ _ E).
      assert (∃ q, a_op o m !! n = Some q ∧ tp_trust_state q = Revoked) as (q & Hq & Hqs).
      { destruct o as [p'|n' x|n' x|n'|n']; simpl in Hr |- *.
        - unfold a_save. rewrite lookup_insert_ne by done. eauto.
        - unfold a_seen. destruct (decide (n' = n)) as [->|];
            [rewrite lookup_alter_eq, Hn; eauto|rewrite lookup_alter_ne by done; eauto].
        - unfold a_set_state. rewrite lookup_alter_ne by done. eauto.
        - unfold a_set_state. destruct (decide (n' = n)) as [->|];
            [rewrite lookup_alter_eq, Hn; eauto|rewrite lookup_alter_ne by done; eauto].
        - rewrite lookup_delete_ne by done. eauto. }
      apply (IH s' (a_op o m) q); [|done..].
      rewrite Ht. by apply op_represents.
    + rewrite (st_bind_err _ _ _ _ _ E). simpl.
      destruct (head (sql_faults s')) as [[e'|]|] eqn:Eh.
      { unfold is_trusted, get_peer, sql, mbind, st_bind. by rewrite Eh. }
      all: destruct (is_trusted_spec n k s' m) as (-> & _); [by rewrite Ht|unfold no_fault; eauto|];
        unfold a_is_trusted; rewrite Hn; case_decide; [by rewrite Hp|done].
Qed.

(** [list_trusted_peers] lists exactly the peers in state [Trusted], most
    recently seen first. *)
Theorem list_trusted_exact `{Ed25519, Hex, !Ed25519Laws, !HexLaws}
    (s : TrustStore) (m : gmap NodeId TrustedPeer) :
  represents (peers_table s) m → no_fault s →
  ∃ ps, (list_trusted_peers s).1 = Ok ps
    ∧ (∀ p, p ∈ ps ↔ m !! tp_node_id p = Some p ∧ tp_trust_state p = Trusted)
    ∧ StronglySorted (λ p q, tp_last_seen_at q ≤ tp_last_seen_at p) ps.
Proof.
  intros R Hf. pose proof R as [R1 R2].
  set (t := filter (λ kr : string * Row, r_trust_state kr.2 = "trusted") (peers_table s)).
  assert (∀ r, r ∈ rows_by_last_seen t ↔ ∃ n p, m !! n = Some p ∧ tp_trust_state p = Trusted
      ∧ row_to_peer r = Ok p ∧ peers_table s !! NodeId_to_hex n = Some r) as Hrows.
  { intros r. rewrite elem_of_rows. split.
    - intros [k [Hk Hs]%map_lookup_filter_Some].
      destruct (R2 _ _ Hk) as (n & p & -> & Hp). destruct (R1 _ _ Hp) as (_ & r' & Er & Hr & Hst).
      exists n, p. simplify_eq. split_and!; [done| |done|done].
      apply TrustState_as_str_inj. rewrite <-Hst. exact Hs.
    - intros (n & p & Hp & Hst & _ & Er). exists (NodeId_to_hex n).
      apply map_lookup_filter_Some. split; [done|]. simpl.
      destruct (R1 _ _ Hp) as (_ & r' & Er' & _ & Hst').
      assert (r' = r) as -> by congruence. by rewrite Hst', Hst. }
  destruct (collect_rows_ok (rows_by_last_seen t)) as (ps & Eps & HF).
  { apply Forall_forall. intros r (n & p & _ & _ & Hr & _)%Hrows. eauto. }
  exists ps. split_and!.
  - unfold list_trusted_peers, sql, mbind, st_bind, lift.
    destruct Hf as [Hf|Hf]; rewrite Hf; simpl; fold t; by rewrite Eps.
  - intros p. split.
    + intros (i & Hi)%list_elem_of_lookup.
      destruct (Forall2_lookup_r _ _ _ _ _ HF Hi) as (r & Hr & Hrp).
      destruct (proj1 (Hrows r) (list_elem_of_lookup_2 _ _ _ Hr)) as (n & q & Hq & Hs & Hrq & _).
      assert (p = q) as -> by congruence. destruct (R1 _ _ Hq) as (-> & _). done.
    + intros [Hp Hs]. destruct (R1 _ _ Hp) as (_ & r & Er & Hr & _).
      assert (r ∈ rows_by_last_seen t) as (i & Hi)%list_elem_of_lookup by (apply Hrows; eauto 10).
      destruct (Forall2_lookup_l _ _ _ _ _ HF Hi) as (q & Hq & Hrq).
      assert (p = q) as -> by congruence. by apply list_elem_of_lookup_2 in Hq.
  - eapply collect_sorted; [apply rows_sorted|done].
Qed.

(** ** Witnesses *)

Section Witnesses.
Import Toy.

Definition sample_key : IdentityKey := IdentityKey_generate (arr_rep 32 x05).
Definition sample_node : NodeId := IdentityKey_node_id sample_key.
Definition sample_peer : TrustedPeer := {|
  tp_node_id := sample_node; tp_public_key := public_key sample_key;
  tp_device_name := "Phone"; tp_device_type := Android;
  tp_first_paired_at := 100; tp_last_seen_at := 200; tp_trust_state := Trusted |}.
Definition empty_store : TrustStore :=
  {| peers_table := ∅; schema_versions := [1]; sql_faults := [] |}.
Definition sample_map : gmap NodeId TrustedPeer := a_op (OSave sample_peer) ∅.
Definition sample_store : TrustStore :=
  with_table (op_table (OSave sample_peer) ∅) empty_store.

Lemma empty_represents : represents ∅ ∅.
Proof. split; intros ? ?; by rewrite lookup_empty. Qed.
Lemma sample_op_ok : op_ok (OSave sample_peer).
Proof. split; vm_compute; split; congruence. Qed.
Lemma sample_represents : represents (peers_table sample_store) sample_map.
Proof. apply (op_represents (OSave sample_peer)); [apply sample_op_ok|apply empty_represents]. Qed.

Example trust_store_refines_witness :
  represents (peers_table (run_op (OSave sample_peer) empty_store).2) sample_map.
Proof.
  exact (proj1 (trust_store_refines empty_store ∅ (OSave sample_peer) sample_op_ok empty_represents)).
Defined.

Example is_trusted_decision_witness :
  (is_trusted sample_node (public_key sample_key) sample_store).1 = Ok true.
Proof.
  apply (is_trusted_decision sample_store sample_map sample_node (public_key sample_key)
    sample_represents (or_introl eq_refl)).
  exists (norm sample_peer). split; [apply lookup_insert_eq|split; reflexivity].
Defined.

Example revocation_lasts_witness :
  (is_trusted sample_node (public_key sample_key)
     (run_ops [OSeen sample_node 300] (run_op (ORevoke sample_node) sample_store).2).2).1 ≠ Ok true.
Proof.
  apply (revocation_lasts [OSeen sample_node 300] (run_op (ORevoke sample_node) sample_store).2
    (a_op (ORevoke sample_node) sample_map) sample_node (with_state Revoked (norm sample_peer))).
  - exact (op_represents (ORevoke sample_node) _ _ I sample_represents).
  - simpl. unfold a_set_state, sample_map. simpl. unfold a_save. rewrite lookup_alter_eq, lookup_insert_eq. reflexivity.
  - reflexivity.
  - repeat constructor; vm_compute; try congruence.
Defined.

Example list_trusted_exact_witness :
  ∃ ps, (list_trusted_peers sample_store).1 = Ok ps
    ∧ (∀ p, p ∈ ps ↔ sample_map !! tp_node_id p = Some p ∧ tp_trust_state p = Trusted)
    ∧ StronglySorted (λ p q, tp_last_seen_at q ≤ tp_last_seen_at p) ps.
Proof. exact (list_trusted_exact sample_store sample_map sample_represents (or_introl eq_refl)). Defined.

End Witnesses.
