(* ===== verification/Pairing.v ===== *)
(** * Pairing: [crates/bridge-identity/src/pairing.rs]

    The pairing ceremony: two devices exchange their public keys and nonces, show
    their users the same short authentication string (SAS), and sign it.  A
    [PairingSession] is the state of one side; what the source draws from the
    random generator and from the clock is an argument.

    [session_reach] is the set of sessions the public operations can produce, and
    [session_inv] the invariant they keep. *)
From S2P Require Import Prelude Text External Core Fs Keys Trust.

(** Lexicographic order on byte arrays, [<=] of [[u8; 32]]. *)
Fixpoint bytes_le (l k : list byte) : bool :=
  match l, k with
  | [], _ => true
  | _ :: _, [] => false
  | a :: l', b :: k' =>
    if decide (b2z a < b2z b) then true
    else if decide (b2z b < b2z a) then false
    else bytes_le l' k'
  end.
Definition node_le (a b : NodeId) : bool := bytes_le (arr (node_bytes a)) (arr (node_bytes b)).

(** ** Short authentication strings *)

Record SasVerification := { numeric_pin : u32; formatted_pin : string; hex_fingerprint : string }.
#[global] Instance SasVerification_eq_dec : EqDecision SasVerification.
Proof. solve_decision. Defined.

Section Pairing.
Context `{Ed25519, Sha256, Hex}.

Definition SasVerification_derive (node_a node_b : NodeId) (nonce_a nonce_b : array 32) :
    SasVerification :=
  let hasher := sha_new in
  let hasher := sha_update hasher (as_bytes "BridgeOS-Pairing-SAS-v1") in
  let hasher :=
    if node_le node_a node_b then
      let hasher := sha_update hasher (arr (node_bytes node_a)) in
      let hasher := sha_update hasher (arr (node_bytes node_b)) in
      let hasher := sha_update hasher (arr nonce_a) in
      sha_update hasher (arr nonce_b)
    else
      let hasher := sha_update hasher (arr (node_bytes node_b)) in
      let hasher := sha_update hasher (arr (node_bytes node_a)) in
      let hasher := sha_update hasher (arr nonce_b) in
      sha_update hasher (arr nonce_a) in
  let digest := arr (sha_finalize hasher) in
  let val := be_val (slice 0 8 digest) in
  let pin := as_u32 (val mod 1000000) in
  {| numeric_pin := pin;
     formatted_pin := dec03 (pin / 1000) +:+ "-" +:+ dec03 (pin mod 1000);
     hex_fingerprint := hex_encode (slice 0 4 digest) |}.

(** ** Wire messages *)

Record PairingRequest := {
  rq_node_id : NodeId; rq_public_key : array 32; rq_device_name : string;
  rq_device_type : DeviceType; rq_nonce : array 32; rq_timestamp : u64 }.
Record PairingResponse := {
  rp_node_id : NodeId; rp_public_key : array 32; rp_device_name : string;
  rp_device_type : DeviceType; rp_nonce : array 32; rp_timestamp : u64 }.
Record PairingConfirm := {
  pc_node_id : NodeId; pc_confirmed : bool; pc_signature : list byte }.

(** ** The session *)

Record PairingSession := {
  ps_local_key : IdentityKey; ps_local_name : string; ps_local_type : DeviceType;
  ps_local_nonce : array 32; ps_remote_peer : option TrustedPeer;
  ps_remote_nonce : option (array 32); ps_sas : option SasVerification }.

(** The session with what it has learnt of the other side replaced. *)
Definition with_remote (peer : TrustedPeer) (nonce : array 32) (sas : SasVerification)
    (s : PairingSession) : PairingSession := {|
  ps_local_key := ps_local_key s; ps_local_name := ps_local_name s;
  ps_local_type := ps_local_type s; ps_local_nonce := ps_local_nonce s;
  ps_remote_peer := Some peer; ps_remote_nonce := Some nonce; ps_sas := Some sas |}.
Definition with_remote_peer (peer : TrustedPeer) (s : PairingSession) : PairingSession := {|
  ps_local_key := ps_local_key s; ps_local_name := ps_local_name s;
  ps_local_type := ps_local_type s; ps_local_nonce := ps_local_nonce s;
  ps_remote_peer := Some peer; ps_remote_nonce := ps_remote_nonce s; ps_sas := ps_sas s |}.

Definition new_initiator (local_key : IdentityKey) (local_name : string) (local_type : DeviceType)
    (local_nonce : array 32) (now : u64) : PairingSession * PairingRequest :=
  let req := {|
    rq_node_id := IdentityKey_node_id local_key;
    rq_public_key := PublicKey_to_bytes (public_key local_key);
    rq_device_name := local_name; rq_device_type := local_type;
    rq_nonce := local_nonce; rq_timestamp := now |} in
  ({| ps_local_key := local_key; ps_local_name := rq_device_name req;
      ps_local_type := local_type; ps_local_nonce := local_nonce;
      ps_remote_peer := None; ps_remote_nonce := None; ps_sas := None |}, req).

Definition new_responder (local_key : IdentityKey) (local_name : string) (local_type : DeviceType)
    (request : PairingRequest) (local_nonce : array 32) (now : u64) :
    result IdentityError (PairingSession * PairingResponse * SasVerification) :=
  remote_pubkey ← map_err CoreErr (PublicKey_from_bytes (rq_public_key request));
  if decide (PublicKey_node_id remote_pubkey ≠ rq_node_id request) then
    Err (KeyMismatch (rq_node_id request) (NodeId_to_hex (rq_node_id request))
           (NodeId_to_hex (PublicKey_node_id remote_pubkey)))
  else
    let sas := SasVerification_derive (IdentityKey_node_id local_key) (rq_node_id request)
                 local_nonce (rq_nonce request) in
    let resp := {|
      rp_node_id := IdentityKey_node_id local_key;
      rp_public_key := PublicKey_to_bytes (public_key local_key);
      rp_device_name := local_name; rp_device_type := local_type;
      rp_nonce := local_nonce; rp_timestamp := now |} in
    let remote_peer := {|
      tp_node_id := rq_node_id request; tp_public_key := remote_pubkey;
      tp_device_name := rq_device_name request; tp_device_type := rq_device_type request;
      tp_first_paired_at := now; tp_last_seen_at := now; tp_trust_state := Pending |} in
    Ok ({| ps_local_key := local_key; ps_local_name := rp_device_name resp;
           ps_local_type := local_type; ps_local_nonce := local_nonce;
           ps_remote_peer := Some remote_peer; ps_remote_nonce := Some (rq_nonce request);
           ps_sas := Some sas |}, resp, sas).

Definition initiator_receive_response (response : PairingResponse) (now : u64) :
    st PairingSession IdentityError SasVerification :=
  remote_pubkey ← lift (map_err CoreErr (PublicKey_from_bytes (rp_public_key response)));
  if decide (PublicKey_node_id remote_pubkey ≠ rp_node_id response) then
    fail (KeyMismatch (rp_node_id response) (NodeId_to_hex (rp_node_id response))
            (NodeId_to_hex (PublicKey_node_id remote_pubkey)))
  else
    self ← get;
    let sas := SasVerification_derive (IdentityKey_node_id (ps_local_key self))
                 (rp_node_id response) (ps_local_nonce self) (rp_nonce response) in
    let remote_peer := {|
      tp_node_id := rp_node_id response; tp_public_key := remote_pubkey;
      tp_device_name := rp_device_name response; tp_device_type := rp_device_type response;
      tp_first_paired_at := now; tp_last_seen_at := now; tp_trust_state := Pending |} in
    _ ← modify (with_remote remote_peer (rp_nonce response) sas);
    mret sas.

Definition compute_confirmation_hash (self : PairingSession) (sas : SasVerification) : array 32 :=
  let hasher := sha_new in
  let hasher := sha_update hasher (as_bytes "BridgeOS-Pairing-Confirm-v1") in
  let hasher := sha_update hasher (as_bytes (formatted_pin sas)) in
  let hasher :=
    match ps_remote_peer self, ps_remote_nonce self with
    | Some remote, Some rn =>
      if node_le (IdentityKey_node_id (ps_local_key self)) (tp_node_id remote) then
        sha_update (sha_update hasher (arr (ps_local_nonce self))) (arr rn)
      else
        sha_update (sha_update hasher (arr rn)) (arr (ps_local_nonce self))
    | _, _ => sha_update hasher (arr (ps_local_nonce self))
    end in
  sha_finalize hasher.

Definition confirm (self : PairingSession) : result IdentityError PairingConfirm :=
  sas ← ok_or (PairingFailed "Cannot confirm pairing before SAS derivation") (ps_sas self);
  let commitment := compute_confirmation_hash self sas in
  let signature := IdentityKey_sign (ps_local_key self) (arr commitment) in
  Ok {| pc_node_id := IdentityKey_node_id (ps_local_key self);
        pc_confirmed := true; pc_signature := arr signature |}.

Definition finalize (confirmation : PairingConfirm) : st PairingSession IdentityError TrustedPeer :=
  if negb (pc_confirmed confirmation) then
    fail (PairingFailed "Remote peer rejected SAS confirmation")
  else
    self ← get;
    sas ← lift (ok_or (PairingFailed "Cannot finalize pairing before SAS derivation") (ps_sas self));
    let commitment := compute_confirmation_hash self sas in
    remote ← lift (ok_or (PairingFailed "No active remote peer in pairing session")
                     (ps_remote_peer self));
    if decide (pc_node_id confirmation ≠ tp_node_id remote) then
      fail (KeyMismatch (pc_node_id confirmation) (NodeId_to_hex (tp_node_id remote))
              (NodeId_to_hex (pc_node_id confirmation)))
    else
      sig_bytes ← lift (ok_or (Crypto "Invalid confirmation signature length: expected 64 bytes")
                          (to_array 64 (pc_signature confirmation)));
      _ ← lift (map_err CoreErr (PublicKey_verify (tp_public_key remote) (arr commitment) sig_bytes));
      let remote := with_state Trusted remote in
      _ ← modify (with_remote_peer remote);
      mret remote.
End Pairing.

(** ** Reachable sessions *)

Section Reach.
Context `{Ed25519, Sha256, Hex}.

(** Every session is made by [new_initiator] or [new_responder] and changed by
    [initiator_receive_response] and [finalize], successful or not. *)
Inductive session_reach : PairingSession → Prop :=
| reach_initiator k name ty nonce now :
    session_reach (new_initiator k name ty nonce now).1
| reach_responder k name ty req nonce now s resp sas :
    new_responder k name ty req nonce now = Ok (s, resp, sas) → session_reach s
| reach_response s resp now :
    session_reach s → session_reach (initiator_receive_response resp now s).2
| reach_finalize s conf :
    session_reach s → session_reach (finalize conf s).2.

(** The remote peer's identifier is its key, and the SAS shown to the user is
    derived from both identities and both nonces. *)
Definition session_inv (s : PairingSession) : Prop :=
  match ps_remote_peer s, ps_remote_nonce s, ps_sas s with
  | None, None, None => True
  | Some p, Some rn, Some sas =>
    PublicKey_node_id (tp_public_key p) = tp_node_id p
    ∧ sas = SasVerification_derive (IdentityKey_node_id (ps_local_key s)) (tp_node_id p)
              (ps_local_nonce s) rn
  | _, _, _ => False
  end.
End Reach.

(** ** Lemmas *)

Lemma bytes_le_total l k : length l = length k → bytes_le l k = false → bytes_le k l = true.
Proof.
  revert k. induction l as [|a l IH]; intros [|b k] E; simplify_eq/=; [done|].
  repeat case_decide; try done; try lia. by apply IH.
Qed.

Lemma bytes_le_antisym l k :
  length l = length k → bytes_le l k = true → bytes_le k l = true → l = k.
Proof.
  revert k. induction l as [|a l IH]; intros [|b k] E; simplify_eq/=; [done|].
  repeat case_decide; intros; try done; try lia.
  f_equal; [apply (inj b2z); lia|by apply IH].
Qed.

Lemma node_le_total a b : node_le a b = false → node_le b a = true.
Proof. apply bytes_le_total. by rewrite !arr_length. Qed.

Lemma node_le_antisym a b : node_le a b = true → node_le b a = true → a = b.
Proof.
  intros H1 H2. destruct a as [a], b as [b]. f_equal. apply arr_inj.
  apply bytes_le_antisym; [by rewrite !arr_length|done..].
Qed.

(** Distinct identifiers are ordered one way only. *)
Lemma node_le_flip a b : a ≠ b → node_le b a = negb (node_le a b).
Proof.
  intros Hne. destruct (node_le a b) eqn:E1, (node_le b a) eqn:E2; simpl; try done.
  - destruct Hne. by apply node_le_antisym.
  - apply node_le_total in E1. congruence.
Qed.

(** [{:03}] writes three digits below 1000, and writes distinct numbers apart. *)
Definition undec03 (s : string) : Z :=
  foldl (λ acc b, acc * 10 + (b2z b - 48)) 0 (as_bytes s).

Lemma dec03_ok z : 0 ≤ z < 1000 →
  length (as_bytes (dec03 z)) = 3%nat ∧ undec03 (dec03 z) = z
  ∧ Forall (λ b, 48 ≤ b2z b ≤ 57) (as_bytes (dec03 z)).
Proof.
  intros Hz.
  assert (forallb (λ z, bool_decide (length (as_bytes (dec03 z)) = 3%nat)
    && bool_decide (undec03 (dec03 z) = z)
    && bool_decide (Forall (λ b, 48 ≤ b2z b ≤ 57) (as_bytes (dec03 z)))) (seqZ 0 1000) = true)
    as Hall by (vm_compute; reflexivity).
  rewrite forallb_forall in Hall.
  specialize (Hall z). rewrite !andb_true_iff, !bool_decide_eq_true in Hall.
  destruct Hall as [[? ?] ?]; [|done]. apply list_elem_of_In, elem_of_seqZ. lia.
Qed.

Section PairingLemmas.
Context `{Ed25519, Sha256, Hex}.

Lemma derive_flip (a b : NodeId) (na nb : array 32) :
  (a = b → na = nb) → SasVerification_derive a b na nb = SasVerification_derive b a nb na.
Proof.
  intros Hab. unfold SasVerification_derive. destruct (decide (a = b)) as [->|Hne].
  { by rewrite (Hab eq_refl). }
  rewrite (node_le_flip a b) by done. by destruct (node_le a b).
Qed.

Lemma pin_range (a b : NodeId) (na nb : array 32) :
  0 ≤ numeric_pin (SasVerification_derive a b na nb) < 1000000.
Proof.
  unfold SasVerification_derive. cbv zeta. cbn [numeric_pin].
  match goal with |- context [?v mod 1000000] =>
    pose proof (Z.mod_pos_bound v 1000000 ltac:(lia)) end.
  unfold as_u32. rewrite wrap_small; [done|]. split; [lia|]. change (2 ^ 32) with 4294967296. lia.
Qed.

Lemma pin_format (a b : NodeId) (na nb : array 32) :
  let sas := SasVerification_derive a b na nb in
  formatted_pin sas = dec03 (numeric_pin sas / 1000) +:+ "-" +:+ dec03 (numeric_pin sas mod 1000).
Proof. done. Qed.

Lemma new_responder_ok k name ty req nonce now s resp sas :
  new_responder k name ty req nonce now = Ok (s, resp, sas) → session_inv s.
Proof.
  unfold new_responder, mbind, result_bind, map_err.
  destruct (PublicKey_from_bytes (rq_public_key req)) as [pk|]; [|done].
  case_decide as Hn; [done|]. intros ?. simplify_eq. simpl.
 done.
Qed.

Lemma receive_response_inv resp now s :
  session_inv s → session_inv (initiator_receive_response resp now s).2.
Proof.
  intros Hs. unfold initiator_receive_response, mbind, st_bind, lift, map_err.
  destruct (PublicKey_from_bytes (rp_public_key resp)) as [pk|]; [|done].
  case_decide as Hn; [done|]. simpl. done.
Qed.

Lemma receive_response_cases resp now s :
  match initiator_receive_response resp now s with
  | (Ok sas, s') => ps_sas s' = Some sas ∧ ps_local_key s' = ps_local_key s
      ∧ ps_local_nonce s' = ps_local_nonce s
  | (Err _, s') => s' = s
  end.
Proof.
  unfold initiator_receive_response, mbind, st_bind, lift, map_err.
  destruct (PublicKey_from_bytes (rp_public_key resp)) as [pk|]; [|done]. by case_decide.
Qed.

Lemma new_responder_fields k name ty req nonce now s resp sas :
  new_responder k name ty req nonce now = Ok (s, resp, sas) →
  ps_sas s = Some sas ∧ ps_local_key s = k ∧ ps_local_nonce s = nonce.
Proof.
  unfold new_responder, mbind, result_bind, map_err.
  destruct (PublicKey_from_bytes (rq_public_key req)) as [pk|]; [|done].
  case_decide; [done|]. intros ?. by simplify_eq.
Qed.

(** The outcomes of [finalize]: every refusal leaves the session as it was. *)
Lemma finalize_cases conf s :
  (∃ e, finalize conf s = (Err e, s))
  ∨ ∃ sas p sig, ps_sas s = Some sas ∧ ps_remote_peer s = Some p
      ∧ pc_confirmed conf = true ∧ pc_node_id conf = tp_node_id p
      ∧ pc_signature conf = arr (n := 64) sig
      ∧ PublicKey_verify (tp_public_key p) (arr (compute_confirmation_hash s sas)) sig = Ok tt
      ∧ finalize conf s = (Ok (with_state Trusted p), with_remote_peer (with_state Trusted p) s).
Proof.
  unfold finalize. destruct (pc_confirmed conf); simpl; [|left; eauto].
  unfold mbind, st_bind, get, lift, ok_or. destruct (ps_sas s) as [sas|]; simpl; [|left; eauto].
  destruct (ps_remote_peer s) as [p|]; simpl; [|left; eauto].
  case_decide as Hn; [left; unfold fail; eauto|].
  destruct (to_array 64 (pc_signature conf)) as [sig|] eqn:Es; [|left; eauto].
  apply to_array_Some in Es. unfold map_err.
  destruct (PublicKey_verify _ _ _) as [[]|] eqn:Ev; [|left; eauto].
  right. exists sas, p, sig. split_and!; done.
Qed.

Lemma session_inv_reach s : session_reach s → session_inv s.
Proof.
  induction 1 as [| |s resp now _ IH|s conf _ IH].
  - done.
  - by eapply new_responder_ok.
  - by apply receive_response_inv.
  - destruct (finalize_cases conf s) as [[e ->]|(sas & p & sig & Hs & Hp & _ & _ & _ & _ & ->)]; [done|].
    revert IH. unfold session_inv. rewrite Hs, Hp. simpl. rewrite Hs. done.
Qed.

(** [finalize] accepts a signature of the remote key over its own commitment. *)
Lemma finalize_accepts `{!Ed25519Laws} (k : IdentityKey) p sas s c :
  ps_sas s = Some sas → ps_remote_peer s = Some p →
  tp_public_key p = public_key k → tp_node_id p = IdentityKey_node_id k →
  compute_confirmation_hash s sas = c →
  (finalize {| pc_node_id := IdentityKey_node_id k; pc_confirmed := true;
     pc_signature := arr (IdentityKey_sign k (arr c)) |} s).1 = Ok (with_state Trusted p).
Proof.
  intros Hs Hp Hk Hid <-. unfold finalize. simpl.
  unfold mbind, st_bind, get, lift. rewrite Hs, Hp. simpl.
  rewrite decide_False by (by rewrite Hid; intros []).
  rewrite to_array_arr. simpl. by rewrite Hk, verify_sign_ok.
Qed.

(** The two sides of a ceremony commit to the same hash. *)
Lemma confirmation_hash_flip s s' sas p p' :
  ps_remote_peer s = Some p → ps_remote_peer s' = Some p' →
  ps_remote_nonce s = Some (ps_local_nonce s') → ps_remote_nonce s' = Some (ps_local_nonce s) →
  tp_node_id p = IdentityKey_node_id (ps_local_key s') →
  tp_node_id p' = IdentityKey_node_id (ps_local_key s) →
  tp_node_id p ≠ tp_node_id p' →
  compute_confirmation_hash s sas = compute_confirmation_hash s' sas.
Proof.
  intros Hp Hp' Hn Hn' Hi Hi' Hne. unfold compute_confirmation_hash.
  rewrite Hp, Hp', Hn, Hn', <-Hi, <-Hi'. rewrite (node_le_flip _ _ Hne).
  by destruct (node_le _ _).
Qed.
(** The run of an honest ceremony, step by step. *)
Lemma ceremony_run `{!Ed25519Laws} (ki kr : IdentityKey) (ni nr : string) (ti tr : DeviceType)
    (xi xr : array 32) (t1 t2 t3 : u64) :
  IdentityKey_node_id ki ≠ IdentityKey_node_id kr →
  let '(si, req) := new_initiator ki ni ti xi t1 in
  ∃ sr resp sas ci cr,
    new_responder kr nr tr req xr t2 = Ok (sr, resp, sas)
    ∧ let '(sas', si') := initiator_receive_response resp t3 si in
      sas' = Ok sas
      ∧ confirm si' = Ok ci ∧ confirm sr = Ok cr
      ∧ (finalize ci sr).1 = Ok {|
          tp_node_id := IdentityKey_node_id ki; tp_public_key := public_key ki;
          tp_device_name := ni; tp_device_type := ti;
          tp_first_paired_at := t2; tp_last_seen_at := t2; tp_trust_state := Trusted |}
      ∧ (finalize cr si').1 = Ok {|
          tp_node_id := IdentityKey_node_id kr; tp_public_key := public_key kr;
          tp_device_name := nr; tp_device_type := tr;
          tp_first_paired_at := t3; tp_last_seen_at := t3; tp_trust_state := Trusted |}.
Proof.
  intros Hne. simpl. eexists _, _, _, _, _. split.
  { unfold new_responder. cbn [rq_public_key rq_node_id]. rewrite PublicKey_from_to_bytes. simpl.
    rewrite decide_False by (intros Hn; by apply Hn). reflexivity. }
  unfold initiator_receive_response. cbn [rp_public_key rp_node_id].
  rewrite PublicKey_from_to_bytes. unfold mbind at 1, st_bind at 1. simpl.
  rewrite decide_False by (intros Hn; by apply Hn). simpl.
  split; [|split; [reflexivity|split; [reflexivity|]]].
  { f_equal. apply derive_flip. by intros ?%Hne. }
  split; (etrans; [eapply finalize_accepts; [reflexivity..|]|reflexivity]);
    rewrite (derive_flip (IdentityKey_node_id kr)) by (by intros ?%symmetry%Hne);
    eapply confirmation_hash_flip; try reflexivity; simpl; done.
Qed.
End PairingLemmas.

(** ** Properties *)

(** Both sides show the same short authentication string: deriving it with
    the roles exchanged gives the same PIN, format and fingerprint, for any two
    distinct devices (one device paired with itself would need equal nonces). *)
Theorem sas_symmetric `{Sha256, Hex} (a b : NodeId) (na nb : array 32) :
  (a = b → na = nb) →
  SasVerification_derive a b na nb = SasVerification_derive b a nb na.
Proof. apply derive_flip. Qed.

(** The PIN is always below one million, and its displayed form is always
    three digits, a hyphen and three digits, from which the PIN can be read back;
    so two users who see the same text agree on the PIN. *)
Theorem sas_pin_format `{Sha256, Hex} (a b : NodeId) (na nb : array 32) :
  let sas := SasVerification_derive a b na nb in
  0 ≤ numeric_pin sas < 1000000
  ∧ ∃ hi lo, formatted_pin sas = hi +:+ "-" +:+ lo
      ∧ length (as_bytes hi) = 3%nat ∧ length (as_bytes lo) = 3%nat
      ∧ Forall (λ c, 48 ≤ b2z c ≤ 57) (as_bytes hi ++ as_bytes lo)
      ∧ undec03 hi * 1000 + undec03 lo = numeric_pin sas.
Proof.
  intros sas. pose proof (pin_range a b na nb) as Hr. fold sas in Hr. split; [done|].
  assert (0 ≤ numeric_pin sas / 1000 < 1000) as Hd.
  { split; [apply Z.div_pos; lia|apply Z.div_lt_upper_bound; lia]. }
  pose proof (Z.mod_pos_bound (numeric_pin sas) 1000 ltac:(lia)) as Hm.
  apply dec03_ok in Hd as (? & Ed & ?). apply dec03_ok in Hm as (? & Em & ?).
  eexists _, _. split; [apply pin_format|]. fold sas.
  split_and!; [done|done|by apply Forall_app|].
  rewrite Ed, Em. pose proof (Z.div_mod (numeric_pin sas) 1000). lia.
Qed.

(** An honest ceremony completes.  For two devices with distinct
    identities, whatever nonces and clocks, the responder accepts the request,
    the initiator accepts the response, both hold the same SAS, and each accepts
    the other's confirmation and records the other side's name, type and key as
    [Trusted]. *)
Theorem pairing_completes `{Ed25519, Sha256, Hex, !Ed25519Laws}
    (ki kr : IdentityKey) (ni nr : string) (ti tr : DeviceType) (xi xr : array 32) (t1 t2 t3 : u64) :
  IdentityKey_node_id ki ≠ IdentityKey_node_id kr →
  let '(si, req) := new_initiator ki ni ti xi t1 in
  ∃ sr resp sas ci cr,
    new_responder kr nr tr req xr t2 = Ok (sr, resp, sas)
    ∧ let '(sas', si') := initiator_receive_response resp t3 si in
      sas' = Ok sas
      ∧ confirm si' = Ok ci ∧ confirm sr = Ok cr
      ∧ (finalize ci sr).1 = Ok {|
          tp_node_id := IdentityKey_node_id ki; tp_public_key := public_key ki;
          tp_device_name := ni; tp_device_type := ti;
          tp_first_paired_at := t2; tp_last_seen_at := t2; tp_trust_state := Trusted |}
      ∧ (finalize cr si').1 = Ok {|
          tp_node_id := IdentityKey_node_id kr; tp_public_key := public_key kr;
          tp_device_name := nr; tp_device_type := tr;
          tp_first_paired_at := t3; tp_last_seen_at := t3; tp_trust_state := Trusted |}.
Proof. apply ceremony_run. Qed.

(** No peer becomes [Trusted] without its signature.  In every session the
    operations can produce, a successful [finalize] means that the other side
    confirmed, under the identifier it announced, which is its public key, and
    that this key signed the commitment to the SAS derived from both identities
    and both nonces; every refusal leaves the session unchanged. *)
Theorem finalize_safe `{Ed25519, Sha256, Hex} (conf : PairingConfirm) (s : PairingSession) :
  session_reach s →
  match finalize conf s with
  | (Err _, s') => s' = s
  | (Ok p, s') => ∃ rn sig,
    let sas := SasVerification_derive (IdentityKey_node_id (ps_local_key s)) (tp_node_id p)
                 (ps_local_nonce s) rn in
    pc_confirmed conf = true ∧ pc_node_id conf = tp_node_id p
    ∧ PublicKey_node_id (tp_public_key p) = tp_node_id p
    ∧ ps_remote_nonce s = Some rn ∧ ps_sas s = Some sas
    ∧ pc_signature conf = arr (n := 64) sig
    ∧ PublicKey_verify (tp_public_key p) (arr (compute_confirmation_hash s sas)) sig = Ok tt
    ∧ tp_trust_state p = Trusted ∧ ps_remote_peer s' = Some p
  end.
Proof.
  intros Hs%session_inv_reach.
  destruct (finalize_cases conf s) as [[e ->]|(sas & p & sig & Es & Ep & Hc & Hn & Hsig & Hv & ->)];
    [done|].
  unfold session_inv in Hs. rewrite Ep, Es in Hs.
  destruct (ps_remote_nonce s) as [rn|]; [|done]. destruct Hs as [Hk ->].
  exists rn, sig. done.
Qed.

(** ** Witnesses *)

Section Witnesses.
Import Toy.

Definition key_a : IdentityKey := IdentityKey_generate (arr_rep 32 x0a).
Definition key_b : IdentityKey := IdentityKey_generate (arr_rep 32 x0b).

Lemma keys_differ : IdentityKey_node_id key_a ≠ IdentityKey_node_id key_b.
Proof. apply (bool_decide_unpack _). vm_compute. exact I. Defined.

Example sas_symmetric_witness :
  SasVerification_derive (IdentityKey_node_id key_a) (IdentityKey_node_id key_b)
    (arr_rep 32 x01) (arr_rep 32 x02)
  = SasVerification_derive (IdentityKey_node_id key_b) (IdentityKey_node_id key_a)
      (arr_rep 32 x02) (arr_rep 32 x01).
Proof. apply sas_symmetric. intros E. destruct (keys_differ E). Defined.

Example sas_pin_format_witness :
  let sas := SasVerification_derive (IdentityKey_node_id key_a) (IdentityKey_node_id key_b)
    (arr_rep 32 x01) (arr_rep 32 x02) in
  0 ≤ numeric_pin sas < 1000000.
Proof.
  exact (proj1 (sas_pin_format (IdentityKey_node_id key_a) (IdentityKey_node_id key_b)
    (arr_rep 32 x01) (arr_rep 32 x02))).
Defined.

Example pairing_completes_witness :
  let '(si, req) := new_initiator key_a "Laptop" Linux (arr_rep 32 x01) 10 in
  ∃ sr resp sas, new_responder key_b "Phone" Android req (arr_rep 32 x02) 11 = Ok (sr, resp, sas).
Proof.
  destruct (pairing_completes key_a key_b "Laptop" "Phone" Linux Android
    (arr_rep 32 x01) (arr_rep 32 x02) 10 11 12 keys_differ) as (sr & resp & sas & _ & _ & E & _).
  exists sr, resp, sas. exact E.
Defined.

Example finalize_safe_witness :
  let s := (new_initiator key_a "Laptop" Linux (arr_rep 32 x01) 10).1 in
  (finalize {| pc_node_id := IdentityKey_node_id key_b; pc_confirmed := true;
               pc_signature := [] |} s).2 = s.
Proof.
  intros s.
  exact (finalize_safe {| pc_node_id := IdentityKey_node_id key_b; pc_confirmed := true;
    pc_signature := [] |} s (reach_initiator key_a "Laptop" Linux (arr_rep 32 x01) 10)).
Defined.

End Witnesses.
