(* ===== verification/TransferMsg.v ===== *)
(** * TransferMsg: [crates/bridge-transfer/src/{error,message,manifest}.rs]

    File manifests, chunks and the messages of the file-transfer channel, with
    their Postcard format. *)
From S2P Require Import Prelude Text External Codec Core Protocol Fs.

(** ** [error.rs] *)

Inductive TransferError :=
| ChunkHashMismatch (index : u32) (expected actual : string)
| RootHashMismatch (expected actual : string)
| ChunkOutOfBounds (index total_chunks : u32)
| InvalidChunkSize (index : u32) (expected actual : usize)
| InvalidResumeOffset (requested_chunk total_chunks : u32)
| TIo (msg : string)
| TProtocol (msg : string)
| TCancelled (msg : string)
| TBridge (e : BridgeError).

Definition TransferError_to_string (e : TransferError) : string :=
  match e with
  | ChunkHashMismatch i x a => "Chunk " +:+ dec i +:+ " Blake3 hash mismatch: expected " +:+ x
      +:+ ", calculated " +:+ a
  | RootHashMismatch x a => "Whole-file Blake3 root hash mismatch: expected " +:+ x
      +:+ ", calculated " +:+ a
  | ChunkOutOfBounds i t => "Chunk index " +:+ dec i +:+ " out of bounds (total chunks: " +:+ dec t +:+ ")"
  | InvalidChunkSize i x a => "Chunk " +:+ dec i +:+ " size " +:+ dec a
      +:+ " bytes is invalid (expected " +:+ dec x +:+ " bytes)"
  | InvalidResumeOffset r t => "Requested resume chunk " +:+ dec r +:+ " exceeds total chunks " +:+ dec t
  | TIo m => "I/O error during transfer: " +:+ m
  | TProtocol m => "Transfer protocol error: " +:+ m
  | TCancelled m => "Transfer cancelled: " +:+ m
  | TBridge e => "Underlying bridge error: " +:+ BridgeError_to_string e
  end.

(** ** [message.rs] *)

Definition CHUNK_SIZE : usize := 64 * 1024.
#[global] Arguments CHUNK_SIZE : simpl never.

Record FileManifest := {
  fm_file_id : string; fm_filename : string; fm_total_size : u64;
  fm_total_chunks : u32; fm_blake3_root_hash : array 32 }.
Record FileChunk := {
  fc_file_id : string; fc_chunk_index : u32; fc_offset : u64;
  fc_data : list byte; fc_blake3_hash : array 32 }.
#[global] Instance FileManifest_eq_dec : EqDecision FileManifest.
Proof. solve_decision. Defined.
#[global] Instance FileChunk_eq_dec : EqDecision FileChunk.
Proof. solve_decision. Defined.

(** [u64::div_ceil]. *)
Definition div_ceil (a b : Z) : Z := (a + b - 1) / b.

Definition calculate_total_chunks (total_size : u64) : u32 :=
  if decide (total_size = 0) then 0 else as_u32 (div_ceil total_size CHUNK_SIZE).

Definition FileManifest_new (file_id filename : string) (total_size : u64)
    (blake3_root_hash : array 32) : FileManifest :=
  {| fm_file_id := file_id; fm_filename := filename; fm_total_size := total_size;
     fm_total_chunks := calculate_total_chunks total_size;
     fm_blake3_root_hash := blake3_root_hash |}.

Definition expected_chunk_size (self : FileManifest) (chunk_index : u32) :
    result TransferError usize :=
  if decide (fm_total_chunks self ≤ chunk_index) then
    Err (ChunkOutOfBounds chunk_index (fm_total_chunks self))
  else if decide (chunk_index = fm_total_chunks self - 1) then
    let remainder := fm_total_size self mod CHUNK_SIZE in
    if decide (remainder = 0 ∧ 0 < fm_total_size self) then Ok CHUNK_SIZE else Ok remainder
  else Ok CHUNK_SIZE.

Inductive TransferMessage :=
| Offer (m : FileManifest)
| Accept (file_id : string) (start_chunk : u32)
| TData (c : FileChunk)
| Ack (file_id : string) (chunk_index : u32)
| Finished (file_id : string) (blake3_root_hash : array 32)
| Complete (file_id : string)
| Cancel (file_id reason : string).
#[global] Instance TransferMessage_eq_dec : EqDecision TransferMessage.
Proof. solve_decision. Defined.

Section Hashing.
Context `{Blake3}.

Definition compute_hash (data : list byte) : array 32 := b3_hash data.

Definition FileChunk_new (file_id : string) (chunk_index : u32) (offset : u64) (data : list byte) :
    FileChunk :=
  {| fc_file_id := file_id; fc_chunk_index := chunk_index; fc_offset := offset;
     fc_data := data; fc_blake3_hash := b3_hash data |}.

Definition verify_hash (self : FileChunk) : bool :=
  bool_decide (b3_hash (fc_data self) = fc_blake3_hash self).
End Hashing.

Section Messages.
Context `{Postcard TransferMessage}.

Definition TransferMessage_to_bytes (self : TransferMessage) : result TransferError (list byte) :=
  map_err (λ e, TProtocol ("Serialization: " +:+ e)) (to_allocvec self).
Definition TransferMessage_from_bytes (bytes : list byte) : result TransferError TransferMessage :=
  map_err (λ e, TProtocol ("Deserialization: " +:+ e)) (from_bytes bytes).

Definition to_data_frame (self : TransferMessage) : result TransferError DataFrame :=
  payload ← TransferMessage_to_bytes self;
  Ok (DataFrame_new CHANNEL_FILE_TRANSFER payload).

Definition from_data_frame (frame : DataFrame) : result TransferError TransferMessage :=
  if decide (df_channel frame ≠ CHANNEL_FILE_TRANSFER) then
    Err (TProtocol ("Invalid channel: expected " +:+ dec CHANNEL_FILE_TRANSFER
                    +:+ ", received " +:+ dec (df_channel frame)))
  else TransferMessage_from_bytes (df_payload frame).
End Messages.

(** ** [manifest.rs] *)

(** [Path::file_name], then [to_str]: the last component of the path, unless it
    is [..] or the path has none. *)
Fixpoint split_slash (cur l : list byte) : list (list byte) :=
  match l with
  | [] => [cur]
  | b :: l' => if decide (b = z2b 47) then cur :: split_slash [] l' else split_slash (cur ++ [b]) l'
  end.
Definition file_name (path : string) : option string :=
  match last (filter (λ c, c ≠ [] ∧ c ≠ as_bytes ".") (split_slash [] (as_bytes path))) with
  | None => None
  | Some c => if decide (c = as_bytes "..") then None
              else if from_utf8_ok c then Some (of_bytes c) else None
  end.

Section Manifest.
Context `{Blake3, Hex}.

Definition create_manifest_from_bytes (file_id filename : string) (data : list byte) : FileManifest :=
  FileManifest_new file_id filename (zlen data) (compute_hash data).

(** How many bytes the next [read] into a [CHUNK_SIZE] buffer delivers when [n]
    bytes remain: at least one, and otherwise as the environment likes. *)
Definition read_len (rd : nat → nat) (n : nat) : nat :=
  Nat.min n (Nat.min (Z.to_nat CHUNK_SIZE) (Nat.max 1 (rd n))).

(** The read loop: hash what each [read] delivers until one delivers nothing. *)
Fixpoint hash_loop (rd : nat → nat) (fuel : nat) (hasher : b3_hasher) (rest : list byte) : b3_hasher :=
  match fuel with
  | O => hasher
  | S fuel' =>
    let n := read_len rd (length rest) in
    if decide (n = 0%nat) then hasher
    else hash_loop rd fuel' (b3_update hasher (take n rest)) (drop n rest)
  end.
Definition hash_file (rd : nat → nat) (content : list byte) : array 32 :=
  b3_finalize (hash_loop rd (S (length content)) b3_new content).

Definition create_manifest_from_file (rd : nat → nat) (path : string) :
    st Fs TransferError FileManifest :=
  content ← st_map_err TIo (fs_read path);
  let filename := default "unknown_file" (file_name path) in
  let root_hash := hash_file rd content in
  mret (FileManifest_new (hex_encode (slice 0 16 (arr root_hash))) filename (zlen content) root_hash).
End Manifest.

(** ** The Postcard format of the messages *)

#[global] Instance FileManifest_valid : Valid FileManifest := λ m,
  valid_str (fm_file_id m) ∧ valid_str (fm_filename m) ∧ in_width 64 (fm_total_size m)
  ∧ in_width 32 (fm_total_chunks m).
#[global] Instance FileChunk_valid : Valid FileChunk := λ c,
  valid_str (fc_file_id c) ∧ in_width 32 (fc_chunk_index c) ∧ in_width 64 (fc_offset c)
  ∧ zlen (fc_data c) < 2 ^ 64.
#[global] Instance TransferMessage_valid : Valid TransferMessage := λ m,
  match m with
  | Offer m => valid m
  | Accept f n | Ack f n => valid_str f ∧ in_width 32 n
  | TData c => valid c
  | Finished f _ | Complete f => valid_str f
  | Cancel f r => valid_str f ∧ valid_str r
  end.

Definition c_manifest : codec FileManifest :=
  c_iso (λ '(i, (f, (s, (n, h)))), Build_FileManifest i f s n h)
    (λ m, (fm_file_id m, (fm_filename m, (fm_total_size m, (fm_total_chunks m, fm_blake3_root_hash m)))))
    (c_pair c_string (c_pair c_string (c_pair (varint 64) (c_pair (varint 32) (c_raw 32))))).
Definition c_chunk : codec FileChunk :=
  c_iso (λ '(i, (n, (o, (d, h)))), Build_FileChunk i n o d h)
    (λ c, (fc_file_id c, (fc_chunk_index c, (fc_offset c, (fc_data c, fc_blake3_hash c)))))
    (c_pair c_string (c_pair (varint 32) (c_pair (varint 64) (c_pair c_bytes (c_raw 32))))).
Definition c_transfer : codec TransferMessage :=
  c_iso (λ x, match x with
      | inl m => Offer m
      | inr (inl (f, n)) => Accept f n
      | inr (inr (inl c)) => TData c
      | inr (inr (inr (inl (f, n)))) => Ack f n
      | inr (inr (inr (inr (inl (f, h))))) => Finished f h
      | inr (inr (inr (inr (inr (inl f))))) => Complete f
      | inr (inr (inr (inr (inr (inr (f, r)))))) => Cancel f r
      end)
    (λ m, match m with
      | Offer m => inl m
      | Accept f n => inr (inl (f, n))
      | TData c => inr (inr (inl c))
      | Ack f n => inr (inr (inr (inl (f, n))))
      | Finished f h => inr (inr (inr (inr (inl (f, h)))))
      | Complete f => inr (inr (inr (inr (inr (inl f)))))
      | Cancel f r => inr (inr (inr (inr (inr (inr (f, r))))))
      end)
    (c_alt 0 c_manifest (c_alt 1 (c_pair c_string (varint 32)) (c_alt 2 c_chunk
      (c_alt 3 (c_pair c_string (varint 32)) (c_alt 4 (c_pair c_string (c_raw 32))
      (c_alt 5 c_string (c_last 6 (c_pair c_string c_string)))))))).

Lemma c_manifest_ok : codec_ok c_manifest valid.
Proof.
  eapply c_iso_ok; [codec_solve|by intros []|by intros ? (?&?&?&?)|].
  by intros (?&?&?&?&?) (?&?&?&?&?).
Qed.
Lemma c_chunk_ok : codec_ok c_chunk valid.
Proof.
  eapply c_iso_ok; [codec_solve|by intros []|by intros ? (?&?&?&?)|].
  by intros (?&?&?&?&?) (?&?&?&?&?).
Qed.
#[export] Hint Resolve c_manifest_ok c_chunk_ok : bridge.
Lemma c_transfer_ok : codec_ok c_transfer valid.
Proof.
  eapply c_iso_ok; [codec_solve; eauto with bridge|by intros []| |].
  - by intros []; simpl; intros; destruct_and?.
  - by intros [?|[[? ?]|[?|[[? ?]|[[? ?]|[?|[? ?]]]]]]]; simpl; intros; destruct_and?.
Qed.

Module TransferWire.
#[export] Instance transfer_postcard : Postcard TransferMessage := codec_postcard c_transfer.
#[export] Instance transfer_laws : PostcardLaws TransferMessage := codec_postcard_laws _ c_transfer_ok.
End TransferWire.

(** ** Lemmas *)

(** The number of chunks of a manifest is the one its size asks for. *)
Definition sized (m : FileManifest) : Prop :=
  0 ≤ fm_total_size m ∧ fm_total_chunks m = div_ceil (fm_total_size m) CHUNK_SIZE.

Lemma CHUNK_SIZE_pos : 0 < CHUNK_SIZE.
Proof. done. Qed.

Lemma div_ceil_bounds a b : 0 ≤ a → 0 < b →
  (a = 0 ∧ div_ceil a b = 0) ∨ (0 < div_ceil a b ∧ b * (div_ceil a b - 1) < a ≤ b * div_ceil a b).
Proof.
  intros Ha Hb. unfold div_ceil.
  pose proof (Z.div_mod (a + b - 1) b ltac:(lia)) as E.
  pose proof (Z.mod_pos_bound (a + b - 1) b Hb) as Hm.
  destruct (decide (a = 0)) as [->|]; [left|right].
  - split; [done|]. apply Z.div_small. lia.
  - split; [|nia]. apply Z.div_str_pos. lia.
Qed.

Lemma calculate_total_chunks_small n :
  0 ≤ n ≤ CHUNK_SIZE * (2 ^ 32 - 1) → calculate_total_chunks n = div_ceil n CHUNK_SIZE.
Proof.
  intros Hn. unfold calculate_total_chunks. pose proof CHUNK_SIZE_pos as Hc.
  destruct (div_ceil_bounds n CHUNK_SIZE ltac:(lia) Hc) as [[-> E]|[? ?]]; [done|].
  rewrite decide_False by nia. apply wrap_small. unfold in_width. nia.
Qed.

Lemma sized_new id name n h :
  0 ≤ n ≤ CHUNK_SIZE * (2 ^ 32 - 1) → sized (FileManifest_new id name n h).
Proof. intros Hn. split; simpl; [lia|by apply calculate_total_chunks_small]. Qed.

Lemma sized_bounds m :
  sized m →
  (fm_total_size m = 0 ∧ fm_total_chunks m = 0)
  ∨ (0 < fm_total_chunks m
     ∧ (fm_total_chunks m - 1) * CHUNK_SIZE < fm_total_size m ≤ fm_total_chunks m * CHUNK_SIZE).
Proof.
  intros [Hn ->]. destruct (div_ceil_bounds _ CHUNK_SIZE Hn CHUNK_SIZE_pos) as [?|?]; [by left|right; lia].
Qed.

Lemma expected_chunk_size_sized m i :
  sized m → 0 ≤ i < fm_total_chunks m →
  i * CHUNK_SIZE < fm_total_size m
  ∧ expected_chunk_size m i = Ok (Z.min CHUNK_SIZE (fm_total_size m - i * CHUNK_SIZE)).
Proof.
  intros Hs Hi. destruct (sized_bounds m Hs) as [?|[_ Hb]]; [lia|].
  pose proof CHUNK_SIZE_pos as Hc. split; [nia|].
  unfold expected_chunk_size. rewrite decide_False by lia. case_decide as Hl; [|f_equal; nia].
  assert (fm_total_size m - i * CHUNK_SIZE = fm_total_size m mod CHUNK_SIZE
    ∨ fm_total_size m - i * CHUNK_SIZE = CHUNK_SIZE ∧ fm_total_size m mod CHUNK_SIZE = 0) as Hr.
  { destruct (decide (fm_total_size m - i * CHUNK_SIZE = CHUNK_SIZE)) as [E|].
    - right. split; [done|]. replace (fm_total_size m) with ((i + 1) * CHUNK_SIZE) by lia.
      apply Z.mod_mul. lia.
    - left. apply Z.mod_unique with i; lia. }
  pose proof (Z.mod_pos_bound (fm_total_size m) CHUNK_SIZE Hc).
  case_decide; f_equal; lia.
Qed.

Lemma expected_chunk_size_bound m i n :
  0 ≤ fm_total_size m → expected_chunk_size m i = Ok n → 0 ≤ n ≤ CHUNK_SIZE.
Proof.
  intros Hs. unfold expected_chunk_size.
  pose proof (Z.mod_pos_bound (fm_total_size m) CHUNK_SIZE CHUNK_SIZE_pos).
  repeat case_decide; intros; simplify_eq; pose proof CHUNK_SIZE_pos; lia.
Qed.

Section HashLemmas.
Context `{Blake3, !Blake3Laws}.

Lemma hash_loop_app rd fuel x rest :
  (length rest < fuel)%nat →
  hash_loop rd fuel (b3_update b3_new x) rest = b3_update b3_new (x ++ rest).
Proof.
  pose proof CHUNK_SIZE_pos as Hc. revert x rest.
  induction fuel as [|fuel IH]; intros x rest Hf; [lia|]. cbn [hash_loop].
  case_decide as Hn; unfold read_len in Hn.
  - destruct rest; [by rewrite app_nil_r|]. simpl length in Hn. lia.
  - rewrite b3_update_app, IH; [|rewrite length_drop; unfold read_len; lia].
    by rewrite <-app_assoc, take_drop.
Qed.

(** However the reads are cut, the loop computes the hash of the whole file. *)
Lemma hash_file_whole rd content : hash_file rd content = b3_hash content.
Proof.
  unfold hash_file. cbn [hash_loop]. pose proof CHUNK_SIZE_pos as Hc.
  case_decide as Hn; unfold read_len in Hn.
  - destruct content; [apply b3_finalize_new|]. simpl length in Hn. lia.
  - rewrite hash_loop_app by (rewrite length_drop; unfold read_len; lia).
    rewrite take_drop. apply b3_finalize_hash.
Qed.
End HashLemmas.

Lemma to_data_frame_ok `{PostcardLaws TransferMessage} msg :
  valid msg → ∃ f, to_data_frame msg = Ok f ∧ df_channel f = CHANNEL_FILE_TRANSFER
    ∧ from_data_frame f = Ok msg.
Proof.
  intros (bs & E & D)%postcard_roundtrip. exists (DataFrame_new CHANNEL_FILE_TRANSFER bs).
  unfold to_data_frame, TransferMessage_to_bytes, from_data_frame, TransferMessage_from_bytes.
  rewrite E. simpl. by rewrite D.
Qed.

(** ** Properties *)

(** C33: the chunk layout of a manifest covers the file exactly, for every size up
    to [CHUNK_SIZE * (2^32 - 1)]: each chunk is non-empty, at most 64 KiB, lies
    inside the file, only the last one reaches its end, and every byte belongs to
    a chunk.  Indices past the end are refused. *)
Theorem chunk_layout (id name : string) (size : u64) (h : array 32) :
  0 ≤ size ≤ CHUNK_SIZE * (2 ^ 32 - 1) →
  let m := FileManifest_new id name size h in
  (∀ i, 0 ≤ i < fm_total_chunks m → ∃ n, expected_chunk_size m i = Ok n
     ∧ 0 < n ≤ CHUNK_SIZE ∧ i * CHUNK_SIZE + n ≤ size
     ∧ (i * CHUNK_SIZE + n = size ↔ i = fm_total_chunks m - 1)
     ∧ (i ≠ fm_total_chunks m - 1 → n = CHUNK_SIZE))
  ∧ (∀ i, fm_total_chunks m ≤ i →
       expected_chunk_size m i = Err (ChunkOutOfBounds i (fm_total_chunks m)))
  ∧ (∀ k, 0 ≤ k < size → 0 ≤ k / CHUNK_SIZE < fm_total_chunks m).
Proof.
  intros Hsize m. pose proof (sized_new id name size h Hsize) as Hs. fold m in Hs.
  change size with (fm_total_size m). pose proof CHUNK_SIZE_pos as Hc.
  pose proof (sized_bounds m Hs) as Hb. split_and!.
  - intros i Hi. destruct (expected_chunk_size_sized m i Hs Hi) as [Hlt ->].
    eexists. split; [done|]. split_and!; nia.
  - intros i Hi. unfold expected_chunk_size. by rewrite decide_True.
  - intros k Hk. split; [apply Z.div_pos; lia|]. apply Z.div_lt_upper_bound; nia.
Qed.

(** The number of chunks is the [u32] truncation of the exact count, so a
    file of 2^48 bytes gets a manifest with no chunks at all, and one byte more
    gets a single chunk of one byte. *)
Theorem chunk_count_wraps (id name : string) (h : array 32) :
  fm_total_chunks (FileManifest_new id name (2 ^ 48) h) = 0
  ∧ fm_total_chunks (FileManifest_new id name (2 ^ 48 + 1) h) = 1
  ∧ expected_chunk_size (FileManifest_new id name (2 ^ 48 + 1) h) 0 = Ok 1.
Proof. split_and!; vm_compute; done. Qed.

(** Hashing a file through reads of any length gives the hash of the whole
    file: the manifest made by streaming the file is the one made from its bytes
    (with the identifier the hash determines), for every way the reads are cut. *)
Theorem manifest_streaming `{Blake3, Hex, !Blake3Laws} (rd : nat → nat) (path : string)
    (content : list byte) (fs : Fs) :
  files fs !! path = Some content →
  create_manifest_from_file rd path fs =
    (Ok (create_manifest_from_bytes (hex_encode (slice 0 16 (arr (b3_hash content))))
           (default "unknown_file" (file_name path)) content), fs).
Proof.
  intros E. unfold create_manifest_from_file, mbind, st_bind, st_map_err, fs_read.
  rewrite E. simpl. by rewrite hash_file_whole.
Qed.

(** Every message of the file-transfer channel survives its data frame, and
    a frame of another channel is refused whatever its payload. *)
Theorem transfer_message_roundtrip `{PostcardLaws TransferMessage} (msg : TransferMessage) (d : DataFrame) :
  valid msg →
  (∃ f, to_data_frame msg = Ok f ∧ df_channel f = CHANNEL_FILE_TRANSFER ∧ from_data_frame f = Ok msg)
  ∧ (df_channel d ≠ CHANNEL_FILE_TRANSFER → ∃ e, from_data_frame d = Err (TProtocol e)).
Proof.
  intros Hv. split; [by apply to_data_frame_ok|]. intros Hd. unfold from_data_frame.
  rewrite decide_True by done. eauto.
Qed.

(** ** Witnesses *)

Section Witnesses.
Import Toy TransferWire.

Example chunk_layout_witness :
  expected_chunk_size (FileManifest_new "id" "f" 100000 (arr_rep 32 x01)) 2
  = Err (ChunkOutOfBounds 2 (fm_total_chunks (FileManifest_new "id" "f" 100000 (arr_rep 32 x01)))).
Proof.
  apply (chunk_layout "id" "f" 100000 (arr_rep 32 x01)); vm_compute; intuition congruence.
Defined.

Example manifest_streaming_witness :
  let fs := {| files := {[ "dir/a.txt" := as_bytes "hello" ]}; fs_fault := None |} in
  (create_manifest_from_file (λ _, 2%nat) "dir/a.txt" fs).1 =
    Ok (create_manifest_from_bytes (hex_encode (slice 0 16 (arr (b3_hash (as_bytes "hello")))))
          "a.txt" (as_bytes "hello")).
Proof.
  intros fs. rewrite (manifest_streaming (λ _, 2%nat) "dir/a.txt" (as_bytes "hello") fs eq_refl).
  reflexivity.
Defined.

Example transfer_message_roundtrip_witness :
  ∃ f, to_data_frame (Complete "abc") = Ok f ∧ df_channel f = CHANNEL_FILE_TRANSFER
    ∧ from_data_frame f = Ok (Complete "abc").
Proof.
  apply (transfer_message_roundtrip (Complete "abc") (DataFrame_new 1 [])). split; done.
Defined.

End Witnesses.
