(* ===== verification/Transfer.v ===== *)
(** * Transfer: [crates/bridge-transfer/src/{sender,receiver}.rs]

    The two ends of a file transfer.  [FileSender] cuts a file or a buffer into
    chunks; [FileReceiver] verifies chunks, in any order, writes them to a [.part]
    file or to memory, and releases the result only under the manifest's root hash.
    An open file is the path it was opened at, in the file system [Fs] that the
    operations pass along; how the read loop of [finalize_file] cuts its reads is
    the argument [rd]. *)
From S2P Require Import Prelude Text External Core Protocol Fs TransferMsg.

(** ** [sender.rs] *)

Inductive SenderSource :=
| SFile (path : string) (pos : u64)
| SMemory (buffer : list byte) (pos : u64).
Record FileSender := {
  fs_manifest : FileManifest; fs_source : SenderSource; fs_current_chunk : u32 }.

(** The bytes behind the source, and the cursor in them. *)
Definition src_content (fs : Fs) (s : SenderSource) : list byte :=
  match s with SFile p _ => default [] (files fs !! p) | SMemory b _ => b end.
Definition src_pos (s : SenderSource) : u64 := match s with SFile _ n | SMemory _ n => n end.
Definition set_position (n : u64) (s : SenderSource) : SenderSource :=
  match s with SFile p _ => SFile p n | SMemory b _ => SMemory b n end.

(** [read_exact] of [n] bytes: a short source is drained before the error. *)
Definition src_read_exact (fs : Fs) (n : usize) (s : SenderSource) : result TransferError (list byte) * SenderSource :=
  let rest := drop (Z.to_nat (src_pos s)) (src_content fs s) in
  if decide (zlen rest < n) then (Err (TIo "early eof"), set_position (src_pos s + zlen rest) s)
  else (Ok (take (Z.to_nat n) rest), set_position (src_pos s + n) s).

Definition validate_and_seek_file (path : string) (manifest : FileManifest) (start_chunk : u32) :
    result TransferError SenderSource :=
  if decide (fm_total_chunks manifest < start_chunk) then
    Err (InvalidResumeOffset start_chunk (fm_total_chunks manifest))
  else Ok (SFile path (start_chunk * CHUNK_SIZE)).

Definition FileSender_from_file (path : string) (manifest : FileManifest) (start_chunk : u32) :
    st Fs TransferError FileSender :=
  _ ← st_map_err TIo (fs_read path);
  source ← lift (validate_and_seek_file path manifest start_chunk);
  mret {| fs_manifest := manifest; fs_source := source; fs_current_chunk := start_chunk |}.

Definition FileSender_from_bytes (data : list byte) (manifest : FileManifest) (start_chunk : u32) :
    result TransferError FileSender :=
  if decide (fm_total_chunks manifest < start_chunk) then
    Err (InvalidResumeOffset start_chunk (fm_total_chunks manifest))
  else
    let offset := start_chunk * CHUNK_SIZE in
    Ok {| fs_manifest := manifest; fs_source := SMemory data offset; fs_current_chunk := start_chunk |}.

Definition seek_to_chunk (chunk_index : u32) : st FileSender TransferError unit := λ self,
  if decide (fm_total_chunks (fs_manifest self) < chunk_index) then
    (Err (InvalidResumeOffset chunk_index (fm_total_chunks (fs_manifest self))), self)
  else
    let offset := chunk_index * CHUNK_SIZE in
    (Ok tt, {| fs_manifest := fs_manifest self; fs_source := set_position offset (fs_source self);
               fs_current_chunk := chunk_index |}).

Definition is_finished (self : FileSender) : bool :=
  bool_decide (fm_total_chunks (fs_manifest self) ≤ fs_current_chunk self).

Section Sender.
Context `{Blake3}.

Definition next_chunk (fs : Fs) : st FileSender TransferError (option FileChunk) := λ self,
  if decide (fm_total_chunks (fs_manifest self) ≤ fs_current_chunk self) then (Ok None, self)
  else
    let chunk_index := fs_current_chunk self in
    match expected_chunk_size (fs_manifest self) chunk_index with
    | Err e => (Err e, self)
    | Ok expected_size =>
      let offset := chunk_index * CHUNK_SIZE in
      let '(r, source) := src_read_exact fs expected_size (fs_source self) in
      match r with
      | Err e => (Err e, {| fs_manifest := fs_manifest self; fs_source := source;
                            fs_current_chunk := chunk_index |})
      | Ok buf =>
        (Ok (Some (FileChunk_new (fm_file_id (fs_manifest self)) chunk_index offset buf)),
         {| fs_manifest := fs_manifest self; fs_source := source;
            fs_current_chunk := chunk_index + 1 |})
      end
    end.

(** The loop of a caller that takes chunks until there are none. *)
Fixpoint drain (fuel : nat) (fs : Fs) : st FileSender TransferError (list FileChunk) :=
  match fuel with
  | O => mret []
  | S fuel' =>
    next ← next_chunk fs;
    match next with
    | None => mret []
    | Some c => cs ← drain fuel' fs; mret (c :: cs)
    end
  end.
End Sender.

(** ** [receiver.rs] *)

Inductive DestinationTarget :=
| DFile (final_path part_path : string)
| DMemory (buffer : list byte).
Record FileReceiver := {
  fr_manifest : FileManifest; fr_target : DestinationTarget; fr_received_chunks : gset Z }.

Definition with_target (t : DestinationTarget) (self : FileReceiver) : FileReceiver :=
  {| fr_manifest := fr_manifest self; fr_target := t; fr_received_chunks := fr_received_chunks self |}.
Definition mark_received (i : u32) (self : FileReceiver) : FileReceiver :=
  {| fr_manifest := fr_manifest self; fr_target := fr_target self;
     fr_received_chunks := {[ i ]} ∪ fr_received_chunks self |}.

(** [metadata().len()] of an open file. *)
Definition fs_len (p : string) (fs : Fs) : u64 := zlen (default [] (files fs !! p)).

Definition to_dir (dest_dir : string) (manifest : FileManifest) : st Fs TransferError FileReceiver :=
  _ ← st_map_err TIo fs_create_dir_all;
  let final_path := path_join dest_dir (fm_filename manifest) in
  let part_path := path_join dest_dir (fm_filename manifest +:+ ".part") in
  _ ← st_map_err TIo (fs_open_rw part_path);
  existing_len ← gets (fs_len part_path);
  received_chunks ←
    (if decide (0 < existing_len ∧ 0 < fm_total_chunks manifest) then
       let full_chunks := as_u32 (existing_len / CHUNK_SIZE) in
       let valid_chunks := Z.min full_chunks (fm_total_chunks manifest) in
       let truncated_len := valid_chunks * CHUNK_SIZE in
       _ ← st_map_err TIo (fs_set_len part_path (Z.to_nat truncated_len));
       mret (list_to_set (seqZ 0 valid_chunks) : gset Z)
     else mret ∅);
  mret {| fr_manifest := manifest; fr_target := DFile final_path part_path;
          fr_received_chunks := received_chunks |}.

Definition to_memory (manifest : FileManifest) : FileReceiver :=
  {| fr_manifest := manifest;
     fr_target := DMemory (replicate (Z.to_nat (fm_total_size manifest)) x00);
     fr_received_chunks := ∅ |}.

(** The search loop runs at most once per received chunk. *)
Fixpoint next_from (fuel : nat) (received : gset Z) (expected : u32) : u32 :=
  match fuel with
  | O => expected
  | S fuel' => if decide (expected ∈ received) then next_from fuel' received (expected + 1)
               else expected
  end.
Definition next_expected_chunk (self : FileReceiver) : u32 :=
  Z.min (next_from (S (size (fr_received_chunks self))) (fr_received_chunks self) 0)
    (fm_total_chunks (fr_manifest self)).

Definition is_complete (self : FileReceiver) : bool :=
  if decide (fm_total_chunks (fr_manifest self) = 0) then true
  else
    let received_count := as_u32 (Z.of_nat (size (fr_received_chunks self))) in
    bool_decide (received_count = fm_total_chunks (fr_manifest self)).

Section Receiver.
Context `{Blake3, Hex}.

(** The checks of [receive_chunk], in order, before anything is written. *)
Definition check_chunk (self : FileReceiver) (chunk : FileChunk) : result TransferError unit :=
  if decide (fc_file_id chunk ≠ fm_file_id (fr_manifest self)) then
    Err (TProtocol ("Mismatched file_id: expected " +:+ fm_file_id (fr_manifest self)
                    +:+ ", received " +:+ fc_file_id chunk))
  else if decide (fm_total_chunks (fr_manifest self) ≤ fc_chunk_index chunk) then
    Err (ChunkOutOfBounds (fc_chunk_index chunk) (fm_total_chunks (fr_manifest self)))
  else if negb (verify_hash chunk) then
    Err (ChunkHashMismatch (fc_chunk_index chunk) (hex_encode (arr (fc_blake3_hash chunk)))
           (hex_encode (arr (b3_hash (fc_data chunk)))))
  else
    expected_size ← expected_chunk_size (fr_manifest self) (fc_chunk_index chunk);
    if decide (zlen (fc_data chunk) ≠ expected_size) then
      Err (InvalidChunkSize (fc_chunk_index chunk) expected_size (zlen (fc_data chunk)))
    else
      let expected_offset := fc_chunk_index chunk * CHUNK_SIZE in
      if decide (fc_offset chunk ≠ expected_offset) then
        Err (TProtocol ("Chunk " +:+ dec (fc_chunk_index chunk) +:+ " has invalid offset "
                        +:+ dec (fc_offset chunk) +:+ " (expected " +:+ dec expected_offset +:+ ")"))
      else Ok tt.

Definition receive_chunk (chunk : FileChunk) : st (FileReceiver * Fs) (stop TransferError) unit :=
  λ '(self, fs),
  match check_chunk self chunk with
  | Err e => (Err (Raise e), (self, fs))
  | Ok _ =>
    match fr_target self with
    | DFile _ part_path =>
      match fs_write_at part_path (Z.to_nat (fc_offset chunk)) (fc_data chunk) fs with
      | (Err e, fs') => (Err (Raise (TIo e)), (self, fs'))
      | (Ok _, fs') => (Ok tt, (mark_received (fc_chunk_index chunk) self, fs'))
      end
    | DMemory buffer =>
      let start := fc_offset chunk in
      let end_ := start + zlen (fc_data chunk) in
      if decide (zlen buffer < end_) then
        (Err (Panic "range end index out of range for slice"), (self, fs))
      else
        (Ok tt, (mark_received (fc_chunk_index chunk)
                   (with_target (DMemory (splice (Z.to_nat start) (fc_data chunk) buffer)) self), fs))
    end
  end.

Fixpoint receive_all (cs : list FileChunk) : st (FileReceiver * Fs) (stop TransferError) unit :=
  match cs with
  | [] => mret tt
  | c :: cs' => _ ← receive_chunk c; receive_all cs'
  end.

Definition not_complete (self : FileReceiver) : TransferError :=
  TProtocol ("Cannot finalize: received " +:+ dec (Z.of_nat (size (fr_received_chunks self)))
             +:+ " of " +:+ dec (fm_total_chunks (fr_manifest self)) +:+ " chunks").

Definition finalize_file (rd : nat → nat) : st (FileReceiver * Fs) TransferError string :=
  λ '(self, fs),
  if negb (is_complete self) then (Err (not_complete self), (self, fs))
  else match fr_target self with
  | DFile final_path part_path =>
    let computed_root := hash_file rd (default [] (files fs !! part_path)) in
    if decide (computed_root ≠ fm_blake3_root_hash (fr_manifest self)) then
      (Err (RootHashMismatch (hex_encode (arr (fm_blake3_root_hash (fr_manifest self))))
              (hex_encode (arr computed_root))), (self, fs))
    else match fs_rename part_path final_path fs with
    | (Err e, fs') => (Err (TIo e), (self, fs'))
    | (Ok _, fs') => (Ok final_path, (self, fs'))
    end
  | DMemory _ =>
    (Err (TProtocol "Cannot call finalize_file on memory receiver; use finalize_memory instead"),
     (self, fs))
  end.

Definition finalize_memory (self : FileReceiver) : result TransferError (list byte) :=
  if negb (is_complete self) then Err (not_complete self)
  else match fr_target self with
  | DMemory buffer =>
    let computed_root := b3_hash buffer in
    if decide (computed_root ≠ fm_blake3_root_hash (fr_manifest self)) then
      Err (RootHashMismatch (hex_encode (arr (fm_blake3_root_hash (fr_manifest self))))
             (hex_encode (arr computed_root)))
    else Ok buffer
  | DFile _ _ =>
    Err (TProtocol "Cannot call finalize_memory on file receiver; use finalize_file instead")
  end.
End Receiver.

(** ** Lemmas: what a sender produces *)

(** The bytes of chunk [i], and the chunk that carries them. *)
Definition chunk_bytes (data : list byte) (i : Z) : list byte :=
  slice (i * CHUNK_SIZE) (Z.min ((i + 1) * CHUNK_SIZE) (zlen data)) data.
Definition chunk_of `{Blake3} (m : FileManifest) (data : list byte) (i : Z) : FileChunk :=
  FileChunk_new (fm_file_id m) i (i * CHUNK_SIZE) (chunk_bytes data i).

(** [m] describes [data]. *)
Definition describes `{Blake3} (m : FileManifest) (data : list byte) : Prop :=
  sized m ∧ fm_total_size m = zlen data ∧ fm_blake3_root_hash m = b3_hash data.

Lemma chunk_bytes_len data i :
  0 ≤ i → i * CHUNK_SIZE < zlen data →
  zlen (chunk_bytes data i) = Z.min CHUNK_SIZE (zlen data - i * CHUNK_SIZE).
Proof.
  intros Hi Hl. pose proof CHUNK_SIZE_pos. unfold chunk_bytes, slice, zlen in *.
  rewrite length_take, length_drop. nia.
Qed.

Lemma chunk_bytes_lookup data i k :
  0 ≤ i → i * CHUNK_SIZE ≤ k < Z.min ((i + 1) * CHUNK_SIZE) (zlen data) →
  chunk_bytes data i !! Z.to_nat (k - i * CHUNK_SIZE) = data !! Z.to_nat k.
Proof.
  intros Hi Hk. pose proof CHUNK_SIZE_pos. unfold chunk_bytes, slice.
  rewrite lookup_take_lt by nia. rewrite lookup_drop. f_equal. nia.
Qed.

Section SenderLemmas.
Context `{Blake3}.

(** A sender of [data] about to send chunk [i]. *)
Definition sends (fs : Fs) (m : FileManifest) (data : list byte) (i : Z) (s : FileSender) : Prop :=
  fs_manifest s = m ∧ fs_current_chunk s = i ∧ src_content fs (fs_source s) = data
  ∧ src_pos (fs_source s) = Z.min (i * CHUNK_SIZE) (zlen data).

Lemma next_chunk_step fs m data i s :
  describes m data → sends fs m data i s → 0 ≤ i < fm_total_chunks m →
  ∃ s', next_chunk fs s = (Ok (Some (chunk_of m data i)), s') ∧ sends fs m data (i + 1) s'.
Proof.
  intros (Hm & Hsz & _) (Em & Ec & Ed & Ep) Hi.
  destruct (expected_chunk_size_sized m i Hm Hi) as [Hlt Hx]. rewrite Hsz in *.
  pose proof CHUNK_SIZE_pos as Hc. pose proof (zlen_nonneg data).
  unfold next_chunk. rewrite Em, Ec, decide_False by lia. rewrite Hx.
  unfold src_read_exact. rewrite Ed, Ep.
  assert (zlen (drop (Z.to_nat (Z.min (i * CHUNK_SIZE) (zlen data))) data) = zlen data - i * CHUNK_SIZE) as Hd.
  { unfold zlen in *. rewrite length_drop. nia. }
  rewrite Hd, decide_False by lia. eexists. split.
  - unfold chunk_of, chunk_bytes, slice. repeat f_equal; nia.
  - destruct s as [m' [p n|b n] c]; simpl in *; split_and!; simpl; try done; nia.
Qed.

Lemma drain_spec fs m data n i s fuel :
  describes m data → sends fs m data i s → 0 ≤ i → i + Z.of_nat n = fm_total_chunks m → (n < fuel)%nat →
  ∃ s', drain fuel fs s = (Ok (map (chunk_of m data) (seqZ i (Z.of_nat n))), s')
    ∧ is_finished s' = true.
Proof.
  intros Hm. revert i s fuel. induction n as [|n IH]; intros i s fuel Hs Hi Hn Hf;
    (destruct fuel as [|fuel]; [lia|]); cbn [drain].
  - exists s. destruct Hs as (Em & Ec & _). split.
    + unfold mbind, st_bind, next_chunk. rewrite Em, Ec, decide_True by lia. done.
    + unfold is_finished. rewrite bool_decide_eq_true, Em, Ec. lia.
  - destruct (next_chunk_step fs m data i s Hm Hs ltac:(lia)) as (s1 & E1 & Hs1).
    rewrite (st_bind_ok _ _ _ _ _ E1).
    destruct (IH (i + 1) s1 fuel Hs1 ltac:(lia) ltac:(lia) ltac:(lia)) as (s2 & E2 & Hf2).
    exists s2. rewrite (st_bind_ok _ _ _ _ _ E2). split; [|done].
    replace (Z.of_nat (S n)) with (Z.succ (Z.of_nat n)) by lia.
    rewrite (seqZ_cons i) by lia. simpl. rewrite Z.pred_succ. by replace (Z.succ i) with (i + 1) by lia.
Qed.
End SenderLemmas.

(** ** Lemmas: what a receiver accepts *)

(** [c] holds the chunks [S] of [data], and nothing past its end. *)
Definition agrees (data c : list byte) (S : gset Z) : Prop :=
  (length c ≤ length data)%nat
  ∧ ∀ i k, i ∈ S → 0 ≤ i → i * CHUNK_SIZE ≤ k < Z.min ((i + 1) * CHUNK_SIZE) (zlen data) →
      c !! Z.to_nat k = data !! Z.to_nat k.

Lemma agrees_write data c S i :
  agrees data c S → 0 ≤ i → i * CHUNK_SIZE < zlen data →
  agrees data (write_at (Z.to_nat (i * CHUNK_SIZE)) (chunk_bytes data i) c) ({[ i ]} ∪ S).
Proof.
  intros [Hl Ha] Hi Hlt. pose proof CHUNK_SIZE_pos as Hc.
  pose proof (chunk_bytes_len data i Hi Hlt) as Hn. unfold zlen in Hn, Hlt.
  split; [rewrite write_at_len; nia|].
  intros j k Hj Hj0 Hk. unfold zlen in Hk. destruct (decide (j = i)) as [->|Hne].
  - rewrite write_at_lookup_in by nia.
    rewrite <-(chunk_bytes_lookup data i k Hi) by (unfold zlen; lia). f_equal. nia.
  - assert (j ∈ S) as Hj' by set_solver.
    assert (k < i * CHUNK_SIZE ∨ (i + 1) * CHUNK_SIZE ≤ k) as Hout.
    { destruct (decide (j < i)); [left|right]; nia. }
    destruct (decide (Z.to_nat k < length c)%nat).
    + rewrite write_at_lookup_old by nia. apply (Ha j k); [done|done|]. unfold zlen. lia.
    + (* the chunk is on record, so the file reaches it *)
      assert (c !! Z.to_nat k = data !! Z.to_nat k) as E by (apply (Ha j k); unfold zlen; auto; lia).
      rewrite (lookup_ge_None_2 c) in E by lia. symmetry in E. apply lookup_ge_None_1 in E. lia.
Qed.

Lemma agrees_all data c S :
  agrees data c S → (∀ k, 0 ≤ k < zlen data → k / CHUNK_SIZE ∈ S) → c = data.
Proof.
  intros [Hl Ha] Hall. pose proof CHUNK_SIZE_pos as Hc.
  assert (∀ k, 0 ≤ k < zlen data → c !! Z.to_nat k = data !! Z.to_nat k) as Hk.
  { intros k Hk. apply (Ha (k / CHUNK_SIZE)); [auto|apply Z.div_pos; lia|].
    pose proof (Z.div_mod k CHUNK_SIZE ltac:(lia)). pose proof (Z.mod_pos_bound k CHUNK_SIZE Hc). nia. }
  apply list_eq. intros k. destruct (decide (k < length data)%nat) as [?|?].
  - rewrite <-(Nat2Z.id k). apply Hk. unfold zlen. lia.
  - rewrite !lookup_ge_None_2 by lia. done.
Qed.

(** What a receiver has assembled so far. *)
Definition assembled (r : FileReceiver) (fs : Fs) : list byte :=
  match fr_target r with
  | DFile _ part => default [] (files fs !! part)
  | DMemory b => b
  end.
(** The target can be written: the [.part] file is there and the disk accepts
    writes, or the buffer has the announced size. *)
Definition writable (r : FileReceiver) (fs : Fs) : Prop :=
  match fr_target r with
  | DFile _ part => fs_fault fs = None ∧ is_Some (files fs !! part)
  | DMemory b => zlen b = fm_total_size (fr_manifest r)
  end.
Definition same_target (t t' : DestinationTarget) : Prop :=
  match t, t' with
  | DFile a b, DFile a' b' => a = a' ∧ b = b'
  | DMemory _, DMemory _ => True
  | _, _ => False
  end.

Section ReceiverLemmas.
Context `{Blake3, Hex}.

Lemma check_chunk_ok r c :
  check_chunk r c = Ok tt ↔
  fc_file_id c = fm_file_id (fr_manifest r)
  ∧ fc_chunk_index c < fm_total_chunks (fr_manifest r)
  ∧ b3_hash (fc_data c) = fc_blake3_hash c
  ∧ expected_chunk_size (fr_manifest r) (fc_chunk_index c) = Ok (zlen (fc_data c))
  ∧ fc_offset c = fc_chunk_index c * CHUNK_SIZE.
Proof.
  unfold check_chunk, verify_hash. case_decide; [naive_solver|]. case_decide; [naive_solver lia|].
  case_bool_decide; simpl; [|naive_solver].
  destruct (expected_chunk_size _ _) as [n|e]; simpl; [|naive_solver].
  case_decide; [naive_solver|]. case_decide; naive_solver lia.
Qed.

Lemma chunk_of_checked r data i :
  describes (fr_manifest r) data → 0 ≤ i < fm_total_chunks (fr_manifest r) →
  i * CHUNK_SIZE < zlen data ∧ check_chunk r (chunk_of (fr_manifest r) data i) = Ok tt.
Proof.
  intros (Hm & Hsz & _) Hi. destruct (expected_chunk_size_sized _ i Hm Hi) as [Hlt Hx].
  rewrite Hsz in *. split; [done|]. apply check_chunk_ok. simpl.
  rewrite chunk_bytes_len by lia. rewrite Hx. split_and!; auto; lia.
Qed.

(** One honest chunk: accepted, written and recorded. *)
Lemma receive_chunk_step r fs data i :
  describes (fr_manifest r) data → 0 ≤ i < fm_total_chunks (fr_manifest r) → writable r fs →
  agrees data (assembled r fs) (fr_received_chunks r) →
  ∃ r' fs', receive_chunk (chunk_of (fr_manifest r) data i) (r, fs) = (Ok tt, (r', fs'))
    ∧ fr_manifest r' = fr_manifest r ∧ writable r' fs' ∧ same_target (fr_target r) (fr_target r')
    ∧ fr_received_chunks r' = {[ i ]} ∪ fr_received_chunks r
    ∧ agrees data (assembled r' fs') (fr_received_chunks r').
Proof.
  intros Hd Hi Hw Ha. destruct (chunk_of_checked r data i Hd Hi) as [Hlt Hc].
  pose proof (agrees_write data _ _ i Ha ltac:(lia) Hlt) as Ha'.
  pose proof (chunk_bytes_len data i ltac:(lia) Hlt) as Hn. destruct Hd as (_ & Hsz & _).
  unfold receive_chunk. rewrite Hc. unfold assembled, writable in *.
  destruct (fr_target r) as [f p|b] eqn:Et.
  - destruct Hw as [Hf [c Hp]]. rewrite Hp in Ha'. simpl in *.
    unfold fs_write_at, fs_change. rewrite Hf. eexists _, _. split; [done|]. simpl. rewrite Et. simpl.
    rewrite lookup_alter_eq, Hp. simpl. split_and!; [done|done|eauto|done..].
  - simpl. rewrite decide_False by (rewrite Hn, Hw, Hsz; lia).
    eexists _, _. split; [done|]. simpl. unfold zlen in *. pose proof CHUNK_SIZE_pos.
    split_and!; [done| |done|done|].
    + rewrite splice_length; [done|nia].
    + rewrite write_at_splice; [done|nia].
Qed.

Lemma receive_all_spec r fs data js :
  describes (fr_manifest r) data → Forall (λ i, 0 ≤ i < fm_total_chunks (fr_manifest r)) js →
  writable r fs → agrees data (assembled r fs) (fr_received_chunks r) →
  ∃ r' fs', receive_all (map (chunk_of (fr_manifest r) data) js) (r, fs) = (Ok tt, (r', fs'))
    ∧ fr_manifest r' = fr_manifest r ∧ writable r' fs' ∧ same_target (fr_target r) (fr_target r')
    ∧ fr_received_chunks r' = list_to_set js ∪ fr_received_chunks r
    ∧ agrees data (assembled r' fs') (fr_received_chunks r').
Proof.
  intros Hd Hjs. revert r fs Hd Hjs. induction js as [|j js IH]; intros r fs Hd Hjs Hw Ha; simpl.
  - exists r, fs. split_and!; [done|done|done| |set_solver|done].
    unfold same_target. by destruct (fr_target r).
  - inversion_clear Hjs as [|? ? Hj Hjs'].
    destruct (receive_chunk_step r fs data j Hd Hj Hw Ha) as (r1 & fs1 & E1 & Em1 & Hw1 & Ht1 & Hr1 & Ha1).
    destruct (IH r1 fs1) as (r2 & fs2 & E2 & Em2 & Hw2 & Ht2 & Hr2 & Ha2); rewrite ?Em1; try done.
    rewrite Em1 in E2. exists r2, fs2. rewrite (st_bind_ok _ _ _ _ _ E1), E2.
    split_and!; [done|congruence|done| |rewrite Hr2, Hr1; set_solver|done].
    unfold same_target in *. repeat case_match; naive_solver.
Qed.

(** A receiver in memory leaves the file system alone. *)
Lemma receive_all_memory cs r fs b :
  fr_target r = DMemory b → (receive_all cs (r, fs)).2.2 = fs.
Proof.
  revert r b. induction cs as [|c cs IH]; intros r b Et; simpl; [done|].
  unfold mbind, st_bind. unfold receive_chunk at 1. rewrite Et.
  destruct (check_chunk r c) as [[]|]; [|done]. case_decide; [done|]. by eapply IH.
Qed.

(** All the chunks on record: the receiver is complete and has the data. *)
Lemma complete_data r fs data :
  describes (fr_manifest r) data → fm_total_chunks (fr_manifest r) < 2 ^ 32 →
  agrees data (assembled r fs) (fr_received_chunks r) →
  fr_received_chunks r = list_to_set (seqZ 0 (fm_total_chunks (fr_manifest r))) →
  is_complete r = true ∧ assembled r fs = data.
Proof.
  intros (Hm & Hsz & _) Hu Ha Hr. pose proof (sized_bounds _ Hm) as Hb. split.
  - unfold is_complete. case_decide; [done|]. apply bool_decide_eq_true. rewrite Hr.
    rewrite size_list_to_set by apply NoDup_seqZ. rewrite length_seqZ.
    unfold as_u32. rewrite wrap_small; [lia|]. split; lia.
  - apply (agrees_all data _ _ Ha). intros k Hk. rewrite Hr. apply elem_of_list_to_set, elem_of_seqZ.
    pose proof CHUNK_SIZE_pos. split; [apply Z.div_pos; lia|]. apply Z.div_lt_upper_bound; nia.
Qed.
End ReceiverLemmas.

(** ** Lemmas: resuming *)

Lemma next_from_spec fuel S e :
  let n := next_from fuel S e in
  e ≤ n ≤ e + Z.of_nat fuel ∧ (∀ i, e ≤ i < n → i ∈ S) ∧ (n ∉ S ∨ n = e + Z.of_nat fuel).
Proof.
  revert e. induction fuel as [|fuel IH]; intros e; cbn [next_from]; cbv zeta.
  - split; [lia|]. split; [lia|right; lia].
  - case_decide as He; [|split; [lia|split; [lia|by left]]].
    destruct (IH (e + 1)) as (Hr & Hin & Hout). split; [lia|]. split; [|destruct Hout; [by left|right; lia]].
    intros i Hi. destruct (decide (i = e)) as [->|]; [done|]. apply Hin. lia.
Qed.

(** The loop stops at the first missing index: its fuel cannot run out. *)
Lemma next_from_least S :
  let n := next_from (Datatypes.S (size S)) S 0 in
  0 ≤ n ∧ (∀ i, 0 ≤ i < n → i ∈ S) ∧ n ∉ S.
Proof.
  destruct (next_from_spec (Datatypes.S (size S)) S 0) as (Hr & Hin & Hout). cbv zeta.
  split_and!; [lia|done|]. destruct Hout as [?|E]; [done|].
  assert (list_to_set (seqZ 0 (Z.of_nat (Datatypes.S (size S)))) ⊆ S) as Hsub.
  { intros i Hi%elem_of_list_to_set%elem_of_seqZ. apply Hin. lia. }
  apply subseteq_size in Hsub.
  rewrite size_list_to_set, length_seqZ in Hsub by apply NoDup_seqZ. lia.
Qed.

(** Only indices of the manifest are ever on record. *)
Definition in_bounds (r : FileReceiver) : Prop :=
  ∀ i, i ∈ fr_received_chunks r → 0 ≤ i < fm_total_chunks (fr_manifest r).

Lemma in_bounds_size r :
  in_bounds r → 0 ≤ fm_total_chunks (fr_manifest r) →
  Z.of_nat (size (fr_received_chunks r)) ≤ fm_total_chunks (fr_manifest r)
  ∧ (Z.of_nat (size (fr_received_chunks r)) = fm_total_chunks (fr_manifest r) →
     fr_received_chunks r = list_to_set (seqZ 0 (fm_total_chunks (fr_manifest r)))).
Proof.
  intros Hb H0.
  assert (fr_received_chunks r ⊆ list_to_set (seqZ 0 (fm_total_chunks (fr_manifest r)))) as Hsub.
  { intros i Hi. apply elem_of_list_to_set, elem_of_seqZ. specialize (Hb i Hi). lia. }
  pose proof (subseteq_size _ _ Hsub) as Hle.
  rewrite size_list_to_set, length_seqZ in Hle by apply NoDup_seqZ. split; [lia|].
  intros E. apply leibniz_equiv, set_subseteq_size_equiv; [done|].
  rewrite size_list_to_set, length_seqZ by apply NoDup_seqZ. lia.
Qed.

Section ResumeLemmas.
Context `{Blake3, Hex}.

(** What [to_dir] makes of the [.part] file it finds. *)
Definition resumed (m : FileManifest) (old : list byte) : Z * list byte :=
  if decide (0 < zlen old ∧ 0 < fm_total_chunks m) then
    let v := Z.min (as_u32 (zlen old / CHUNK_SIZE)) (fm_total_chunks m) in
    (v, resize (Z.to_nat (v * CHUNK_SIZE)) old)
  else (0, old).

Definition final_of (dir : string) (m : FileManifest) : string := path_join dir (fm_filename m).
Definition part_of (dir : string) (m : FileManifest) : string :=
  path_join dir (fm_filename m +:+ ".part").

Lemma to_dir_ok dir m fs :
  fs_fault fs = None →
  let old := default [] (files fs !! part_of dir m) in
  to_dir dir m fs =
    (Ok {| fr_manifest := m; fr_target := DFile (final_of dir m) (part_of dir m);
           fr_received_chunks := list_to_set (seqZ 0 (resumed m old).1) |},
     {| files := <[part_of dir m := (resumed m old).2]> (files fs); fs_fault := None |}).
Proof.
  intros Hf old. destruct fs as [fl ff]. simpl in *. subst ff.
  assert (fs_open_rw (part_of dir m) {| files := fl; fs_fault := None |}
    = (Ok tt, {| files := <[part_of dir m := old]> fl; fs_fault := None |})) as Eo.
  { unfold fs_open_rw, fs_change. simpl. unfold with_files. simpl. subst old. do 3 f_equal.
    destruct (fl !! part_of dir m) as [c|] eqn:E; simpl; [by rewrite insert_id|done]. }
  unfold to_dir. fold (part_of dir m) (final_of dir m).
  unfold mbind, st_bind, st_map_err.
  unfold fs_create_dir_all, fs_change at 1, with_files, id. cbn -[part_of final_of fs_open_rw fs_set_len].
  rewrite Eo. cbn -[part_of final_of fs_open_rw fs_set_len]. unfold fs_len.
  cbn -[part_of final_of fs_set_len]. rewrite lookup_insert_eq. cbn -[part_of final_of fs_set_len].
  unfold resumed. case_decide; [|done].
  unfold fs_set_len, fs_change, with_files. simpl. repeat f_equal.
  by rewrite alter_insert_eq.
Qed.

(** Resuming from a prefix of the data keeps its whole chunks. *)
Lemma resumed_prefix m data old :
  describes m data → fm_total_chunks m < 2 ^ 32 → old `prefix_of` data →
  resumed m old = (zlen old / CHUNK_SIZE, take (Z.to_nat (zlen old / CHUNK_SIZE * CHUNK_SIZE)) data).
Proof.
  intros (Hm & Hsz & _) Hu Hp. pose proof CHUNK_SIZE_pos as Hc. pose proof (zlen_nonneg old) as Hz0.
  pose proof (sized_bounds m Hm) as Hb. pose proof (prefix_length _ _ Hp) as Hl.
  assert (zlen old ≤ zlen data) as Hlz by (unfold zlen; lia).
  unfold resumed. case_decide as Hd.
  - assert (0 ≤ zlen old / CHUNK_SIZE ≤ fm_total_chunks m) as Hv.
    { split; [apply Z.div_pos; lia|]. apply Z.div_le_upper_bound; nia. }
    assert (as_u32 (zlen old / CHUNK_SIZE) = zlen old / CHUNK_SIZE) as ->.
    { apply wrap_small. split; lia. }
    rewrite Z.min_l by lia. f_equal. pose proof (Z.mul_div_le (zlen old) CHUNK_SIZE Hc).
    rewrite resize_small by (unfold zlen in *; lia).
    destruct Hp as [k ->]. rewrite take_app_le by (unfold zlen in *; lia). done.
  - assert (old = []) as ->; [|by unfold zlen; simpl; rewrite Z.div_0_l by lia].
    destruct (decide (zlen old = 0)) as [E|?].
    + destruct old; [done|]. unfold zlen in E. simpl in E. lia.
    + destruct Hb as [[E _]|[? _]]; [|lia]. lia.
Qed.

Lemma agrees_prefix data v : 0 ≤ v →
  agrees data (take (Z.to_nat (v * CHUNK_SIZE)) data) (list_to_set (seqZ 0 v)).
Proof.
  intros Hv. pose proof CHUNK_SIZE_pos. split; [rewrite length_take; lia|].
  intros i k Hi%elem_of_list_to_set%elem_of_seqZ _ Hk. apply lookup_take_lt. nia.
Qed.

Lemma next_from_seq v : 0 ≤ v →
  next_from (S (size (list_to_set (C := gset Z) (seqZ 0 v)))) (list_to_set (seqZ 0 v)) 0 = v.
Proof.
  intros Hv. destruct (next_from_least (list_to_set (seqZ 0 v))) as (H0' & Hin & Hout). cbv zeta in *.
  set (n := next_from _ _ 0) in *.
  assert (¬ 0 ≤ n < v) as Hn1.
  { intros Hn. apply Hout. apply elem_of_list_to_set, elem_of_seqZ. lia. }
  destruct (decide (v < n)) as [Hn2|]; [|lia]. exfalso.
  specialize (Hin v ltac:(lia)). apply elem_of_list_to_set, elem_of_seqZ in Hin. lia.
Qed.

Lemma finalize_file_ok `{!Blake3Laws} rd r fs final part data :
  fr_target r = DFile final part → is_complete r = true → fs_fault fs = None →
  files fs !! part = Some data → b3_hash data = fm_blake3_root_hash (fr_manifest r) →
  finalize_file rd (r, fs) = (Ok final, (r, with_files (<[final := data]> (delete part (files fs))) fs)).
Proof.
  intros Et Hc Hf Hp Hh. unfold finalize_file. rewrite Hc, Et. simpl.
  rewrite Hp. simpl. rewrite hash_file_whole, Hh. rewrite decide_False by (by intros []).
  unfold fs_rename. by rewrite Hf, Hp.
Qed.
End ResumeLemmas.

(** ** Properties *)

(** C13: a resumed transfer completes with the sender's file.  The receiver finds
    any prefix of the file in its [.part] file, a torn last chunk included (an
    empty or absent one is a fresh transfer), asks for the first chunk it lacks,
    and the sender, started there from memory or from its own disk, produces
    chunks that are all accepted; finalizing then leaves the file's exact bytes
    at the final path and no [.part] file. *)
Theorem transfer_resumes `{Blake3, Hex, !Blake3Laws} (rd : nat → nat) (dir : string)
    (m : FileManifest) (data old : list byte) (fs sfs : Fs) (src : SenderSource) :
  describes m data → fm_total_chunks m < 2 ^ 32 → fs_fault fs = None →
  old = default [] (files fs !! part_of dir m) → old `prefix_of` data →
  src_content sfs src = data →
  ∃ r fs1, to_dir dir m fs = (Ok r, fs1)
    ∧ next_expected_chunk r = zlen old / CHUNK_SIZE
    ∧ ∃ s1, seek_to_chunk (next_expected_chunk r)
             {| fs_manifest := m; fs_source := src; fs_current_chunk := 0 |} = (Ok tt, s1)
    ∧ ∃ cs s2, drain (S (Z.to_nat (fm_total_chunks m))) sfs s1 = (Ok cs, s2)
    ∧ is_finished s2 = true
    ∧ ∃ r2 fs2 fs3, receive_all cs (r, fs1) = (Ok tt, (r2, fs2))
    ∧ finalize_file rd (r2, fs2) = (Ok (final_of dir m), (r2, fs3))
    ∧ files fs3 !! final_of dir m = Some data ∧ files fs3 !! part_of dir m = None.
Proof.
  intros Hd Hu Hf Hold Hp Hsrc. pose proof CHUNK_SIZE_pos as Hc. pose proof (zlen_nonneg old) as Hz.
  pose proof (to_dir_ok dir m fs Hf) as E. cbv zeta in E. rewrite <-Hold in E.
  rewrite (resumed_prefix m data old Hd Hu Hp) in E. cbn [fst snd] in E.
  set (v := zlen old / CHUNK_SIZE) in *.
  assert (0 ≤ v ≤ fm_total_chunks m ∧ v * CHUNK_SIZE ≤ zlen data) as (Hv & Hvl).
  { pose proof (prefix_length _ _ Hp). pose proof (Z.mul_div_le (zlen old) CHUNK_SIZE Hc).
    destruct Hd as (Hm & Hsz & _). pose proof (sized_bounds m Hm).
    assert (zlen old ≤ zlen data) by (unfold zlen; lia).
    assert (0 ≤ v) by (apply Z.div_pos; lia). split; [|subst v; lia]. split; [done|].
    apply Z.div_le_upper_bound; nia. }
  eexists _, _. split; [exact E|]. set (r := Build_FileReceiver _ _ _).
  assert (next_expected_chunk r = v) as Hn.
  { unfold next_expected_chunk. subst r. cbn [fr_received_chunks fr_manifest].
    rewrite next_from_seq by lia. lia. }
  split; [done|]. rewrite Hn.
  eexists. split; [unfold seek_to_chunk; simpl; by rewrite decide_False by lia|].
  destruct (drain_spec sfs m data (Z.to_nat (fm_total_chunks m - v)) v
    {| fs_manifest := m; fs_source := set_position (v * CHUNK_SIZE) src; fs_current_chunk := v |}
    (S (Z.to_nat (fm_total_chunks m)))) as (s2 & Es & Hs2); [done| |lia..|].
  { destruct src; simpl in *; split_and!; simpl; try done; lia. }
  eexists _, _. split; [exact Es|]. split; [done|].
  destruct (receive_all_spec r {| files := <[part_of dir m := take (Z.to_nat (v * CHUNK_SIZE)) data]> (files fs);
     fs_fault := None |} data (seqZ v (Z.of_nat (Z.to_nat (fm_total_chunks m - v)))))
    as (r2 & fs2 & Er & Em & Hw & Ht & Hr2 & Ha); [done| | | |].
  { apply Forall_forall. intros i Hi%elem_of_seqZ. simpl. lia. }
  { split; [done|]. simpl. rewrite lookup_insert_eq. eauto. }
  { unfold assembled. simpl. rewrite lookup_insert_eq. apply agrees_prefix. lia. }
  destruct (complete_data r2 fs2 data) as [Hcm Hasm]; rewrite ?Em; [done|done|done| |].
  { rewrite Hr2. apply set_eq. intros i. simpl.
    rewrite elem_of_union, !elem_of_list_to_set, !elem_of_seqZ. lia. }
  unfold same_target in Ht. simpl in Ht. unfold writable, assembled in *.
  destruct (fr_target r2) as [f2 p2|] eqn:Et; [|done]. destruct Ht as [<- <-].
  destruct Hw as [Hf2 [c Hc2]]. rewrite Hc2 in Hasm. simpl in Hasm. subst c.
  exists r2, fs2. eexists. split; [exact Er|]. split.
  { eapply finalize_file_ok; [done..|]. rewrite Em. symmetry. apply Hd. }
  simpl. split; [apply lookup_insert_eq|]. rewrite lookup_insert_ne.
  - apply lookup_delete_eq.
  - apply path_join_ext; done.
Qed.

(** Chunks may arrive in any order and any number of times: as long as every
    index of the manifest arrives at least once, a receiver in memory ends with
    exactly the sender's bytes and [finalize_memory] returns them. *)
Theorem transfer_any_order `{Blake3, Hex} (m : FileManifest) (data : list byte) (js : list Z) (fs : Fs) :
  describes m data → fm_total_chunks m < 2 ^ 32 →
  (∀ i, i ∈ js ↔ 0 ≤ i < fm_total_chunks m) →
  ∃ r, receive_all (map (chunk_of m data) js) (to_memory m, fs) = (Ok tt, (r, fs))
    ∧ is_complete r = true ∧ finalize_memory r = Ok data.
Proof.
  intros Hd Hu Hjs.
  destruct (receive_all_spec (to_memory m) fs data js) as (r & fs' & Er & Em & _ & Ht & Hr & Ha);
    [done| | | |].
  { apply Forall_forall. intros i Hi. by apply Hjs. }
  { unfold writable, zlen. simpl. rewrite length_replicate. destruct Hd as ((? & _) & _ & _). lia. }
  { split; [|set_solver]. unfold assembled. simpl. rewrite length_replicate.
    destruct Hd as (_ & -> & _). unfold zlen. lia. }
  change (fr_manifest (to_memory m)) with m in *.
  assert (fs' = fs) as ->.
  { pose proof (receive_all_memory (map (chunk_of m data) js) (to_memory m) fs) as Hfs.
    rewrite Er in Hfs. eapply Hfs. done. }
  destruct (complete_data r fs data) as [Hc Hasm]; rewrite ?Em; [done|done|done| |].
  { rewrite Hr. apply set_eq. intros i. simpl.
    rewrite elem_of_union, !elem_of_list_to_set, elem_of_seqZ, Hjs. set_solver by lia. }
  exists r. split; [done|]. split; [done|]. unfold finalize_memory. rewrite Hc. simpl.
  unfold same_target, assembled in *. simpl in Ht. destruct (fr_target r) as [|b]; [done|]. subst b.
  rewrite Em. simpl. destruct Hd as (_ & _ & ->). by rewrite decide_False by (by intros []).
Qed.

(** C14: nothing is released without the root hash, whatever chunks were fed in.
    [finalize_file] returns a path only when every chunk is on record and the
    bytes now at that path have the manifest's hash; any error leaves the file
    system and the receiver unchanged.  [finalize_memory] likewise. *)
Theorem finalize_verified `{Blake3, Hex, !Blake3Laws} (rd : nat → nat) (r : FileReceiver) (fs : Fs) :
  match finalize_file rd (r, fs) with
  | (Ok p, (r', fs')) => is_complete r = true ∧ r' = r
    ∧ ∃ part content, fr_target r = DFile p part ∧ files fs !! part = Some content
        ∧ b3_hash content = fm_blake3_root_hash (fr_manifest r) ∧ files fs' !! p = Some content
  | (Err _, (r', fs')) => r' = r ∧ fs' = fs
  end
  ∧ ∀ b, finalize_memory r = Ok b →
      is_complete r = true ∧ fr_target r = DMemory b ∧ b3_hash b = fm_blake3_root_hash (fr_manifest r).
Proof.
  split.
  - unfold finalize_file. destruct (is_complete r); simpl; [|done].
    destruct (fr_target r) as [p part|]; [|done]. rewrite hash_file_whole.
    case_decide as Hh; [done|]. unfold fs_rename. destruct (fs_fault fs); [done|].
    destruct (files fs !! part) as [c|] eqn:E; [|done]. simpl in *.
    split_and!; [done|done|]. exists part, c. split_and!; [done..|]. apply lookup_insert_eq.
  - intros b. unfold finalize_memory. destruct (is_complete r); simpl; [|done].
    destruct (fr_target r); [done|]. case_decide; [done|]. intros ?. simplify_eq. done.
Qed.

(** Exactly the chunks that fit the manifest are accepted.  On a writable
    target of a consistent manifest, [receive_chunk] succeeds iff the chunk has
    the transfer's identifier, an index of the manifest, the hash of its data, the
    length and the offset of that index; success records the index and keeps the
    target writable, refusal changes nothing, and it never panics. *)
Theorem receive_chunk_guarded `{Blake3, Hex} (r : FileReceiver) (fs : Fs) (c : FileChunk) :
  sized (fr_manifest r) → writable r fs → 0 ≤ fc_chunk_index c →
  match receive_chunk c (r, fs) with
  | (Ok _, (r', fs')) =>
    fc_file_id c = fm_file_id (fr_manifest r)
    ∧ fc_chunk_index c < fm_total_chunks (fr_manifest r)
    ∧ b3_hash (fc_data c) = fc_blake3_hash c
    ∧ expected_chunk_size (fr_manifest r) (fc_chunk_index c) = Ok (zlen (fc_data c))
    ∧ fc_offset c = fc_chunk_index c * CHUNK_SIZE
    ∧ fr_received_chunks r' = {[ fc_chunk_index c ]} ∪ fr_received_chunks r
    ∧ writable r' fs'
    ∧ assembled r' fs' = write_at (Z.to_nat (fc_offset c)) (fc_data c) (assembled r fs)
  | (Err (Raise e), (r', fs')) => check_chunk r c = Err e ∧ r' = r ∧ fs' = fs
  | (Err (Panic _), _) => False
  end.
Proof.
  intros Hm Hw Hi. unfold receive_chunk. destruct (check_chunk r c) as [[]|e] eqn:E; [|done].
  apply check_chunk_ok in E as (E1 & E2 & E3 & E4 & E5).
  destruct (expected_chunk_size_sized _ _ Hm (conj Hi E2)) as [Hlt Hx].
  rewrite Hx in E4. assert (zlen (fc_data c) = Z.min CHUNK_SIZE
    (fm_total_size (fr_manifest r) - fc_chunk_index c * CHUNK_SIZE)) as Hl by congruence.
  pose proof CHUNK_SIZE_pos. unfold writable, assembled in *.
  destruct (fr_target r) as [f p|b] eqn:Et.
  - destruct Hw as [Hf [d Hp]]. unfold fs_write_at, fs_change. rewrite Hf. simpl. rewrite Et.
    rewrite lookup_alter_eq, Hp. simpl. split_and!; eauto; congruence.
  - rewrite decide_False by nia. simpl. unfold zlen in *.
    split_and!; auto; try congruence.
    + rewrite splice_length; [done|nia].
    + apply write_at_splice. nia.
Qed.

(** [next_expected_chunk] is the first chunk to ask for: everything below it
    is on record, it is not (unless it is the end), and it is the end exactly when
    the receiver is complete. *)
Theorem next_expected_least (r : FileReceiver) :
  in_bounds r → 0 ≤ fm_total_chunks (fr_manifest r) < 2 ^ 32 →
  let n := next_expected_chunk r in
  0 ≤ n ≤ fm_total_chunks (fr_manifest r)
  ∧ (∀ i, 0 ≤ i < n → i ∈ fr_received_chunks r)
  ∧ (n < fm_total_chunks (fr_manifest r) → n ∉ fr_received_chunks r)
  ∧ (n = fm_total_chunks (fr_manifest r) ↔ is_complete r = true).
Proof.
  intros Hb Ht. unfold next_expected_chunk. set (T := fm_total_chunks (fr_manifest r)) in *.
  destruct (next_from_least (fr_received_chunks r)) as (H0' & Hin & Hout). cbv zeta in *.
  set (n := next_from _ _ 0) in *.
  assert (n ≤ T) as HnT.
  { destruct (decide (T < n)); [|lia]. specialize (Hb T (Hin T ltac:(lia))). fold T in Hb. lia. }
  rewrite Z.min_l by lia.
  destruct (in_bounds_size r Hb ltac:(lia)) as [Hs Heq]. fold T in Hs, Heq.
  split_and!; [lia|lia|done|done|]. unfold is_complete. fold T. case_decide as HT.
  { split; [done|lia]. }
  rewrite bool_decide_eq_true. unfold as_u32. rewrite wrap_small by (split; lia). split.
  - intros ->. assert (list_to_set (seqZ 0 T) ⊆ fr_received_chunks r) as Hsub.
    { intros i Hi%elem_of_list_to_set%elem_of_seqZ. apply Hin. lia. }
    apply subseteq_size in Hsub.
    rewrite size_list_to_set, length_seqZ in Hsub by apply NoDup_seqZ. lia.
  - intros E. rewrite (Heq E) in Hout. destruct (decide (n < T)) as [|]; [|lia].
    destruct Hout. apply elem_of_list_to_set, elem_of_seqZ. lia.
Qed.

(** A stale [.part] file blocks a transfer for good.  If the file found under
    the [.part] name has at least as many whole chunks as the manifest and not its
    hash, every chunk counts as received, so the sender is asked for nothing, and
    finalizing fails; the next attempt finds the same state and fails again. *)
Theorem stale_part_blocks `{Blake3, Hex, !Blake3Laws} (rd : nat → nat) (dir : string)
    (m : FileManifest) (old : list byte) (fs : Fs) :
  0 < fm_total_chunks m < 2 ^ 32 → fs_fault fs = None →
  files fs !! part_of dir m = Some old →
  fm_total_chunks m * CHUNK_SIZE ≤ zlen old < 2 ^ 32 * CHUNK_SIZE →
  b3_hash (take (Z.to_nat (fm_total_chunks m * CHUNK_SIZE)) old) ≠ fm_blake3_root_hash m →
  ∃ r fs1 e, to_dir dir m fs = (Ok r, fs1)
    ∧ next_expected_chunk r = fm_total_chunks m
    ∧ finalize_file rd (r, fs1) = (Err e, (r, fs1))
    ∧ to_dir dir m fs1 = (Ok r, fs1).
Proof.
  intros Ht Hf Hp Hl Hh. pose proof CHUNK_SIZE_pos as Hc. set (T := fm_total_chunks m) in *.
  set (c := take (Z.to_nat (T * CHUNK_SIZE)) old) in *.
  assert (zlen c = T * CHUNK_SIZE) as Hcl by (subst c; unfold zlen in *; rewrite length_take; lia).
  assert (∀ l, T * CHUNK_SIZE ≤ zlen l < 2 ^ 32 * CHUNK_SIZE → resumed m l = (T, take (Z.to_nat (T * CHUNK_SIZE)) l))
    as Hres.
  { intros l Hll. unfold resumed. fold T. rewrite decide_True by nia.
    assert (T ≤ zlen l / CHUNK_SIZE < 2 ^ 32).
    { split; [apply Z.div_le_lower_bound; lia|apply Z.div_lt_upper_bound; lia]. }
    unfold as_u32. rewrite wrap_small by (split; lia). rewrite Z.min_r by lia.
    rewrite resize_small; [done|unfold zlen in *; lia]. }
  pose proof (to_dir_ok dir m fs Hf) as E. cbv zeta in E. rewrite Hp in E. cbn [from_option id] in E.
  rewrite (Hres old Hl) in E. cbn [fst snd] in E. fold c in E.
  eexists _, _, _. split; [exact E|]. split_and!.
  - unfold next_expected_chunk. cbn [fr_received_chunks fr_manifest].
    rewrite next_from_seq by lia. fold T. lia.
  - unfold finalize_file. replace (is_complete _) with true; cycle 1.
    { unfold is_complete. cbn [fr_received_chunks fr_manifest]. fold T. case_decide; [done|].
      rewrite size_list_to_set, length_seqZ by apply NoDup_seqZ.
      unfold as_u32. rewrite wrap_small by (split; lia).
      symmetry. apply bool_decide_eq_true. lia. }
    cbn -[part_of final_of hash_file]. rewrite lookup_insert_eq, hash_file_whole. cbn [from_option id].
    rewrite decide_True by done. reflexivity.
  - rewrite to_dir_ok by done. cbn [files]. rewrite lookup_insert_eq. cbn [from_option id].
    rewrite Hres by nia. cbn [fst snd].
    rewrite insert_insert_eq, (take_ge c) by (unfold zlen in *; lia). done.
Qed.

(** The wire manifest is not checked for consistency.  Any manifest that
    announces at least two chunks and fewer bytes than one makes a receiver in
    memory panic on a well-formed first chunk. *)
Theorem memory_receiver_panics `{Blake3, Hex} (m : FileManifest) (data : list byte) (fs : Fs) :
  0 ≤ fm_total_size m < CHUNK_SIZE → 2 ≤ fm_total_chunks m → zlen data = CHUNK_SIZE →
  ∃ msg, receive_chunk (FileChunk_new (fm_file_id m) 0 0 data) (to_memory m, fs)
    = (Err (Panic msg), (to_memory m, fs)).
Proof.
  intros Hs Ht Hl. unfold receive_chunk.
  assert (check_chunk (to_memory m) (FileChunk_new (fm_file_id m) 0 0 data) = Ok tt) as ->.
  { apply check_chunk_ok. simpl. split_and!; [done|lia|done| |done].
    unfold expected_chunk_size. rewrite !decide_False by lia. by rewrite Hl. }
  simpl. rewrite decide_True; [eauto|]. unfold zlen in *. rewrite length_replicate. lia.
Qed.

(** ** Witnesses *)

Section Witnesses.
Import Toy.

Definition sample_data : list byte := as_bytes "hello, bridge".
Definition sample_manifest : FileManifest := create_manifest_from_bytes "id1" "f.bin" sample_data.
Definition empty_fs : Fs := {| files := ∅; fs_fault := None |}.
Definition torn_fs : Fs :=
  {| files := {[ "in/f.bin.part" := as_bytes "hel" ]}; fs_fault := None |}.

Lemma sample_describes : describes sample_manifest sample_data.
Proof. split_and!; [|done|done]. apply sized_new. split; vm_compute; congruence. Qed.

Example transfer_resumes_witness :
  ∃ r fs1, to_dir "in" sample_manifest torn_fs = (Ok r, fs1) ∧ next_expected_chunk r = 0.
Proof.
  destruct (transfer_resumes (λ _, 5%nat) "in" sample_manifest sample_data (as_bytes "hel") torn_fs
    empty_fs (SMemory sample_data 0) sample_describes) as (r & fs1 & E & En & _);
    [vm_compute; done|done|done| |done|].
  - by exists (drop 3 sample_data).
  - exists r, fs1. split; [exact E|]. rewrite En. done.
Defined.

Example transfer_any_order_witness :
  ∃ r, receive_all (map (chunk_of sample_manifest sample_data) [0; 0]) (to_memory sample_manifest, empty_fs)
      = (Ok tt, (r, empty_fs))
    ∧ is_complete r = true ∧ finalize_memory r = Ok sample_data.
Proof.
  apply (transfer_any_order sample_manifest sample_data [0; 0] empty_fs sample_describes); [done|].
  change (fm_total_chunks sample_manifest) with 1. intros i. rewrite !elem_of_cons. set_solver by lia.
Defined.

Example finalize_verified_witness :
  let m := create_manifest_from_bytes "id2" "empty" [] in
  is_complete (to_memory m) = true ∧ fr_target (to_memory m) = DMemory []
  ∧ b3_hash [] = fm_blake3_root_hash m.
Proof.
  intros m.
  apply (proj2 (finalize_verified (λ _, 1%nat) (to_memory m) empty_fs) []).
  reflexivity.
Defined.

Example receive_chunk_guarded_witness :
  match receive_chunk (chunk_of sample_manifest sample_data 0) (to_memory sample_manifest, empty_fs) with
  | (Err (Panic _), _) => False
  | _ => True
  end.
Proof.
  pose proof (receive_chunk_guarded (to_memory sample_manifest) empty_fs
    (chunk_of sample_manifest sample_data 0) (proj1 sample_describes) eq_refl
    ltac:(vm_compute; congruence)) as Hg.
  destruct (receive_chunk _ _) as [[[]|[e|msg]] [r' fs']]; [exact I|exact I|exact Hg].
Defined.

Example next_expected_least_witness :
  next_expected_chunk (to_memory sample_manifest) = fm_total_chunks sample_manifest
  ↔ is_complete (to_memory sample_manifest) = true.
Proof.
  apply (next_expected_least (to_memory sample_manifest)).
  - intros i Hi. set_solver.
  - vm_compute. split; congruence.
Defined.

Definition stale_bytes : list byte := replicate (Z.to_nat CHUNK_SIZE) x00.
Lemma stale_len : zlen stale_bytes = CHUNK_SIZE.
Proof. unfold zlen, stale_bytes. rewrite length_replicate. pose proof CHUNK_SIZE_pos. lia. Qed.
Definition stale_fs : Fs := {| files := {[ "in/f.bin.part" := stale_bytes ]}; fs_fault := None |}.

Definition other_hash (h : array 32) : array 32 :=
  if decide (h = arr_rep 32 x00) then arr_rep 32 x01 else arr_rep 32 x00.
Lemma other_hash_ne h : h ≠ other_hash h.
Proof.
  unfold other_hash. case_decide as E; [|done]. subst h. intros E.
  apply (f_equal (λ a, hd x05 (arr a))) in E. done.
Qed.
Definition stale_manifest : FileManifest :=
  FileManifest_new "id4" "f.bin" 1000 (other_hash (b3_hash stale_bytes)).

Example stale_part_blocks_witness :
  ∃ r fs1 e, to_dir "in" stale_manifest stale_fs = (Ok r, fs1)
    ∧ next_expected_chunk r = 1
    ∧ finalize_file (λ _, 512%nat) (r, fs1) = (Err e, (r, fs1))
    ∧ to_dir "in" stale_manifest fs1 = (Ok r, fs1).
Proof.
  apply (stale_part_blocks (λ _, 512%nat) "in" stale_manifest stale_bytes stale_fs).
  - change (fm_total_chunks stale_manifest) with 1. lia.
  - reflexivity.
  - reflexivity.
  - rewrite stale_len. change (fm_total_chunks stale_manifest) with 1.
    pose proof CHUNK_SIZE_pos. lia.
  - change (fm_total_chunks stale_manifest) with 1. rewrite Z.mul_1_l.
    rewrite take_ge by (pose proof stale_len; unfold zlen in *; lia). apply other_hash_ne.
Defined.

Example memory_receiver_panics_witness :
  ∃ msg, receive_chunk (FileChunk_new "id3" 0 0 stale_bytes)
      (to_memory {| fm_file_id := "id3"; fm_filename := "x"; fm_total_size := 10;
                    fm_total_chunks := 2; fm_blake3_root_hash := arr_rep 32 x00 |}, empty_fs)
    = (Err (Panic msg), (to_memory {| fm_file_id := "id3"; fm_filename := "x"; fm_total_size := 10;
                    fm_total_chunks := 2; fm_blake3_root_hash := arr_rep 32 x00 |}, empty_fs)).
Proof.
  apply (memory_receiver_panics {| fm_file_id := "id3"; fm_filename := "x"; fm_total_size := 10;
    fm_total_chunks := 2; fm_blake3_root_hash := arr_rep 32 x00 |} stale_bytes empty_fs).
  - vm_compute. split; congruence.
  - simpl. lia.
  - apply stale_len.
Defined.

End Witnesses.
