(* ===== verification/Clipboard.v ===== *)
(** * Clipboard: [crates/bridge-clipboard]

    The clipboard messages ([types.rs]), the policy ([policy.rs]), the echo guard
    ([guard.rs]), the backends ([backend/mod.rs], [backend/memory.rs]) and the
    synchronization engine ([engine.rs]).  The trait [ClipboardBackend] is a class
    over the type of the backend's state; the engine is proved correct against
    the class.  The events an engine broadcasts are kept as a log.  The Win32
    backend is in [Windows.v]. *)
From S2P Require Import Prelude Channel Text External Codec Core Protocol.

(** ** [error.rs] *)

Inductive ClipboardError :=
| CSerialization (msg : string)
| CDeserialization (msg : string)
| OversizedPayload (size max : usize)
| HashMismatch (expected actual : string)
| UnsupportedFormat (msg : string)
| SensitiveContentBlocked
| StaleSequence (current received : u64)
| BackendError (msg : string)
| ChannelMismatch (expected actual : u16)
| CCore (e : BridgeError).

Definition ClipboardError_to_string (e : ClipboardError) : string :=
  match e with
  | CSerialization m => "Serialization error: " +:+ m
  | CDeserialization m => "Deserialization error: " +:+ m
  | OversizedPayload s m => "Payload exceeds maximum permitted size: " +:+ dec s
      +:+ " bytes (max: " +:+ dec m +:+ " bytes)"
  | HashMismatch x a => "Content integrity mismatch: expected Blake3 " +:+ x +:+ ", calculated " +:+ a
  | UnsupportedFormat m => "Unsupported or disabled clipboard format: " +:+ m
  | SensitiveContentBlocked => "Sensitive content blocked by privacy policy"
  | StaleSequence c r => "Stale or duplicate sequence number: received " +:+ dec r
      +:+ ", current " +:+ dec c
  | BackendError m => "Clipboard backend failure: " +:+ m
  | ChannelMismatch x a => "Channel mismatch: expected channel " +:+ dec x +:+ ", got " +:+ dec a
  | CCore e => "Core error: " +:+ BridgeError_to_string e
  end.

(** ** [types.rs] *)

Inductive ImageFormat := Png | Jpeg | Bmp | Webp.
Inductive ClipboardFormat := FText | FHtml | FRtf | FImage (f : ImageFormat).
Inductive ClipboardContent :=
| Text (s : string)
| Html (html : string) (plain : option string)
| Image (format : ImageFormat) (data : list byte) (width height : u32).

#[global] Instance ImageFormat_eq_dec : EqDecision ImageFormat.
Proof. solve_decision. Defined.
#[global] Instance ClipboardFormat_eq_dec : EqDecision ClipboardFormat.
Proof. solve_decision. Defined.
#[global] Instance ClipboardContent_eq_dec : EqDecision ClipboardContent.
Proof. solve_decision. Defined.

Definition mime_type (f : ImageFormat) : string :=
  match f with
  | Png => "image/png" | Jpeg => "image/jpeg" | Bmp => "image/bmp" | Webp => "image/webp"
  end.
(** [{:?}] and [as u8] of the format. *)
Definition ImageFormat_debug (f : ImageFormat) : string :=
  match f with Png => "Png" | Jpeg => "Jpeg" | Bmp => "Bmp" | Webp => "Webp" end.
Definition ImageFormat_as_u8 (f : ImageFormat) : u8 :=
  match f with Png => 0 | Jpeg => 1 | Bmp => 2 | Webp => 3 end.

Definition content_format (self : ClipboardContent) : ClipboardFormat :=
  match self with Text _ => FText | Html _ _ => FHtml | Image f _ _ _ => FImage f end.

Definition html_len (html : string) (plain : option string) : usize :=
  str_len html + match plain with Some p => str_len p | None => 0 end.
Definition byte_len (self : ClipboardContent) : usize :=
  match self with
  | Text s => str_len s
  | Html html plain => html_len html plain
  | Image _ data _ _ => zlen data
  end.
Definition content_is_empty (self : ClipboardContent) : bool := bool_decide (byte_len self = 0).

Definition content_compute_hash `{Blake3} (self : ClipboardContent) : array 32 :=
  let hasher := b3_new in
  b3_finalize
    match self with
    | Text s => b3_update (b3_update hasher (as_bytes "TXT:")) (as_bytes s)
    | Html html plain =>
      let hasher := b3_update (b3_update hasher (as_bytes "HTM:")) (as_bytes html) in
      match plain with
      | Some p => b3_update (b3_update hasher (as_bytes "|PLN:")) (as_bytes p)
      | None => hasher
      end
    | Image format data width height =>
      let hasher := b3_update hasher (as_bytes "IMG:") in
      let hasher := b3_update hasher [z2b (ImageFormat_as_u8 format)] in
      let hasher := b3_update hasher (le_bytes 4 width) in
      let hasher := b3_update hasher (le_bytes 4 height) in
      b3_update hasher data
    end.

Record ClipboardMetadata := {
  cm_origin : NodeId; cm_sequence : u64; cm_timestamp_ms : u64; cm_content_hash : array 32;
  cm_format : ClipboardFormat; cm_byte_size : usize; cm_is_sensitive : bool }.
Record ClipboardEntry := { ce_metadata : ClipboardMetadata; ce_content : ClipboardContent }.
#[global] Instance ClipboardMetadata_eq_dec : EqDecision ClipboardMetadata.
Proof. solve_decision. Defined.
#[global] Instance ClipboardEntry_eq_dec : EqDecision ClipboardEntry.
Proof. solve_decision. Defined.

(** [now_ms] is the clock reading in milliseconds, a [u128]. *)
Definition ClipboardEntry_new `{Blake3} (origin : NodeId) (sequence : u64) (content : ClipboardContent)
    (is_sensitive : bool) (now_ms : Z) : ClipboardEntry := {|
  ce_metadata := {|
    cm_origin := origin; cm_sequence := sequence;
    cm_timestamp_ms := if decide (now_ms < 2 ^ 64) then now_ms else 2 ^ 64 - 1;
    cm_content_hash := content_compute_hash content; cm_format := content_format content;
    cm_byte_size := byte_len content; cm_is_sensitive := is_sensitive |};
  ce_content := content |}.

Definition validate_integrity `{Blake3, Hex} (self : ClipboardEntry) : result ClipboardError unit :=
  let actual_hash := content_compute_hash (ce_content self) in
  if decide (actual_hash ≠ cm_content_hash (ce_metadata self)) then
    Err (HashMismatch (hex_encode (arr (cm_content_hash (ce_metadata self))))
           (hex_encode (arr actual_hash)))
  else
    let actual_size := byte_len (ce_content self) in
    if decide (actual_size ≠ cm_byte_size (ce_metadata self)) then
      Err (HashMismatch ("size:" +:+ dec (cm_byte_size (ce_metadata self))) ("size:" +:+ dec actual_size))
    else Ok tt.

Inductive ClipboardMessage :=
| Sync (e : ClipboardEntry)
| Clear (origin : NodeId) (sequence timestamp_ms : u64)
| CAck (origin : NodeId) (sequence : u64) (content_hash : array 32).
#[global] Instance ClipboardMessage_eq_dec : EqDecision ClipboardMessage.
Proof. solve_decision. Defined.

Section Messages.
Context `{Postcard ClipboardMessage}.

Definition clipboard_to_data_frame (self : ClipboardMessage) : result ClipboardError DataFrame :=
  payload ← map_err CSerialization (to_allocvec self);
  Ok (DataFrame_new CHANNEL_CLIPBOARD payload).

Definition clipboard_from_data_frame (frame : DataFrame) : result ClipboardError ClipboardMessage :=
  if decide (df_channel frame ≠ CHANNEL_CLIPBOARD) then
    Err (ChannelMismatch CHANNEL_CLIPBOARD (df_channel frame))
  else map_err CDeserialization (from_bytes (df_payload frame)).
End Messages.

(** ** [policy.rs] *)

Record ClipboardPolicy := {
  max_text_bytes : usize; max_image_bytes : usize; allow_images : bool; allow_html : bool;
  filter_sensitive : bool; enabled : bool }.

Definition ClipboardPolicy_default : ClipboardPolicy := {|
  max_text_bytes := 2 * 1024 * 1024; max_image_bytes := 10 * 1024 * 1024; allow_images := true;
  allow_html := true; filter_sensitive := true; enabled := true |}.

Definition policy_validate (self : ClipboardPolicy) (content : ClipboardContent) (is_sensitive : bool) :
    result ClipboardError unit :=
  if negb (enabled self) then Err (BackendError "Clipboard synchronization is disabled")
  else if is_sensitive && filter_sensitive self then Err SensitiveContentBlocked
  else match content with
  | Text text =>
    if decide (max_text_bytes self < str_len text) then
      Err (OversizedPayload (str_len text) (max_text_bytes self))
    else Ok tt
  | Html html plain =>
    if negb (allow_html self) then Err (UnsupportedFormat "HTML format disabled by policy")
    else
      let total := html_len html plain in
      if decide (max_text_bytes self < total) then Err (OversizedPayload total (max_text_bytes self))
      else Ok tt
  | Image format data _ _ =>
    if negb (allow_images self) then
      Err (UnsupportedFormat ("Image format (" +:+ ImageFormat_debug format +:+ ") disabled by policy"))
    else if decide (max_image_bytes self < zlen data) then
      Err (OversizedPayload (zlen data) (max_image_bytes self))
    else Ok tt
  end.

Definition is_format_allowed (self : ClipboardPolicy) (format : ClipboardFormat) : bool :=
  match format with
  | FText | FRtf => true
  | FHtml => allow_html self
  | FImage _ => allow_images self
  end.

(** ** [guard.rs] *)

Record EchoGuard := {
  eg_capacity : nat; eg_history : list (array 32); eg_seen_hashes : gset (array 32);
  eg_sequences : gmap NodeId u64 }.

Definition EG_DEFAULT_CAPACITY : nat := 256.

Definition EchoGuard_new (capacity : nat) : EchoGuard :=
  let cap := if decide (capacity = 0%nat) then EG_DEFAULT_CAPACITY else capacity in
  {| eg_capacity := cap; eg_history := []; eg_seen_hashes := ∅; eg_sequences := ∅ |}.
Definition EchoGuard_default : EchoGuard := EchoGuard_new EG_DEFAULT_CAPACITY.

Definition should_suppress (self : EchoGuard) (hash : array 32) : bool :=
  bool_decide (hash ∈ eg_seen_hashes self).

Definition push_hash (hash : array 32) (self : EchoGuard) : EchoGuard :=
  if decide (hash ∈ eg_seen_hashes self) then self
  else
    let '(history, seen) :=
      if decide (eg_capacity self ≤ length (eg_history self))%nat then
        match eg_history self with
        | oldest :: rest => (rest, eg_seen_hashes self ∖ {[ oldest ]})
        | [] => ([], eg_seen_hashes self)
        end
      else (eg_history self, eg_seen_hashes self) in
    {| eg_capacity := eg_capacity self; eg_history := history ++ [hash];
       eg_seen_hashes := {[ hash ]} ∪ seen; eg_sequences := eg_sequences self |}.

Definition record_sent (hash : array 32) (self : EchoGuard) : EchoGuard := push_hash hash self.

Definition set_sequence (origin : NodeId) (sequence : u64) (self : EchoGuard) : EchoGuard :=
  {| eg_capacity := eg_capacity self; eg_history := eg_history self;
     eg_seen_hashes := eg_seen_hashes self;
     eg_sequences := <[origin := sequence]> (eg_sequences self) |}.

Definition record_received (origin : NodeId) (sequence : u64) (hash : array 32) (self : EchoGuard) :
    bool * EchoGuard :=
  if should_suppress self hash then (false, self)
  else
    let stale := match eg_sequences self !! origin with
                 | Some last_seq => bool_decide (sequence ≤ last_seq)
                 | None => false
                 end in
    if stale then (false, self)
    else (true, push_hash hash (set_sequence origin sequence self)).

Definition last_sequence (self : EchoGuard) (origin : NodeId) : option u64 :=
  eg_sequences self !! origin.
Definition guard_clear (self : EchoGuard) : EchoGuard :=
  {| eg_capacity := eg_capacity self; eg_history := []; eg_seen_hashes := ∅; eg_sequences := ∅ |}.

(** ** [backend/mod.rs] and [backend/memory.rs] *)

(** The trait [ClipboardBackend].  [backend_notices] is what its subscribers have
    been sent and not yet read. *)
Class ClipboardBackend (B : Type) := {
  get_content : st B ClipboardError (option ClipboardContent);
  set_content : ClipboardContent → st B ClipboardError unit;
  clear_content : st B ClipboardError unit;
  backend_notices : B → list ClipboardContent;
}.

(** What an engine relies on: a successful [set_content] is what [get_content]
    then returns, and the only thing its subscribers may be told is the content
    that was set; a failing one tells them nothing. *)
Class ClipboardBackendLaws (B : Type) `{ClipboardBackend B} := {
  set_get c b b' : set_content c b = (Ok tt, b') → (get_content b').1 = Ok (Some c);
  set_notices c b r b' : set_content c b = (r, b') →
    ∃ l, backend_notices b' = backend_notices b ++ l ∧ Forall (λ x, x = c) l;
  clear_get b b' : clear_content b = (Ok tt, b') → (get_content b').1 = Ok None;
}.

(** [RwLock] poisoning is the one way the in-memory backend fails. *)
Record MemoryClipboardBackend := {
  mb_content : option ClipboardContent; mb_poisoned : option string;
  mb_notices : list ClipboardContent }.
Definition MemoryClipboardBackend_new : MemoryClipboardBackend :=
  {| mb_content := None; mb_poisoned := None; mb_notices := [] |}.
Definition with_initial_content (content : ClipboardContent) : MemoryClipboardBackend :=
  {| mb_content := Some content; mb_poisoned := None; mb_notices := [] |}.

Definition memory_get_content : st MemoryClipboardBackend ClipboardError (option ClipboardContent) := λ b,
  (match mb_poisoned b with Some e => Err (BackendError e) | None => Ok (mb_content b) end, b).
Definition memory_set_content (content : ClipboardContent) : st MemoryClipboardBackend ClipboardError unit := λ b,
  match mb_poisoned b with
  | Some e => (Err (BackendError e), b)
  | None => (Ok tt, {| mb_content := Some content; mb_poisoned := None;
                       mb_notices := mb_notices b ++ [content] |})
  end.
Definition memory_clear : st MemoryClipboardBackend ClipboardError unit := λ b,
  match mb_poisoned b with
  | Some e => (Err (BackendError e), b)
  | None => (Ok tt, {| mb_content := None; mb_poisoned := None; mb_notices := mb_notices b |})
  end.

#[global] Instance memory_backend : ClipboardBackend MemoryClipboardBackend := {
  get_content := memory_get_content; set_content := memory_set_content;
  clear_content := memory_clear; backend_notices := mb_notices;
}.
#[global] Instance memory_backend_laws : ClipboardBackendLaws MemoryClipboardBackend.
Proof.
  split; cbn [get_content set_content clear_content backend_notices memory_backend];
    unfold memory_get_content, memory_set_content, memory_clear.
  - intros c [m [p|] l] b' E; by simplify_eq/=.
  - intros c [m [p|] l] r b' E; simplify_eq/=.
    + exists []. by rewrite app_nil_r.
    + exists [c]. split; [done|]. by constructor.
  - intros [m [p|] l] b' E; by simplify_eq/=.
Qed.

(** ** [engine.rs] *)

Inductive ClipboardSyncEvent :=
| LocalCopied (hash : array 32) (format : ClipboardFormat) (size : usize)
| OutgoingBroadcastReady (message : ClipboardMessage) (frame : DataFrame)
| RemoteApplied (origin : NodeId) (sequence : u64) (hash : array 32) (format : ClipboardFormat)
| EchoSuppressed (hash : array 32) (reason : string)
| Rejected (reason : string).

Section Engine.
Context `{ClipboardBackend B, Blake3, Hex, Postcard ClipboardMessage}.

Record ClipboardSyncEngine := {
  en_local_node_id : NodeId; en_sequence : u64; en_backend : B; en_guard : EchoGuard;
  en_policy : ClipboardPolicy; en_events : list ClipboardSyncEvent }.

Definition ClipboardSyncEngine_new (local_node_id : NodeId) (backend : B) (policy : ClipboardPolicy) :
    ClipboardSyncEngine :=
  {| en_local_node_id := local_node_id; en_sequence := 1; en_backend := backend;
     en_guard := EchoGuard_default; en_policy := policy; en_events := [] |}.

Definition with_guard (g : EchoGuard) (e : ClipboardSyncEngine) : ClipboardSyncEngine :=
  {| en_local_node_id := en_local_node_id e; en_sequence := en_sequence e; en_backend := en_backend e;
     en_guard := g; en_policy := en_policy e; en_events := en_events e |}.
Definition with_backend (b : B) (e : ClipboardSyncEngine) : ClipboardSyncEngine :=
  {| en_local_node_id := en_local_node_id e; en_sequence := en_sequence e; en_backend := b;
     en_guard := en_guard e; en_policy := en_policy e; en_events := en_events e |}.
(** [event_tx.send]. *)
Definition emit (ev : ClipboardSyncEvent) (e : ClipboardSyncEngine) : ClipboardSyncEngine :=
  {| en_local_node_id := en_local_node_id e; en_sequence := en_sequence e; en_backend := en_backend e;
     en_guard := en_guard e; en_policy := en_policy e; en_events := en_events e ++ [ev] |}.
(** [fetch_add(1)] wraps around. *)
Definition bump_sequence (e : ClipboardSyncEngine) : ClipboardSyncEngine :=
  {| en_local_node_id := en_local_node_id e; en_sequence := as_u64 (en_sequence e + 1);
     en_backend := en_backend e; en_guard := en_guard e; en_policy := en_policy e;
     en_events := en_events e |}.

Definition handle_local_change (content : ClipboardContent) (is_sensitive : bool) (now_ms : Z) :
    st ClipboardSyncEngine ClipboardError (option DataFrame) := λ self,
  match policy_validate (en_policy self) content is_sensitive with
  | Err e => (Err e, emit (Rejected (ClipboardError_to_string e)) self)
  | Ok _ =>
    let hash := content_compute_hash content in
    if should_suppress (en_guard self) hash then
      (Ok None, emit (EchoSuppressed hash "Local change matches recent known hash") self)
    else
      let seq := en_sequence self in
      let self := bump_sequence self in
      let format := content_format content in
      let size := byte_len content in
      let self := with_guard (record_sent hash (en_guard self)) self in
      let entry := ClipboardEntry_new (en_local_node_id self) seq content is_sensitive now_ms in
      let message := Sync entry in
      match clipboard_to_data_frame message with
      | Err e => (Err e, self)
      | Ok frame =>
        (Ok (Some frame),
         emit (OutgoingBroadcastReady message frame) (emit (LocalCopied hash format size) self))
      end
  end.

Definition handle_incoming_frame (frame : DataFrame) :
    st ClipboardSyncEngine ClipboardError (option ClipboardSyncEvent) := λ self,
  match clipboard_from_data_frame frame with
  | Err e => (Err e, self)
  | Ok (Sync entry) =>
    let meta := ce_metadata entry in
    if decide (cm_origin meta = en_local_node_id self) then (Ok None, self)
    else match validate_integrity entry with
    | Err e => (Err e, emit (Rejected (ClipboardError_to_string e)) self)
    | Ok _ =>
      match policy_validate (en_policy self) (ce_content entry) (cm_is_sensitive meta) with
      | Err e => (Err e, emit (Rejected (ClipboardError_to_string e)) self)
      | Ok _ =>
        let '(fresh, guard) :=
          record_received (cm_origin meta) (cm_sequence meta) (cm_content_hash meta) (en_guard self) in
        let self := with_guard guard self in
        if negb fresh then
          let evt := EchoSuppressed (cm_content_hash meta)
                       "Incoming entry already seen or has stale sequence" in
          (Ok (Some evt), emit evt self)
        else
          let '(r, backend) := set_content (ce_content entry) (en_backend self) in
          let self := with_backend backend self in
          match r with
          | Err e => (Err e, self)
          | Ok _ =>
            let event := RemoteApplied (cm_origin meta) (cm_sequence meta) (cm_content_hash meta)
                           (cm_format meta) in
            (Ok (Some event), emit event self)
          end
      end
    end
  | Ok (Clear origin sequence _) =>
    if decide (origin = en_local_node_id self) then (Ok None, self)
    else
      let '(fresh, guard) := record_received origin sequence (arr_rep 32 x00) (en_guard self) in
      let self := with_guard guard self in
      if negb fresh then (Ok None, self)
      else
        let '(r, backend) := clear_content (en_backend self) in
        let self := with_backend backend self in
        match r with Err e => (Err e, self) | Ok _ => (Ok None, self) end
  | Ok (CAck _ _ _) => (Ok None, self)
  end.

(** [start_monitor]: the task handles each notice in turn, errors only logged. *)
Fixpoint monitor (notices : list ClipboardContent) (now_ms : Z) (self : ClipboardSyncEngine) :
    list DataFrame * ClipboardSyncEngine :=
  match notices with
  | [] => ([], self)
  | content :: rest =>
    let '(r, self) := handle_local_change content false now_ms self in
    let '(frames, self) := monitor rest now_ms self in
    (match r with Ok (Some f) => f :: frames | _ => frames end, self)
  end.

(** The task itself, which reads the backend's channel of 64 notices. *)
Definition DEFAULT_CHANNEL_CAPACITY : nat := 64.
Definition monitor_body (now_ms : Z) (content : ClipboardContent) (self : ClipboardSyncEngine) :
    list DataFrame * ClipboardSyncEngine :=
  let '(r, self) := handle_local_change content false now_ms self in
  (match r with Ok (Some f) => [f] | _ => [] end, self).
Definition monitor_task (now_ms : Z) : nat → Task → ClipboardSyncEngine → list DataFrame * (Task * ClipboardSyncEngine) :=
  task_rounds DEFAULT_CHANNEL_CAPACITY (λ self, backend_notices (en_backend self)) (monitor_body now_ms).
End Engine.
Arguments ClipboardSyncEngine : clear implicits.

(** ** The Postcard format of the messages *)

#[global] Instance ClipboardContent_valid : Valid ClipboardContent := λ c,
  match c with
  | Text s => valid_str s
  | Html h p => valid_str h ∧ valid_opt_str p
  | Image _ d w h => zlen d < 2 ^ 64 ∧ in_width 32 w ∧ in_width 32 h
  end.
#[global] Instance ClipboardMetadata_valid : Valid ClipboardMetadata := λ m,
  in_width 64 (cm_sequence m) ∧ in_width 64 (cm_timestamp_ms m) ∧ in_width 64 (cm_byte_size m).
#[global] Instance ClipboardEntry_valid : Valid ClipboardEntry := λ e,
  valid (ce_metadata e) ∧ valid (ce_content e).
#[global] Instance ClipboardMessage_valid : Valid ClipboardMessage := λ m,
  match m with
  | Sync e => valid e
  | Clear _ s t => in_width 64 s ∧ in_width 64 t
  | CAck _ s _ => in_width 64 s
  end.

Definition c_image_format : codec ImageFormat :=
  c_iso (λ x, match x with inl _ => Png | inr (inl _) => Jpeg | inr (inr (inl _)) => Bmp
              | inr (inr (inr _)) => Webp end)
    (λ f, match f with Png => inl tt | Jpeg => inr (inl tt) | Bmp => inr (inr (inl tt))
          | Webp => inr (inr (inr tt)) end)
    (c_alt 0 c_unit (c_alt 1 c_unit (c_alt 2 c_unit (c_last 3 c_unit)))).
Definition c_clip_format : codec ClipboardFormat :=
  c_iso (λ x, match x with inl _ => FText | inr (inl _) => FHtml | inr (inr (inl _)) => FRtf
              | inr (inr (inr f)) => FImage f end)
    (λ f, match f with FText => inl tt | FHtml => inr (inl tt) | FRtf => inr (inr (inl tt))
          | FImage f => inr (inr (inr f)) end)
    (c_alt 0 c_unit (c_alt 1 c_unit (c_alt 2 c_unit (c_last 3 c_image_format)))).
Definition c_content : codec ClipboardContent :=
  c_iso (λ x, match x with inl s => Text s | inr (inl (h, p)) => Html h p
              | inr (inr (f, (d, (w, h)))) => Image f d w h end)
    (λ c, match c with Text s => inl s | Html h p => inr (inl (h, p))
          | Image f d w h => inr (inr (f, (d, (w, h)))) end)
    (c_alt 0 c_string (c_alt 1 (c_pair c_string (c_option c_string))
       (c_last 2 (c_pair c_image_format (c_pair c_bytes (c_pair (varint 32) (varint 32))))))).
Definition c_clip_meta : codec ClipboardMetadata :=
  c_iso (λ '(o, (s, (t, (h, (f, (b, i)))))), Build_ClipboardMetadata o s t h f b i)
    (λ m, (cm_origin m, (cm_sequence m, (cm_timestamp_ms m, (cm_content_hash m,
             (cm_format m, (cm_byte_size m, cm_is_sensitive m)))))))
    (c_pair c_node_id (c_pair (varint 64) (c_pair (varint 64) (c_pair (c_raw 32)
       (c_pair c_clip_format (c_pair (varint 64) c_bool)))))).
Definition c_entry : codec ClipboardEntry :=
  c_iso (λ '(m, c), Build_ClipboardEntry m c) (λ e, (ce_metadata e, ce_content e))
    (c_pair c_clip_meta c_content).
Definition c_clipboard : codec ClipboardMessage :=
  c_iso (λ x, match x with inl e => Sync e | inr (inl (o, (s, t))) => Clear o s t
              | inr (inr (o, (s, h))) => CAck o s h end)
    (λ m, match m with Sync e => inl e | Clear o s t => inr (inl (o, (s, t)))
          | CAck o s h => inr (inr (o, (s, h))) end)
    (c_alt 0 c_entry (c_alt 1 (c_pair c_node_id (c_pair (varint 64) (varint 64)))
       (c_last 2 (c_pair c_node_id (c_pair (varint 64) (c_raw 32)))))).

Lemma c_image_format_ok : codec_ok c_image_format (λ _, True).
Proof. eapply c_iso_ok; [codec_solve; eauto with bridge|by intros []|by intros []|done]. Qed.
#[export] Hint Resolve c_image_format_ok : bridge.
Lemma c_clip_format_ok : codec_ok c_clip_format (λ _, True).
Proof. eapply c_iso_ok; [codec_solve; eauto with bridge|by intros []|by intros []|done]. Qed.
#[export] Hint Resolve c_clip_format_ok : bridge.
Lemma c_content_ok : codec_ok c_content valid.
Proof.
  eapply c_iso_ok; [codec_solve; eauto with bridge|by intros []| |].
  - by intros []; simpl; intros; destruct_and?.
  - by intros [?|[[? ?]|(?&?&?&?)]]; simpl; intros; destruct_and?.
Qed.
Lemma c_clip_meta_ok : codec_ok c_clip_meta valid.
Proof.
  eapply c_iso_ok; [codec_solve; eauto with bridge|by intros []|by intros ? (?&?&?)|].
  by intros (?&?&?&?&?&?&?) (?&?&?&?&?&?&?).
Qed.
#[export] Hint Resolve c_content_ok c_clip_meta_ok : bridge.
Lemma c_entry_ok : codec_ok c_entry valid.
Proof. eapply c_iso_ok; [codec_solve; eauto with bridge|by intros []|done|by intros [? ?] [? ?]]. Qed.
#[export] Hint Resolve c_entry_ok : bridge.
Lemma c_clipboard_ok : codec_ok c_clipboard valid.
Proof.
  eapply c_iso_ok; [codec_solve; eauto with bridge|by intros []| |].
  - by intros []; simpl; intros; destruct_and?.
  - by intros [?|[(?&?&?)|(?&?&?)]]; simpl; intros; destruct_and?.
Qed.

Module ClipboardWire.
#[export] Instance clipboard_postcard : Postcard ClipboardMessage := codec_postcard c_clipboard.
#[export] Instance clipboard_laws : PostcardLaws ClipboardMessage := codec_postcard_laws _ c_clipboard_ok.
End ClipboardWire.

(** ** Lemmas: the guard *)

(** The history is the recent hashes, each once, and the set is its content. *)
Definition guard_inv (g : EchoGuard) : Prop :=
  (0 < eg_capacity g)%nat ∧ NoDup (eg_history g) ∧ (length (eg_history g) ≤ eg_capacity g)%nat
  ∧ eg_seen_hashes g = list_to_set (eg_history g).

Lemma guard_inv_new n : guard_inv (EchoGuard_new n).
Proof.
  split_and!; simpl; [|constructor|lia|done]. case_decide; [unfold EG_DEFAULT_CAPACITY; lia|lia].
Qed.

Lemma guard_inv_set_sequence o s g : guard_inv g → guard_inv (set_sequence o s g).
Proof. done. Qed.

(** The effect of [push_hash] on the history: a known hash changes nothing, a new
    one enters at the back and pushes out the oldest of a full history. *)
Lemma push_hash_spec h g :
  guard_inv g →
  guard_inv (push_hash h g)
  ∧ eg_sequences (push_hash h g) = eg_sequences g ∧ eg_capacity (push_hash h g) = eg_capacity g
  ∧ (h ∈ eg_history g → push_hash h g = g)
  ∧ (h ∉ eg_history g → eg_history (push_hash h g) =
       (if decide (eg_capacity g ≤ length (eg_history g))%nat then tail (eg_history g) else eg_history g) ++ [h]).
Proof.
  intros (Hc & Hn & Hl & Hs). unfold push_hash.
  case_decide as Hin; rewrite Hs, elem_of_list_to_set in Hin; [by split_and!|]. rewrite Hs.
  assert (∀ l, NoDup l → h ∉ l → NoDup (l ++ [h])) as Hsnoc.
  { intros l ??. apply NoDup_app. split_and!; [done|set_solver|apply NoDup_singleton]. }
  case_decide as Hf.
  - destruct (eg_history g) as [|o rest] eqn:Eh; [simpl in *; lia|].
    apply NoDup_cons in Hn as [Ho Hn]. simpl in Hf, Hl.
    split; [|by split_and!]. split_and!; simpl; [done|apply Hsnoc; set_solver| |].
    + rewrite length_app. simpl. lia.
    + rewrite list_to_set_app_L. simpl. apply set_eq. intros x.
      rewrite !elem_of_union, elem_of_difference, !elem_of_union, !elem_of_singleton.
      rewrite !elem_of_list_to_set. set_solver.
  - split; [|by split_and!]. split_and!; simpl; [done|by apply Hsnoc| |].
    + rewrite length_app. simpl. lia.
    + rewrite list_to_set_app_L. simpl. set_solver.
Qed.

Lemma should_suppress_spec g h : guard_inv g → should_suppress g h = bool_decide (h ∈ eg_history g).
Proof.
  intros (_ & _ & _ & Hs). unfold should_suppress. apply bool_decide_ext.
  by rewrite Hs, elem_of_list_to_set.
Qed.

Lemma push_hash_known h g : guard_inv g → should_suppress (push_hash h g) h = true.
Proof.
  intros Hg. destruct (push_hash_spec h g Hg) as (Hg' & _ & _ & Hin & Hout).
  rewrite should_suppress_spec by done. apply bool_decide_eq_true.
  destruct (decide (h ∈ eg_history g)) as [H'|H'].
  - by rewrite (Hin H').
  - rewrite (Hout H'). apply elem_of_app. right. by apply list_elem_of_singleton.
Qed.

Lemma record_received_cases o s h g :
  guard_inv g →
  (record_received o s h g = (false, g)
   ∧ (h ∈ eg_history g ∨ (∃ last, eg_sequences g !! o = Some last ∧ s ≤ last)))
  ∨ (record_received o s h g = (true, push_hash h (set_sequence o s g))
     ∧ (h ∉ eg_history g) ∧ (∀ last, eg_sequences g !! o = Some last → last < s)).
Proof.
  intros Hg. unfold record_received. rewrite should_suppress_spec by done.
  case_bool_decide; [left; auto|].
  destruct (eg_sequences g !! o) as [last|] eqn:E; [|right; split_and!; [done..|]; congruence].
  case_bool_decide; [left; eauto|right]. split_and!; [done..|]. intros ??. simplify_eq. lia.
Qed.

(** The operations of an engine on its guard. *)
Inductive GuardOp := GSent (h : array 32) | GReceived (o : NodeId) (s : u64) (h : array 32).
Definition guard_op (g : EchoGuard) (op : GuardOp) : EchoGuard :=
  match op with GSent h => record_sent h g | GReceived o s h => (record_received o s h g).2 end.

Lemma guard_op_inv g op : guard_inv g → guard_inv (guard_op g op) ∧ eg_capacity (guard_op g op) = eg_capacity g.
Proof.
  intros Hg. destruct op as [h|o s h]; simpl.
  - destruct (push_hash_spec h g Hg) as (? & _ & ? & _). done.
  - destruct (record_received_cases o s h g Hg) as [[-> _]|(-> & _)]; [done|].
    destruct (push_hash_spec h (set_sequence o s g)) as (? & _ & ? & _); done.
Qed.

Lemma guard_ops_inv ops g : guard_inv g →
  guard_inv (foldl guard_op g ops) ∧ eg_capacity (foldl guard_op g ops) = eg_capacity g.
Proof.
  revert g. induction ops as [|op ops IH]; intros g Hg; [done|]. simpl.
  destruct (guard_op_inv g op Hg) as [Hg' <-]. by apply IH.
Qed.

(** A hash keeps its place until newer ones push it to the front. *)
Lemma push_hash_place h h' g l1 l2 :
  guard_inv g → eg_history g = l1 ++ h :: l2 → (S (length l2) < eg_capacity g)%nat →
  ∃ l1' l2', eg_history (push_hash h' g) = l1' ++ h :: l2' ∧ (length l2' ≤ S (length l2))%nat.
Proof.
  intros Hg Eh Hl. destruct (push_hash_spec h' g Hg) as (_ & _ & _ & Hin & Hout).
  destruct (decide (h' ∈ eg_history g)) as [Hi|Hi]; [rewrite (Hin Hi); eauto|].
  rewrite (Hout Hi), Eh. clear Hin Hout. case_decide as Hf.
  - destruct l1 as [|x l1]; [cbn [app length] in Hf; lia|]. exists l1, (l2 ++ [h']). simpl.
    rewrite <-app_assoc. simpl. split; [done|]. rewrite length_app. simpl. lia.
  - exists l1, (l2 ++ [h']). rewrite <-app_assoc. simpl. split; [done|]. rewrite length_app. simpl. lia.
Qed.

Lemma guard_ops_place ops h g l1 l2 :
  guard_inv g → eg_history g = l1 ++ h :: l2 → (length l2 + length ops < eg_capacity g)%nat →
  h ∈ eg_history (foldl guard_op g ops).
Proof.
  revert g l1 l2. induction ops as [|op ops IH]; intros g l1 l2 Hg Eh Hl; simpl in *.
  { rewrite Eh. set_solver. }
  destruct (guard_op_inv g op Hg) as [Hg' Hc].
  assert (∃ l1' l2', eg_history (guard_op g op) = l1' ++ h :: l2' ∧ (length l2' ≤ S (length l2))%nat)
    as (l1' & l2' & Eh' & Hl').
  { destruct op as [h'|o s h']; simpl.
    - apply (push_hash_place h h' g l1 l2); [done|done|lia].
    - destruct (record_received_cases o s h' g Hg) as [[-> _]|(-> & _)]; simpl; [eauto|].
      apply (push_hash_place h h' (set_sequence o s g) l1 l2); [done|done|simpl; lia]. }
  eapply IH; [done|done|]. rewrite Hc. lia.
Qed.

(** Sequence numbers on record only grow. *)
Lemma guard_op_sequence g op o last :
  guard_inv g → eg_sequences g !! o = Some last →
  ∃ last', eg_sequences (guard_op g op) !! o = Some last' ∧ last ≤ last'.
Proof.
  intros Hg Hs. destruct op as [h|o' s h]; simpl.
  - unfold record_sent. destruct (push_hash_spec h g Hg) as (_ & -> & _). eauto with lia.
  - destruct (record_received_cases o' s h g Hg) as [[-> _]|(-> & _ & Hlt)]; simpl; [eauto with lia|].
    destruct (push_hash_spec h (set_sequence o' s g)) as (_ & -> & _); [done|]. simpl.
    destruct (decide (o' = o)) as [->|].
    + rewrite lookup_insert_eq. specialize (Hlt _ Hs). eauto with lia.
    + rewrite lookup_insert_ne by done. eauto with lia.
Qed.

Lemma guard_ops_sequence ops g o last :
  guard_inv g → eg_sequences g !! o = Some last →
  ∃ last', eg_sequences (foldl guard_op g ops) !! o = Some last' ∧ last ≤ last'.
Proof.
  revert g last. induction ops as [|op ops IH]; intros g last Hg Hs; simpl; [eauto with lia|].
  destruct (guard_op_sequence g op o last Hg Hs) as (l' & Hs' & ?).
  destruct (guard_op_inv g op Hg) as [Hg' _].
  destruct (IH _ _ Hg' Hs') as (l'' & ? & ?). exists l''. split; [done|lia].
Qed.

(** ** Lemmas: the engine *)

Section EngineLemmas.
Context `{ClipboardBackend B, Blake3, Hex, Postcard ClipboardMessage}.

Lemma policy_not_sensitive p c s : policy_validate p c s = Ok tt → policy_validate p c false = Ok tt.
Proof. unfold policy_validate. destruct (enabled p), s, (filter_sensitive p); done. Qed.

Lemma entry_new_integrity o n c s t : validate_integrity (ClipboardEntry_new o n c s t) = Ok tt.
Proof.
  unfold validate_integrity. simpl. rewrite decide_False by (by intros []).
  by rewrite decide_False by (by intros []).
Qed.

Lemma from_to_clipboard `{!Valid ClipboardMessage, !PostcardLaws ClipboardMessage} msg :
  valid msg → ∃ f, clipboard_to_data_frame msg = Ok f ∧ clipboard_from_data_frame f = Ok msg.
Proof.
  intros (bs & E & D)%postcard_roundtrip. exists (DataFrame_new CHANNEL_CLIPBOARD bs).
  unfold clipboard_to_data_frame, clipboard_from_data_frame. rewrite E. simpl. by rewrite D.
Qed.

(** A sync message is applied when it is intact, allowed and fresh. *)
Lemma incoming_sync f entry (e : ClipboardSyncEngine B) :
  clipboard_from_data_frame f = Ok (Sync entry) →
  cm_origin (ce_metadata entry) ≠ en_local_node_id e → validate_integrity entry = Ok tt →
  policy_validate (en_policy e) (ce_content entry) (cm_is_sensitive (ce_metadata entry)) = Ok tt →
  let '(fresh, g) := record_received (cm_origin (ce_metadata entry)) (cm_sequence (ce_metadata entry))
                       (cm_content_hash (ce_metadata entry)) (en_guard e) in
  let '(r, b) := set_content (ce_content entry) (en_backend e) in
  let ev := RemoteApplied (cm_origin (ce_metadata entry)) (cm_sequence (ce_metadata entry))
              (cm_content_hash (ce_metadata entry)) (cm_format (ce_metadata entry)) in
  let sup := EchoSuppressed (cm_content_hash (ce_metadata entry))
               "Incoming entry already seen or has stale sequence" in
  handle_incoming_frame f e =
    if fresh then
      match r with
      | Ok _ => (Ok (Some ev), emit ev (with_backend b (with_guard g e)))
      | Err x => (Err x, with_backend b (with_guard g e))
      end
    else (Ok (Some sup), emit sup (with_guard g e)).
Proof.
  intros Ef Ho Hi Hp. unfold handle_incoming_frame. rewrite Ef, decide_False, Hi, Hp by done.
  destruct (record_received _ _ _ _) as [[] g]; simpl; [|by destruct (set_content _ _)].
  by destruct (set_content _ _) as [[[]|] b].
Qed.

(** Handling a local change sends no notice. *)
Lemma local_change_backend c sens now (e : ClipboardSyncEngine B) :
  en_backend (handle_local_change c sens now e).2 = en_backend e.
Proof.
  unfold handle_local_change. destruct (policy_validate _ _ _); [|done]. cbn. destruct (should_suppress _ _); [done|].
  by destruct (clipboard_to_data_frame _).
Qed.

Lemma monitor_each l now (e : ClipboardSyncEngine B) : each (monitor_body now) l e = monitor l now e.
Proof.
  revert e. induction l as [|c l IH]; intros e; cbn; [done|]. unfold monitor_body at 1.
  destruct (handle_local_change c false now e) as [[[f|]|x] e1]; rewrite IH; by destruct (monitor l now e1).
Qed.

(** The monitor sends nothing for content whose hash is known. *)
Lemma monitor_known ns c now (e : ClipboardSyncEngine B) :
  Forall (λ x, x = c) ns → policy_validate (en_policy e) c false = Ok tt →
  should_suppress (en_guard e) (content_compute_hash c) = true →
  (monitor ns now e).1 = [] ∧ en_guard (monitor ns now e).2 = en_guard e
  ∧ en_sequence (monitor ns now e).2 = en_sequence e.
Proof.
  intros Hns. revert e. induction Hns as [|x ns -> Hns IH]; intros e Hp Hs; simpl; [done|].
  unfold handle_local_change. rewrite Hp, Hs.
  destruct (IH (emit (EchoSuppressed (content_compute_hash c) "Local change matches recent known hash") e))
    as (E1 & E2 & E3); [done..|].
  destruct (monitor ns now _) as [fr e'] eqn:E. simpl in *. by subst.
Qed.
(** A new entry of another device is applied, and its content is known from then on. *)
Lemma incoming_fresh f o n c sens now b' (e : ClipboardSyncEngine B) :
  let h := content_compute_hash c in
  clipboard_from_data_frame f = Ok (Sync (ClipboardEntry_new o n c sens now)) →
  o ≠ en_local_node_id e → guard_inv (en_guard e) → policy_validate (en_policy e) c sens = Ok tt →
  should_suppress (en_guard e) h = false → (∀ last, last_sequence (en_guard e) o = Some last → last < n) →
  set_content c (en_backend e) = (Ok tt, b') →
  let g := push_hash h (set_sequence o n (en_guard e)) in
  handle_incoming_frame f e
  = (Ok (Some (RemoteApplied o n h (content_format c))),
     emit (RemoteApplied o n h (content_format c)) (with_backend b' (with_guard g e)))
  ∧ guard_inv g ∧ should_suppress g h = true.
Proof.
  intros h Df Hne Hg Hp Hs Hseq Hset g. rewrite should_suppress_spec in Hs by done. apply bool_decide_eq_false in Hs.
  destruct (record_received_cases o n h (en_guard e) Hg) as [[_ [?|(last & Hl & ?)]]|(Er & _ & _)]; [done| |].
  { specialize (Hseq _ Hl). lia. }
  pose proof (incoming_sync f _ e Df) as Hin. cbn in Hin. unfold h in Er. rewrite Er, Hset in Hin.
  split; [exact (Hin Hne (entry_new_integrity _ _ _ _ _) Hp)|].
  pose proof (guard_inv_set_sequence o n _ Hg) as Hg1. split; [by apply push_hash_spec|by apply push_hash_known].
Qed.

(** The ways an incoming frame can touch the engine. *)
Lemma incoming_cases f (e : ClipboardSyncEngine B) :
  guard_inv (en_guard e) →
  let e' := (handle_incoming_frame f e).2 in
  guard_inv (en_guard e') ∧ en_local_node_id e' = en_local_node_id e
  ∧ en_policy e' = en_policy e ∧ en_sequence e' = en_sequence e
  ∧ (en_backend e' = en_backend e
     ∨ (∃ entry, let m := ce_metadata entry in
          clipboard_from_data_frame f = Ok (Sync entry)
          ∧ cm_origin m ≠ en_local_node_id e
          ∧ content_compute_hash (ce_content entry) = cm_content_hash m
          ∧ byte_len (ce_content entry) = cm_byte_size m
          ∧ policy_validate (en_policy e) (ce_content entry) (cm_is_sensitive m) = Ok tt
          ∧ should_suppress (en_guard e) (cm_content_hash m) = false
          ∧ (∀ last, last_sequence (en_guard e) (cm_origin m) = Some last → last < cm_sequence m)
          ∧ en_backend e' = (set_content (ce_content entry) (en_backend e)).2)
     ∨ (∃ o s t, clipboard_from_data_frame f = Ok (Clear o s t) ∧ o ≠ en_local_node_id e
          ∧ (∀ last, last_sequence (en_guard e) o = Some last → last < s)
          ∧ en_backend e' = (clear_content (en_backend e)).2)).
Proof.
  intros Hg. unfold handle_incoming_frame.
  destruct (clipboard_from_data_frame f) as [[entry|o s t|o s h]|x]; simpl; auto 10.
  - case_decide; [simpl; auto 10|].
    destruct (validate_integrity entry) as [[]|x] eqn:Ei; [|simpl; auto 10].
    destruct (policy_validate _ _ _) as [[]|x] eqn:Ep; [|simpl; auto 10].
    destruct (record_received_cases (cm_origin (ce_metadata entry)) (cm_sequence (ce_metadata entry))
      (cm_content_hash (ce_metadata entry)) (en_guard e) Hg) as [[-> _]|(-> & Hh & Hs)];
      [simpl; auto 10|]. cbn [negb].
    unfold validate_integrity in Ei. case_decide; [done|]. case_decide; [done|].
    destruct (set_content _ _) as [[[]|x] b] eqn:Es; simpl;
      (split; [apply push_hash_spec; done|]; split_and!; [done..|]; right; left; exists entry;
       split_and!; simpl; try done;
       [by rewrite should_suppress_spec by done; apply bool_decide_eq_false|by rewrite Es]).
  - case_decide; [simpl; auto 10|].
    destruct (record_received_cases o s (arr_rep 32 x00) (en_guard e) Hg) as [[-> _]|(-> & Hh & Hs)];
      [simpl; auto 10|]. cbn [negb].
    destruct (clear_content _) as [[[]|x] b] eqn:Ec; simpl;
      (split; [apply push_hash_spec; done|]; split_and!; [done..|]; right; right; exists o, s, t;
       split_and!; simpl; try done; by rewrite Ec).
Qed.
End EngineLemmas.

(** ** Properties *)

(** The echo guard remembers the last hashes and no more.  From a new guard,
    after any operations, the history has no duplicates and at most [capacity]
    entries and the set is exactly its content; and a hash recorded when it was
    not known stays suppressed through any [capacity - 1] further operations. *)
Theorem echo_guard_window (n : nat) (ops ops' : list GuardOp) (h : array 32) :
  let g := foldl guard_op (EchoGuard_new n) ops in
  guard_inv g
  ∧ (should_suppress g h = false → (length ops' < eg_capacity g)%nat →
     should_suppress (foldl guard_op (record_sent h g) ops') h = true).
Proof.
  intros g. destruct (guard_ops_inv ops _ (guard_inv_new n)) as [Hg _]. fold g in Hg.
  split; [done|]. intros Hi Hl. rewrite should_suppress_spec in Hi by done.
  apply bool_decide_eq_false in Hi.
  destruct (push_hash_spec h g Hg) as (Hg' & _ & Hc & _ & Hout).
  destruct (guard_ops_inv ops' (record_sent h g) Hg') as [Hg'' _].
  rewrite should_suppress_spec by done. apply bool_decide_eq_true.
  eapply guard_ops_place; [done|apply (Hout Hi)|]. unfold record_sent. rewrite Hc. simpl. lia.
Qed.

(** An entry is accepted once.  After the guard accepts sequence [s] of an
    origin, whatever else it records, it refuses every entry of that origin with
    a sequence up to [s], whatever its content: replays and reordered entries are
    never applied. *)
Theorem echo_guard_replay (g g' : EchoGuard) (o : NodeId) (s s' : u64) (h h' : array 32)
    (ops : list GuardOp) :
  guard_inv g → record_received o s h g = (true, g') → s' ≤ s →
  (record_received o s' h' (foldl guard_op g' ops)).1 = false.
Proof.
  intros Hg Hr Hs. destruct (record_received_cases o s h g Hg) as [[E _]|(E & _ & _)]; [congruence|].
  rewrite E in Hr. simplify_eq.
  destruct (push_hash_spec h (set_sequence o s g)) as (Hg' & Hseq & _); [done|].
  destruct (guard_ops_sequence ops _ o s Hg') as (last & Hlast & Hle).
  { rewrite Hseq. apply lookup_insert_eq. }
  destruct (guard_ops_inv ops _ Hg') as [Hg'' _].
  destruct (record_received_cases o s' h' _ Hg'') as [[-> _]|(_ & _ & Hlt)]; [done|].
  specialize (Hlt _ Hlast). lia.
Qed.


(** Nothing else changes the clipboard.  Whatever frame arrives, the backend
    is left as it was, or it was given exactly the content of a sync message from
    another node whose hash and size are the announced ones, that the local policy
    allows, whose hash is not on record and whose sequence is newer than the last
    of its origin, or it was cleared by a newer message of another node.  The
    guard keeps its invariant; the identity, the policy and the local sequence
    are untouched. *)
Theorem incoming_guarded `{ClipboardBackend B, Blake3, Hex, Postcard ClipboardMessage}
    (f : DataFrame) (e : ClipboardSyncEngine B) :
  guard_inv (en_guard e) →
  let e' := (handle_incoming_frame f e).2 in
  guard_inv (en_guard e') ∧ en_local_node_id e' = en_local_node_id e
  ∧ en_policy e' = en_policy e ∧ en_sequence e' = en_sequence e
  ∧ (en_backend e' = en_backend e
     ∨ (∃ entry, let m := ce_metadata entry in
          clipboard_from_data_frame f = Ok (Sync entry)
          ∧ cm_origin m ≠ en_local_node_id e
          ∧ content_compute_hash (ce_content entry) = cm_content_hash m
          ∧ byte_len (ce_content entry) = cm_byte_size m
          ∧ policy_validate (en_policy e) (ce_content entry) (cm_is_sensitive m) = Ok tt
          ∧ should_suppress (en_guard e) (cm_content_hash m) = false
          ∧ (∀ last, last_sequence (en_guard e) (cm_origin m) = Some last → last < cm_sequence m)
          ∧ en_backend e' = (set_content (ce_content entry) (en_backend e)).2)
     ∨ (∃ o s t, clipboard_from_data_frame f = Ok (Clear o s t) ∧ o ≠ en_local_node_id e
          ∧ (∀ last, last_sequence (en_guard e) o = Some last → last < s)
          ∧ en_backend e' = (clear_content (en_backend e)).2)).
Proof. apply incoming_cases. Qed.

(** Only the first clear instruction works.  Every [Clear] is recorded under
    the same all-zero hash, so once one has been accepted, a later [Clear] from
    any origin with any sequence is ignored (until 256 other entries push the
    zero hash out of the history). *)
Theorem second_clear_ignored `{ClipboardBackend B, Blake3, Hex, Postcard ClipboardMessage}
    (e : ClipboardSyncEngine B) (f1 f2 : DataFrame) (o1 o2 : NodeId) (s1 s2 t1 t2 : u64) :
  guard_inv (en_guard e) →
  clipboard_from_data_frame f1 = Ok (Clear o1 s1 t1) → clipboard_from_data_frame f2 = Ok (Clear o2 s2 t2) →
  o1 ≠ en_local_node_id e →
  (∀ last, last_sequence (en_guard e) o1 = Some last → last < s1) →
  let e1 := (handle_incoming_frame f1 e).2 in
  handle_incoming_frame f2 e1 = (Ok None, e1).
Proof.
  intros Hg E1 E2 Ho Hs e1.
  assert (guard_inv (en_guard e1) ∧ should_suppress (en_guard e1) (arr_rep 32 x00) = true) as [Hg1 Hz].
  { subst e1. unfold handle_incoming_frame. rewrite E1, decide_False by done.
    destruct (record_received_cases o1 s1 (arr_rep 32 x00) (en_guard e) Hg)
      as [[-> [Hi|(last & Hl & ?)]]|(-> & Hh & _)]; cbn [negb].
    - simpl. split; [done|]. rewrite should_suppress_spec by done. by apply bool_decide_eq_true.
    - specialize (Hs _ Hl). lia.
    - destruct (clear_content _) as [[[]|x] b]; simpl;
        (split; [apply push_hash_spec; done|by apply push_hash_known]). }
  unfold handle_incoming_frame. rewrite E2. case_decide; [done|].
  unfold record_received. rewrite Hz. simpl. f_equal. by destruct e1.
Qed.

(** A restarted device is not heard.  A new engine counts from 1 again, so a
    peer that has already recorded a sequence of that device suppresses its first
    copies: the frame the new engine packages does not reach the peer's backend. *)
Theorem restart_suppressed `{ClipboardBackend B, Blake3, Hex, PostcardLaws ClipboardMessage}
    (id : NodeId) (ba : B) (pa : ClipboardPolicy) (eb : ClipboardSyncEngine B)
    (c : ClipboardContent) (sens : bool) (now last : Z) :
  guard_inv (en_guard eb) → last_sequence (en_guard eb) id = Some last → 1 ≤ last →
  valid (Sync (ClipboardEntry_new id 1 c sens now)) → policy_validate pa c sens = Ok tt →
  ∃ f ea', handle_local_change c sens now (ClipboardSyncEngine_new id ba pa) = (Ok (Some f), ea')
    ∧ en_backend (handle_incoming_frame f eb).2 = en_backend eb.
Proof.
  intros Hg Hl Hle Hv Hp. destruct (from_to_clipboard _ Hv) as (f & Ef & Df). exists f. eexists. split.
  { unfold handle_local_change. simpl. rewrite Hp, Ef. done. }
  destruct (incoming_cases f eb Hg) as (_ & _ & _ & _ &
    [?|[(entry & E & _ & _ & _ & _ & _ & Hseq & _)|(o & s & t & E & _)]]); [done| |congruence].
  rewrite Df in E. simplify_eq. simpl in Hseq. specialize (Hseq _ Hl). lia.
Qed.


(** ** Witnesses *)

Section Witnesses.
Import Toy ClipboardWire.

Definition node_a : NodeId := {| node_bytes := arr_rep 32 x0a |}.
Definition node_b : NodeId := {| node_bytes := arr_rep 32 x0b |}.
Definition engine_a : ClipboardSyncEngine MemoryClipboardBackend :=
  ClipboardSyncEngine_new node_a MemoryClipboardBackend_new ClipboardPolicy_default.
Definition engine_b : ClipboardSyncEngine MemoryClipboardBackend :=
  ClipboardSyncEngine_new node_b MemoryClipboardBackend_new ClipboardPolicy_default.
Definition hello : ClipboardContent := Text "hello".

Lemma nodes_differ : node_a ≠ node_b.
Proof. apply (bool_decide_unpack _). vm_compute. exact I. Qed.
Lemma hello_valid : valid (Sync (ClipboardEntry_new node_a 1 hello false 1000)).
Proof. repeat split; vm_compute; congruence. Qed.


Example echo_guard_window_witness :
  should_suppress (foldl guard_op (record_sent (arr_rep 32 x01) (EchoGuard_new 4)) [GSent (arr_rep 32 x02)])
    (arr_rep 32 x01) = true.
Proof.
  apply (echo_guard_window 4 [] [GSent (arr_rep 32 x02)] (arr_rep 32 x01)); [reflexivity|simpl; lia].
Defined.

Example echo_guard_replay_witness :
  (record_received node_a 5 (arr_rep 32 x07)
     (foldl guard_op (record_received node_a 5 (arr_rep 32 x06) (EchoGuard_new 4)).2 [GSent (arr_rep 32 x02)])).1
  = false.
Proof.
  apply (echo_guard_replay (EchoGuard_new 4) (record_received node_a 5 (arr_rep 32 x06) (EchoGuard_new 4)).2
    node_a 5 5 (arr_rep 32 x06)); [apply guard_inv_new|reflexivity|lia].
Defined.


Example incoming_guarded_witness :
  guard_inv (en_guard (handle_incoming_frame (DataFrame_new 7 []) engine_b).2).
Proof. exact (proj1 (incoming_guarded (DataFrame_new 7 []) engine_b (guard_inv_new _))). Defined.

Definition clear_frame (o : NodeId) (s : u64) : DataFrame :=
  match clipboard_to_data_frame (Clear o s 0) with Ok f => f | Err _ => DataFrame_new 0 [] end.

Lemma clear_frame_ok o s : in_width 64 s → clipboard_from_data_frame (clear_frame o s) = Ok (Clear o s 0).
Proof.
  intros Hs. destruct (from_to_clipboard (Clear o s 0)) as (f & Ef & Df); [by split|].
  unfold clear_frame. by rewrite Ef.
Qed.

Example second_clear_ignored_witness :
  let e1 := (handle_incoming_frame (clear_frame node_a 3) engine_b).2 in
  handle_incoming_frame (clear_frame node_a 4) e1 = (Ok None, e1).
Proof.
  apply (second_clear_ignored engine_b (clear_frame node_a 3) (clear_frame node_a 4)
    node_a node_a 3 4 0 0); [apply guard_inv_new|apply clear_frame_ok; split; [lia|reflexivity]..|exact nodes_differ|].
  intros last Hl. discriminate.
Defined.

Example restart_suppressed_witness :
  ∃ f ea', handle_local_change hello false 1000 (ClipboardSyncEngine_new node_a MemoryClipboardBackend_new
      ClipboardPolicy_default) = (Ok (Some f), ea').
Proof.
  destruct (restart_suppressed node_a MemoryClipboardBackend_new ClipboardPolicy_default
    (with_guard (set_sequence node_a 9 EchoGuard_default) engine_b) hello false 1000 9)
    as (f & ea' & E & _);
    [apply guard_inv_set_sequence, guard_inv_new|apply lookup_insert_eq|lia|exact hello_valid|reflexivity|].
  exists f, ea'. exact E.
Defined.

End Witnesses.
