(* ===== verification/Windows.v ===== *)
(** * Windows: [crates/bridge-clipboard/src/backend/windows.rs]

    The native clipboard backend.  The Win32 API is an interface: the class [Win32]
    has the calls the source makes, [Win32Laws] what Microsoft documents of them, in
    terms of what this process can observe ([WinView]).  Other processes use the
    clipboard too: whenever this one does not hold it, its content may change
    ([others]).  Modelled are the retry loop and the guard that closes the
    clipboard, the three operations of the backend, the listener thread with its
    message pump, and the shutdown of that thread by [Drop], as steps of two threads
    over shared atomics. *)
From stdpp Require Import relations.
From S2P Require Import Prelude Text Utf16 External Codec Core Protocol Clipboard.

(** ** The Win32 API *)

Abbreviation Handle := positive (only parsing).
Abbreviation HWND := Z (only parsing).

Definition CF_UNICODETEXT : u32 := 13.
Definition WM_DESTROY : u32 := 0x0002.
Definition WM_CLOSE : u32 := 0x0010.
Definition WM_CLIPBOARDUPDATE : u32 := 0x031D.

(** Null handles, null pointers and zero results are [None] and [false].
    [mem_read h i] and [mem_write h l] are the accesses through the pointer that
    [GlobalLock h] returned, of 16-bit units. *)
Class Win32 (W : Type) := {
  OpenClipboard : W → bool * W;
  CloseClipboard : W → W;
  EmptyClipboard : W → bool * W;
  IsClipboardFormatAvailable : u32 → W → bool;
  GetClipboardData : u32 → W → option Handle * W;
  SetClipboardData : u32 → Handle → W → bool * W;
  GetLastError : W → u32;
  GlobalAlloc : usize → W → option Handle * W;
  GlobalFree : Handle → W → W;
  GlobalLock : Handle → W → bool * W;
  GlobalUnlock : Handle → W → W;
  GlobalSize : Handle → W → usize;
  mem_read : Handle → nat → W → u16;
  mem_write : Handle → list u16 → W → W;
  Sleep : Z → W → W;
  RegisterClassW : W → bool * W;
  UnregisterClassW : W → W;
  CreateWindowExW : W → HWND * W;
  DestroyWindow : HWND → W → W;
  AddClipboardFormatListener : HWND → W → bool * W;
  RemoveClipboardFormatListener : HWND → W → W;
  GetMessageW : W → option u32 * W;
  PostQuitMessage : W → W;
  DefWindowProcW : u32 → W → W;
}.

(** What this process can observe of the system. *)
Record WinView := {
  wv_open : bool;                      (* it holds the clipboard *)
  wv_clip : option Handle;             (* the block of the text on the clipboard *)
  wv_mem : gmap Handle (list u16);     (* contents of the live blocks *)
  wv_owned : gset Handle;              (* the blocks it has to free *)
  wv_locks : gset Handle;              (* the blocks it has locked *)
  wv_slept : Z;                        (* milliseconds spent in [sleep] *)
  wv_class : bool;                     (* its window class is registered *)
  wv_windows : gset HWND;              (* its windows *)
  wv_listeners : gset HWND;            (* those that listen to the clipboard *)
}.

(** The text on the clipboard. *)
Definition wv_text (v : WinView) : option (list u16) := h ← wv_clip v; wv_mem v !! h.

Definition set_open (b : bool) (v : WinView) : WinView := {|
  wv_open := b; wv_clip := wv_clip v; wv_mem := wv_mem v; wv_owned := wv_owned v; wv_locks := wv_locks v;
  wv_slept := wv_slept v; wv_class := wv_class v; wv_windows := wv_windows v; wv_listeners := wv_listeners v |}.
Definition set_clip_mem (c : option Handle) (m : gmap Handle (list u16)) (v : WinView) : WinView := {|
  wv_open := wv_open v; wv_clip := c; wv_mem := m; wv_owned := wv_owned v; wv_locks := wv_locks v;
  wv_slept := wv_slept v; wv_class := wv_class v; wv_windows := wv_windows v; wv_listeners := wv_listeners v |}.
Definition set_owned (o : gset Handle) (v : WinView) : WinView := {|
  wv_open := wv_open v; wv_clip := wv_clip v; wv_mem := wv_mem v; wv_owned := o; wv_locks := wv_locks v;
  wv_slept := wv_slept v; wv_class := wv_class v; wv_windows := wv_windows v; wv_listeners := wv_listeners v |}.
Definition set_locks (l : gset Handle) (v : WinView) : WinView := {|
  wv_open := wv_open v; wv_clip := wv_clip v; wv_mem := wv_mem v; wv_owned := wv_owned v; wv_locks := l;
  wv_slept := wv_slept v; wv_class := wv_class v; wv_windows := wv_windows v; wv_listeners := wv_listeners v |}.
Definition set_slept (t : Z) (v : WinView) : WinView := {|
  wv_open := wv_open v; wv_clip := wv_clip v; wv_mem := wv_mem v; wv_owned := wv_owned v; wv_locks := wv_locks v;
  wv_slept := t; wv_class := wv_class v; wv_windows := wv_windows v; wv_listeners := wv_listeners v |}.
Definition set_windows (c : bool) (w l : gset HWND) (v : WinView) : WinView := {|
  wv_open := wv_open v; wv_clip := wv_clip v; wv_mem := wv_mem v; wv_owned := wv_owned v; wv_locks := wv_locks v;
  wv_slept := wv_slept v; wv_class := c; wv_windows := w; wv_listeners := l |}.

(** Other processes act: the clipboard and the blocks on it may change, what this
    process owns does not. *)
Definition others (v v' : WinView) : Prop :=
  ∃ c m, v' = set_clip_mem c m v
    ∧ (∀ h, h ∈ wv_owned v → m !! h = wv_mem v !! h).

(** The documented behaviour of the calls, where the source makes them. *)
Class Win32Laws (W : Type) `{Win32 W} := {
  view : W → WinView;
  open_law w b w' : wv_open (view w) = false → OpenClipboard w = (b, w') →
    ∃ v, others (view w) v ∧ view w' = set_open b v;
  close_law w : view (CloseClipboard w) = set_open false (view w);
  empty_law w b w' : wv_open (view w) = true → EmptyClipboard w = (b, w') →
    if b then ∃ m, view w' = set_clip_mem None m (view w)
                   ∧ ∀ h, h ∈ wv_owned (view w) → m !! h = wv_mem (view w) !! h
    else view w' = view w;
  available_law w : IsClipboardFormatAvailable CF_UNICODETEXT w = bool_decide (is_Some (wv_clip (view w)));
  get_data_law w o w' : wv_open (view w) = true → GetClipboardData CF_UNICODETEXT w = (o, w') →
    view w' = view w ∧ (∀ h, o = Some h → wv_clip (view w) = Some h ∧ is_Some (wv_mem (view w) !! h));
  set_data_law w h b w' : wv_open (view w) = true → h ∈ wv_owned (view w) →
    SetClipboardData CF_UNICODETEXT h w = (b, w') →
    view w' = if b then set_clip_mem (Some h) (wv_mem (view w)) (set_owned (wv_owned (view w) ∖ {[h]}) (view w))
              else view w;
  alloc_law w n o w' : GlobalAlloc n w = (o, w') →
    match o with
    | None => view w' = view w
    | Some h => ∃ u, wv_mem (view w) !! h = None ∧ (h ∉ wv_owned (view w)) ∧ (h ∉ wv_locks (view w))
        ∧ n ≤ 2 * zlen u
        ∧ view w' = set_clip_mem (wv_clip (view w)) (<[h := u]> (wv_mem (view w)))
                      (set_owned ({[h]} ∪ wv_owned (view w)) (view w))
    end;
  free_law w h : h ∈ wv_owned (view w) →
    view (GlobalFree h w) = set_clip_mem (wv_clip (view w)) (delete h (wv_mem (view w)))
                              (set_owned (wv_owned (view w) ∖ {[h]}) (view w));
  lock_law w h b w' : GlobalLock h w = (b, w') →
    view w' = if b then set_locks ({[h]} ∪ wv_locks (view w)) (view w) else view w;
  unlock_law w h : view (GlobalUnlock h w) = set_locks (wv_locks (view w) ∖ {[h]}) (view w);
  size_law w h u : wv_mem (view w) !! h = Some u → GlobalSize h w / 2 = zlen u;
  read_law w h u i x : h ∈ wv_locks (view w) → wv_mem (view w) !! h = Some u → u !! i = Some x →
    mem_read h i w = x;
  write_law w h u l : h ∈ wv_locks (view w) → wv_mem (view w) !! h = Some u → (length l ≤ length u)%nat →
    view (mem_write h l w) = set_clip_mem (wv_clip (view w)) (<[h := l ++ drop (length l) u]> (wv_mem (view w)))
                               (view w);
  sleep_law w t : wv_open (view w) = false →
    ∃ v, others (view w) v ∧ view (Sleep t w) = set_slept (wv_slept (view w) + t) v;
  register_law w b w' : RegisterClassW w = (b, w') →
    view w' = if b then set_windows true (wv_windows (view w)) (wv_listeners (view w)) (view w) else view w;
  unregister_law w : view (UnregisterClassW w) = set_windows false (wv_windows (view w)) (wv_listeners (view w)) (view w);
  create_law w h w' : CreateWindowExW w = (h, w') →
    if decide (h = 0) then view w' = view w
    else (h ∉ wv_windows (view w)) ∧ (h ∉ wv_listeners (view w))
      ∧ view w' = set_windows (wv_class (view w)) ({[h]} ∪ wv_windows (view w)) (wv_listeners (view w)) (view w);
  destroy_law w h : view (DestroyWindow h w)
    = set_windows (wv_class (view w)) (wv_windows (view w) ∖ {[h]}) (wv_listeners (view w)) (view w);
  add_listener_law w h b w' : AddClipboardFormatListener h w = (b, w') →
    view w' = if b then set_windows (wv_class (view w)) (wv_windows (view w)) ({[h]} ∪ wv_listeners (view w)) (view w)
              else view w;
  remove_listener_law w h : view (RemoveClipboardFormatListener h w)
    = set_windows (wv_class (view w)) (wv_windows (view w)) (wv_listeners (view w) ∖ {[h]}) (view w);
  get_message_law w o w' : wv_open (view w) = false → GetMessageW w = (o, w') → others (view w) (view w');
  post_quit_law w : view (PostQuitMessage w) = view w;
  def_proc_law w m : m ≠ WM_CLOSE → m ≠ WM_DESTROY → view (DefWindowProcW m w) = view w;
}.

(** ** Opening the clipboard *)

Definition CLIPBOARD_RETRY_COUNT : nat := 10.
Definition BASE_RETRY_DELAY_MS : u64 := 10.
Definition retry_delay (attempt : nat) : u64 :=
  BASE_RETRY_DELAY_MS * Z.shiftl 1 (Z.min (Z.of_nat attempt) 5).

#[global] Instance BridgeError_eq_dec : EqDecision BridgeError.
Proof. solve_decision. Defined.
#[global] Instance ClipboardError_eq_dec : EqDecision ClipboardError.
Proof. solve_decision. Defined.

Definition clipboard_busy : ClipboardError :=
  BackendError "Failed to open Windows clipboard: access locked by another application".

Section Backend.
Context `{Win32 W}.

(** A call that cannot fail with an error of ours. *)
Definition sys {A} (f : W → A * W) : st W ClipboardError A := λ w, let '(a, w') := f w in (Ok a, w').

Fixpoint open_attempts (n attempt : nat) : st W ClipboardError unit :=
  match n with
  | O => fail clipboard_busy
  | S n' =>
    ok ← sys OpenClipboard;
    if (ok : bool) then mret tt
    else _ ← modify (Sleep (retry_delay attempt)); open_attempts n' (S attempt)
  end.
Definition open_clipboard_with_retry : st W ClipboardError unit := open_attempts CLIPBOARD_RETRY_COUNT 0.

(** [let _guard = open_clipboard_with_retry()?;] and the rest of the block: the
    guard closes the clipboard however the block is left. *)
Definition closing {A} (body : st W ClipboardError A) : st W ClipboardError A := λ w,
  let '(r, w') := body w in (r, CloseClipboard w').
Definition with_clipboard {A} (body : st W ClipboardError A) : st W ClipboardError A :=
  _ ← open_clipboard_with_retry; closing body.

(** ** [get_content], [set_content], [clear] *)

(** [while len < max_elements { if *ptr.add(len) == 0 { break } len += 1 }]. *)
Fixpoint scan_units (h : Handle) (left len : nat) (w : W) : nat :=
  match left with
  | O => len
  | S left' => if decide (mem_read h len w = 0) then len else scan_units h left' (S len) w
  end.

Definition read_clipboard_text_direct : st W ClipboardError (option ClipboardContent) := λ w,
  if negb (IsClipboardFormatAvailable CF_UNICODETEXT w) then (Ok None, w)
  else with_clipboard (
    handle ← sys (GetClipboardData CF_UNICODETEXT);
    match handle with
    | None => mret None
    | Some handle =>
      locked ← sys (GlobalLock handle);
      if negb locked then mret None
      else
        byte_size ← gets (GlobalSize handle);
        let max_elements := Z.to_nat (byte_size / 2) in
        len ← gets (scan_units handle max_elements 0);
        slice ← gets (λ w, map (λ i, mem_read handle i w) (seq 0 len));
        let text := from_utf16_lossy slice in
        _ ← modify (GlobalUnlock handle);
        mret (Some (Text text))
    end) w.

(** The text that is written for a content. *)
Definition windows_text (content : ClipboardContent) : result ClipboardError string :=
  match content with
  | Text t => Ok t
  | Html html _ => Ok html
  | Image _ _ _ _ => Err (UnsupportedFormat
      "Image clipboard writing is not yet implemented in WindowsClipboardBackend")
  end.

Definition write_clipboard (content : ClipboardContent) : st W ClipboardError unit :=
  text ← lift (windows_text content);
  let utf16 := encode_utf16 text ++ [0] in
  let byte_len := zlen utf16 * 2 in
  h_mem ← sys (GlobalAlloc byte_len);
  match h_mem with
  | None => fail (BackendError "Failed to allocate global memory for Windows clipboard")
  | Some h_mem =>
    locked ← sys (GlobalLock h_mem);
    if negb locked then
      _ ← modify (GlobalFree h_mem);
      fail (BackendError "Failed to lock allocated global memory")
    else
      _ ← modify (mem_write h_mem utf16);
      _ ← modify (GlobalUnlock h_mem);
      with_clipboard (
        empty_ok ← sys EmptyClipboard;
        if negb empty_ok then
          err ← gets GetLastError;
          _ ← modify (GlobalFree h_mem);
          fail (BackendError ("Failed to empty Windows clipboard (GetLastError=" +:+ dec err +:+ ")"))
        else
          set_res ← sys (SetClipboardData CF_UNICODETEXT h_mem);
          if negb set_res then
            _ ← modify (GlobalFree h_mem);
            fail (BackendError "Failed to set Windows clipboard data")
          else mret tt)
  end.

Definition clear_clipboard : st W ClipboardError unit :=
  with_clipboard (
    ok ← sys EmptyClipboard;
    if negb ok then fail (BackendError "Failed to clear Windows clipboard") else mret tt).

(** ** The listener thread *)

(** The world as the listener thread sees it: what it has stored for [Drop], and
    what its subscribers have been sent. *)
Record Listener := { ls_world : W; ls_hwnd : HWND; ls_tx : list ClipboardContent }.
Definition set_world (w : W) (l : Listener) : Listener :=
  {| ls_world := w; ls_hwnd := ls_hwnd l; ls_tx := ls_tx l |}.
Definition store_hwnd (h : HWND) (l : Listener) : Listener :=
  {| ls_world := ls_world l; ls_hwnd := h; ls_tx := ls_tx l |}.
Definition tx_broadcast (c : ClipboardContent) (l : Listener) : Listener :=
  {| ls_world := ls_world l; ls_hwnd := ls_hwnd l; ls_tx := ls_tx l ++ [c] |}.

Definition listener_wnd_proc (msg : u32) (w : W) : W :=
  if decide (msg = WM_DESTROY) then PostQuitMessage w else DefWindowProcW msg w.

(** [WM_CLIPBOARDUPDATE]: read the text and tell the subscribers; a failing read
    tells them nothing. *)
Definition on_clipboard_update (l : Listener) : Listener :=
  let '(r, w) := read_clipboard_text_direct (ls_world l) in
  let l := set_world w l in
  match r with
  | Ok (Some (Text text)) => tx_broadcast (Text text) l
  | _ => l
  end.

(** The message pump; [running] is what the rounds read from [is_running].  The
    answer is whether the loop was left: at the end of [running] it still waits. *)
Fixpoint message_pump (running : list bool) (l : Listener) : bool * Listener :=
  match running with
  | [] => (false, l)
  | false :: _ => (true, l)
  | true :: rest =>
    let '(msg, w) := GetMessageW (ls_world l) in
    let l := set_world w l in
    match msg with
    | None => (true, l)
    | Some m =>
      if decide (m = WM_CLIPBOARDUPDATE) then
        let l := on_clipboard_update l in
        message_pump rest (set_world (listener_wnd_proc m (ls_world l)) l)
      else if decide (m = WM_CLOSE) then (true, l)
      else message_pump rest (set_world (listener_wnd_proc m (ls_world l)) l)
    end
  end.

Definition run_clipboard_listener_loop (running : list bool) (l : Listener) : bool * Listener :=
  let '(class_atom, w) := RegisterClassW (ls_world l) in
  let l := set_world w l in
  if negb class_atom then (true, l)
  else
    let '(hwnd, w) := CreateWindowExW (ls_world l) in
    let l := set_world w l in
    if decide (hwnd = 0) then (true, set_world (UnregisterClassW (ls_world l)) l)
    else
      let '(listener_added, w) := AddClipboardFormatListener hwnd (ls_world l) in
      let l := set_world w l in
      if negb listener_added then
        (true, set_world (UnregisterClassW (DestroyWindow hwnd (ls_world l))) l)
      else
        let l := store_hwnd hwnd l in
        let '(exited, l) := message_pump running l in
        if negb exited then (false, l)
        else
          let w := RemoveClipboardFormatListener hwnd (ls_world l) in
          let w := DestroyWindow hwnd w in
          let w := UnregisterClassW w in
          (true, store_hwnd 0 (set_world w l)).
End Backend.
Arguments Listener : clear implicits.

(** ** The backend *)

(** [WindowsClipboardBackend] is the listener's world and notices; its mutex makes
    every operation one step of both threads. *)
Record WindowsClipboardBackend (W : Type) := { wb_listener : Listener W }.
Arguments wb_listener {W} _.

Section Instance_.
Context `{Win32 W}.

Definition on_system {A} (m : st W ClipboardError A) : st (WindowsClipboardBackend W) ClipboardError A :=
  zoom (λ b, ls_world (wb_listener b)) (λ w b, {| wb_listener := set_world w (wb_listener b) |}) m.

(** The body of [get_content] is that of [read_clipboard_text_direct]. *)
Definition windows_get_content : st (WindowsClipboardBackend W) ClipboardError (option ClipboardContent) :=
  on_system read_clipboard_text_direct.
Definition windows_set_content (content : ClipboardContent) : st (WindowsClipboardBackend W) ClipboardError unit :=
  on_system (write_clipboard content).
Definition windows_clear : st (WindowsClipboardBackend W) ClipboardError unit := on_system clear_clipboard.

(** [WindowsClipboardBackend::new]: the thread is started and given up to a second
    for its window; whether it got one is not looked at.  [running] is what the pump
    has read by the time [new] returns. *)
Definition WindowsClipboardBackend_new (spawned : result string unit) (running : list bool) (w : W) :
    result ClipboardError (WindowsClipboardBackend W) :=
  _ ← map_err (λ e, BackendError ("Failed to spawn listener thread: " +:+ e)) spawned;
  Ok {| wb_listener := (run_clipboard_listener_loop running {| ls_world := w; ls_hwnd := 0; ls_tx := [] |}).2 |}.

#[export] Instance windows_backend : ClipboardBackend (WindowsClipboardBackend W) := {
  get_content := windows_get_content; set_content := windows_set_content;
  clear_content := windows_clear; backend_notices := λ b, ls_tx (wb_listener b);
}.
End Instance_.

(** ** Lemmas: the view *)

(** Both views have the same blocks of this process, locks and windows; the
    clipboard, who holds it and the time may differ. *)
Record foreign (v v' : WinView) : Prop := {
  fo_owned : wv_owned v' = wv_owned v;
  fo_locks : wv_locks v' = wv_locks v;
  fo_class : wv_class v' = wv_class v;
  fo_windows : wv_windows v' = wv_windows v;
  fo_listeners : wv_listeners v' = wv_listeners v;
  fo_mem h : h ∈ wv_owned v → wv_mem v' !! h = wv_mem v !! h }.

#[global] Instance foreign_preorder : PreOrder foreign.
Proof.
  split.
  - by intros v.
  - intros v1 v2 v3 [] []. split; try congruence.
    intros h Hh. rewrite fo_mem1 by congruence. by apply fo_mem0.
Qed.

Lemma others_foreign v v' : others v v' → foreign v v'.
Proof. by intros (c & m & -> & Hm). Qed.

Lemma foreign_set_open b v : foreign v (set_open b v).
Proof. by split. Qed.
Lemma foreign_set_slept t v : foreign v (set_slept t v).
Proof. by split. Qed.

#[export] Hint Resolve others_foreign foreign_set_open foreign_set_slept : bridge.

(** The time the first [k] retries take, from attempt [a] on. *)
Definition backoff (a k : nat) : Z := foldr (λ i t, retry_delay i + t) 0 (seq a k).

Lemma backoff_S a k : backoff a (S k) = retry_delay a + backoff (S a) k.
Proof. done. Qed.

Section WindowsLemmas.
Context `{Win32Laws W}.
Implicit Types w : W.

Lemma sys_inv {A} (f : W → A * W) w r w' :
  sys f w = (r, w') → ∃ a, f w = (a, w') ∧ r = Ok a.
Proof. unfold sys. destruct (f w). intros. simplify_eq. eauto. Qed.

(** Attempts are made until one succeeds; the clipboard is open afterwards exactly
    when one did, and the time is that of the retries. *)
Lemma open_attempts_spec n a w r w' :
  wv_open (view w) = false → open_attempts n a w = (r, w') →
  foreign (view w) (view w') ∧ wv_open (view w') = is_ok r
  ∧ ∃ k, wv_slept (view w') = wv_slept (view w) + backoff a k
      ∧ match r with Ok _ => (k < n)%nat | Err e => k = n ∧ e = clipboard_busy end.
Proof.
  revert a w. induction n as [|n IH]; intros a w Ho E; simpl in E.
  { unfold fail in E. simplify_eq. split_and!; [done|done|]. exists 0%nat. unfold backoff. simpl. split; [lia|done]. }
  unfold mbind, st_bind, sys in E. destruct (OpenClipboard w) as [b w1] eqn:E1.
  destruct (open_law _ _ _ Ho E1) as (v & Hv & Hw1). destruct Hv as (c & m & -> & Hv).
  destruct b.
  - unfold mret, st_ret in E. simplify_eq. rewrite Hw1. split_and!; [|done|].
    + by split.
    + exists 0%nat. unfold backoff. simpl. split; lia.
  - unfold modify in E. assert (wv_open (view w1) = false) as Ho1 by (by rewrite Hw1).
    destruct (sleep_law w1 (retry_delay a) Ho1) as (v2 & (c2 & m2 & -> & Hv2) & Hw2).
    destruct (IH (S a) (Sleep (retry_delay a) w1)) as (Hf & Hop & k & Hk & Hr); [by rewrite Hw2|done|].
    split_and!; [|done|].
    + etrans; [|exact Hf]. rewrite Hw2, Hw1. split; try done. simpl. intros h Hh.
      rewrite Hv2 by (by rewrite Hw1). rewrite Hw1. by apply Hv.
    + exists (S k). rewrite Hk, Hw2, backoff_S, Hw1. simpl. split; [lia|]. destruct r; naive_solver lia.
Qed.

Lemma closing_inv {A} (body : st W ClipboardError A) w r w' :
  closing body w = (r, w') → ∃ w1, body w = (r, w1) ∧ w' = CloseClipboard w1.
Proof. unfold closing. destruct (body w) as [r1 w1]. intros. simplify_eq. eauto. Qed.

(** A block run with the clipboard: either it was busy and the block did not run,
    or it ran on an open clipboard, which is then closed. *)
Lemma with_clipboard_spec {A} (body : st W ClipboardError A) w r w' :
  wv_open (view w) = false → with_clipboard body w = (r, w') →
  (r = Err clipboard_busy ∧ foreign (view w) (view w') ∧ wv_open (view w') = false)
  ∨ ∃ w1 w2, foreign (view w) (view w1) ∧ wv_open (view w1) = true ∧ body w1 = (r, w2)
      ∧ view w' = set_open false (view w2).
Proof.
  intros Ho E. unfold with_clipboard, mbind, st_bind in E.
  destruct (open_clipboard_with_retry w) as [r1 w1] eqn:E1.
  destruct (open_attempts_spec _ _ _ _ _ Ho E1) as (Hf & Hop & k & _ & Hk). destruct r1 as [[]|e].
  - right. apply closing_inv in E as (w2 & E2 & ->). exists w1, w2. split_and!; try done. apply close_law.
  - left. destruct Hk as [_ ->]. by simplify_eq.
Qed.

Lemma scan_units_spec h u pre post w :
  h ∈ wv_locks (view w) → wv_mem (view w) !! h = Some u → u = pre ++ post →
  scan_units h (length post) (length pre) w = (length pre + length (until_zero post))%nat.
Proof.
  intros Hl Hm. revert pre. induction post as [|x post IH]; intros pre Hu; simpl; [lia|].
  assert (mem_read h (length pre) w = x) as ->.
  { eapply read_law; [done|done|]. rewrite Hu, lookup_app_r, Nat.sub_diag by lia. done. }
  case_decide; [simpl; lia|]. specialize (IH (pre ++ [x])). rewrite length_app in IH. simpl in IH.
  rewrite Nat.add_1_r in IH. rewrite IH by (by rewrite <-app_assoc). simpl. lia.
Qed.

Lemma until_zero_prefix u : take (length (until_zero u)) u = until_zero u.
Proof. induction u as [|x u IH]; simpl; [done|]. case_decide; simpl; [done|by f_equal]. Qed.

Lemma read_units_spec h u n w :
  h ∈ wv_locks (view w) → wv_mem (view w) !! h = Some u → (n ≤ length u)%nat →
  map (λ i, mem_read h i w) (seq 0 n) = take n u.
Proof.
  intros Hl Hm Hn. apply list_eq. intros i.
  destruct (decide (i < n)%nat) as [Hi|Hi].
  - rewrite lookup_take_lt by done. destruct (lookup_lt_is_Some_2 u i) as [x Hx]; [lia|].
    rewrite Hx. change (map ?f ?l) with (f <$> l). rewrite list_lookup_fmap, lookup_seq_lt by done. simpl.
    f_equal. by eapply read_law.
  - rewrite !lookup_ge_None_2; [done|rewrite length_take; lia|rewrite length_map, length_seq; lia].
Qed.

(** Reading: only a busy clipboard is an error, a text that is returned is the one
    on the clipboard up to its terminator, and nothing is left open or locked. *)
Lemma read_direct_spec w r w' :
  wv_open (view w) = false → wv_locks (view w) = ∅ → read_clipboard_text_direct w = (r, w') →
  foreign (view w) (view w') ∧ wv_open (view w') = false
  ∧ match r with
    | Ok None => True
    | Ok (Some c) => ∃ u, wv_text (view w') = Some u ∧ c = Text (from_utf16_lossy (until_zero u))
    | Err e => e = clipboard_busy
    end.
Proof.
  intros Ho Hl. unfold read_clipboard_text_direct. destruct (negb _); [intros; by simplify_eq|].
  intros E. apply with_clipboard_spec in E as [(-> & Hf & Hc)|(w1 & w2 & Hf & Hop & E & Hw')]; [done| |done].
  rewrite Hw'. cbn [wv_open set_open]. cut (foreign (view w1) (view w2) ∧ match r with
    | Ok None => True | Err e => e = clipboard_busy
    | Ok (Some c) => ∃ u, wv_text (view w2) = Some u ∧ c = Text (from_utf16_lossy (until_zero u)) end).
  { intros [Hf2 Hr]. split_and!; [|done|done]. etrans; [exact Hf|]. etrans; [exact Hf2|]. apply foreign_set_open. }
  unfold mbind, st_bind, sys in E. destruct (GetClipboardData CF_UNICODETEXT w1) as [o w3] eqn:E3.
  destruct (get_data_law _ _ _ Hop E3) as [Hv3 Hh]. destruct o as [h|]; cycle 1.
  { unfold mret, st_ret in E. simplify_eq. by rewrite Hv3. }
  destruct (Hh h eq_refl) as [Hc [u Hu]]. destruct (GlobalLock h w3) as [b w4] eqn:E4. apply lock_law in E4.
  destruct b; simpl in E; cycle 1.
  { unfold mret, st_ret in E. simplify_eq. by rewrite E4, Hv3. }
  rewrite Hv3 in E4.
  assert (wv_mem (view w4) !! h = Some u) as Hm4 by (by rewrite E4).
  assert (h ∈ wv_locks (view w4)) as Hl4 by (rewrite E4; simpl; set_solver).
  unfold gets, modify, mret, st_ret in E. simplify_eq. rewrite unlock_law, E4. split.
  - split; try done. cbn. rewrite (fo_locks _ _ Hf), Hl. set_solver.
  - exists u. split; [unfold wv_text; cbn; by rewrite Hc|]. do 2 f_equal.
    rewrite (size_law _ _ _ Hm4). unfold zlen. rewrite Nat2Z.id.
    pose proof (scan_units_spec h u [] u w4 Hl4 Hm4 eq_refl) as Hs. simpl in Hs. rewrite Hs.
    rewrite (read_units_spec h u) by (done || (rewrite <-(until_zero_prefix u), length_take; lia)).
    apply until_zero_prefix.
Qed.

(** The blocks of [v] are still there in [v'], and nothing else but the clipboard,
    the time and the blocks [extra] differs. *)
Record kept (extra : gset Handle) (v v' : WinView) : Prop := {
  ke_open : wv_open v' = wv_open v;
  ke_owned : wv_owned v' = extra ∪ wv_owned v;
  ke_locks : wv_locks v' = wv_locks v;
  ke_class : wv_class v' = wv_class v;
  ke_windows : wv_windows v' = wv_windows v;
  ke_listeners : wv_listeners v' = wv_listeners v;
  ke_mem h : h ∈ wv_owned v → wv_mem v' !! h = wv_mem v !! h }.

(** Preparing the block: on success it holds the units and the terminator. *)
Lemma prepare_block w n h w1 w2 units :
  GlobalAlloc n w = (Some h, w1) → n = zlen units * 2 → GlobalLock h w1 = (true, w2) → wv_locks (view w) = ∅ →
  let w3 := GlobalUnlock h (mem_write h units w2) in
  kept {[h]} (view w) (view w3) ∧ (h ∉ wv_owned (view w)) ∧ ∃ k, wv_mem (view w3) !! h = Some (units ++ k).
Proof.
  intros E1 -> E2 Hl w3. apply alloc_law in E1 as (u & Hm & Hno & Hnl & Hn & Hv1).
  apply lock_law in E2. rewrite Hv1 in E2.
  assert (wv_mem (view w2) !! h = Some u) as Hu by (rewrite E2; cbn; apply lookup_insert_eq).
  assert (length units ≤ length u)%nat as Hle by (unfold zlen in Hn; lia).
  assert (h ∈ wv_locks (view w2)) as Hl2 by (rewrite E2; cbn; set_solver).
  subst w3. rewrite unlock_law, (write_law _ _ _ _ Hl2 Hu Hle), E2. cbn. split_and!.
  - split; cbn; try done; [rewrite Hl; set_solver|]. intros h' Hh'.
    rewrite !lookup_insert_ne by (intros ->; done). done.
  - done.
  - eexists. apply lookup_insert_eq.
Qed.

(** Handing the block over on an open clipboard. *)
Lemma publish_block w1 r w2 h units :
  wv_open (view w1) = true → h ∈ wv_owned (view w1) → wv_mem (view w1) !! h = Some units →
  (empty_ok ← sys EmptyClipboard;
   if negb empty_ok then
     err ← gets GetLastError;
     _ ← modify (GlobalFree h);
     fail (BackendError ("Failed to empty Windows clipboard (GetLastError=" +:+ dec err +:+ ")"))
   else
     set_res ← sys (SetClipboardData CF_UNICODETEXT h);
     if negb set_res then
       _ ← modify (GlobalFree h);
       fail (BackendError "Failed to set Windows clipboard data")
     else mret tt) w1 = (r, w2) →
  wv_owned (view w2) = wv_owned (view w1) ∖ {[h]} ∧ foreign (set_owned (wv_owned (view w2)) (view w1)) (view w2)
  ∧ match r with Ok _ => wv_text (view w2) = Some units | Err e => e ≠ clipboard_busy end.
Proof.
  intros Ho Hh Hm E. unfold mbind, st_bind, sys in E. destruct (EmptyClipboard w1) as [b w3] eqn:E3.
  pose proof (empty_law _ _ _ Ho E3) as Hv3. destruct b; simpl in E; cycle 1.
  { unfold gets, modify, fail in E. simplify_eq. rewrite free_law, Hv3 by (by rewrite Hv3). cbn. split_and!; [done| |done].
    split; cbn; try done. intros h' Hh'. rewrite lookup_delete_ne by set_solver. done. }
  destruct Hv3 as (m & Hv3 & Hmm).
  destruct (SetClipboardData CF_UNICODETEXT h w3) as [b w4] eqn:E4.
  apply set_data_law in E4; [|by rewrite Hv3|by rewrite Hv3]. rewrite Hv3 in E4. destruct b; simpl in E.
  - unfold mret, st_ret in E. simplify_eq. rewrite E4. cbn. split_and!; [done| |].
    + split; cbn; try done. intros h' Hh'. apply Hmm. set_solver.
    + unfold wv_text. cbn. by rewrite Hmm.
  - unfold modify, fail in E. simplify_eq. rewrite free_law, E4 by (by rewrite E4). cbn. split_and!; [done| |done].
    split; cbn; try done. intros h' Hh'. rewrite lookup_delete_ne by set_solver. apply Hmm. set_solver.
Qed.

Lemma kept_refl v : kept ∅ v v.
Proof. split; set_solver. Qed.

(** Writing: success puts the text on the clipboard and keeps no block; every
    failure but a busy clipboard frees what was allocated. *)
Lemma write_clipboard_spec c w r w' :
  wv_open (view w) = false → wv_locks (view w) = ∅ → write_clipboard c w = (r, w') →
  match r with
  | Ok _ => kept ∅ (view w) (view w')
      ∧ ∃ t k, windows_text c = Ok t ∧ wv_text (view w') = Some (encode_utf16 t ++ 0 :: k)
  | Err e => (kept ∅ (view w) (view w') ∧ e ≠ clipboard_busy)
      ∨ (e = clipboard_busy ∧ ∃ h, kept {[h]} (view w) (view w') ∧ (h ∉ wv_owned (view w)))
  end.
Proof.
  intros Ho Hl E. unfold write_clipboard in E. unfold mbind at 1, st_bind at 1, lift at 1 in E.
  destruct (windows_text c) as [t|e] eqn:Et; cycle 1.
  { simplify_eq. left. split; [apply kept_refl|]. by destruct c; simplify_eq/=. }
  unfold mbind at 1, st_bind at 1, sys at 1 in E.
  destruct (GlobalAlloc _ w) as [[h|] w1] eqn:E1; cycle 1.
  { unfold fail in E. simplify_eq. left. apply alloc_law in E1. rewrite E1. split; [apply kept_refl|done]. }
  unfold mbind at 1, st_bind at 1, sys at 1 in E. destruct (GlobalLock h w1) as [b w2] eqn:E2.
  destruct b; cbn [negb] in E; cycle 1.
  { unfold mbind, st_bind, modify, fail in E. simplify_eq. left. split; [|done].
    apply alloc_law in E1 as (u & Hm & Hno & Hnl & Hn & Hv1). apply lock_law in E2. rewrite Hv1 in E2.
    rewrite free_law, E2 by (rewrite E2; cbn; set_solver). cbn. split; cbn; try set_solver.
    intros h' Hh'. rewrite lookup_delete_ne, lookup_insert_ne by (intros ->; done). done. }
  destruct (prepare_block _ _ _ _ _ _ E1 eq_refl E2 Hl) as (Hk & Hno & k & Hblk).
  rewrite (st_bind_ok _ (modify _) _ tt _ eq_refl) in E. rewrite (st_bind_ok _ (modify _) _ tt _ eq_refl) in E.
  set (w3 := GlobalUnlock h _) in *. clearbody w3. destruct Hk as [Hk1 Hk2 Hk3 Hk4 Hk5 Hk6 Hk7].
  apply with_clipboard_spec in E as [(-> & Hf & Hc)|(w4 & w5 & Hf & Hop & E & Hw')]; [| |congruence].
  - right. split; [done|]. exists h. destruct Hf as [F1 F2 F3 F4 F5 F6]. split; [|done].
    split; try congruence. intros h' Hh'. rewrite F6 by (rewrite Hk2; set_solver). by apply Hk7.
  - destruct Hf as [F1 F2 F3 F4 F5 F6].
    apply publish_block with (units := (encode_utf16 t ++ [0]) ++ k) in E as (Hown & [G1 G2 G3 G4 G5 G6] & Hr);
      [|done|rewrite F1, Hk2; set_solver|by rewrite F6 by (rewrite Hk2; set_solver)].
    assert (kept ∅ (view w) (view w')) as Hkept.
    { rewrite Hw'. cbn in *. split; cbn; try congruence; [rewrite Hown, F1, Hk2; set_solver|].
      intros h' Hh'. rewrite G6 by (rewrite Hown, F1, Hk2; set_solver). rewrite F6 by (rewrite Hk2; set_solver).
      by apply Hk7. }
    destruct r as [[]|e]; [|by left]. split; [done|]. exists t, k. split; [done|].
    rewrite Hw'. change (wv_text (set_open false (view w5))) with (wv_text (view w5)).
    rewrite Hr, <-app_assoc. done.
Qed.

Lemma clear_clipboard_spec w r w' :
  wv_open (view w) = false → clear_clipboard w = (r, w') →
  foreign (view w) (view w') ∧ wv_open (view w') = false
  ∧ (is_ok r = true → IsClipboardFormatAvailable CF_UNICODETEXT w' = false).
Proof.
  intros Ho E. apply with_clipboard_spec in E as [(-> & Hf & Hc)|(w1 & w2 & Hf & Hop & E & Hw')]; [done| |done].
  rewrite available_law, Hw'. cbn [wv_open set_open wv_clip].
  unfold mbind, st_bind, sys in E. destruct (EmptyClipboard w1) as [b w3] eqn:E3.
  pose proof (empty_law _ _ _ Hop E3) as Hv3. destruct b; simpl in E.
  - destruct Hv3 as (m & Hv3 & Hmm). unfold mret, st_ret in E. simplify_eq. rewrite Hv3. split_and!; [|done|done].
    destruct Hf as [F1 F2 F3 F4 F5 F6]. split; cbn; try done. intros h Hh. rewrite Hmm by congruence. by apply F6.
  - unfold fail in E. simplify_eq. rewrite Hv3. split_and!; [|done|done]. by etrans; [|apply foreign_set_open].
Qed.

(** *** The listener *)

(** A quiet thread: it holds neither the clipboard nor a block of memory locked. *)
Definition quiet (v : WinView) : Prop := wv_open v = false ∧ wv_locks v = ∅.

Definition is_text (c : ClipboardContent) : Prop := ∃ t, c = Text t.

Lemma listener_wnd_proc_view m w : m ≠ WM_CLOSE → view (listener_wnd_proc m w) = view w.
Proof. intros Hm. unfold listener_wnd_proc. case_decide; [apply post_quit_law|by apply def_proc_law]. Qed.

Lemma on_clipboard_update_spec l :
  quiet (view (ls_world l)) →
  let l' := on_clipboard_update l in
  foreign (view (ls_world l)) (view (ls_world l')) ∧ quiet (view (ls_world l')) ∧ ls_hwnd l' = ls_hwnd l
  ∧ (ls_tx l' = ls_tx l
     ∨ ∃ u, wv_text (view (ls_world l')) = Some u
         ∧ ls_tx l' = ls_tx l ++ [Text (from_utf16_lossy (until_zero u))]).
Proof.
  intros [Ho Hl]. unfold on_clipboard_update.
  destruct (read_clipboard_text_direct (ls_world l)) as [r w'] eqn:E.
  destruct (read_direct_spec _ _ _ Ho Hl E) as (Hf & Ho' & Hr).
  assert (quiet (view w')) as Hq by (split; [done|by rewrite (fo_locks _ _ Hf)]).
  destruct r as [[c|]|e]; [|by split_and!; [..|left]|by split_and!; [..|left]].
  destruct Hr as (u & Hu & ->). split_and!; [done..|]. right. by exists u.
Qed.

Lemma message_pump_spec running l :
  quiet (view (ls_world l)) →
  let '(_, l') := message_pump running l in
  foreign (view (ls_world l)) (view (ls_world l')) ∧ quiet (view (ls_world l')) ∧ ls_hwnd l' = ls_hwnd l
  ∧ ∃ new, ls_tx l' = ls_tx l ++ new ∧ Forall is_text new.
Proof.
  revert l. induction running as [|b running IH]; intros l Hq.
  { simpl. split_and!; [done..|]. exists []. by rewrite app_nil_r. }
  destruct b; simpl; cycle 1.
  { split_and!; [done..|]. exists []. by rewrite app_nil_r. }
  destruct (GetMessageW (ls_world l)) as [o w1] eqn:E1.
  assert (foreign (view (ls_world l)) (view w1) ∧ quiet (view w1)) as [Hf1 Hq1].
  { apply get_message_law in E1; [|apply Hq]. split; [by apply others_foreign|].
    destruct E1 as (c & m & -> & _). exact Hq. }
  destruct o as [m|]; cycle 1.
  { split_and!; [done..|]. exists []. by rewrite app_nil_r. }
  case_decide as Hm.
  - destruct (on_clipboard_update_spec (set_world w1 l) Hq1) as (Hf2 & Hq2 & Hh2 & Ht2).
    set (l2 := on_clipboard_update (set_world w1 l)) in *.
    assert (view (listener_wnd_proc m (ls_world l2)) = view (ls_world l2)) as Hv
      by (apply listener_wnd_proc_view; subst m; done).
    specialize (IH (set_world (listener_wnd_proc m (ls_world l2)) l2)). simpl in IH. rewrite Hv in IH.
    specialize (IH Hq2). destruct (message_pump running _) as [ex l3].
    destruct IH as (Hf3 & Hq3 & Hh3 & new & Ht3 & Hnew). split_and!; [|done|etrans; [exact Hh3|exact Hh2]|].
    { etrans; [exact Hf1|]. etrans; [exact Hf2|exact Hf3]. }
    destruct Ht2 as [Ht2|(u & _ & Ht2)]; simpl in Ht2; rewrite Ht2 in Ht3.
    + by exists new.
    + exists (Text (from_utf16_lossy (until_zero u)) :: new). rewrite Ht3, <-app_assoc. split; [done|].
      constructor; [by eexists|done].
  - case_decide as Hc.
    { split_and!; [done..|]. exists []. by rewrite app_nil_r. }
    specialize (IH (set_world (listener_wnd_proc m w1) (set_world w1 l))). simpl in IH.
    rewrite listener_wnd_proc_view in IH by done. specialize (IH Hq1).
    destruct (message_pump running _) as [ex l3]. destruct IH as (Hf3 & Hq3 & Hh3 & Ht3).
    split_and!; [by etrans|done..].
Qed.
End WindowsLemmas.

(** ** Shutdown: [Drop] and the listener thread *)

(** The two threads share [hwnd], [is_running] and the window's message queue.  An
    atomic store is visible at once, or, in the weak semantics that
    [Release]/[Acquire] permit, it may wait in its thread's store buffer while the
    thread goes on to its next load. *)
Inductive ListenerPc := LStore | LCheck | LWait | LDone.
Inductive DropPc := DStore | DLoad | DPost | DJoin | DDone.
Inductive PumpMsg := MClose | MOther.
#[global] Instance DropPc_eq_dec : EqDecision DropPc.
Proof. solve_decision. Defined.

Record Shutdown := {
  sd_listener : ListenerPc; sd_drop : DropPc;
  sd_hwnd : bool;            (* [hwnd] is not 0 *)
  sd_running : bool;
  sd_hwnd_buf : bool;        (* the listener's store of [hwnd] is in its buffer *)
  sd_running_buf : bool;     (* the store of [false] to [is_running] is in its buffer *)
  sd_queue : list PumpMsg;
  sd_arrivals : nat }.       (* messages that other processes will still post *)

Definition shutdown_start (arrivals : nat) : Shutdown := {|
  sd_listener := LStore; sd_drop := DStore; sd_hwnd := false; sd_running := true; sd_hwnd_buf := false;
  sd_running_buf := false; sd_queue := []; sd_arrivals := arrivals |}.

Inductive shutdown_step (weak : bool) : Shutdown → Shutdown → Prop :=
(* the window could not be created: the thread returns *)
| l_fail d hw r b1 b2 q n :
    shutdown_step weak (Build_Shutdown LStore d hw r b1 b2 q n) (Build_Shutdown LDone d hw r b1 b2 q n)
(* [hwnd_out.store(hwnd, Release)] *)
| l_store d hw r b1 b2 q n :
    shutdown_step weak (Build_Shutdown LStore d hw r b1 b2 q n)
      (if weak then Build_Shutdown LCheck d hw r true b2 q n else Build_Shutdown LCheck d true r b1 b2 q n)
| l_flush l d hw r b2 q n :
    shutdown_step weak (Build_Shutdown l d hw r true b2 q n) (Build_Shutdown l d true r false b2 q n)
(* [while is_running.load(Acquire) && GetMessageW(..) > 0] *)
| l_check d hw r b1 b2 q n :
    shutdown_step weak (Build_Shutdown LCheck d hw r b1 b2 q n)
      (Build_Shutdown (if r : bool then LWait else LDone) d hw r b1 b2 q n)
| l_message d hw r b1 b2 m q n :
    shutdown_step weak (Build_Shutdown LWait d hw r b1 b2 (m :: q) n)
      (Build_Shutdown (if m is MClose then LDone else LCheck) d hw r b1 b2 q n)
(* [hwnd_out.store(0, Release)] after the loop; no later load depends on it *)
| l_clear d r b1 b2 q n :
    shutdown_step weak (Build_Shutdown LDone d true r b1 b2 q n) (Build_Shutdown LDone d false r b1 b2 q n)
(* [self.is_running.store(false, Release)] *)
| d_store l hw r b1 b2 q n :
    shutdown_step weak (Build_Shutdown l DStore hw r b1 b2 q n)
      (if weak then Build_Shutdown l DLoad hw r b1 true q n else Build_Shutdown l DLoad hw false b1 b2 q n)
| d_flush l d hw r b1 q n :
    shutdown_step weak (Build_Shutdown l d hw r b1 true q n) (Build_Shutdown l d hw false b1 false q n)
(* [self.hwnd.load(Acquire)], then [PostMessageW(.., WM_CLOSE, ..)] if it is not 0 *)
| d_load l hw r b1 b2 q n :
    shutdown_step weak (Build_Shutdown l DLoad hw r b1 b2 q n)
      (Build_Shutdown l (if hw : bool then DPost else DJoin) hw r b1 b2 q n)
| d_post l hw r b1 b2 q n :
    shutdown_step weak (Build_Shutdown l DPost hw r b1 b2 q n) (Build_Shutdown l DJoin hw r b1 b2 (q ++ [MClose]) n)
(* [handle.join()] *)
| d_join hw r b1 b2 q n :
    shutdown_step weak (Build_Shutdown LDone DJoin hw r b1 b2 q n) (Build_Shutdown LDone DDone hw r b1 b2 q n)
(* another process changes the clipboard *)
| e_post l d hw r b1 b2 q n :
    shutdown_step weak (Build_Shutdown l d hw r b1 b2 q (S n)) (Build_Shutdown l d hw r b1 b2 (q ++ [MOther]) n).

(** Every step brings the end nearer. *)
Definition shutdown_measure (s : Shutdown) : nat :=
  4 * sd_arrivals s + 3 * length (sd_queue s)
  + (if sd_hwnd_buf s then 2 else 0) + (if sd_hwnd s then 1 else 0) + (if sd_running_buf s then 1 else 0)
  + match sd_listener s with LStore => 6 | LCheck => 2 | LWait => 1 | LDone => 0 end
  + match sd_drop s with DStore => 10 | DLoad => 8 | DPost => 6 | DJoin => 1 | DDone => 0 end.

Lemma shutdown_step_measure weak s s' :
  shutdown_step weak s s' → (shutdown_measure s' < shutdown_measure s)%nat.
Proof.
  destruct 1; unfold shutdown_measure; try destruct weak; simpl;
    repeat match goal with
      | m : PumpMsg |- _ => destruct m
      | |- context [if ?b then _ else _] => destruct b end; simpl;
    rewrite ?length_app; simpl; lia.
Qed.

(** With stores visible at once: if [Drop] has gone past its load without posting,
    the listener has seen or will see the flag; if it has posted, the message is in
    the queue until the listener takes it. *)
Definition shutdown_inv (s : Shutdown) : Prop :=
  sd_hwnd_buf s = false ∧ sd_running_buf s = false
  ∧ (sd_drop s ≠ DStore → sd_running s = false)
  ∧ (sd_listener s = LWait → sd_hwnd s = true)
  ∧ (sd_listener s = LCheck → sd_hwnd s = true)
  ∧ (sd_drop s = DJoin → sd_listener s = LWait → MClose ∈ sd_queue s)
  ∧ (sd_drop s = DDone → sd_listener s = LDone).

Lemma shutdown_inv_step s s' : shutdown_inv s → shutdown_step false s s' → shutdown_inv s'.
Proof.
  unfold shutdown_inv. intros Hi Hs. destruct Hs; simpl in *; destruct_and!;
    repeat match goal with
      | |- context [if ?b then _ else _] => is_var b; destruct b
      | m : PumpMsg |- _ => destruct m end; simpl;
    split_and!; try done; try naive_solver;
    try (intros; set_solver).
Qed.

Lemma shutdown_reachable n s : rtc (shutdown_step false) (shutdown_start n) s → shutdown_inv s.
Proof.
  intros Hr. assert (shutdown_inv (shutdown_start n)) as H0 by (unfold shutdown_inv; simpl; split_and!; done).
  revert H0. induction Hr as [|s1 s2 s3 Hs Hr IH]; [done|]. intros Hi. by apply IH, (shutdown_inv_step s1).
Qed.

Lemma shutdown_nsteps weak k s s' :
  nsteps (shutdown_step weak) k s s' → (k + shutdown_measure s' ≤ shutdown_measure s)%nat.
Proof.
  induction 1 as [|k s1 s2 s3 Hs Hn IH]; [lia|]. apply shutdown_step_measure in Hs. lia.
Qed.

(** ** Properties *)


(** The same cannot be said with store buffers: each thread may miss the other's
    store, and then the listener waits for a message and [Drop] for the listener. *)
Theorem drop_weak_deadlock :
  ∃ s, rtc (shutdown_step true) (shutdown_start 0) s ∧ sd_drop s = DJoin ∧ sd_listener s = LWait
    ∧ ∀ s', ¬ shutdown_step true s s'.
Proof.
  exists (Build_Shutdown LWait DJoin true false false false [] 0). split_and!; [|done|done|by inversion 1].
  eapply rtc_l; [apply (l_store true)|]. eapply rtc_l; [apply (l_check true)|].
  eapply rtc_l; [apply (d_store true)|]. eapply rtc_l; [apply (d_load true)|].
  eapply rtc_l; [apply (l_flush true)|]. eapply rtc_l; [apply (d_flush true)|]. apply rtc_refl.
Qed.

(** Retrying is bounded.  [open_clipboard_with_retry] ends after at most ten
    attempts and 1.91 seconds of sleep; it fails only after all ten, and with
    success the clipboard is open. *)
Theorem open_retry_bounded `{Win32Laws W} (w w' : W) (r : result ClipboardError unit) :
  quiet (view w) → open_clipboard_with_retry w = (r, w') →
  let slept := wv_slept (view w') - wv_slept (view w) in
  wv_open (view w') = is_ok r ∧ foreign (view w) (view w')
  ∧ match r with Ok _ => 0 ≤ slept ≤ 1590 | Err e => slept = 1910 ∧ e = clipboard_busy end.
Proof.
  intros [Ho _] E. destruct (open_attempts_spec _ _ _ _ _ Ho E) as (Hf & Hop & k & Hk & Hr).
  split_and!; [done|done|]. rewrite Hk. destruct r as [[]|e].
  - unfold CLIPBOARD_RETRY_COUNT in Hr.
    assert (0 ≤ backoff 0 k ≤ 1590) as Hb
      by (do 10 (destruct k as [|k]; [vm_compute; split; congruence|]); lia).
    lia.
  - destruct Hr as [-> ->]. split; [|done]. unfold CLIPBOARD_RETRY_COUNT.
    assert (backoff 0 10 = 1910) as -> by reflexivity. lia.
Qed.

(** C26: writing the clipboard accounts for every resource.  On every path the
    clipboard is closed again, no block stays locked and the blocks this process
    owned before are untouched; success puts the UTF-16 text with a terminator on
    the clipboard and leaves nothing to free; a failure leaves nothing to free
    either, except when the clipboard stayed busy: then exactly the block just
    allocated is lost. *)
Theorem windows_set_accounted `{Win32Laws W} (c : ClipboardContent) (b b' : WindowsClipboardBackend W)
    (r : result ClipboardError unit) :
  let v := view (ls_world (wb_listener b)) in
  let v' := view (ls_world (wb_listener b')) in
  quiet v → windows_set_content c b = (r, b') →
  quiet v' ∧ (∀ h, h ∈ wv_owned v → wv_mem v' !! h = wv_mem v !! h)
  ∧ match r with
    | Ok _ => wv_owned v' = wv_owned v
        ∧ ∃ t k, windows_text c = Ok t ∧ wv_text v' = Some (encode_utf16 t ++ 0 :: k)
    | Err e =>
      if decide (e = clipboard_busy) then ∃ h, (h ∉ wv_owned v) ∧ wv_owned v' = {[h]} ∪ wv_owned v
      else wv_owned v' = wv_owned v
    end.
Proof.
  intros v v' [Ho Hl] E. unfold windows_set_content, on_system, zoom in E.
  destruct (write_clipboard c _) as [r1 w1] eqn:Ew. simplify_eq. subst v v'. simpl in *.
  pose proof (write_clipboard_spec _ _ _ _ Ho Hl Ew) as Hs. unfold quiet. destruct r as [[]|e].
  - destruct Hs as [[K1 K2 K3 _ _ _ K7] Ht]. split_and!; [congruence|congruence|done|set_solver|done].
  - destruct Hs as [[[K1 K2 K3 _ _ _ K7] Hne]|(-> & h & [K1 K2 K3 _ _ _ K7] & Hh)];
      (split_and!; [by rewrite K1|by rewrite K3|done|]).
    + rewrite decide_False by done. set_solver.
    + rewrite decide_True by done. eauto.
Qed.

(** Text survives the system clipboard.  What [get_content] returns after a
    successful [set_content], as long as no other process has replaced the text, is
    the written text up to its first NUL character; without one, it is the text. *)
Theorem windows_roundtrip `{Win32Laws W} (c c' : ClipboardContent) (t : string)
    (b b1 b2 : WindowsClipboardBackend W) :
  let v := λ b : WindowsClipboardBackend W, view (ls_world (wb_listener b)) in
  quiet (v b) → windows_text c = Ok t → utf8_valid t →
  windows_set_content c b = (Ok tt, b1) → windows_get_content b1 = (Ok (Some c'), b2) →
  wv_text (v b2) = wv_text (v b1) →
  c' = Text (until_nul t) ∧ (has_nul t = false → c' = Text t).
Proof.
  intros v [Ho Hl] Ht Hv E1 E2 Hsame. subst v. unfold windows_set_content, windows_get_content, on_system, zoom in *.
  destruct (write_clipboard c _) as [r1 w1] eqn:Ew. simplify_eq. simpl in *.
  destruct (read_clipboard_text_direct w1) as [r2 w2] eqn:Er. simplify_eq. simpl in *.
  destruct (write_clipboard_spec _ _ _ _ Ho Hl Ew) as [[K1 _ K3 _ _ _ _] (t' & k & Ht' & Hk)].
  destruct (read_direct_spec w1 _ _ ltac:(by rewrite K1) ltac:(by rewrite K3) Er) as (_ & _ & u & Hu & ->).
  assert (t' = t) as -> by congruence. rewrite Hsame, Hk in Hu. injection Hu as <-.
  rewrite (utf16_roundtrip _ _ Hv). split; [done|]. intros Hn. by rewrite until_nul_id.
Qed.

(** The listener thread gives back what it takes.  However it ends (a class
    that cannot be registered, a window that cannot be made, a listener that is
    refused, [WM_CLOSE], the cleared flag, a failing [GetMessageW]), its class,
    window and listener are gone and [hwnd] is 0 again; while it runs, [hwnd] is its
    window and listens.  It tells its subscribers texts only, holds nothing of the
    clipboard and owns no memory. *)
Theorem listener_releases `{Win32Laws W} (running : list bool) (l : Listener W) :
  let v := view (ls_world l) in
  quiet v → wv_class v = false → ls_hwnd l = 0 →
  let '(exited, l') := run_clipboard_listener_loop running l in
  let v' := view (ls_world l') in
  quiet v' ∧ wv_owned v' = wv_owned v ∧ (∃ new, ls_tx l' = ls_tx l ++ new ∧ Forall is_text new)
  ∧ if exited : bool
    then wv_class v' = false ∧ wv_windows v' = wv_windows v ∧ wv_listeners v' = wv_listeners v ∧ ls_hwnd l' = 0
    else wv_class v' = true ∧ ls_hwnd l' ≠ 0 ∧ wv_windows v' = {[ls_hwnd l']} ∪ wv_windows v
         ∧ wv_listeners v' = {[ls_hwnd l']} ∪ wv_listeners v.
Proof.
  intros v Hq Hc Hh. subst v. unfold run_clipboard_listener_loop.
  assert (∃ new, ls_tx l = ls_tx l ++ new ∧ Forall is_text new) as Hnone by (exists []; by rewrite app_nil_r).
  destruct (RegisterClassW (ls_world l)) as [b1 w1] eqn:E1. apply register_law in E1.
  destruct b1; simpl; [|rewrite E1; by split_and!].
  destruct (CreateWindowExW w1) as [h w2] eqn:E2. apply create_law in E2. rewrite E1 in E2. cbn in E2.
  case_decide as Hz; simpl; [rewrite unregister_law, E2; by split_and!|].
  destruct E2 as (Hnw & Hnl & E2). destruct (AddClipboardFormatListener h w2) as [b3 w3] eqn:E3.
  apply add_listener_law in E3. rewrite E2 in E3. destruct b3; cbn in E3 |- *; cycle 1.
  { rewrite unregister_law, destroy_law, E3. cbn. split_and!; first [done|apply Hq|set_solver]. }
  pose proof (message_pump_spec running (store_hwnd h (set_world w3 (set_world w2 (set_world w1 l))))) as Hp.
  cbn in Hp. rewrite E3 in Hp. specialize (Hp Hq).
  destruct (message_pump running _) as [[] l']; destruct Hp as ([F1 F2 F3 F4 F5 _] & Hq' & Hhw & Ht); cbn in *.
  - rewrite unregister_law, destroy_law, remove_listener_law. cbn.
    split_and!; first [done|apply Hq'|rewrite F4; set_solver|rewrite F5; set_solver].
  - rewrite Hhw. split_and!; first [done|apply Hq'|congruence].
Qed.

(** What is known when an incoming entry was applied, for any backend. *)
Lemma incoming_applied `{ClipboardBackend B, Blake3, Hex, Postcard ClipboardMessage}
    f entry (e e1 : ClipboardSyncEngine B) o s h fm :
  guard_inv (en_guard e) → clipboard_from_data_frame f = Ok (Sync entry) →
  handle_incoming_frame f e = (Ok (Some (RemoteApplied o s h fm)), e1) →
  set_content (ce_content entry) (en_backend e) = (Ok tt, en_backend e1)
  ∧ en_policy e1 = en_policy e ∧ en_local_node_id e1 = en_local_node_id e
  ∧ policy_validate (en_policy e) (ce_content entry) false = Ok tt
  ∧ should_suppress (en_guard e1) (content_compute_hash (ce_content entry)) = true.
Proof.
  intros Hg Ef E. unfold handle_incoming_frame in E. rewrite Ef in E. case_decide; [done|].
  destruct (validate_integrity entry) as [[]|] eqn:Ei; [|done].
  destruct (policy_validate _ _ _) as [[]|] eqn:Ep; [|done].
  destruct (record_received_cases (cm_origin (ce_metadata entry)) (cm_sequence (ce_metadata entry))
    (cm_content_hash (ce_metadata entry)) (en_guard e) Hg) as [[Er _]|(Er & _ & _)]; rewrite Er in E; [done|].
  cbn [negb] in E. destruct (set_content _ _) as [[[]|] b] eqn:Es; [|done]. injection E as _ _ _ _ <-. cbn in *.
  split_and!; [done|done|done|by eapply policy_not_sensitive|].
  unfold validate_integrity in Ei. case_decide as Hh; [done|]. rewrite Hh.
  by apply push_hash_known, guard_inv_set_sequence.
Qed.

(** Text that an HTML entry's policy check admits is admitted as text. *)
Lemma policy_html_text p html plain :
  policy_validate p (Html html plain) false = Ok tt → policy_validate p (Text html) false = Ok tt.
Proof.
  unfold policy_validate. destruct (enabled p); simpl; [|done]. destruct (allow_html p); simpl; [|done].
  case_decide as Hl; [done|]. intros _. rewrite decide_False; [done|]. unfold html_len in Hl.
  pose proof (zlen_nonneg (A := byte)). unfold str_len in *. destruct plain as [q|]; [|lia].
  specialize (H (as_bytes q)). lia.
Qed.

(** On the native backend an entry comes back through the listener.  After
    an incoming entry was applied and the listener has reported the change, as long
    as no other process has replaced the text: a text without NUL is recognised and
    nothing is sent; HTML is reported as plain text of its markup, which the echo
    guard does not know, so the monitor sends it to the peers as a new entry of this
    device; images are never applied. *)
Theorem windows_echo `{Win32Laws W, Blake3, Hex, PostcardLaws ClipboardMessage} (f : DataFrame)
    (entry : ClipboardEntry) (e e1 : ClipboardSyncEngine (WindowsClipboardBackend W)) (o : NodeId) (s : u64)
    (h : array 32) (fm : ClipboardFormat) (t : string) (c' : ClipboardContent) (now : Z) :
  let b1 := wb_listener (en_backend e1) in
  let l := on_clipboard_update b1 in
  guard_inv (en_guard e) → quiet (view (ls_world (wb_listener (en_backend e)))) →
  clipboard_from_data_frame f = Ok (Sync entry) →
  windows_text (ce_content entry) = Ok t → utf8_valid t → has_nul t = false →
  handle_incoming_frame f e = (Ok (Some (RemoteApplied o s h fm)), e1) →
  ls_tx l = ls_tx b1 ++ [c'] → wv_text (view (ls_world l)) = wv_text (view (ls_world b1)) →
  let sent := (monitor [c'] now (with_backend {| wb_listener := l |} e1)).1 in
  c' = Text t ∧
  match ce_content entry with
  | Text _ => sent = []
  | Html html _ =>
    should_suppress (en_guard e1) (content_compute_hash (Text html)) = false →
    let entry' := ClipboardEntry_new (en_local_node_id e) (en_sequence e1) (Text html) false now in
    valid (Sync entry') →
    ∃ f', sent = [f'] ∧ clipboard_from_data_frame f' = Ok (Sync entry')
  | Image _ _ _ _ => False
  end.
Proof.
  intros b1 l Hg [Ho Hl] Ef Ht Hv Hn E Htx Hsame sent.
  destruct (incoming_applied _ _ _ _ _ _ _ _ Hg Ef E) as (Es & Hpol & Hid & Hp & Hsup).
  cbn [set_content windows_backend] in Es. unfold windows_set_content, on_system, zoom in Es.
  destruct (write_clipboard _ _) as [r w1] eqn:Ew. injection Es as -> Hb.
  assert (wb_listener (en_backend e1) = set_world w1 (wb_listener (en_backend e))) as Eb by (by rewrite <-Hb).
  subst l b1 sent. rewrite Eb in *. clear Eb Hb. set (b1 := set_world w1 _) in *. set (l := on_clipboard_update b1) in *.
  destruct (write_clipboard_spec _ _ _ _ Ho Hl Ew) as [[K1 _ K3 _ _ _ _] (t' & k & Ht' & Hk)].
  assert (t' = t) as -> by congruence.
  destruct (on_clipboard_update_spec b1) as (_ & _ & _ & Hu); [by split; cbn; rewrite ?K1, ?K3|]. fold l in Hu.
  assert (c' = Text t) as ->.
  { destruct Hu as [Hu|(u & Hu & Hu')].
    - rewrite Hu in Htx. apply (f_equal length) in Htx. rewrite length_app in Htx. simpl in Htx. lia.
    - rewrite Hu' in Htx. apply (inj (ls_tx _ ++.)) in Htx. injection Htx as <-.
      rewrite Hsame in Hu. cbn in Hu. rewrite Hk in Hu. injection Hu as <-. f_equal. by rewrite utf16_roundtrip, until_nul_id. }
  split; [done|]. destruct (ce_content entry) as [t0|html plain|] eqn:Ec; cbn in Ht; simplify_eq.
  - apply (monitor_known _ (Text t)); [by repeat constructor|cbn; congruence|done].
  - intros Hnew entry' Hval. destruct (from_to_clipboard _ Hval) as (f' & Ef' & Df'). exists f'. split; [|done].
    cbn [monitor]. unfold handle_local_change. cbn [with_backend en_policy en_guard].
    rewrite Hpol, (policy_html_text _ _ _ Hp), Hnew. cbn. rewrite Hid. fold entry'. by rewrite Ef'.
Qed.

(** Calls of the backend send its subscribers nothing by themselves: only the
    listener does. *)
Lemma on_system_notices `{Win32 W} {A} (m : st W ClipboardError A) (b : WindowsClipboardBackend W) :
  ls_tx (wb_listener (on_system m b).2) = ls_tx (wb_listener b).
Proof. unfold on_system, zoom. by destruct (m _). Qed.

(** A listener that could not start is not noticed.  When the window class cannot be
    registered, [new] succeeds all the same, with a backend whose clipboard can be
    read and written but which never tells its subscribers of a change. *)
Theorem new_hides_failure `{Win32 W} (w w' : W) (running : list bool) :
  RegisterClassW w = (false, w') →
  ∃ b, WindowsClipboardBackend_new (Ok tt) running w = Ok b ∧ backend_notices b = []
    ∧ ∀ c, backend_notices (set_content c b).2 = [] ∧ backend_notices (clear_content b).2 = [].
Proof.
  intros E. eexists. split; [reflexivity|].
  assert (ls_tx (run_clipboard_listener_loop running {| ls_world := w; ls_hwnd := 0; ls_tx := [] |}).2 = []) as Htx.
  { unfold run_clipboard_listener_loop. cbn. by rewrite E. }
  split; [done|]. intros c. split; etrans; [apply on_system_notices|done|apply on_system_notices|done].
Qed.

(** ** A system that behaves as documented *)

Module ToyWin.
(** A machine without other processes: the view itself, the number of times that
    opening will be refused, and the messages of the queue. *)
Record t := { tw_view : WinView; tw_busy : nat; tw_msgs : list u32 }.
Definition on (f : WinView → WinView) (w : t) : t :=
  {| tw_view := f (tw_view w); tw_busy := tw_busy w; tw_msgs := tw_msgs w |}.

Definition fresh_handle (v : WinView) : Handle := fresh (dom (wv_mem v) ∪ wv_owned v ∪ wv_locks v).
Definition fresh_window (v : WinView) : HWND := fresh ({[0]} ∪ wv_windows v ∪ wv_listeners v).
Definition clip_handle (v : WinView) : option Handle :=
  h ← wv_clip v; if decide (is_Some (wv_mem v !! h)) then Some h else None.

#[export] Instance win32 : Win32 t := {
  OpenClipboard w :=
    match tw_busy w with
    | O => (true, on (set_open true) w)
    | S n => (false, {| tw_view := set_open false (tw_view w); tw_busy := n; tw_msgs := tw_msgs w |})
    end;
  CloseClipboard := on (set_open false);
  EmptyClipboard w := (true, on (λ v, set_clip_mem None (wv_mem v) v) w);
  IsClipboardFormatAvailable _ w := bool_decide (is_Some (wv_clip (tw_view w)));
  GetClipboardData _ w := (clip_handle (tw_view w), w);
  SetClipboardData _ h w :=
    (true, on (λ v, set_clip_mem (Some h) (wv_mem v) (set_owned (wv_owned v ∖ {[h]}) v)) w);
  GetLastError _ := 0;
  GlobalAlloc n w :=
    let h := fresh_handle (tw_view w) in
    (Some h, on (λ v, set_clip_mem (wv_clip v) (<[h := replicate (Z.to_nat n) 0]> (wv_mem v))
                        (set_owned ({[h]} ∪ wv_owned v) v)) w);
  GlobalFree h := on (λ v, set_clip_mem (wv_clip v) (delete h (wv_mem v)) (set_owned (wv_owned v ∖ {[h]}) v));
  GlobalLock h w := (true, on (λ v, set_locks ({[h]} ∪ wv_locks v) v) w);
  GlobalUnlock h := on (λ v, set_locks (wv_locks v ∖ {[h]}) v);
  GlobalSize h w := 2 * zlen (default [] (wv_mem (tw_view w) !! h));
  mem_read h i w := default 0 (u ← wv_mem (tw_view w) !! h; u !! i);
  mem_write h l := on (λ v, set_clip_mem (wv_clip v)
    (<[h := l ++ drop (length l) (default [] (wv_mem v !! h))]> (wv_mem v)) v);
  Sleep n := on (λ v, set_slept (wv_slept v + n) v);
  RegisterClassW w := (true, on (λ v, set_windows true (wv_windows v) (wv_listeners v) v) w);
  UnregisterClassW := on (λ v, set_windows false (wv_windows v) (wv_listeners v) v);
  CreateWindowExW w :=
    let h := fresh_window (tw_view w) in
    (h, on (λ v, set_windows (wv_class v) ({[h]} ∪ wv_windows v) (wv_listeners v) v) w);
  DestroyWindow h := on (λ v, set_windows (wv_class v) (wv_windows v ∖ {[h]}) (wv_listeners v) v);
  AddClipboardFormatListener h w :=
    (true, on (λ v, set_windows (wv_class v) (wv_windows v) ({[h]} ∪ wv_listeners v) v) w);
  RemoveClipboardFormatListener h := on (λ v, set_windows (wv_class v) (wv_windows v) (wv_listeners v ∖ {[h]}) v);
  GetMessageW w :=
    match tw_msgs w with
    | [] => (None, w)
    | m :: rest => (Some m, {| tw_view := tw_view w; tw_busy := tw_busy w; tw_msgs := rest |})
    end;
  PostQuitMessage w := w;
  DefWindowProcW _ w := w;
}.

Lemma others_refl v : others v v.
Proof. exists (wv_clip v), (wv_mem v). split; [by destruct v|done]. Qed.

#[export] Instance laws : Win32Laws t.
Proof.
  refine {| view := tw_view |}; cbn.
  - intros w b w' Ho. destruct (tw_busy w); intros; simplify_eq; exists (tw_view w);
      (split; [apply others_refl|done]).
  - done.
  - intros w b w' Ho E. simplify_eq. by eexists.
  - done.
  - intros w o w' Ho E. simplify_eq. split; [done|]. intros h E. unfold clip_handle in E.
    destruct (wv_clip _) as [h'|]; [|done]. simpl in E. case_decide; by simplify_eq.
  - intros w h b w' Ho Hh E. by simplify_eq.
  - intros w n o w' E. simplify_eq. exists (replicate (Z.to_nat n) 0).
    pose proof (is_fresh (dom (wv_mem (tw_view w)) ∪ wv_owned (tw_view w) ∪ wv_locks (tw_view w))) as Hf.
    fold (fresh_handle (tw_view w)) in Hf. rewrite !not_elem_of_union in Hf. destruct Hf as [[Hm Ho] Hl].
    split_and!; [by apply not_elem_of_dom|done|done|unfold zlen; rewrite length_replicate; lia|done].
  - done.
  - intros w h b w' E. by simplify_eq.
  - done.
  - intros w h u E. rewrite E. cbn. by rewrite Z.mul_comm, Z.div_mul.
  - intros w h u i x _ E Ex. rewrite E. cbn. by rewrite Ex.
  - intros w h u l _ E Hl. by rewrite E.
  - intros w n Ho. exists (tw_view w). split; [apply others_refl|done].
  - intros w b w' E. by simplify_eq.
  - done.
  - intros w h w' E. simplify_eq.
    pose proof (is_fresh ({[0]} ∪ wv_windows (tw_view w) ∪ wv_listeners (tw_view w))) as Hf.
    fold (fresh_window (tw_view w)) in Hf. rewrite !not_elem_of_union, not_elem_of_singleton in Hf.
    destruct Hf as [[Hz Hw] Hl]. by rewrite decide_False.
  - done.
  - intros w h b w' E. by simplify_eq.
  - done.
  - intros w o w' Ho. destruct (tw_msgs w); intros; simplify_eq; apply others_refl.
  - done.
  - done.
Defined.

Definition start : t := {|
  tw_view := {| wv_open := false; wv_clip := None; wv_mem := ∅; wv_owned := ∅; wv_locks := ∅; wv_slept := 0;
                wv_class := false; wv_windows := ∅; wv_listeners := ∅ |};
  tw_busy := 0; tw_msgs := [WM_CLIPBOARDUPDATE; WM_CLOSE] |}.
Definition busy (n : nat) : t := {| tw_view := tw_view start; tw_busy := n; tw_msgs := [] |}.
Definition backend (w : t) : WindowsClipboardBackend t :=
  {| wb_listener := {| ls_world := w; ls_hwnd := 0; ls_tx := [] |} |}.
End ToyWin.

(** ** Witnesses *)

Section Witnesses.
Import Toy ClipboardWire ToyWin.

Definition snowman : string := "naïve ☃ 😀".

Example open_retry_bounded_witness :
  wv_slept (view (open_clipboard_with_retry (busy 12)).2) = 1910.
Proof.
  pose proof (open_retry_bounded (busy 12) _ (Err clipboard_busy) ltac:(split; reflexivity) eq_refl) as Hs.
  destruct Hs as (_ & _ & E & _). exact E.
Defined.

(** A computation whose outcome is known, with the state it leaves. *)
Lemma outcome {S E A} (m : st S E A) s r : (m s).1 = r → m s = (r, (m s).2).
Proof. intros <-. apply surjective_pairing. Qed.

Example windows_set_accounted_witness :
  ∃ h, wv_owned (view (ls_world (wb_listener (windows_set_content (Text snowman) (backend (busy 12))).2)))
    = {[h]} ∪ ∅.
Proof.
  assert ((windows_set_content (Text snowman) (backend (busy 12))).1 = Err clipboard_busy) as E
    by (vm_compute; reflexivity).
  destruct (windows_set_accounted (Text snowman) (backend (busy 12)) _ _ ltac:(split; reflexivity)
    (outcome _ _ _ E)) as (_ & _ & Hr).
  rewrite decide_True in Hr by reflexivity. destruct Hr as (h & _ & Hh). exists h. exact Hh.
Defined.

Definition written : WindowsClipboardBackend t := (windows_set_content (Text snowman) (backend start)).2.

Lemma written_ok : windows_set_content (Text snowman) (backend start) = (Ok tt, written).
Proof. apply outcome. vm_compute. reflexivity. Qed.

Example windows_roundtrip_witness :
  ∃ c', (windows_get_content written).1 = Ok (Some c') ∧ c' = Text snowman.
Proof.
  assert ((windows_get_content written).1 = Ok (Some (Text snowman))) as E by (vm_compute; reflexivity).
  exists (Text snowman). split; [exact E|].
  apply (windows_roundtrip (Text snowman) (Text snowman) snowman (backend start) written
    (windows_get_content written).2); [split; reflexivity|reflexivity|vm_compute; reflexivity
    |exact written_ok|apply (outcome _ _ _ E)|vm_compute; reflexivity|vm_compute; reflexivity].
Defined.

Example listener_releases_witness :
  wv_windows (view (ls_world (run_clipboard_listener_loop [true; true; true] (wb_listener written)).2)) = ∅.
Proof.
  pose proof (listener_releases [true; true; true] (wb_listener written)) as Hl.
  assert ((run_clipboard_listener_loop [true; true; true] (wb_listener written)).1 = true) as Ex
    by (vm_compute; reflexivity).
  destruct (run_clipboard_listener_loop [true; true; true] (wb_listener written)) as [ex l'].
  simpl in Ex. subst ex.
  destruct Hl as (_ & _ & _ & _ & Hw & _); [split; vm_compute; reflexivity|vm_compute; reflexivity..|].
  cbn [snd]. rewrite Hw. vm_compute. reflexivity.
Defined.

Definition win_engine : ClipboardSyncEngine (WindowsClipboardBackend t) :=
  ClipboardSyncEngine_new node_b (backend start) ClipboardPolicy_default.
Definition html_entry : ClipboardEntry := ClipboardEntry_new node_a 1 (Html "<b>hi</b>" None) false 1000.
Definition html_frame : DataFrame :=
  match clipboard_to_data_frame (Sync html_entry) with Ok f => f | Err _ => DataFrame_new 0 [] end.

Lemma html_frame_ok : clipboard_from_data_frame html_frame = Ok (Sync html_entry).
Proof.
  destruct (from_to_clipboard (Sync html_entry)) as (f & Ef & Df); [repeat split; vm_compute; congruence|].
  unfold html_frame. by rewrite Ef.
Qed.

Definition html_engine : ClipboardSyncEngine (WindowsClipboardBackend t) :=
  (handle_incoming_frame html_frame win_engine).2.

Lemma html_applied :
  ∃ o s h fm, handle_incoming_frame html_frame win_engine = (Ok (Some (RemoteApplied o s h fm)), html_engine).
Proof.
  pose proof (incoming_sync html_frame html_entry win_engine html_frame_ok
    nodes_differ (entry_new_integrity _ _ _ _ _) eq_refl) as Hin.
  unfold html_engine. destruct (record_received _ _ _ _) as [fresh g] eqn:Er.
  assert (fresh = true) as ->.
  { change fresh with (fresh, g).1. rewrite <-Er. unfold record_received, should_suppress. vm_compute. reflexivity. }
  destruct (set_content (ce_content html_entry) (en_backend win_engine)) as [r b] eqn:Es.
  assert (r = Ok tt) as ->.
  { change r with (r, b).1. rewrite <-Es. vm_compute. reflexivity. }
  rewrite Hin. by eexists _, _, _, _.
Qed.

Example windows_echo_witness :
  ∃ f', (monitor [Text "<b>hi</b>"] 2000
    (with_backend {| wb_listener := on_clipboard_update (wb_listener (en_backend html_engine)) |} html_engine)).1 = [f'].
Proof.
  destruct html_applied as (o & s & h & fm & E).
  destruct (windows_echo html_frame html_entry win_engine html_engine o s h fm "<b>hi</b>" (Text "<b>hi</b>") 2000)
    as [_ Hs]; [apply guard_inv_new|split; reflexivity|exact html_frame_ok|reflexivity|vm_compute; reflexivity
    |vm_compute; reflexivity|exact E|vm_compute; reflexivity|vm_compute; reflexivity|].
  cbn [html_entry ce_content ClipboardEntry_new] in Hs.
  destruct Hs as (f' & Hf & _); [vm_compute; reflexivity|repeat split; vm_compute; congruence|].
  exists f'. exact Hf.
Defined.
End Witnesses.
