(* ===== verification/Session.v ===== *)
(** * Session: [crates/bridge-session]

    A peer session: the handshake of both sides, the trust gate in front of the
    application channels, and the pairing ceremony over the connection.
    [ActiveSession] has the session's own fields; what it holds by reference (the
    framed stream, the trust store, the clipboard engine) and the file system are
    the [World] the operations pass along.  Nonces, clock readings and the user's
    answer to a SAS are arguments, so every statement holds for all of them. *)
From S2P Require Import Prelude Text External Codec Core Protocol Transport Fs Keys Trust Pairing TransferMsg Transfer Clipboard.

(** ** [error.rs] *)

Inductive SessionError :=
| STransport (msg : string)
| SProtocol (msg : string)
| SIdentity (e : IdentityError)
| SCore (e : BridgeError)
| SClipboard (e : ClipboardError)
| SAuthenticationFailed (msg : string)
| SKeyMismatch (node_id expected actual : string)
| SPeerRevoked (id : string)
| SPeerUntrusted (id : string)
| SPairingRejected
| SSasMismatch
| SChannelBlocked (channel : u16) (state : string)
| SClosed (msg : string)
| STimeout (msg : string).

(** ** [state.rs] *)

Inductive SessionState :=
| Handshaking | AuthenticatedUntrusted | SPairing | STrusted | Terminated (reason : string).
#[global] Instance SessionState_eq_dec : EqDecision SessionState.
Proof. solve_decision. Defined.

Definition state_is_trusted (s : SessionState) : bool :=
  match s with STrusted => true | _ => false end.
Definition can_use_application_channels (s : SessionState) : bool :=
  match s with STrusted => true | _ => false end.
Definition state_label (s : SessionState) : string :=
  match s with
  | Handshaking => "Handshaking" | AuthenticatedUntrusted => "Authenticated (Untrusted)"
  | SPairing => "Pairing" | STrusted => "Trusted" | Terminated _ => "Terminated"
  end.

(** ** [pairing_flow.rs] *)

Inductive PairingMessage :=
| Request (r : PairingRequest)
| Response (r : PairingResponse)
| Confirm (c : PairingConfirm)
| Failed (reason : string).

Section PairingMessages.
Context `{Postcard PairingMessage}.

Definition pairing_to_data_frame (self : PairingMessage) : result SessionError DataFrame :=
  payload ← map_err (λ e, SProtocol ("Failed to encode PairingMessage: " +:+ e)) (to_allocvec self);
  Ok (DataFrame_new CHANNEL_PAIRING payload).

Definition pairing_from_data_frame (frame : DataFrame) : result SessionError PairingMessage :=
  if decide (df_channel frame ≠ CHANNEL_PAIRING) then
    Err (SProtocol ("Expected channel " +:+ dec CHANNEL_PAIRING +:+ ", got " +:+ dec (df_channel frame)))
  else map_err (λ e, SProtocol ("Failed to decode PairingMessage: " +:+ e)) (from_bytes (df_payload frame)).
End PairingMessages.

(** The answer of [AutoConfirm], and of the console prompt to the line it reads
    ([None]: reading failed). *)
Definition AutoConfirm (val : bool) : SasVerification → string → bool := λ _ _, val.
Definition InteractiveCliConfirm `{Lowercase} (input : option string) : SasVerification → string → bool := λ _ _,
  match input with
  | Some line => let trimmed := to_lowercase (trim line) in
                 bool_decide (trimmed = "y" ∨ trimmed = "yes")
  | None => false
  end.

(** [{:?}] of a value in an error text. *)
Class Debug (A : Type) := debug : A → string.
Definition DisconnectReason_debug (r : DisconnectReason) : string :=
  match r with
  | Graceful => "Graceful" | ProtocolErrorReason => "ProtocolError"
  | AuthenticationFailedReason => "AuthenticationFailed" | TimeoutReason => "Timeout"
  end.

(** ** [session.rs] *)

Section Session.
Context `{Ed25519, Sha256, Blake3, Hex}.
Context `{Postcard Frame, Postcard PairingMessage, Postcard TransferMessage, Postcard ClipboardMessage}.
Context `{Debug Frame, Debug PairingMessage, ClipboardBackend B}.

Record World := {
  w_io : Io; w_store : TrustStore; w_clip : option (ClipboardSyncEngine B); w_fs : Fs }.
Definition set_io (x : Io) (w : World) : World :=
  {| w_io := x; w_store := w_store w; w_clip := w_clip w; w_fs := w_fs w |}.
Definition set_store (x : TrustStore) (w : World) : World :=
  {| w_io := w_io w; w_store := x; w_clip := w_clip w; w_fs := w_fs w |}.
Definition set_clip (x : option (ClipboardSyncEngine B)) (w : World) : World :=
  {| w_io := w_io w; w_store := w_store w; w_clip := x; w_fs := w_fs w |}.
Definition set_fs (x : Fs) (w : World) : World :=
  {| w_io := w_io w; w_store := w_store w; w_clip := w_clip w; w_fs := x |}.

Record ActiveSession := {
  local_identity : IdentityKey; local_name : string; local_device_type : DeviceType;
  remote_node_id : NodeId; remote_pubkey : PublicKey; remote_name : string;
  remote_device_type : DeviceType; state : SessionState; receive_dir : option string }.
Definition with_session_state (s : SessionState) (a : ActiveSession) : ActiveSession := {|
  local_identity := local_identity a; local_name := local_name a;
  local_device_type := local_device_type a; remote_node_id := remote_node_id a;
  remote_pubkey := remote_pubkey a; remote_name := remote_name a;
  remote_device_type := remote_device_type a; state := s; receive_dir := receive_dir a |}.

(** Calls on a part of the world, with the source's [map_err]. *)
Definition on_io {A} (m : st Io BridgeError A) : st World SessionError A :=
  st_map_err (λ e, STransport (BridgeError_to_string e)) (zoom w_io set_io m).
Definition on_store {A} (m : st TrustStore IdentityError A) : st World IdentityError A :=
  zoom w_store set_store m.

(** [framed.recv_frame()...ok_or_else(Closed)?]. *)
Definition recv_or_closed (msg : string) : st World SessionError Frame :=
  o ← on_io recv_frame;
  match o with Some f => mret f | None => fail (SClosed msg) end.

(** Consulting the trust store once the peer's key is known (step 7 of the server,
    step 6 of the client). *)
Definition consult_trust (node_id : NodeId) (pubkey : PublicKey) (now : u64) :
    st World SessionError SessionState :=
  r ← try (on_store (is_trusted node_id pubkey));
  match r with
  | Ok true =>
    _ ← ignore (on_store (update_last_seen node_id now));
    mret STrusted
  | Ok false => mret AuthenticatedUntrusted
  | Err (KeyMismatch n expected presented) =>
    _ ← ignore (on_io (send_frame (Control (Disconnect AuthenticationFailedReason))));
    fail (SKeyMismatch (NodeId_to_string n) expected presented)
  | Err (PeerRevoked id) =>
    _ ← ignore (on_io (send_frame (Control (Disconnect AuthenticationFailedReason))));
    fail (SPeerRevoked (NodeId_to_string id))
  | Err e => fail (SIdentity e)
  end.

Definition server_handshake (local_identity : IdentityKey) (local_name : string)
    (local_device_type : DeviceType) (receive_dir : option string)
    (server_nonce : array 32) (now : u64) : st World SessionError ActiveSession :=
  hello_frame ← recv_or_closed "Peer disconnected before ClientHello";
  match hello_frame with
  | Handshake (HClientHello client_hello) =>
    let remote_node_id := ch_node_id client_hello in
    let remote_name := ch_device_name client_hello in
    remote_pubkey ← lift (map_err
      (λ e, SAuthenticationFailed ("Invalid Ed25519 public key: " +:+ BridgeError_to_string e))
      (PublicKey_from_bytes (node_bytes remote_node_id)));
    let server_hello := {|
      sh_agreed_version := ProtocolVersion_CURRENT; sh_node_id := IdentityKey_node_id local_identity;
      sh_device_name := local_name; sh_server_nonce := server_nonce;
      sh_negotiated_capabilities := caps_intersect (ch_capabilities client_hello) Capabilities_all |} in
    _ ← on_io (send_frame (Handshake (HServerHello server_hello)));
    auth_frame ← recv_or_closed "Peer disconnected before AuthResponse";
    match auth_frame with
    | Handshake (HAuthResponse auth_resp) =>
      match verify_handshake_challenge remote_pubkey (ch_client_nonce client_hello) server_nonce
              (ar_signature auth_resp) with
      | Err e =>
        _ ← ignore (on_io (send_frame (Handshake (HAuthResult (AuthResult_failed
              ("Cryptographic challenge failed: " +:+ BridgeError_to_string e))))));
        fail (SAuthenticationFailed ("Signature verification failed for peer " +:+ remote_name +:+ " ("
                +:+ NodeId_to_string remote_node_id +:+ "): " +:+ BridgeError_to_string e))
      | Ok _ =>
        _ ← on_io (send_frame (Handshake (HAuthResult AuthResult_ok)));
        initial_state ← consult_trust remote_node_id remote_pubkey now;
        mret {| local_identity := local_identity; local_name := local_name;
                local_device_type := local_device_type; remote_node_id := remote_node_id;
                remote_pubkey := remote_pubkey; remote_name := remote_name;
                remote_device_type := UnknownDevice; state := initial_state;
                receive_dir := receive_dir |}
      end
    | other => fail (SProtocol ("Expected AuthResponse, got " +:+ debug other))
    end
  | other => fail (SProtocol ("Expected ClientHello, got " +:+ debug other))
  end.

Definition client_handshake (local_identity : IdentityKey) (local_name : string)
    (receive_dir : option string) (client_nonce : array 32) (now : u64) :
    st World SessionError ActiveSession :=
  let client_hello := {|
    ch_version := ProtocolVersion_CURRENT; ch_node_id := IdentityKey_node_id local_identity;
    ch_device_name := local_name; ch_client_nonce := client_nonce;
    ch_capabilities := Capabilities_all |} in
  _ ← on_io (send_frame (Handshake (HClientHello client_hello)));
  hello_frame ← recv_or_closed "Server disconnected before ServerHello";
  match hello_frame with
  | Handshake (HServerHello server_hello) =>
    let remote_node_id := sh_node_id server_hello in
    let remote_name := sh_device_name server_hello in
    remote_pubkey ← lift (map_err
      (λ e, SAuthenticationFailed ("Invalid Ed25519 public key: " +:+ BridgeError_to_string e))
      (PublicKey_from_bytes (node_bytes remote_node_id)));
    let signature := sign_handshake_challenge local_identity client_nonce (sh_server_nonce server_hello) in
    _ ← on_io (send_frame (Handshake (HAuthResponse {| ar_signature := signature |})));
    result_frame ← recv_or_closed "Server disconnected before AuthResult";
    match result_frame with
    | Handshake (HAuthResult auth_result) =>
      if negb (au_success auth_result) then
        fail (SAuthenticationFailed (default "Unknown error" (au_reason auth_result)))
      else
        initial_state ← consult_trust remote_node_id remote_pubkey now;
        mret {| local_identity := local_identity; local_name := local_name;
                local_device_type := UnknownDevice; remote_node_id := remote_node_id;
                remote_pubkey := remote_pubkey; remote_name := remote_name;
                remote_device_type := UnknownDevice; state := initial_state;
                receive_dir := receive_dir |}
    | other => fail (SProtocol ("Expected AuthResult, got " +:+ debug other))
    end
  | other => fail (SProtocol ("Expected ServerHello, got " +:+ debug other))
  end.

(** [recv_data_frame]: every frame received consumes its header, so the loop runs
    at most once per byte that is left. *)
Fixpoint recv_data_loop (fuel : nat) (expected_channel : u16) : st World SessionError DataFrame :=
  match fuel with
  | O => fail (STimeout "unreachable")
  | S fuel' =>
    frame_opt ← on_io recv_frame;
    match frame_opt with
    | None => fail (SClosed "Peer disconnected while awaiting data frame")
    | Some (Data df) =>
      if decide (df_channel df = expected_channel) then mret df
      else recv_data_loop fuel' expected_channel
    | Some (Control (Ping nonce)) =>
      _ ← ignore (on_io (send_frame (Control (Pong nonce))));
      recv_data_loop fuel' expected_channel
    | Some (Control (Disconnect reason)) =>
      fail (SClosed ("Peer disconnected: " +:+ DisconnectReason_debug reason))
    | Some _ => recv_data_loop fuel' expected_channel
    end
  end.
Definition recv_data_frame (expected_channel : u16) : st World SessionError DataFrame := λ w,
  recv_data_loop (S (length (rx (w_io w)))) expected_channel w.

Definition handle_file_transfer_frame (payload : list byte) (receive_dir : string) :
    st World SessionError unit :=
  msg ← lift (map_err (λ e, SProtocol ("Transfer payload error: " +:+ TransferError_to_string e))
                (TransferMessage_from_bytes payload));
  match msg with
  | Offer manifest =>
    receiver ← st_map_err (λ e, SProtocol (TransferError_to_string e))
                 (zoom w_fs set_fs (to_dir receive_dir manifest));
    let accept := Accept (fm_file_id (fr_manifest receiver)) (next_expected_chunk receiver) in
    accept_bytes ← lift (map_err (λ e, SProtocol (TransferError_to_string e))
                           (TransferMessage_to_bytes accept));
    on_io (send_frame (Data (DataFrame_new CHANNEL_FILE_TRANSFER accept_bytes)))
  | _ => mret tt
  end.

(** A session's operations work on its fields and the world. *)
Definition on_world {A} (m : st World SessionError A) : st (ActiveSession * World) SessionError A :=
  zoom snd (λ w sw, (sw.1, w)) m.
Definition set_state (s : SessionState) : st (ActiveSession * World) SessionError unit :=
  modify (λ sw, (with_session_state s sw.1, sw.2)).
Definition self : st (ActiveSession * World) SessionError ActiveSession := gets fst.

Definition process_next_frame : st (ActiveSession * World) SessionError bool :=
  frame_opt ← on_world (on_io recv_frame);
  match frame_opt with
  | None => mret false
  | Some (Control (Ping nonce)) =>
    _ ← on_world (on_io (send_frame (Control (Pong nonce))));
    mret true
  | Some (Control (Pong _)) => mret true
  | Some (Control (Disconnect reason)) =>
    _ ← set_state (Terminated ("Disconnected: " +:+ DisconnectReason_debug reason));
    mret false
  | Some (Data data_frame) =>
    this ← self;
    if decide (df_channel data_frame = CHANNEL_PAIRING) then mret true
    else if decide (df_channel data_frame = CHANNEL_CLIPBOARD) then
      if negb (state_is_trusted (state this)) then mret true
      else
        _ ← on_world (modify (λ w,
              match w_clip w with
              | Some engine => set_clip (Some (handle_incoming_frame data_frame engine).2) w
              | None => w
              end));
        mret true
    else if decide (df_channel data_frame = CHANNEL_FILE_TRANSFER) then
      if negb (state_is_trusted (state this)) then mret true
      else
        match receive_dir this with
        | Some rdir => _ ← on_world (handle_file_transfer_frame (df_payload data_frame) rdir); mret true
        | None => mret true
        end
    else mret true
  | Some (Handshake _) => mret true
  end.

(** Sending a pairing message, and waiting for one. *)
Definition send_pairing (msg : PairingMessage) : st World SessionError unit :=
  d ← lift (pairing_to_data_frame msg);
  on_io (send_frame (Data d)).
Definition recv_pairing : st World SessionError PairingMessage :=
  frame ← recv_data_frame CHANNEL_PAIRING;
  lift (pairing_from_data_frame frame).

(** The user said no: tell the peer, fall back to untrusted. *)
Definition reject_pairing : st (ActiveSession * World) SessionError SasVerification :=
  d ← lift (pairing_to_data_frame (Failed "Local user rejected pairing"));
  _ ← ignore (on_world (on_io (send_frame (Data d))));
  _ ← set_state AuthenticatedUntrusted;
  fail SPairingRejected.

(** From the user's yes to the stored peer: the last four steps of both roles. *)
Definition conclude_pairing (session : PairingSession) (sas : SasVerification) :
    st (ActiveSession * World) SessionError SasVerification :=
  my_confirm ← lift (map_err SIdentity (confirm session));
  _ ← on_world (send_pairing (Confirm my_confirm));
  peer_confirm_msg ← on_world recv_pairing;
  match peer_confirm_msg with
  | Confirm peer_confirm =>
    trusted_peer ← lift (map_err SIdentity (finalize peer_confirm session).1);
    _ ← on_world (st_map_err SIdentity (on_store (save_peer trusted_peer)));
    _ ← set_state STrusted;
    mret sas
  | Failed reason => fail (SClosed ("Pairing rejected by peer: " +:+ reason))
  | other => fail (SProtocol ("Expected PairingConfirm, got " +:+ debug other))
  end.

Definition execute_pairing (is_initiator : bool) (confirmer : SasVerification → string → bool)
    (nonce : array 32) (now now' : u64) : st (ActiveSession * World) SessionError SasVerification :=
  _ ← set_state SPairing;
  this ← self;
  if is_initiator then
    let '(session, req) := new_initiator (local_identity this) (local_name this)
                             (local_device_type this) nonce now in
    _ ← on_world (send_pairing (Request req));
    resp_msg ← on_world recv_pairing;
    match resp_msg with
    | Response resp =>
      let '(r, session) := initiator_receive_response resp now' session in
      sas ← lift (map_err SIdentity r);
      if negb (confirmer sas (remote_name this)) then reject_pairing
      else conclude_pairing session sas
    | Failed reason => fail (SClosed ("Pairing rejected by peer: " +:+ reason))
    | other => fail (SProtocol ("Expected PairingResponse, got " +:+ debug other))
    end
  else
    req_msg ← on_world recv_pairing;
    match req_msg with
    | Request req =>
      '(session, resp, sas) ← lift (map_err SIdentity
         (new_responder (local_identity this) (local_name this) (local_device_type this) req nonce now));
      _ ← on_world (send_pairing (Response resp));
      if negb (confirmer sas (remote_name this)) then reject_pairing
      else conclude_pairing session sas
    | other => fail (SProtocol ("Expected PairingRequest, got " +:+ debug other))
    end.
End Session.
Arguments World B : clear implicits.

(** ** The Postcard format of the pairing messages *)

#[global] Instance PairingRequest_valid : Valid PairingRequest := λ r,
  valid_str (rq_device_name r) ∧ in_width 64 (rq_timestamp r).
#[global] Instance PairingResponse_valid : Valid PairingResponse := λ r,
  valid_str (rp_device_name r) ∧ in_width 64 (rp_timestamp r).
#[global] Instance PairingConfirm_valid : Valid PairingConfirm := λ c, zlen (pc_signature c) < 2 ^ 64.
#[global] Instance PairingMessage_valid : Valid PairingMessage := λ m,
  match m with
  | Request r => valid r | Response r => valid r | Confirm c => valid c | Failed s => valid_str s
  end.

Definition c_request : codec PairingRequest :=
  c_iso (λ '(n, (k, (d, (t, (x, s))))), Build_PairingRequest n k d t x s)
    (λ r, (rq_node_id r, (rq_public_key r, (rq_device_name r, (rq_device_type r, (rq_nonce r, rq_timestamp r))))))
    (c_pair c_node_id (c_pair (c_raw 32) (c_pair c_string (c_pair c_device (c_pair (c_raw 32) (varint 64)))))).
Definition c_response : codec PairingResponse :=
  c_iso (λ '(n, (k, (d, (t, (x, s))))), Build_PairingResponse n k d t x s)
    (λ r, (rp_node_id r, (rp_public_key r, (rp_device_name r, (rp_device_type r, (rp_nonce r, rp_timestamp r))))))
    (c_pair c_node_id (c_pair (c_raw 32) (c_pair c_string (c_pair c_device (c_pair (c_raw 32) (varint 64)))))).
Definition c_confirm : codec PairingConfirm :=
  c_iso (λ '(n, (b, s)), Build_PairingConfirm n b s) (λ c, (pc_node_id c, (pc_confirmed c, pc_signature c)))
    (c_pair c_node_id (c_pair c_bool c_bytes)).
Definition c_pairing : codec PairingMessage :=
  c_iso (λ x, match x with inl r => Request r | inr (inl r) => Response r
              | inr (inr (inl c)) => Confirm c | inr (inr (inr s)) => Failed s end)
    (λ m, match m with Request r => inl r | Response r => inr (inl r)
          | Confirm c => inr (inr (inl c)) | Failed s => inr (inr (inr s)) end)
    (c_alt 0 c_request (c_alt 1 c_response (c_alt 2 c_confirm (c_last 3 c_string)))).

Lemma c_request_ok : codec_ok c_request valid.
Proof.
  eapply c_iso_ok; [codec_solve; eauto with bridge|by intros []|by intros ? (?&?)|].
  by intros (?&?&?&?&?&?) (?&?&?&?&?&?).
Qed.
Lemma c_response_ok : codec_ok c_response valid.
Proof.
  eapply c_iso_ok; [codec_solve; eauto with bridge|by intros []|by intros ? (?&?)|].
  by intros (?&?&?&?&?&?) (?&?&?&?&?&?).
Qed.
Lemma c_confirm_ok : codec_ok c_confirm valid.
Proof.
  eapply c_iso_ok; [codec_solve; eauto with bridge|by intros []|done|by intros (?&?&?) (?&?&?)].
Qed.
#[export] Hint Resolve c_request_ok c_response_ok c_confirm_ok : bridge.
Lemma c_pairing_ok : codec_ok c_pairing valid.
Proof.
  eapply c_iso_ok; [codec_solve; eauto with bridge|by intros []|by intros []|].
  by intros [?|[?|[?|?]]].
Qed.

Module PairingWire.
#[export] Instance pairing_postcard : Postcard PairingMessage := codec_postcard c_pairing.
#[export] Instance pairing_laws : PostcardLaws PairingMessage := codec_postcard_laws _ c_pairing_ok.
End PairingWire.

(** ** Lemmas *)

Section SessionLemmas.
Context `{Ed25519, Sha256, Blake3, Hex}.
Context `{Postcard Frame, Postcard PairingMessage, Postcard TransferMessage, Postcard ClipboardMessage}.
Context `{Debug Frame, Debug PairingMessage, ClipboardBackend B}.

(** Only the stream moves. *)
Definition io_only (w w' : World B) : Prop :=
  w_store w' = w_store w ∧ w_clip w' = w_clip w ∧ w_fs w' = w_fs w.
#[global] Instance io_only_refl : Reflexive io_only.
Proof. by intros w. Qed.
#[global] Instance io_only_trans : Transitive io_only.
Proof. intros w1 w2 w3 (?&?&?) (?&?&?). unfold io_only. split_and!; congruence. Qed.

Lemma on_io_only {A} (m : st Io BridgeError A) (w : World B) : io_only w (on_io m w).2.
Proof. unfold on_io, st_map_err, zoom. by destruct (m (w_io w)) as [r io]. Qed.

Lemma on_io_inv {A} (m : st Io BridgeError A) (w w' : World B) a :
  on_io m w = (Ok a, w') → m (w_io w) = (Ok a, w_io w') ∧ w' = set_io (w_io w') w.
Proof.
  unfold on_io, st_map_err, zoom. destruct (m (w_io w)) as [[x|e] io]; intros; by simplify_eq/=.
Qed.

Lemma on_io_ok {A} (m : st Io BridgeError A) (w : World B) a io :
  m (w_io w) = (Ok a, io) → on_io m w = (Ok a, set_io io w).
Proof. intros E. unfold on_io, st_map_err, zoom. by rewrite E. Qed.

Lemma recv_or_closed_inv msg (w w' : World B) f :
  recv_or_closed msg w = (Ok f, w') →
  recv_frame (w_io w) = (Ok (Some f), w_io w') ∧ w' = set_io (w_io w') w.
Proof.
  unfold recv_or_closed. intros (o & w1 & [E1 E2]%on_io_inv & E)%st_bind_Ok_inv.
  destruct o as [f'|]; unfold mret, st_ret, fail in E; simplify_eq. done.
Qed.

Lemma recv_or_closed_ok msg (w : World B) f io :
  recv_frame (w_io w) = (Ok (Some f), io) → recv_or_closed msg w = (Ok f, set_io io w).
Proof. intros E. unfold recv_or_closed. by rewrite (st_bind_ok _ _ _ _ _ (on_io_ok _ _ _ _ E)). Qed.

(** What consulting the trust store decides. *)
Lemma consult_trust_ok n k now (w w' : World B) s :
  consult_trust n k now w = (Ok s, w') →
  (s = STrusted ∧ (is_trusted n k (w_store w)).1 = Ok true)
  ∨ (s = AuthenticatedUntrusted ∧ (is_trusted n k (w_store w)).1 = Ok false).
Proof.
  unfold consult_trust, mbind, st_bind, try, on_store, zoom.
  destruct (is_trusted n k (w_store w)) as [[[]|e] st'] eqn:E; simpl.
  - unfold ignore, mret, st_ret. intros. simplify_eq. auto.
  - unfold mret, st_ret. intros. simplify_eq. auto.
  - destruct e; unfold ignore, fail; simpl; intros; simplify_eq.
Qed.

Lemma consult_trust_trusted n k now (w : World B) :
  (is_trusted n k (w_store w)).1 = Ok true →
  ∃ w', consult_trust n k now w = (Ok STrusted, w') ∧ w_io w' = w_io w
    ∧ w_clip w' = w_clip w ∧ w_fs w' = w_fs w.
Proof.
  unfold consult_trust, mbind, st_bind, try, on_store, zoom.
  destruct (is_trusted n k (w_store w)) as [r st'] eqn:E. simpl. intros ->.
  unfold ignore, zoom. destruct (update_last_seen _ _ _) as [r2 st2].
  eexists. split; [reflexivity|done].
Qed.

Lemma consult_trust_untrusted n k now (w : World B) :
  (is_trusted n k (w_store w)).1 = Ok false →
  ∃ w', consult_trust n k now w = (Ok AuthenticatedUntrusted, w') ∧ w_io w' = w_io w
    ∧ w_clip w' = w_clip w ∧ w_fs w' = w_fs w.
Proof.
  unfold consult_trust, mbind, st_bind, try, on_store, zoom.
  destruct (is_trusted n k (w_store w)) as [r st'] eqn:E. simpl. intros ->.
  eexists. split; [reflexivity|done].
Qed.

(** Waiting for a data frame touches the stream only, and never runs out of fuel. *)
Lemma recv_data_loop_only fuel ch (w : World B) : io_only w (recv_data_loop fuel ch w).2.
Proof.
  revert w. induction fuel as [|fuel IH]; intros w; [done|]. cbn [recv_data_loop].
  apply st_bind_rel; [apply _|apply on_io_only|]. intros [f|] w1 _; [|done].
  destruct f as [h|[n|n|r]|d]; try done; try apply IH.
  - apply st_bind_rel; [apply _| |intros; apply IH]. unfold ignore. apply on_io_only.
  - case_decide; [done|apply IH].
Qed.

Lemma ignore_send_rx f (w : World B) :
  ∃ w1, ignore (F := SessionError) (on_io (send_frame f)) w = (Ok tt, w1)
    ∧ rx (w_io w1) = rx (w_io w).
Proof.
  unfold ignore, on_io, st_map_err, zoom. eexists. split; [reflexivity|].
  unfold send_frame, mbind, st_bind, lift, st_map_err.
  destruct (encode_frame f) as [bs|]; [|done]. unfold write_all.
  destruct (tx_room (w_io w)) as [n|]; [case_decide|]; simpl; by try destruct (flush_err (w_io w)).
Qed.

Lemma recv_data_loop_fuel fuel fuel' ch (w : World B) :
  (length (rx (w_io w)) < fuel)%nat → (length (rx (w_io w)) < fuel')%nat →
  recv_data_loop fuel ch w = recv_data_loop fuel' ch w.
Proof.
  revert fuel' w. induction fuel as [|fuel IH]; intros [|fuel'] w Hf Hf'; try lia. cbn [recv_data_loop].
  destruct (on_io recv_frame w) as [[o|e] w1] eqn:E; cycle 1.
  { by rewrite !(st_bind_err _ _ _ _ _ E). }
  rewrite !(st_bind_ok _ _ _ _ _ E). apply on_io_inv in E as [E _].
  destruct o as [f|]; [|done]. apply recv_frame_shrinks in E as [Hs _].
  assert (recv_data_loop fuel ch w1 = recv_data_loop fuel' ch w1) as Hw1 by (apply IH; lia).
  destruct f as [h|[n|n|r]|d]; try done; [|by case_decide].
  destruct (ignore_send_rx (Control (Pong n)) w1) as (w2 & Es & Hrx).
  rewrite !(st_bind_ok _ _ _ _ _ Es). apply IH; rewrite Hrx; lia.
Qed.

(** A working connection with [r] to read and [t] written. *)
Definition conn (r t : list byte) : Io :=
  {| rx := r; rx_end := None; tx := t; tx_room := None; flush_err := None |}.

Lemma recv_conn `{!PostcardLaws Frame} f bs k t msg (w : World B) :
  valid f → encode_frame f = Ok bs → w_io w = conn (bs ++ k) t →
  recv_or_closed msg w = (Ok f, set_io (conn k t) w).
Proof.
  intros Hv E Hw. apply recv_or_closed_ok.
  rewrite (recv_frame_sent (w_io w) f bs k Hv E); rewrite Hw; done.
Qed.

Lemma send_conn f bs r t (w : World B) :
  encode_frame f = Ok bs → w_io w = conn r t →
  on_io (send_frame f) w = (Ok tt, set_io (conn r (t ++ bs)) w).
Proof.
  intros E Hw. apply on_io_ok. rewrite Hw. by rewrite (send_frame_ok _ f bs E).
Qed.

Definition state_of (trusted : bool) : SessionState :=
  if trusted then STrusted else AuthenticatedUntrusted.

Lemma consult_trust_state n k now (w : World B) b :
  (is_trusted n k (w_store w)).1 = Ok b →
  ∃ w', consult_trust n k now w = (Ok (state_of b), w') ∧ w_io w' = w_io w.
Proof.
  destruct b; intros Hs.
  - destruct (consult_trust_trusted n k now w Hs) as (w' & ? & ? & _). eauto.
  - destruct (consult_trust_untrusted n k now w Hs) as (w' & ? & ? & _). eauto.
Qed.

(** The client's side of a handshake, against any server that sends a hello and a
    positive result: only the server's claims enter. *)
Definition hello_of_client (k : IdentityKey) (name : string) (nonce : array 32) : ClientHello := {|
  ch_version := ProtocolVersion_CURRENT; ch_node_id := IdentityKey_node_id k;
  ch_device_name := name; ch_client_nonce := nonce; ch_capabilities := Capabilities_all |}.

Lemma client_handshake_run `{!PostcardLaws Frame} k name dir cn now (w : World B)
    (sh : ServerHello) pk trusted b1 b2 b3 b4 :
  valid (Handshake (HServerHello sh)) → valid (Handshake (HAuthResult AuthResult_ok)) →
  encode_frame (Handshake (HClientHello (hello_of_client k name cn))) = Ok b1 →
  encode_frame (Handshake (HServerHello sh)) = Ok b2 →
  encode_frame (Handshake (HAuthResponse
    {| ar_signature := sign_handshake_challenge k cn (sh_server_nonce sh) |})) = Ok b3 →
  encode_frame (Handshake (HAuthResult AuthResult_ok)) = Ok b4 →
  w_io w = conn (b2 ++ b4) [] →
  PublicKey_from_bytes (node_bytes (sh_node_id sh)) = Ok pk →
  (is_trusted (sh_node_id sh) pk (w_store w)).1 = Ok trusted →
  ∃ s w', client_handshake k name dir cn now w = (Ok s, w')
    ∧ w_io w' = conn [] (b1 ++ b3)
    ∧ remote_node_id s = sh_node_id sh ∧ remote_pubkey s = pk ∧ state s = state_of trusted.
Proof.
  intros Hv2 Hv4 E1 E2 E3 E4 Hw Hpk Ht. rewrite <-(app_nil_r b4) in Hw. unfold client_handshake.
  erewrite st_bind_ok; [|eapply send_conn; [exact E1|exact Hw]].
  erewrite st_bind_ok; [|eapply recv_conn; [exact Hv2|exact E2|reflexivity]].
  cbv beta iota zeta. rewrite Hpk. unfold map_err, lift.
  erewrite st_bind_ok; [|reflexivity].
  erewrite st_bind_ok; [|eapply send_conn; [exact E3|reflexivity]].
  erewrite st_bind_ok; [|eapply recv_conn; [exact Hv4|exact E4|reflexivity]].
  cbn [negb au_success AuthResult_ok].
  match goal with |- context [mbind _ (consult_trust ?n ?p ?t) ?w0] =>
    destruct (consult_trust_state n p t w0 trusted Ht) as (w' & Ec & Hio) end.
  eexists _, w'. rewrite (st_bind_ok _ _ _ _ _ Ec). split; [reflexivity|]. split; [by rewrite Hio|done].
Qed.

(** The server's side, against the honest client of key [kc], which may have sent
    more already. *)
Lemma server_handshake_serves `{!PostcardLaws Frame, !Ed25519Laws} ks ns ty dir sn now (w : World B)
    kc nc cn trusted b1 b2 b3 b4 k :
  let ch := hello_of_client kc nc cn in
  let sh := {| sh_agreed_version := ProtocolVersion_CURRENT; sh_node_id := IdentityKey_node_id ks;
    sh_device_name := ns; sh_server_nonce := sn;
    sh_negotiated_capabilities := caps_intersect Capabilities_all Capabilities_all |} in
  let ar := {| ar_signature := sign_handshake_challenge kc cn sn |} in
  valid (Handshake (HClientHello ch)) → valid (Handshake (HAuthResponse ar)) →
  encode_frame (Handshake (HClientHello ch)) = Ok b1 → encode_frame (Handshake (HServerHello sh)) = Ok b2 →
  encode_frame (Handshake (HAuthResponse ar)) = Ok b3 →
  encode_frame (Handshake (HAuthResult AuthResult_ok)) = Ok b4 →
  w_io w = conn (b1 ++ b3 ++ k) [] →
  (is_trusted (IdentityKey_node_id kc) (public_key kc) (w_store w)).1 = Ok trusted →
  ∃ s w', server_handshake ks ns ty dir sn now w = (Ok s, w')
    ∧ w_io w' = conn k (b2 ++ b4)
    ∧ remote_node_id s = IdentityKey_node_id kc ∧ remote_pubkey s = public_key kc
    ∧ state s = state_of trusted.
Proof.
  intros ch sh ar Hv1 Hv3 E1 E2 E3 E4 Hw Ht. unfold server_handshake.
  erewrite st_bind_ok; [|eapply recv_conn; [exact Hv1|exact E1|exact Hw]].
  cbv beta iota zeta. cbn [ch_node_id ch hello_of_client].
  change (node_bytes (IdentityKey_node_id kc)) with (PublicKey_to_bytes (public_key kc)).
  rewrite PublicKey_from_to_bytes. unfold map_err, lift.
  erewrite st_bind_ok; [|reflexivity].
  erewrite st_bind_ok; [|eapply send_conn; [exact E2|reflexivity]].
  erewrite st_bind_ok; [|eapply recv_conn; [exact Hv3|exact E3|reflexivity]].
  cbn [ch_client_nonce ar_signature ar ch hello_of_client].
  replace (verify_handshake_challenge _ _ _ _) with (Ok (E := BridgeError) tt) by (symmetry; apply verify_sign_ok).
  erewrite st_bind_ok; [|eapply send_conn; [exact E4|reflexivity]].
  match goal with |- context [mbind _ (consult_trust ?n ?p ?t) ?w0] =>
    destruct (consult_trust_state n p t w0 trusted Ht) as (w' & Ec & Hio) end.
  eexists _, w'. rewrite (st_bind_ok _ _ _ _ _ Ec). split; [reflexivity|]. split; [by rewrite Hio|done].
Qed.

Lemma server_handshake_run `{!PostcardLaws Frame, !Ed25519Laws} ks ns ty dir sn now (w : World B)
    kc nc cn trusted b1 b2 b3 b4 :
  let ch := hello_of_client kc nc cn in
  let sh := {| sh_agreed_version := ProtocolVersion_CURRENT; sh_node_id := IdentityKey_node_id ks;
    sh_device_name := ns; sh_server_nonce := sn;
    sh_negotiated_capabilities := caps_intersect Capabilities_all Capabilities_all |} in
  let ar := {| ar_signature := sign_handshake_challenge kc cn sn |} in
  valid (Handshake (HClientHello ch)) → valid (Handshake (HAuthResponse ar)) →
  encode_frame (Handshake (HClientHello ch)) = Ok b1 → encode_frame (Handshake (HServerHello sh)) = Ok b2 →
  encode_frame (Handshake (HAuthResponse ar)) = Ok b3 →
  encode_frame (Handshake (HAuthResult AuthResult_ok)) = Ok b4 →
  w_io w = conn (b1 ++ b3) [] →
  (is_trusted (IdentityKey_node_id kc) (public_key kc) (w_store w)).1 = Ok trusted →
  ∃ s w', server_handshake ks ns ty dir sn now w = (Ok s, w')
    ∧ w_io w' = conn [] (b2 ++ b4)
    ∧ remote_node_id s = IdentityKey_node_id kc ∧ remote_pubkey s = public_key kc
    ∧ state s = state_of trusted.
Proof.
  intros ch sh ar Hv1 Hv3 E1 E2 E3 E4 Hw Ht. eapply server_handshake_serves; try done. by rewrite app_nil_r.
Qed.

(** What a server-side handshake that succeeds has done. *)
Lemma server_handshake_inv k name ty dir sn now (w w' : World B) s :
  server_handshake k name ty dir sn now w = (Ok s, w') →
  ∃ h sig io1 io2 io3 io4,
    recv_frame (w_io w) = (Ok (Some (Handshake (HClientHello h))), io1)
    ∧ recv_frame io2 = (Ok (Some (Handshake (HAuthResponse {| ar_signature := sig |}))), io3)
    ∧ remote_node_id s = ch_node_id h
    ∧ PublicKey_from_bytes (node_bytes (remote_node_id s)) = Ok (remote_pubkey s)
    ∧ verify_handshake_challenge (remote_pubkey s) (ch_client_nonce h) sn sig = Ok tt
    ∧ consult_trust (remote_node_id s) (remote_pubkey s) now (set_io io4 w) = (Ok (state s), w').
Proof.
  unfold server_handshake. intros (hf & w1 & [R1 ->]%recv_or_closed_inv & E)%st_bind_Ok_inv.
  destruct hf as [[h| | |]| |]; try done.
  apply st_bind_Ok_inv in E as (pk & w2 & Hpk & E). unfold lift in Hpk. simplify_eq.
  destruct (PublicKey_from_bytes (node_bytes (ch_node_id h))) as [pk'|] eqn:Epk; simplify_eq/=.
  apply st_bind_Ok_inv in E as ([] & w3 & [_ ->]%on_io_inv & E).
  apply st_bind_Ok_inv in E as (af & w4 & [R2 ->]%recv_or_closed_inv & E).
  destruct af as [[| |[sig]|]| |]; try done. simpl in E.
  destruct (verify_handshake_challenge pk (ch_client_nonce h) sn sig) as [[]|e] eqn:Ev; cycle 1.
  { by apply st_bind_Ok_inv in E as (? & ? & _ & E). }
  apply st_bind_Ok_inv in E as ([] & w5 & [_ ->]%on_io_inv & E).
  apply st_bind_Ok_inv in E as (st0 & w6 & Hst & E). unfold mret, st_ret in E. simplify_eq. simpl.
  exists h, sig. eexists _, _, _, (w_io w5). split; [exact R1|]. split; [exact R2|].
  split; [done|]. split; [exact Epk|]. split; [done|exact Hst].
Qed.

(** Pairing steps before the peer is stored: only the stream and the state move. *)
Definition quiet (sw sw' : ActiveSession * World B) : Prop :=
  io_only sw.2 sw'.2 ∧ sw'.1 = with_session_state (state sw'.1) sw.1.
#[global] Instance quiet_trans : Transitive quiet.
Proof.
  intros [s1 w1] [s2 w2] [s3 w3] [Hw Hs] [Hw' Hs']. split; [by etrans|]. simpl in *. by rewrite Hs', Hs.
Qed.
#[global] Instance quiet_refl : Reflexive quiet.
Proof. intros [s w]. split; [done|]. by destruct s. Qed.

Lemma on_world_quiet {A} (m : st (World B) SessionError A) s w :
  io_only w (m w).2 → quiet (s, w) (on_world m (s, w)).2 ∧ (on_world m (s, w)).2.1 = s.
Proof.
  unfold on_world, zoom. simpl. destruct (m w) as [r w']. simpl. intros Hw. split; [|done].
  split; [done|]. simpl. by destruct s.
Qed.

Lemma send_pairing_only msg (w : World B) : io_only w (send_pairing msg w).2.
Proof.
  unfold send_pairing. apply st_bind_rel; [apply _|done|]. intros d w1 _. apply on_io_only.
Qed.

Lemma recv_pairing_only (w : World B) : io_only w (recv_pairing w).2.
Proof.
  unfold recv_pairing. apply st_bind_rel; [apply _|apply recv_data_loop_only|]. done.
Qed.

(** The two ways [conclude_pairing] ends. *)
Lemma conclude_cases session sas s (w : World B) :
  let '(r, (s', w')) := conclude_pairing session sas (s, w) in
  w_clip w' = w_clip w ∧ w_fs w' = w_fs w
  ∧ ((∃ e, r = Err e ∧ s' = s ∧ peers_table (w_store w') = peers_table (w_store w))
     ∨ ∃ conf p, r = Ok sas ∧ s' = with_session_state STrusted s
         ∧ (finalize conf session).1 = Ok p
         ∧ peers_table (w_store w') = upsert (peer_params p) (peers_table (w_store w))).
Proof.
  unfold conclude_pairing, mbind, st_bind, lift, map_err.
  destruct (confirm session) as [mine|]; [|naive_solver].
  pose proof (on_world_quiet (send_pairing (Confirm mine)) s w (send_pairing_only _ _)) as [Hq1 Hs1].
  destruct (on_world (send_pairing (Confirm mine)) (s, w)) as [[[]|e1] [s1 w1]]; simpl in *;
    destruct Hq1 as [(Hst1 & Hc1 & Hf1) _]; simpl in *; subst s1; [|rewrite Hst1; naive_solver].
  pose proof (on_world_quiet recv_pairing s w1 (recv_pairing_only _)) as [Hq2 Hs2].
  destruct (on_world recv_pairing (s, w1)) as [[msg|e2] [s2 w2]]; simpl in *;
    destruct Hq2 as [(Hst2 & Hc2 & Hf2) _]; simpl in *; subst s2;
    [|rewrite Hst2, Hst1, Hc2, Hf2; naive_solver].
  rewrite <-Hst1, <-Hst2, <-Hc1, <-Hc2, <-Hf1, <-Hf2.
  destruct msg as [r|r|conf|reason]; simpl; [eauto 10..| |eauto 10].
  destruct (finalize conf session).1 as [p|e3] eqn:Ef; [|eauto 10].
  unfold on_world, zoom, st_map_err, on_store. simpl. unfold zoom.
  destruct (run_op_spec (OSave p) (w_store w2)) as (st' & _ & [(E & Ht)|(e & E & Ht & _)]);
    simpl in E; rewrite E; simpl; eauto 10.
Qed.

Lemma reject_cases s (w : World B) :
  let '(r, (s', w')) := reject_pairing (s, w) in
  (∃ e, r = Err e) ∧ io_only w w' ∧ (s' = s ∨ s' = with_session_state AuthenticatedUntrusted s).
Proof.
  unfold reject_pairing, mbind, st_bind, lift.
  destruct (pairing_to_data_frame _) as [d|e]; [|by split_and!; [eauto|done|left]].
  unfold ignore. pose proof (on_world_quiet (on_io (send_frame (Data d))) s w (on_io_only _ _)) as [Hq Hs].
  destruct (on_world (on_io (send_frame (Data d))) (s, w)) as [r [s1 w1]]. simpl in *. subst s1.
  destruct Hq as [Hq _]. simpl. split_and!; [eauto|done|by right].
Qed.

(** What the end of a ceremony means, for a session whose SAS was derived. *)
Definition pairing_outcome (local : IdentityKey) (nonce : array 32) (w : World B)
    (r : result SessionError SasVerification) (s' : ActiveSession) (w' : World B) : Prop :=
  w_clip w' = w_clip w ∧ w_fs w' = w_fs w
  ∧ match r with
    | Err _ => peers_table (w_store w') = peers_table (w_store w)
        ∧ (state s' = SPairing ∨ state s' = AuthenticatedUntrusted)
    | Ok sas => state s' = STrusted
        ∧ ∃ session p rn sig, session_reach session
            ∧ sas = SasVerification_derive (IdentityKey_node_id local) (tp_node_id p) nonce rn
            ∧ PublicKey_node_id (tp_public_key p) = tp_node_id p ∧ tp_trust_state p = Trusted
            ∧ PublicKey_verify (tp_public_key p) (arr (compute_confirmation_hash session sas)) sig = Ok tt
            ∧ peers_table (w_store w') = upsert (peer_params p) (peers_table (w_store w))
    end.

(** The user's answer and what follows it. *)
Lemma answered_outcome session sas (yes : bool) local nonce s (w w0 : World B) :
  session_reach session → ps_sas session = Some sas → ps_local_key session = local →
  ps_local_nonce session = nonce → state s = SPairing → io_only w0 w →
  let '(r, (s', w')) := (if negb yes then reject_pairing else conclude_pairing session sas) (s, w) in
  pairing_outcome local nonce w0 r s' w' ∧ (∀ x, r = Ok x → x = sas ∧ yes = true).
Proof.
  intros Hr Hsas <- <- Hst (Hst0 & Hc0 & Hf0). destruct yes; simpl.
  - pose proof (conclude_cases session sas s w) as Hc.
    destruct (conclude_pairing session sas (s, w)) as [r [s' w']].
    destruct Hc as (Hc & Hf & [(e & -> & -> & Ht)|(conf & p & -> & -> & Hfin & Ht)]).
    { split; [|done]. split_and!; [congruence..|by left]. }
    split; [|intros; by simplify_eq]. split; [congruence|split; [congruence|split; [done|]]].
    destruct (finalize_cases conf session) as [[e E]|(sas' & q & sig & Es & Ep & _ & _ & _ & Hv & E)];
      rewrite E in Hfin; simplify_eq/=.
    pose proof (session_inv_reach session Hr) as Hi. unfold session_inv in Hi. rewrite Ep, Hsas in Hi.
    destruct (ps_remote_nonce session) as [rn|]; [|done]. destruct Hi as [Hk Hd].
    exists session, (with_state Trusted q), rn, sig. split_and!; try done. congruence.
  - pose proof (reject_cases s w) as Hc. destruct (reject_pairing (s, w)) as [r [s' w']].
    destruct Hc as ((e & ->) & (? & ? & ?) & Hs'). split; [|done].
    split_and!; [congruence..|]. destruct Hs' as [-> | ->]; [left|right]; done.
Qed.

(** The record one side keeps of the other. *)
Definition paired_peer (k : IdentityKey) (name : string) (ty : DeviceType) (t : u64) : TrustedPeer := {|
  tp_node_id := IdentityKey_node_id k; tp_public_key := public_key k; tp_device_name := name;
  tp_device_type := ty; tp_first_paired_at := t; tp_last_seen_at := t; tp_trust_state := Trusted |}.

(** [bs] is what sending the message writes. *)
Definition sent_as (msg : PairingMessage) (bs : list byte) : Prop :=
  valid msg ∧ ∃ d, pairing_to_data_frame msg = Ok d ∧ valid (Data d) ∧ encode_frame (Data d) = Ok bs.

Lemma send_pairing_conn msg bs r t s (w : World B) :
  sent_as msg bs → w_io w = conn r t →
  on_world (send_pairing msg) (s, w) = (Ok tt, (s, set_io (conn r (t ++ bs)) w)).
Proof.
  intros (_ & d & Ed & _ & E) Hw. unfold on_world, zoom. simpl. unfold send_pairing, lift. rewrite Ed.
  erewrite st_bind_ok; [|reflexivity]. by rewrite (send_conn _ bs r t w E Hw).
Qed.

Lemma recv_pairing_conn `{!PostcardLaws Frame, !PostcardLaws PairingMessage} msg bs k t s (w : World B) :
  sent_as msg bs → w_io w = conn (bs ++ k) t →
  on_world recv_pairing (s, w) = (Ok msg, (s, set_io (conn k t) w)).
Proof.
  intros (Hm & d & Ed & Hv & E) Hw. unfold on_world, zoom. simpl.
  destruct (postcard_roundtrip msg Hm) as (payload & Ep & Dp).
  unfold pairing_to_data_frame in Ed. rewrite Ep in Ed. simplify_eq/=.
  unfold recv_pairing, recv_data_frame. cbn [recv_data_loop].
  erewrite st_bind_ok; cycle 1.
  { erewrite st_bind_ok; [|apply on_io_ok, (recv_frame_sent _ _ bs k Hv E); by rewrite Hw].
    simpl. reflexivity. }
  unfold lift, pairing_from_data_frame. simpl. rewrite Dp. simpl. by rewrite Hw.
Qed.

(** The last steps of a role whose peer answers as expected. *)
Lemma conclude_conn `{!PostcardLaws Frame, !PostcardLaws PairingMessage} session sas mine theirs p bm bt k t
    s (w : World B) :
  confirm session = Ok mine → (finalize theirs session).1 = Ok p →
  sent_as (Confirm mine) bm → sent_as (Confirm theirs) bt →
  w_io w = conn (bt ++ k) t → no_fault (w_store w) →
  ∃ w', conclude_pairing session sas (s, w) = (Ok sas, (with_session_state STrusted s, w'))
    ∧ w_io w' = conn k (t ++ bm)
    ∧ peers_table (w_store w') = upsert (peer_params p) (peers_table (w_store w)).
Proof.
  intros Hc Hf Hm Ht Hw Hnf. unfold conclude_pairing, lift. rewrite Hc. simpl.
  erewrite st_bind_ok; [|reflexivity].
  erewrite st_bind_ok; [|eapply (send_pairing_conn _ bm _ t); [exact Hm|exact Hw]].
  erewrite st_bind_ok; [|eapply (recv_pairing_conn _ bt k (t ++ bm)); [exact Ht|reflexivity]].
  cbv beta iota. rewrite Hf. cbn [map_err]. erewrite st_bind_ok; [|reflexivity].
  destruct (run_op_spec (OSave p) (w_store w)) as (st' & _ & [(E & Ht')|(e & _ & _ & Hh)]).
  - simpl in E. unfold on_world, zoom, st_map_err, on_store, mbind, st_bind. simpl. unfold zoom. simpl.
    rewrite E. eexists. split; [reflexivity|]. done.
  - unfold no_fault in Hnf. rewrite Hh in Hnf. naive_solver.
Qed.
End SessionLemmas.

Section Failing.
Context `{Ed25519}.

(** A failure of the ceremony keeps the session it met.  [keeps_session]: the
    session is the same however the computation ends; [fails_in]: when it fails. *)
Definition keeps_session {E A B} (m : st (ActiveSession * World B) E A) : Prop := ∀ sw, (m sw).2.1 = sw.1.
Definition fails_in {E A B} (m : st (ActiveSession * World B) E A) : Prop :=
  ∀ sw e sw', m sw = (Err e, sw') → sw'.1 = sw.1.

Lemma keeps_fails {E A B} (m : st (ActiveSession * World B) E A) : keeps_session m → fails_in m.
Proof. intros Hk sw e sw' Em. specialize (Hk sw). by rewrite Em in Hk. Qed.
Lemma fails_bind {E A C B} (m : st (ActiveSession * World B) E A) (f : A → st (ActiveSession * World B) E C) :
  keeps_session m → (∀ a, fails_in (f a)) → fails_in (mbind (M := st (ActiveSession * World B) E) f m).
Proof.
  intros Hm Hf sw e sw' Eb. specialize (Hm sw). unfold mbind, st_bind in Eb.
  destruct (m sw) as [[a|x] sw1]; cbn in Hm; [|by simplify_eq]. rewrite <-Hm. by apply (Hf a _ e).
Qed.
Lemma on_world_keeps {A B} (m : st (World B) SessionError A) : keeps_session (on_world m).
Proof. intros [s w]. unfold on_world, zoom. cbn. by destruct (m w). Qed.
Lemma lift_keeps {E A B} (r : result E A) : keeps_session (B := B) (lift r).
Proof. by intros [s w]. Qed.
End Failing.

Lemma conclude_fails `{Ed25519, Sha256, Blake3, Hex, Postcard Frame, Postcard PairingMessage,
    Debug PairingMessage, ClipboardBackend B} ps sas : fails_in (B := B) (conclude_pairing ps sas).
Proof.
  unfold conclude_pairing. apply fails_bind; [apply lift_keeps|intros c].
  apply fails_bind; [apply on_world_keeps|intros _]. apply fails_bind; [apply on_world_keeps|intros [| |pc|reason]];
    try by (apply keeps_fails; intros [? ?]).
  apply fails_bind; [apply lift_keeps|intros tp]. by apply fails_bind; [apply on_world_keeps|intros []].
Qed.

(** The ceremony of either role, to its end. *)
Lemma execute_pairing_outcome `{Ed25519, Sha256, Blake3, Hex, Postcard Frame, Postcard PairingMessage,
    Debug PairingMessage, ClipboardBackend B}
    (is_initiator : bool) (confirmer : SasVerification → string → bool) (nonce : array 32) (t t' : u64)
    (s : ActiveSession) (w : World B) :
  let '(r, (s', w')) := execute_pairing is_initiator confirmer nonce t t' (s, w) in
  pairing_outcome (local_identity s) nonce w r s' w'
  ∧ ∀ sas, r = Ok sas → confirmer sas (remote_name s) = true.
Proof.
  unfold execute_pairing. unfold mbind at 1, st_bind at 1, set_state at 1, modify.
  unfold mbind at 1, st_bind at 1, self, gets. simpl. set (s0 := with_session_state SPairing s).
  assert (∀ e (w1 : World B), io_only w w1 →
    pairing_outcome (local_identity s) nonce w (Err e) s0 w1
    ∧ ∀ sas, Err (E := SessionError) e = Ok sas → confirmer sas (remote_name s) = true) as Herr.
  { intros e w1 (Hs & Hc & Hf). split; [|done]. split_and!; [done..|by rewrite Hs|by left]. }
  destruct is_initiator.
  - pose proof (on_world_quiet (send_pairing (Request (new_initiator (local_identity s) (local_name s)
      (local_device_type s) nonce t).2)) s0 w (send_pairing_only _ _)) as [[Hq1 _] Hs1].
    unfold mbind at 1, st_bind at 1. simpl in Hq1, Hs1 |- *.
    destruct (on_world (send_pairing _) (s0, w)) as [[[]|e] [s1 w1]]; simpl in *; subst s1; [|auto].
    pose proof (on_world_quiet recv_pairing s0 w1 (recv_pairing_only _)) as [[Hq2 _] Hs2].
    unfold mbind at 1, st_bind at 1.
    destruct (on_world recv_pairing (s0, w1)) as [[msg|e] [s2 w2]]; simpl in *; subst s2;
      [|apply Herr; by etrans].
    assert (io_only w w2) as Hw2 by (by etrans).
    destruct msg as [rq|resp|c|reason]; try (by apply Herr).
    set (s_i := (new_initiator (local_identity s) (local_name s) (local_device_type s) nonce t).1).
    pose proof (reach_response s_i resp t' (reach_initiator _ _ _ _ _)) as Hreach.
    pose proof (receive_response_cases resp t' s_i) as Hrc.
    change (initiator_receive_response resp t' _) with (initiator_receive_response resp t' s_i).
    destruct (initiator_receive_response resp t' s_i) as [[sas|e] s_i']; simpl in *; [|by apply Herr].
    destruct Hrc as (Hsas & Hk & Hn). unfold mbind, st_bind, lift, map_err. simpl.
    pose proof (answered_outcome s_i' sas (confirmer sas (remote_name s)) (local_identity s) nonce s0 w2 w
      Hreach Hsas Hk Hn eq_refl Hw2) as Ha.
    destruct ((if negb (confirmer sas (remote_name s)) then reject_pairing
      else conclude_pairing s_i' sas) (s0, w2)) as [r [s' w']].
    destruct Ha as [Ha Hy]. split; [done|]. intros x Hx. destruct (Hy x Hx) as [-> ->]. done.
  - pose proof (on_world_quiet recv_pairing s0 w (recv_pairing_only _)) as [[Hq1 _] Hs1].
    unfold mbind at 1, st_bind at 1. simpl in Hq1, Hs1.
    destruct (on_world recv_pairing (s0, w)) as [[msg|e] [s1 w1]]; simpl in *; subst s1; [|auto].
    destruct msg as [rq|resp|c|reason]; try (by apply Herr).
    unfold mbind at 1, st_bind at 1, lift, map_err.
    destruct (new_responder _ _ _ _ _ _) as [[[s_r resp] sas]|e] eqn:Er; [|by apply Herr].
    pose proof (new_responder_fields _ _ _ _ _ _ _ _ _ Er) as (Hsas & Hk & Hn).
    apply reach_responder in Er.
    pose proof (on_world_quiet (send_pairing (Response resp)) s0 w1 (send_pairing_only _ _)) as [[Hq2 _] Hs2].
    unfold mbind at 1, st_bind at 1. simpl in Hq2, Hs2.
    destruct (on_world (send_pairing (Response resp)) (s0, w1)) as [[[]|e] [s2 w2]]; simpl in *; subst s2;
      [|apply Herr; by etrans].
    assert (io_only w w2) as Hw2 by (by etrans).
    pose proof (answered_outcome s_r sas (confirmer sas (remote_name s)) (local_identity s) nonce s0 w2 w
      Er Hsas Hk Hn eq_refl Hw2) as Ha.
    destruct ((if negb (confirmer sas (remote_name s)) then reject_pairing
      else conclude_pairing s_r sas) (s0, w2)) as [r [s' w']].
    destruct Ha as [Ha Hy]. split; [done|]. intros x Hx. destruct (Hy x Hx) as [-> ->]. done.
Qed.

(** ** Properties *)

(** C2: a server session is authenticated and trust-gated.  If the server-side
    handshake succeeds, the peer opened with a [ClientHello], answered the
    server's fresh nonce with an [AuthResponse], and that response is a valid
    signature of both nonces under the public key that is the node identifier the
    session records; the session is [Trusted] exactly when the trust store, asked
    about that identifier and key, answers so, and otherwise untrusted. *)
Theorem server_handshake_authenticates `{Ed25519, Sha256, Blake3, Hex, Postcard Frame,
    Debug Frame, ClipboardBackend B, !Ed25519Laws}
    (k : IdentityKey) (name : string) (ty : DeviceType) (dir : option string) (sn : array 32) (now : u64)
    (w w' : World B) (s : ActiveSession) :
  server_handshake k name ty dir sn now w = (Ok s, w') →
  ∃ h sig io1 io2 io3,
    recv_frame (w_io w) = (Ok (Some (Handshake (HClientHello h))), io1)
    ∧ recv_frame io2 = (Ok (Some (Handshake (HAuthResponse {| ar_signature := sig |}))), io3)
    ∧ remote_node_id s = ch_node_id h
    ∧ PublicKey_node_id (remote_pubkey s) = remote_node_id s
    ∧ verify_handshake_challenge (remote_pubkey s) (ch_client_nonce h) sn sig = Ok tt
    ∧ ∃ b, (is_trusted (remote_node_id s) (remote_pubkey s) (w_store w)).1 = Ok b
        ∧ state s = state_of b.
Proof.
  intros (h & sig & io1 & io2 & io3 & io4 & R1 & R2 & Hn & Hk & Hv & Hst)%server_handshake_inv.
  exists h, sig, io1, io2, io3. split_and!; try done; [by apply PublicKey_from_bytes_node|].
  destruct (consult_trust_ok _ _ _ _ _ _ Hst) as [[-> Ht]|[-> Ht]]; simpl in Ht; eauto.
Qed.

(** Two honest devices complete the handshake over one connection.  What the
    client writes is what the server reads and conversely, byte for byte; both
    sides end with the other's identifier and key, each in the state its own trust
    store gives the other. *)
Theorem handshake_completes `{Ed25519, Sha256, Blake3, Hex, Postcard Frame,
    Debug Frame, ClipboardBackend B, !Ed25519Laws, !PostcardLaws Frame}
    (ks kc : IdentityKey) (ns nc : string) (ty : DeviceType) (ds dc : option string)
    (sn cn : array 32) (ts tc : u64) (ws wc : World B) (b1 b2 b3 b4 : list byte) (us uc : bool) :
  let sh := {| sh_agreed_version := ProtocolVersion_CURRENT; sh_node_id := IdentityKey_node_id ks;
    sh_device_name := ns; sh_server_nonce := sn;
    sh_negotiated_capabilities := caps_intersect Capabilities_all Capabilities_all |} in
  valid_str ns → valid_str nc →
  encode_frame (Handshake (HClientHello (hello_of_client kc nc cn))) = Ok b1 →
  encode_frame (Handshake (HServerHello sh)) = Ok b2 →
  encode_frame (Handshake (HAuthResponse {| ar_signature := sign_handshake_challenge kc cn sn |})) = Ok b3 →
  encode_frame (Handshake (HAuthResult AuthResult_ok)) = Ok b4 →
  w_io ws = conn (b1 ++ b3) [] → w_io wc = conn (b2 ++ b4) [] →
  (is_trusted (IdentityKey_node_id kc) (public_key kc) (w_store ws)).1 = Ok us →
  (is_trusted (IdentityKey_node_id ks) (public_key ks) (w_store wc)).1 = Ok uc →
  ∃ s ws' c wc',
    server_handshake ks ns ty ds sn ts ws = (Ok s, ws') ∧ w_io ws' = conn [] (b2 ++ b4)
    ∧ client_handshake kc nc dc cn tc wc = (Ok c, wc') ∧ w_io wc' = conn [] (b1 ++ b3)
    ∧ remote_node_id s = IdentityKey_node_id kc ∧ remote_pubkey s = public_key kc ∧ state s = state_of us
    ∧ remote_node_id c = IdentityKey_node_id ks ∧ remote_pubkey c = public_key ks ∧ state c = state_of uc.
Proof.
  intros sh Hns Hnc E1 E2 E3 E4 Hws Hwc Hus Huc.
  assert (valid Capabilities_all ∧ valid (caps_intersect Capabilities_all Capabilities_all)
    ∧ valid ProtocolVersion_CURRENT) as (Hcaps & Hint & Hver)
    by (repeat split; vm_compute; congruence).
  destruct (server_handshake_run ks ns ty ds sn ts ws kc nc cn us b1 b2 b3 b4)
    as (s & ws' & Es & Hio & Hn & Hk & Hst); [exact (conj Hver (conj Hnc Hcaps))|done..|].
  destruct (client_handshake_run kc nc dc cn tc wc sh (public_key ks) uc b1 b2 b3 b4)
    as (c & wc' & Ec & Hio' & Hn' & Hk' & Hst'); try done.
  { apply PublicKey_from_to_bytes. }
  exists s, ws', c, wc'. done.
Qed.

(** C35: the client does not authenticate the server.  Any peer that sends a
    [ServerHello] claiming an identifier the client trusts, and a positive
    [AuthResult], gets a [Trusted] session: no signature by that identifier's key
    is asked for, whatever nonce, name, version and capabilities it sends. *)
Theorem client_trusts_claimed_id `{Ed25519, Sha256, Blake3, Hex, Postcard Frame,
    Debug Frame, ClipboardBackend B, !PostcardLaws Frame}
    (k : IdentityKey) (name : string) (dir : option string) (cn : array 32) (now : u64) (w : World B)
    (sh : ServerHello) (pk : PublicKey) (b1 b2 b3 b4 : list byte) :
  valid sh →
  encode_frame (Handshake (HClientHello (hello_of_client k name cn))) = Ok b1 →
  encode_frame (Handshake (HServerHello sh)) = Ok b2 →
  encode_frame (Handshake (HAuthResponse
    {| ar_signature := sign_handshake_challenge k cn (sh_server_nonce sh) |})) = Ok b3 →
  encode_frame (Handshake (HAuthResult AuthResult_ok)) = Ok b4 →
  w_io w = conn (b2 ++ b4) [] →
  PublicKey_from_bytes (node_bytes (sh_node_id sh)) = Ok pk →
  (is_trusted (sh_node_id sh) pk (w_store w)).1 = Ok true →
  ∃ s w', client_handshake k name dir cn now w = (Ok s, w')
    ∧ remote_node_id s = sh_node_id sh ∧ state s = STrusted.
Proof.
  intros Hv E1 E2 E3 E4 Hw Hpk Ht.
  destruct (client_handshake_run k name dir cn now w sh pk true b1 b2 b3 b4)
    as (s & w' & E & _ & Hn & _ & Hs); try done.
  exists s, w'. done.
Qed.

(** C20: the trust gate.  In a session that is not [Trusted], no frame whatever
    reaches the clipboard, the file system or the trust store, and processing it
    does not make the session trusted: only the stream moves, and the state only
    to [Terminated]. *)
Theorem untrusted_gate `{Ed25519, Sha256, Blake3, Hex, Postcard Frame, Postcard TransferMessage,
    Postcard ClipboardMessage, ClipboardBackend B} (s : ActiveSession) (w : World B) :
  state_is_trusted (state s) = false →
  let '(_, (s', w')) := process_next_frame (s, w) in
  w_clip w' = w_clip w ∧ w_fs w' = w_fs w ∧ w_store w' = w_store w
  ∧ state_is_trusted (state s') = false ∧ s' = with_session_state (state s') s.
Proof.
  intros Hs. unfold process_next_frame.
  pose proof (on_world_quiet (on_io recv_frame) s w (on_io_only _ _)) as [Hq1 Hs1].
  unfold mbind at 1, st_bind at 1.
  destruct (on_world (on_io recv_frame) (s, w)) as [[o|e] [s1 w1]]; simpl in Hq1, Hs1; subst s1;
    destruct Hq1 as [(Hst & Hc & Hf) Heta]; simpl in *; [|by split_and!].
  destruct o as [[h|[n|n|r]|d]|]; try (by split_and!).
  - pose proof (on_world_quiet (on_io (send_frame (Control (Pong n)))) s w1 (on_io_only _ _)) as [Hq2 Hs2].
    unfold mbind, st_bind.
    destruct (on_world (on_io (send_frame (Control (Pong n)))) (s, w1)) as [[[]|e] [s2 w2]];
      simpl in Hq2, Hs2; subst s2; destruct Hq2 as [(Hst2 & Hc2 & Hf2) _]; simpl in *;
      (split_and!; congruence || done).
  - unfold mbind, st_bind, self, gets. simpl. rewrite Hs. simpl.
    repeat case_decide; by split_and!.
Qed.

(** C3: pairing stores a peer only when everything agreed.  If the ceremony over
    the connection succeeds, the user accepted the SAS that is returned, which is
    derived from this device's identity, the peer's identity and both nonces, and
    the one peer added to the trust store is [Trusted], its identifier is its
    public key, and that key signed the commitment.  If it fails, at any point
    and for any reason, the trust table is unchanged and the session is not
    trusted.  The clipboard and the file system are never touched. *)
Theorem execute_pairing_safe `{Ed25519, Sha256, Blake3, Hex, Postcard Frame, Postcard PairingMessage,
    Debug PairingMessage, ClipboardBackend B}
    (is_initiator : bool) (confirmer : SasVerification → string → bool) (nonce : array 32) (t t' : u64)
    (s : ActiveSession) (w : World B) :
  let '(r, (s', w')) := execute_pairing is_initiator confirmer nonce t t' (s, w) in
  pairing_outcome (local_identity s) nonce w r s' w'
  ∧ ∀ sas, r = Ok sas → confirmer sas (remote_name s) = true.
Proof. apply execute_pairing_outcome. Qed.

(** C27: the ceremony completes over a connection.  Two devices with distinct
    identities whose users accept the SAS, exchanging the messages that the two
    pairing sessions produce, end, each having read exactly what the other wrote,
    with the same SAS, in a [Trusted] session, each with the other device stored
    as [Trusted].  The identifiers that the two connections authenticated before
    play no part: the statement holds whatever [remote_node_id] they record. *)
Theorem pairing_over_wire `{Ed25519, Sha256, Blake3, Hex, Postcard Frame, Postcard PairingMessage,
    Debug PairingMessage, ClipboardBackend B, !Ed25519Laws, !PostcardLaws Frame, !PostcardLaws PairingMessage}
    (si sr : ActiveSession) (xi xr : array 32) (t1 t2 t3 : u64)
    (s_i s_r : PairingSession) (req : PairingRequest) (resp : PairingResponse) (sas : SasVerification)
    (ci cr : PairingConfirm) (cfi cfr : SasVerification → string → bool)
    (wi wr : World B) (b1 b2 b3 b4 : list byte) :
  IdentityKey_node_id (local_identity si) ≠ IdentityKey_node_id (local_identity sr) →
  new_initiator (local_identity si) (local_name si) (local_device_type si) xi t1 = (s_i, req) →
  new_responder (local_identity sr) (local_name sr) (local_device_type sr) req xr t2 = Ok (s_r, resp, sas) →
  confirm (initiator_receive_response resp t3 s_i).2 = Ok ci → confirm s_r = Ok cr →
  cfi sas (remote_name si) = true → cfr sas (remote_name sr) = true →
  sent_as (Request req) b1 → sent_as (Response resp) b2 →
  sent_as (Confirm ci) b3 → sent_as (Confirm cr) b4 →
  w_io wi = conn (b2 ++ b4) [] → w_io wr = conn (b1 ++ b3) [] →
  no_fault (w_store wi) → no_fault (w_store wr) →
  ∃ wi' wr',
    execute_pairing true cfi xi t1 t3 (si, wi) = (Ok sas, (with_session_state STrusted si, wi'))
    ∧ execute_pairing false cfr xr t2 t2 (sr, wr) = (Ok sas, (with_session_state STrusted sr, wr'))
    ∧ w_io wi' = conn [] (b1 ++ b3) ∧ w_io wr' = conn [] (b2 ++ b4)
    ∧ peers_table (w_store wi') =
        upsert (peer_params (paired_peer (local_identity sr) (local_name sr) (local_device_type sr) t3))
          (peers_table (w_store wi))
    ∧ peers_table (w_store wr') =
        upsert (peer_params (paired_peer (local_identity si) (local_name si) (local_device_type si) t2))
          (peers_table (w_store wr)).
Proof.
  intros Hne Ei Er Hci Hcr Hcfi Hcfr S1 S2 S3 S4 Hwi Hwr Hni Hnr.
  pose proof (ceremony_run (local_identity si) (local_identity sr) (local_name si) (local_name sr)
    (local_device_type si) (local_device_type sr) xi xr t1 t2 t3 Hne) as Hrun.
  rewrite Ei in Hrun. destruct Hrun as (s_r0 & resp0 & sas0 & ci0 & cr0 & Er0 & Hrun).
  rewrite Er in Er0. simplify_eq.
  destruct (initiator_receive_response resp0 t3 s_i) as [r s_i'] eqn:Ev. cbn [snd] in Hci.
  destruct Hrun as (-> & Hci0 & Hcr0 & Hfi & Hfr). rewrite Hci in Hci0. rewrite Hcr in Hcr0. simplify_eq.
  rewrite <-(app_nil_r b4) in Hwi. rewrite <-(app_nil_r b3) in Hwr.
  destruct (conclude_conn s_i' sas0 ci0 cr0 _ b3 b4 [] ([] ++ b1) (with_session_state SPairing si)
    (set_io (conn (b4 ++ []) ([] ++ b1)) wi) Hci Hfr S3 S4 eq_refl Hni) as (wi' & Ewi & Hio & Htab).
  destruct (conclude_conn s_r0 sas0 cr0 ci0 _ b4 b3 [] ([] ++ b2) (with_session_state SPairing sr)
    (set_io (conn (b3 ++ []) ([] ++ b2)) wr) Hcr Hfi S4 S3 eq_refl Hnr) as (wr' & Ewr & Hio' & Htab').
  exists wi', wr'. split_and!; [| |exact Hio|exact Hio'|exact Htab|exact Htab'].
  - unfold execute_pairing. erewrite st_bind_ok; [|reflexivity]. erewrite st_bind_ok; [|reflexivity].
    cbn [fst snd with_session_state local_identity local_name local_device_type remote_name]. rewrite Ei.
    erewrite st_bind_ok; [|eapply (send_pairing_conn _ b1 _ []); [exact S1|exact Hwi]].
    erewrite st_bind_ok; [|eapply (recv_pairing_conn _ b2 (b4 ++ []) ([] ++ b1)); [exact S2|reflexivity]].
    cbv beta iota. rewrite Ev. erewrite st_bind_ok; [|reflexivity]. rewrite Hcfi. exact Ewi.
  - unfold execute_pairing. erewrite st_bind_ok; [|reflexivity]. erewrite st_bind_ok; [|reflexivity].
    cbn [fst snd with_session_state local_identity local_name local_device_type remote_name].
    erewrite st_bind_ok; [|eapply (recv_pairing_conn _ b1 (b3 ++ []) []); [exact S1|exact Hwr]].
    cbv beta iota. rewrite Er. erewrite st_bind_ok; [|reflexivity]. cbv beta iota.
    erewrite st_bind_ok; [|eapply (send_pairing_conn _ b2 (b3 ++ []) []); [exact S2|reflexivity]].
    rewrite Hcfr. exact Ewr.
Qed.

(** A ceremony that fails stays in the state [Pairing].  When the local user accepts
    whatever is shown, every failure (the stream's, the peer's, the database's)
    leaves the session as it was but in [Pairing]: nothing sets it back. *)
Theorem pairing_failure_stuck `{Ed25519, Sha256, Blake3, Hex, Postcard Frame, Postcard PairingMessage,
    Debug PairingMessage, ClipboardBackend B} (is_initiator : bool) (confirmer : SasVerification → string → bool)
    (nonce : array 32) (t t' : u64) (s s' : ActiveSession) (w w' : World B) (e : SessionError) :
  (∀ sas name, confirmer sas name = true) →
  execute_pairing is_initiator confirmer nonce t t' (s, w) = (Err e, (s', w')) → s' = with_session_state SPairing s.
Proof.
  intros Hyes. unfold execute_pairing. unfold mbind at 1, st_bind at 1, set_state at 1, modify. cbn.
  unfold mbind at 1, st_bind at 1, self, gets. cbn. set (s0 := with_session_state SPairing s).
  match goal with |- ?m _ = _ → _ => assert (fails_in (B := B) m) as Hf end; [|by intros E%Hf].
  destruct is_initiator; cbn.
  - apply fails_bind; [apply on_world_keeps|intros _]. apply fails_bind; [apply on_world_keeps|intros [| | |]];
      try by (apply keeps_fails; intros [? ?]).
    destruct (initiator_receive_response _ _ _) as [answer ps]. apply fails_bind; [apply lift_keeps|intros sas].
    rewrite Hyes. apply conclude_fails.
  - apply fails_bind; [apply on_world_keeps|intros [rq| | |]]; try by (apply keeps_fails; intros [? ?]).
    apply fails_bind; [apply lift_keeps|intros [[ps resp] sas]]. apply fails_bind; [apply on_world_keeps|intros _].
    rewrite Hyes. apply conclude_fails.
Qed.

(** ** Witnesses *)

Section Witnesses.
Import Toy FrameWire PairingWire TransferWire ClipboardWire.

#[local] Instance debug_frame : Debug Frame := λ _, "Frame".
#[local] Instance debug_pairing : Debug PairingMessage := λ _, "PairingMessage".

Definition world_of (io : Io) (store : TrustStore) : World MemoryClipboardBackend :=
  {| w_io := io; w_store := store; w_clip := None; w_fs := {| files := ∅; fs_fault := None |} |}.
Definition bytes_of (f : Frame) : list byte :=
  match encode_frame f with Ok b => b | Err _ => [] end.

Definition nonce_s : array 32 := arr_rep 32 x51.
Definition nonce_c : array 32 := arr_rep 32 x52.
Definition demo_f1 : Frame := Handshake (HClientHello (hello_of_client key_b "Phone" nonce_c)).
Definition demo_sh : ServerHello :=
  {| sh_agreed_version := ProtocolVersion_CURRENT; sh_node_id := IdentityKey_node_id key_a;
     sh_device_name := "Laptop"; sh_server_nonce := nonce_s;
     sh_negotiated_capabilities := caps_intersect Capabilities_all Capabilities_all |}.
Definition demo_f3 : Frame :=
  Handshake (HAuthResponse {| ar_signature := sign_handshake_challenge key_b nonce_c nonce_s |}).
Definition demo_f4 : Frame := Handshake (HAuthResult AuthResult_ok).
Definition demo_server_world : World MemoryClipboardBackend :=
  world_of (conn (bytes_of demo_f1 ++ bytes_of demo_f3) []) empty_store.
Definition demo_client_world : World MemoryClipboardBackend :=
  world_of (conn (bytes_of (Handshake (HServerHello demo_sh)) ++ bytes_of demo_f4) []) empty_store.

Lemma demo_encoded :
  encode_frame demo_f1 = Ok (bytes_of demo_f1)
  ∧ encode_frame (Handshake (HServerHello demo_sh)) = Ok (bytes_of (Handshake (HServerHello demo_sh)))
  ∧ encode_frame demo_f3 = Ok (bytes_of demo_f3) ∧ encode_frame demo_f4 = Ok (bytes_of demo_f4).
Proof. split_and!; vm_compute; reflexivity. Qed.

Lemma demo_server_run :
  ∃ s w', server_handshake key_a "Laptop" Linux None nonce_s 100 demo_server_world = (Ok s, w').
Proof.
  destruct demo_encoded as (E1 & E2 & E3 & E4).
  destruct (server_handshake_run key_a "Laptop" Linux None nonce_s 100 demo_server_world key_b "Phone"
    nonce_c false _ _ _ _ ltac:(repeat split; vm_compute; congruence) I E1 E2 E3 E4 eq_refl eq_refl)
    as (s & w' & E & _).
  eauto.
Qed.

Example server_handshake_authenticates_witness :
  ∃ s w', server_handshake key_a "Laptop" Linux None nonce_s 100 demo_server_world = (Ok s, w')
    ∧ PublicKey_node_id (remote_pubkey s) = remote_node_id s.
Proof.
  destruct demo_server_run as (s & w' & E). exists s, w'. split; [exact E|].
  destruct (server_handshake_authenticates key_a "Laptop" Linux None nonce_s 100 demo_server_world w' s E)
    as (_ & _ & _ & _ & _ & _ & _ & _ & Hk & _).
  exact Hk.
Defined.

Example handshake_completes_witness :
  ∃ s ws', server_handshake key_a "Laptop" Linux None nonce_s 100 demo_server_world = (Ok s, ws')
    ∧ state s = AuthenticatedUntrusted.
Proof.
  destruct demo_encoded as (E1 & E2 & E3 & E4).
  destruct (handshake_completes key_a key_b "Laptop" "Phone" Linux None None nonce_s nonce_c 100 101
    demo_server_world demo_client_world _ _ _ _ false false
    ltac:(split; vm_compute; congruence) ltac:(split; vm_compute; congruence) E1 E2 E3 E4
    eq_refl eq_refl eq_refl eq_refl) as (s & ws' & _ & _ & E & _ & _ & _ & _ & _ & Hs & _).
  exists s, ws'. split; [exact E|exact Hs].
Defined.

(** The impostor claims [sample_node], which the client trusts. *)
Definition impostor : ServerHello :=
  {| sh_agreed_version := ProtocolVersion_CURRENT; sh_node_id := sample_node;
     sh_device_name := "Phone"; sh_server_nonce := nonce_s;
     sh_negotiated_capabilities := Capabilities_default |}.

Example client_trusts_claimed_id_witness :
  ∃ s w', client_handshake key_b "Laptop" None nonce_c 100
      (world_of (conn (bytes_of (Handshake (HServerHello impostor)) ++ bytes_of demo_f4) []) sample_store)
      = (Ok s, w')
    ∧ remote_node_id s = sample_node ∧ state s = STrusted.
Proof.
  eapply (client_trusts_claimed_id key_b "Laptop" None nonce_c 100 _ impostor (public_key sample_key)
    (bytes_of (Handshake (HClientHello (hello_of_client key_b "Laptop" nonce_c))))
    (bytes_of (Handshake (HServerHello impostor)))
    (bytes_of (Handshake (HAuthResponse {| ar_signature := sign_handshake_challenge key_b nonce_c nonce_s |})))
    (bytes_of demo_f4)).
  - repeat split; vm_compute; congruence.
  - vm_compute. reflexivity.
  - vm_compute. reflexivity.
  - vm_compute. reflexivity.
  - vm_compute. reflexivity.
  - reflexivity.
  - exact (PublicKey_from_to_bytes (public_key sample_key)).
  - destruct (is_trusted_spec sample_node (public_key sample_key) sample_store sample_map
      sample_represents (or_introl eq_refl)) as (E & _ & _).
    change (sh_node_id impostor) with sample_node. simpl w_store. rewrite E. unfold a_is_trusted, sample_map.
    simpl. unfold a_save. rewrite lookup_insert_eq. reflexivity.
Defined.

Definition demo_session (k : IdentityKey) (name : string) (st : SessionState) : ActiveSession :=
  {| local_identity := k; local_name := name; local_device_type := Linux;
     remote_node_id := sample_node; remote_pubkey := public_key sample_key; remote_name := "Peer";
     remote_device_type := UnknownDevice; state := st; receive_dir := Some "in" |}.

Example untrusted_gate_witness :
  let '(_, (s', w')) := process_next_frame (demo_session key_a "Laptop" AuthenticatedUntrusted,
      world_of (conn (bytes_of (Data (DataFrame_new CHANNEL_FILE_TRANSFER [x00]))) []) empty_store) in
  w_fs w' = {| files := ∅; fs_fault := None |}.
Proof.
  pose proof (untrusted_gate (demo_session key_a "Laptop" AuthenticatedUntrusted)
    (world_of (conn (bytes_of (Data (DataFrame_new CHANNEL_FILE_TRANSFER [x00]))) []) empty_store) eq_refl) as Hg.
  destruct (process_next_frame _) as [r [s' w']]. destruct Hg as (_ & Hf & _). exact Hf.
Defined.

Example execute_pairing_safe_witness :
  let '(r, (s', w')) := execute_pairing true (AutoConfirm false) nonce_c 1 2
      (demo_session key_a "Laptop" AuthenticatedUntrusted, world_of (conn [] []) empty_store) in
  w_fs w' = {| files := ∅; fs_fault := None |}.
Proof.
  pose proof (execute_pairing_safe true (AutoConfirm false) nonce_c 1 2
    (demo_session key_a "Laptop" AuthenticatedUntrusted) (world_of (conn [] []) empty_store)) as Hg.
  destruct (execute_pairing _ _ _ _ _ _) as [r [s' w']]. destruct Hg as ((_ & Hf & _) & _). exact Hf.
Defined.

Definition wire_of (m : PairingMessage) : list byte :=
  match pairing_to_data_frame m with Ok d => bytes_of (Data d) | Err _ => [] end.
Definition demo_a : ActiveSession := demo_session key_a "Laptop" AuthenticatedUntrusted.
Definition demo_b : ActiveSession := demo_session key_b "Phone" AuthenticatedUntrusted.
Definition demo_init : PairingSession * PairingRequest := new_initiator key_a "Laptop" Linux nonce_s 1.

Definition demo_resp : result IdentityError (PairingSession * PairingResponse * SasVerification) :=
  new_responder key_b "Phone" Linux demo_init.2 nonce_c 2.

Definition str_ok (s : string) : bool := from_utf8_ok (as_bytes s) && bool_decide (str_len s < 2 ^ 64).
Definition sent_ok (msg : PairingMessage) : bool :=
  match msg with
  | Request r => str_ok (rq_device_name r) && bool_decide (in_width 64 (rq_timestamp r))
  | Response r => str_ok (rp_device_name r) && bool_decide (in_width 64 (rp_timestamp r))
  | Confirm c => bool_decide (zlen (pc_signature c) < 2 ^ 64)
  | Failed s => str_ok s
  end
  && match pairing_to_data_frame msg with
     | Ok d => bool_decide (in_width 16 (df_channel d)) && bool_decide (zlen (df_payload d) < 2 ^ 64)
               && is_ok (encode_frame (Data d))
     | Err _ => false
     end.

Lemma sent_ok_spec msg : sent_ok msg = true → sent_as msg (wire_of msg).
Proof.
  unfold sent_ok. rewrite andb_true_iff. intros [Hm Hd]. split.
  - destruct msg; simpl in *; unfold str_ok in Hm;
      rewrite ?andb_true_iff, ?bool_decide_eq_true in Hm; [by destruct Hm as [[]]..|done|done].
  - unfold wire_of, bytes_of. destruct (pairing_to_data_frame msg) as [d|]; [|done].
    rewrite !andb_true_iff, !bool_decide_eq_true in Hd. destruct Hd as [[? ?] He].
    exists d. destruct (encode_frame (Data d)); [|done]. done.
Qed.

(** The checks on the messages of the demonstration, evaluated. *)
Definition demo_check : bool :=
  sent_ok (Request demo_init.2) &&
  match demo_resp with
  | Ok (s_r, resp, _) =>
    sent_ok (Response resp)
    && match confirm (initiator_receive_response resp 3 demo_init.1).2, confirm s_r with
       | Ok ci, Ok cr => sent_ok (Confirm ci) && sent_ok (Confirm cr)
       | _, _ => false
       end
  | Err _ => false
  end.
Lemma demo_check_ok : demo_check = true.
Proof. vm_compute. reflexivity. Qed.

Example pairing_over_wire_witness :
  ∃ s_r resp sas ci cr wi',
    demo_resp = Ok (s_r, resp, sas)
    ∧ execute_pairing true (AutoConfirm true) nonce_s 1 3
        (demo_a, world_of (conn (wire_of (Response resp) ++ wire_of (Confirm cr)) []) empty_store)
      = (Ok sas, (with_session_state STrusted demo_a, wi'))
    ∧ w_io wi' = conn [] (wire_of (Request demo_init.2) ++ wire_of (Confirm ci)).
Proof.
  pose proof demo_check_ok as Hd. unfold demo_check in Hd. apply andb_true_iff in Hd as [S1 Hd].
  destruct demo_resp as [[[s_r resp] sas]|] eqn:Er; [|discriminate].
  apply andb_true_iff in Hd as [S2 Hd].
  destruct (confirm (initiator_receive_response resp 3 demo_init.1).2) as [ci|] eqn:Hci; [|discriminate].
  destruct (confirm s_r) as [cr|] eqn:Hcr; [|discriminate]. apply andb_true_iff in Hd as [S3 S4].
  destruct (pairing_over_wire demo_a demo_b nonce_s nonce_c 1 2 3 demo_init.1 s_r demo_init.2 resp sas ci cr
    (AutoConfirm true) (AutoConfirm true)
    (world_of (conn (wire_of (Response resp) ++ wire_of (Confirm cr)) []) empty_store)
    (world_of (conn (wire_of (Request demo_init.2) ++ wire_of (Confirm ci)) []) empty_store)
    _ _ _ _ keys_differ eq_refl Er Hci Hcr eq_refl eq_refl (sent_ok_spec _ S1) (sent_ok_spec _ S2)
    (sent_ok_spec _ S3) (sent_ok_spec _ S4) eq_refl eq_refl
    (or_introl eq_refl) (or_introl eq_refl)) as (wi' & _ & E & _ & Hio & _).
  exists s_r, resp, sas, ci, cr, wi'. split; [reflexivity|]. split; [exact E|exact Hio].
Defined.

End Witnesses.
