(* ===== verification/Notifications.v ===== *)
(** * Notifications: [crates/bridge-notifications]

    Notification mirroring: the entries and messages ([types.rs]), the privacy
    policy ([policy.rs]), the deduplication guard ([guard.rs]) and the engine
    ([engine.rs]).  The engine's mutex-protected core is its state; the events it
    broadcasts are a log. *)
From S2P Require Import Prelude Text External Codec Core Protocol.

(** ** [error.rs] *)

Inductive NotificationError :=
| NSerialization (msg : string)
| NDeserialization (msg : string)
| NChannelMismatch (expected actual : u16)
| NPayloadTooLarge (size : usize)
| NotificationNotFound (id : string)
| NChannelClosed.

(** ** [types.rs] *)

Inductive NotificationUrgency := Low | Normal | High | Critical.
Inductive NotificationAction :=
| ADismiss | AOpen | AReply (text : string) | ACustom (label key : string).
Inductive NotificationState := Active | Dismissed | Expired.
#[global] Instance NotificationUrgency_eq_dec : EqDecision NotificationUrgency.
Proof. solve_decision. Defined.
#[global] Instance NotificationAction_eq_dec : EqDecision NotificationAction.
Proof. solve_decision. Defined.
#[global] Instance NotificationState_eq_dec : EqDecision NotificationState.
Proof. solve_decision. Defined.

(** The derived order. *)
Definition urgency_rank (u : NotificationUrgency) : Z :=
  match u with Low => 0 | Normal => 1 | High => 2 | Critical => 3 end.

Record NotificationEntry := {
  ne_origin : NodeId; ne_sequence : u64; ne_posted_at_ms : u64; ne_notification_id : string;
  ne_app_id : string; ne_app_name : string; ne_title : string; ne_text : string;
  ne_sub_text : option string; ne_urgency : NotificationUrgency; ne_state : NotificationState;
  ne_icon_hash : option (array 32); ne_icon_data : option (list byte); ne_is_ongoing : bool }.
#[global] Instance NotificationEntry_eq_dec : EqDecision NotificationEntry.
Proof. solve_decision. Defined.

Definition NotificationEntry_new (origin : NodeId) (sequence : u64)
    (notification_id app_id app_name title text : string) (urgency : NotificationUrgency)
    (now_ms : Z) : NotificationEntry := {|
  ne_origin := origin; ne_sequence := sequence;
  ne_posted_at_ms := if decide (now_ms < 2 ^ 64) then now_ms else 2 ^ 64 - 1;
  ne_notification_id := notification_id; ne_app_id := app_id; ne_app_name := app_name;
  ne_title := title; ne_text := text; ne_sub_text := None; ne_urgency := urgency;
  ne_state := Active; ne_icon_hash := None; ne_icon_data := None; ne_is_ongoing := false |}.

(** The walk back to a character boundary is [Text.walk_back]. *)
Definition truncate_str_bytes (s : string) (max_bytes : nat) : string := truncate_str s max_bytes.

Definition set_entry_state (s : NotificationState) (e : NotificationEntry) : NotificationEntry := {|
  ne_origin := ne_origin e; ne_sequence := ne_sequence e; ne_posted_at_ms := ne_posted_at_ms e;
  ne_notification_id := ne_notification_id e; ne_app_id := ne_app_id e; ne_app_name := ne_app_name e;
  ne_title := ne_title e; ne_text := ne_text e; ne_sub_text := ne_sub_text e;
  ne_urgency := ne_urgency e; ne_state := s; ne_icon_hash := ne_icon_hash e;
  ne_icon_data := ne_icon_data e; ne_is_ongoing := ne_is_ongoing e |}.

Section Types.
Context `{Blake3}.

Definition entry_compute_hash (self : NotificationEntry) : array 32 :=
  let hasher := b3_new in
  let hasher := b3_update hasher (arr (node_bytes (ne_origin self))) in
  let hasher := b3_update hasher (as_bytes (ne_notification_id self)) in
  let hasher := b3_update hasher (as_bytes (ne_app_id self)) in
  let hasher := b3_update hasher (as_bytes (ne_title self)) in
  let hasher := b3_update hasher (as_bytes (ne_text self)) in
  b3_finalize hasher.

Definition enforce_size_limits (self : NotificationEntry) : NotificationEntry :=
  let '(icon_data, icon_hash) :=
    match ne_icon_data self with
    | Some icon =>
      if decide (65536 < zlen icon) then
        let icon := take (Z.to_nat 65536) icon in
        (Some icon, Some (b3_finalize (b3_update b3_new icon)))
      else (Some icon, ne_icon_hash self)
    | None => (None, ne_icon_hash self)
    end in
  {| ne_origin := ne_origin self; ne_sequence := ne_sequence self;
     ne_posted_at_ms := ne_posted_at_ms self; ne_notification_id := ne_notification_id self;
     ne_app_id := ne_app_id self; ne_app_name := ne_app_name self;
     ne_title := truncate_str_bytes (ne_title self) 256;
     ne_text := truncate_str_bytes (ne_text self) 4096;
     ne_sub_text := ne_sub_text self; ne_urgency := ne_urgency self; ne_state := ne_state self;
     ne_icon_hash := icon_hash; ne_icon_data := icon_data; ne_is_ongoing := ne_is_ongoing self |}.
End Types.

Inductive NotificationMessage :=
| Post (e : NotificationEntry)
| Dismiss (origin : NodeId) (notification_id : string) (sequence : u64)
| ActionInvoked (origin : NodeId) (notification_id : string) (sequence : u64) (action : NotificationAction)
| ClearAll (origin : NodeId) (sequence : u64).

Section Messages.
Context `{Postcard NotificationMessage}.

Definition notification_to_data_frame (self : NotificationMessage) : result NotificationError DataFrame :=
  payload ← map_err NSerialization (to_allocvec self);
  Ok (DataFrame_new CHANNEL_NOTIFICATIONS payload).
Definition notification_from_data_frame (frame : DataFrame) : result NotificationError NotificationMessage :=
  if decide (df_channel frame ≠ CHANNEL_NOTIFICATIONS) then
    Err (NChannelMismatch CHANNEL_NOTIFICATIONS (df_channel frame))
  else map_err NDeserialization (from_bytes (df_payload frame)).
End Messages.

Definition message_origin (self : NotificationMessage) : NodeId :=
  match self with
  | Post e => ne_origin e
  | Dismiss origin _ _ | ActionInvoked origin _ _ _ | ClearAll origin _ => origin
  end.

(** ** [policy.rs] *)

Definition SENSITIVE_TITLE_KEYWORDS : list string := [
  "verification code"; "one-time password"; "otp:"; "2fa"; "two-factor"; "authentication code";
  "login code"; "security code";
  "transaction alert"; "payment received"; "payment sent"; "low balance"; "account balance";
  "bank alert"; "credit card"; "debit card"; "wire transfer";
  "1password"; "lastpass"; "bitwarden"; "dashlane"; "keepass"; "keychain";
  "medical record"; "prescription"; "lab result"; "health record" ].

Definition SENSITIVE_APP_IDS : list string := [
  "com.chase.sig.android"; "com.bankofamerica.mobile"; "com.wellsfargo.mobile";
  "com.barclays.android"; "uk.co.hsbc"; "com.ing.mobile";
  "com.google.android.apps.authenticator2"; "com.authy.authy"; "com.microsoft.authenticator";
  "com.lastpass.lastpassauthenticator";
  "com.agilebits.onepassword"; "com.lastpass.lpandroid"; "com.bitwarden.mobile"; "com.dashlane";
  "org.keepass2android";
  "com.apple.health"; "com.google.android.apps.fitness" ].

Record NotificationPolicy := {
  block_sensitive : bool; min_urgency : NotificationUrgency; max_payload_bytes : usize;
  block_ongoing : bool }.
Definition NotificationPolicy_default : NotificationPolicy := {|
  block_sensitive := true; min_urgency := Low; max_payload_bytes := 128 * 1024; block_ongoing := false |}.
Definition NotificationPolicy_strict : NotificationPolicy := {|
  block_sensitive := true; min_urgency := Normal; max_payload_bytes := 64 * 1024; block_ongoing := true |}.
Definition NotificationPolicy_permissive : NotificationPolicy := {|
  block_sensitive := true; min_urgency := Low; max_payload_bytes := 256 * 1024; block_ongoing := false |}.

Section Policy.
Context `{Lowercase}.

Definition is_sensitive_app (app_id : string) : bool :=
  let lower := to_lowercase app_id in existsb (str_contains lower) SENSITIVE_APP_IDS.

Definition has_sensitive_keywords (entry : NotificationEntry) : bool :=
  let title_lower := to_lowercase (ne_title entry) in
  let text_lower := to_lowercase (ne_text entry) in
  existsb (λ kw, str_contains title_lower kw || str_contains text_lower kw) SENSITIVE_TITLE_KEYWORDS.

Definition should_block (self : NotificationPolicy) (entry : NotificationEntry) : bool :=
  if decide (urgency_rank (ne_urgency entry) < urgency_rank (min_urgency self)) then true
  else if block_ongoing self && ne_is_ongoing entry then true
  else if block_sensitive self && is_sensitive_app (ne_app_id entry) then true
  else if block_sensitive self && has_sensitive_keywords entry then true
  else false.
End Policy.

(** ** [guard.rs] *)

Definition RING_CAPACITY : nat := 256.
Notation nkey := (string * string)%type.

Record NotificationGuard := {
  ng_seen_hashes : gmap nkey (array 32); ng_eviction_ring : list nkey;
  ng_states : gmap nkey NotificationState }.
Definition NotificationGuard_new : NotificationGuard :=
  {| ng_seen_hashes := ∅; ng_eviction_ring := []; ng_states := ∅ |}.

Section Guard.
Context `{Blake3, Hex}.

Definition origin_hex (n : NodeId) : string := hex_encode (arr (node_bytes n)).
Definition guard_key (entry : NotificationEntry) : nkey :=
  (origin_hex (ne_origin entry), ne_notification_id entry).

Definition is_duplicate (self : NotificationGuard) (entry : NotificationEntry) : bool :=
  match ng_seen_hashes self !! guard_key entry with
  | Some h => bool_decide (h = entry_compute_hash entry)
  | None => false
  end.

Definition is_dismissed (self : NotificationGuard) (origin id : string) : bool :=
  bool_decide (ng_states self !! (origin, id) = Some Dismissed).

Definition record_posted (entry : NotificationEntry) (self : NotificationGuard) : NotificationGuard :=
  let key := guard_key entry in
  let hash := entry_compute_hash entry in
  let self :=
    match ng_seen_hashes self !! key with
    | Some _ => self
    | None =>
      let self :=
        if decide (RING_CAPACITY ≤ length (ng_eviction_ring self))%nat then
          match ng_eviction_ring self with
          | oldest :: rest =>
            {| ng_seen_hashes := delete oldest (ng_seen_hashes self); ng_eviction_ring := rest;
               ng_states := delete oldest (ng_states self) |}
          | [] => self
          end
        else self in
      {| ng_seen_hashes := ng_seen_hashes self; ng_eviction_ring := ng_eviction_ring self ++ [key];
         ng_states := ng_states self |}
    end in
  {| ng_seen_hashes := <[key := hash]> (ng_seen_hashes self);
     ng_eviction_ring := ng_eviction_ring self;
     ng_states := <[key := Active]> (ng_states self) |}.

Definition record_dismissed (origin id : string) (self : NotificationGuard) : NotificationGuard :=
  {| ng_seen_hashes := delete (origin, id) (ng_seen_hashes self);
     ng_eviction_ring := ng_eviction_ring self;
     ng_states := alter (λ _, Dismissed) (origin, id) (ng_states self) |}.

Definition record_clear_all (origin : string) (self : NotificationGuard) : NotificationGuard :=
  {| ng_seen_hashes := filter (λ kv, kv.1.1 ≠ origin) (ng_seen_hashes self);
     ng_eviction_ring := ng_eviction_ring self;
     ng_states := map_imap (λ k s, Some (if decide (k.1 = origin) then Dismissed else s)) (ng_states self) |}.

Definition guard_len (self : NotificationGuard) : nat := size (ng_states self).
Definition guard_is_empty (self : NotificationGuard) : bool := bool_decide (ng_states self = ∅).
End Guard.

(** ** [engine.rs] *)

Inductive NotificationSyncEvent :=
| EvReceived (e : NotificationEntry)
| EvDismissed (origin id : string)
| EvClearedAll (origin : string)
| EvActionInvoked (origin id : string) (action : NotificationAction)
| EvPolicyBlocked (app_id id : string).

Record EngineInner := {
  ei_local_node_id : NodeId; ei_guard : NotificationGuard; ei_policy : NotificationPolicy;
  ei_active : gmap string (list NotificationEntry); ei_local_sequence : u64;
  ei_events : list NotificationSyncEvent }.

Definition EngineInner_new (local_node_id : NodeId) (policy : NotificationPolicy) : EngineInner := {|
  ei_local_node_id := local_node_id; ei_guard := NotificationGuard_new; ei_policy := policy;
  ei_active := ∅; ei_local_sequence := 0; ei_events := [] |}.

Definition with_core (g : NotificationGuard) (a : gmap string (list NotificationEntry)) (s : EngineInner) :
    EngineInner := {|
  ei_local_node_id := ei_local_node_id s; ei_guard := g; ei_policy := ei_policy s; ei_active := a;
  ei_local_sequence := ei_local_sequence s; ei_events := ei_events s |}.
(** [tx.send]. *)
Definition tx_send (ev : NotificationSyncEvent) (s : EngineInner) : EngineInner := {|
  ei_local_node_id := ei_local_node_id s; ei_guard := ei_guard s; ei_policy := ei_policy s;
  ei_active := ei_active s; ei_local_sequence := ei_local_sequence s;
  ei_events := ei_events s ++ [ev] |}.

(** [local_sequence += 1], as a release build wraps it. *)
Definition next_sequence (s : EngineInner) : u64 * EngineInner :=
  let n := as_u64 (ei_local_sequence s + 1) in
  (n, {| ei_local_node_id := ei_local_node_id s; ei_guard := ei_guard s; ei_policy := ei_policy s;
         ei_active := ei_active s; ei_local_sequence := n; ei_events := ei_events s |}).

Section NotificationEngine.
Context `{Blake3, Hex, Lowercase, Postcard NotificationMessage}.

(** [retain], [push] and the bound of a bucket. *)
Definition bucket_post (entry : NotificationEntry) (bucket : list NotificationEntry) : list NotificationEntry :=
  let bucket := filter (λ e, ne_notification_id e ≠ ne_notification_id entry) bucket in
  let bucket := bucket ++ [entry] in
  if decide (256 < length bucket)%nat then drop 1 bucket else bucket.
Definition bucket_dismiss (id : string) (bucket : list NotificationEntry) : list NotificationEntry :=
  map (λ e, if decide (ne_notification_id e = id) then set_entry_state Dismissed e else e) bucket.

Definition handle_post (entry : NotificationEntry) (inner : EngineInner) : EngineInner :=
  let entry := enforce_size_limits entry in
  if should_block (ei_policy inner) entry then
    tx_send (EvPolicyBlocked (ne_app_id entry) (ne_notification_id entry)) inner
  else if is_duplicate (ei_guard inner) entry then inner
  else
    let hex := origin_hex (ne_origin entry) in
    if is_dismissed (ei_guard inner) hex (ne_notification_id entry) then inner
    else
      let bucket := default [] (ei_active inner !! hex) in
      tx_send (EvReceived entry)
        (with_core (record_posted entry (ei_guard inner))
           (<[hex := bucket_post entry bucket]> (ei_active inner)) inner).

Definition handle_message (msg : NotificationMessage) (inner : EngineInner) : EngineInner :=
  match msg with
  | Post entry => handle_post entry inner
  | Dismiss origin id _ =>
    let hex := origin_hex origin in
    tx_send (EvDismissed hex id)
      (with_core (record_dismissed hex id (ei_guard inner))
         (alter (bucket_dismiss id) hex (ei_active inner)) inner)
  | ClearAll origin _ =>
    let hex := origin_hex origin in
    tx_send (EvClearedAll hex)
      (with_core (record_clear_all hex (ei_guard inner))
         (alter (map (set_entry_state Dismissed)) hex (ei_active inner)) inner)
  | ActionInvoked origin id _ action =>
    let hex := origin_hex origin in
    let inner :=
      match action with
      | ADismiss => with_core (record_dismissed hex id (ei_guard inner))
                      (alter (bucket_dismiss id) hex (ei_active inner)) inner
      | _ => inner
      end in
    tx_send (EvActionInvoked hex id action) inner
  end.

Definition notification_handle_frame (frame : DataFrame) : st EngineInner NotificationError unit := λ inner,
  match notification_from_data_frame frame with
  | Err e => (Err e, inner)
  | Ok msg => (Ok tt, handle_message msg inner)
  end.

Definition build_post (notification_id app_id app_name title text : string)
    (urgency : NotificationUrgency) (now_ms : Z) (inner : EngineInner) :
    option NotificationMessage * EngineInner :=
  let '(seq, inner) := next_sequence inner in
  let entry := NotificationEntry_new (ei_local_node_id inner) seq notification_id app_id app_name
                 title text urgency now_ms in
  let entry := enforce_size_limits entry in
  if should_block (ei_policy inner) entry then (None, inner) else (Some (Post entry), inner).

Definition build_dismiss (notification_id : string) (inner : EngineInner) : NotificationMessage * EngineInner :=
  let '(seq, inner) := next_sequence inner in
  (Dismiss (ei_local_node_id inner) notification_id seq, inner).
Definition build_clear_all (inner : EngineInner) : NotificationMessage * EngineInner :=
  let '(seq, inner) := next_sequence inner in
  (ClearAll (ei_local_node_id inner) seq, inner).
Definition build_action (notification_id : string) (action : NotificationAction) (inner : EngineInner) :
    NotificationMessage * EngineInner :=
  let '(seq, inner) := next_sequence inner in
  (ActionInvoked (ei_local_node_id inner) notification_id seq action, inner).

Definition active_notifications (origin : NodeId) (inner : EngineInner) : list NotificationEntry :=
  filter (λ e, ne_state e = Active) (default [] (ei_active inner !! origin_hex origin)).
End NotificationEngine.

(** ** Lemmas: the guard *)

Section GuardLemmas.
Context `{Blake3, Hex}.

(** The ring lists the tracked keys, each once and at most 256; a key has a hash on
    record exactly while its notification is active. *)
Definition nguard_ok (g : NotificationGuard) : Prop :=
  NoDup (ng_eviction_ring g) ∧ (length (ng_eviction_ring g) ≤ RING_CAPACITY)%nat
  ∧ (∀ k, k ∈ ng_eviction_ring g ↔ is_Some (ng_states g !! k))
  ∧ (∀ k, is_Some (ng_seen_hashes g !! k) ↔ ng_states g !! k = Some Active)
  ∧ (∀ k s, ng_states g !! k = Some s → s ≠ Expired).

Lemma nguard_ok_new : nguard_ok NotificationGuard_new.
Proof.
  split_and!; simpl; [constructor|lia|..]; intros k; try (intros s); rewrite ?lookup_empty; try done.
  all: split; [by intros ?%not_elem_of_nil || by intros []|done || by intros []].
Qed.

Lemma nguard_ok_size g : nguard_ok g → (guard_len g ≤ RING_CAPACITY)%nat.
Proof.
  intros (Hn & Hl & Hr & _). unfold guard_len.
  assert (dom (ng_states g) ⊆ list_to_set (ng_eviction_ring g)) as Hs.
  { intros k Hk%elem_of_dom. by apply elem_of_list_to_set, Hr. }
  apply subseteq_size in Hs. rewrite size_dom, size_list_to_set in Hs by done. lia.
Qed.

Lemma record_posted_ok entry g :
  nguard_ok g → is_dismissed g (guard_key entry).1 (guard_key entry).2 = false →
  nguard_ok (record_posted entry g)
  ∧ ng_seen_hashes (record_posted entry g) !! guard_key entry = Some (entry_compute_hash entry).
Proof.
  intros (Hn & Hl & Hr & Hh & He) Hd. unfold is_dismissed in Hd. apply bool_decide_eq_false in Hd.
  replace ((guard_key entry).1, (guard_key entry).2) with (guard_key entry) in Hd by done.
  split; [|apply lookup_insert_eq]. set (key := guard_key entry) in *. unfold record_posted. fold key.
  destruct (ng_seen_hashes g !! key) as [h|] eqn:Es.
  - assert (ng_states g !! key = Some Active) as Ha by (apply Hh; eauto).
    split_and!; simpl; [done|done|intros k|intros k|intros k s];
      (destruct (decide (k = key)) as [->|Hk];
       [rewrite ?lookup_insert_eq|rewrite ?lookup_insert_ne by done]); [|done| |done| |apply He].
    + rewrite Hr, Ha. done.
    + done.
    + intros ?. by simplify_eq.
  - assert (ng_states g !! key = None) as Hnone.
    { destruct (ng_states g !! key) as [[]|] eqn:E; [|done| |done].
      - destruct (proj2 (Hh key) E) as [? ?]. congruence.
      - by destruct (He _ _ E). }
    assert (key ∉ ng_eviction_ring g) as Hnin.
    { rewrite Hr, Hnone. by intros []. }
    assert (∀ ring seen states,
      NoDup ring → (length ring < RING_CAPACITY)%nat → key ∉ ring →
      (∀ k, k ∈ ring ↔ is_Some (states !! k)) → (∀ k, is_Some (seen !! k) ↔ states !! k = Some Active) →
      (∀ k s, states !! k = Some s → s ≠ Expired) →
      nguard_ok {| ng_seen_hashes := <[key := entry_compute_hash entry]> seen;
                   ng_eviction_ring := ring ++ [key]; ng_states := <[key := Active]> states |}) as Hadd.
    { intros ring seen states Hn' Hl' Hk' Hr' Hh' He'. split_and!; simpl.
      - apply NoDup_app. split_and!; [done| |apply NoDup_singleton].
        intros x Hx ->%list_elem_of_singleton. done.
      - rewrite length_app. simpl. lia.
      - intros k. rewrite elem_of_app, list_elem_of_singleton, Hr'.
        destruct (decide (k = key)) as [->|]; [rewrite lookup_insert_eq; naive_solver|].
        rewrite lookup_insert_ne by done. naive_solver.
      - intros k. destruct (decide (k = key)) as [->|]; [rewrite !lookup_insert_eq; naive_solver|].
        by rewrite !lookup_insert_ne by done.
      - intros k s. destruct (decide (k = key)) as [->|]; [rewrite lookup_insert_eq; naive_solver|].
        rewrite lookup_insert_ne by done. apply He'. }
    case_decide as Hf; [|apply Hadd; try done; lia].
    destruct (ng_eviction_ring g) as [|o rest] eqn:Er; [unfold RING_CAPACITY in Hf; simpl in Hf; lia|].
    apply NoDup_cons in Hn as [Ho Hn]. simpl in Hl |- *. apply Hadd; [done|lia| |..].
    + intros ?. apply Hnin. by right.
    + intros k. destruct (decide (k = o)) as [->|Hk].
      * rewrite lookup_delete_eq. split; [done|by intros []].
      * rewrite lookup_delete_ne by done. rewrite <-Hr, elem_of_cons. naive_solver.
    + intros k. destruct (decide (k = o)) as [->|Hk].
      * rewrite !lookup_delete_eq. split; [by intros []|done].
      * by rewrite !lookup_delete_ne by done.
    + intros k s. destruct (decide (k = o)) as [->|Hk]; [by rewrite lookup_delete_eq|].
      rewrite lookup_delete_ne by done. apply He.
Qed.

Lemma record_dismissed_ok o id g : nguard_ok g → nguard_ok (record_dismissed o id g).
Proof.
  intros (Hn & Hl & Hr & Hh & He). split_and!; simpl; [done|done|intros k|intros k|intros k s];
    (destruct (decide (k = (o, id))) as [->|Hk];
     [rewrite ?lookup_alter_eq, ?lookup_delete_eq|rewrite ?lookup_alter_ne, ?lookup_delete_ne by done]);
    [|apply Hr| |apply Hh| |apply He].
  - by rewrite Hr, fmap_is_Some.
  - split; [by intros []|by intros (? & _ & ?)%fmap_Some].
  - by intros (? & _ & ->)%fmap_Some.
Qed.

Lemma record_clear_all_ok o g : nguard_ok g → nguard_ok (record_clear_all o g).
Proof.
  intros (Hn & Hl & Hr & Hh & He). split_and!; simpl; [done|done|..].
  - intros k. rewrite Hr, map_lookup_imap. destruct (ng_states g !! k); simpl; naive_solver.
  - intros k. rewrite map_lookup_imap. rewrite map_lookup_filter.
    pose proof (Hh k) as Hk. destruct (ng_states g !! k) as [s|]; destruct (ng_seen_hashes g !! k) as [h|]; simpl in *;
      repeat case_guard; repeat case_decide; simpl in *; naive_solver.
  - intros k s. rewrite map_lookup_imap. destruct (ng_states g !! k) as [s'|] eqn:E; [|done]. simpl.
    case_decide; intros; simplify_eq; [done|]. by apply (He k).
Qed.
End GuardLemmas.


(** ** Lemmas: the engine *)

Section EngineLemmas.
Context `{Blake3, Hex, Lowercase}.

(** An entry within the wire limits. *)
Definition size_limited (e : NotificationEntry) : Prop :=
  (length (as_bytes (ne_title e)) ≤ 256)%nat ∧ (length (as_bytes (ne_text e)) ≤ 4096)%nat
  ∧ (∀ icon, ne_icon_data e = Some icon → zlen icon ≤ 65536).

Definition entry_allowed (p : NotificationPolicy) (e : NotificationEntry) : Prop :=
  size_limited e ∧ should_block p e = false.

Lemma enforce_size_limits_limited e : size_limited (enforce_size_limits e).
Proof.
  unfold enforce_size_limits. destruct (ne_icon_data e) as [icon|]; [case_decide|];
    (split_and!; simpl; [apply truncate_str_len..|intros i [=]; subst]).
  - unfold zlen. rewrite length_take. lia.
  - lia.
Qed.

Lemma enforce_size_limits_key e :
  ne_origin (enforce_size_limits e) = ne_origin e
  ∧ ne_notification_id (enforce_size_limits e) = ne_notification_id e.
Proof. unfold enforce_size_limits. by repeat case_match; simplify_eq/=. Qed.

Lemma entry_allowed_state p s e : entry_allowed p (set_entry_state s e) ↔ entry_allowed p e.
Proof. done. Qed.

(** A bucket of origin [hex]: at most 256 entries of that origin, no id twice, each
    within limits and allowed by the policy, and those the guard holds as dismissed
    not shown as active. *)
Definition bucket_ok (p : NotificationPolicy) (g : NotificationGuard) (hex : string)
    (b : list NotificationEntry) : Prop :=
  (length b ≤ 256)%nat ∧ NoDup (ne_notification_id <$> b)
  ∧ ∀ e, e ∈ b → origin_hex (ne_origin e) = hex ∧ entry_allowed p e
      ∧ (is_dismissed g hex (ne_notification_id e) = true → ne_state e = Dismissed).

Definition engine_ok (s : EngineInner) : Prop :=
  nguard_ok (ei_guard s)
  ∧ (∀ hex b, ei_active s !! hex = Some b → bucket_ok (ei_policy s) (ei_guard s) hex b)
  ∧ (∀ e, EvReceived e ∈ ei_events s → entry_allowed (ei_policy s) e).

Lemma engine_ok_new local p : engine_ok (EngineInner_new local p).
Proof.
  split_and!; [apply nguard_ok_new|intros ??; simpl; by rewrite lookup_empty|].
  intros e ?%not_elem_of_nil. done.
Qed.

Lemma bucket_ok_nil p g hex : bucket_ok p g hex [].
Proof. split_and!; simpl; [lia|constructor|intros e ?%not_elem_of_nil; done]. Qed.

Lemma is_dismissed_true g o id : is_dismissed g o id = true ↔ ng_states g !! (o, id) = Some Dismissed.
Proof. apply bool_decide_eq_true. Qed.

(** Delivering a notification marks no other one as dismissed. *)
Lemma record_posted_dismissed e g o id :
  is_dismissed (record_posted e g) o id = true →
  (o, id) ≠ guard_key e ∧ is_dismissed g o id = true.
Proof.
  rewrite !is_dismissed_true. unfold record_posted. cbn.
  destruct (decide ((o, id) = guard_key e)) as [->|Hk]; [by rewrite lookup_insert_eq|].
  rewrite lookup_insert_ne by done. intros Hs. split; [done|]. revert Hs.
  repeat case_match; simpl; try done. rewrite lookup_delete_Some. naive_solver.
Qed.

(** Editing the states of entries keeps a bucket in order. *)
Lemma bucket_ok_map p g g' hex f b :
  bucket_ok p g hex b →
  (∀ e, f e = e ∨ f e = set_entry_state Dismissed e) →
  (∀ e, e ∈ b → is_dismissed g' hex (ne_notification_id e) = true →
     is_dismissed g hex (ne_notification_id e) = true ∨ f e = set_entry_state Dismissed e) →
  bucket_ok p g' hex (map f b).
Proof.
  intros (Hl & Hn & Hb) Hf Hd. split_and!.
  - by rewrite length_map.
  - replace (ne_notification_id <$> map f b) with (ne_notification_id <$> b); [done|].
    change (map f b) with (f <$> b). rewrite <-list_fmap_compose. apply list_fmap_ext. intros i e _.
    simpl. by destruct (Hf e) as [->| ->].
  - intros e' (e & -> & He)%list_elem_of_fmap. destruct (Hb e He) as (Ho & Ha & Hs).
    destruct (Hf e) as [Hfe|Hfe]; rewrite Hfe; [|done].
    split_and!; [done|done|]. intros Hx. destruct (Hd e He Hx) as [Hx'|Hx']; [by apply Hs|].
    by rewrite <-Hfe, Hx'.
Qed.

Lemma bucket_post_ok p g hex e b :
  bucket_ok p g hex b → origin_hex (ne_origin e) = hex → entry_allowed p e →
  bucket_ok p (record_posted e g) hex (bucket_post e b).
Proof.
  intros (Hl & Hn & Hb) Ho Ha. unfold bucket_post.
  set (kept := filter _ b).
  assert (∀ x, x ∈ kept → x ∈ b ∧ ne_notification_id x ≠ ne_notification_id e) as Hkept.
  { intros x [? ?]%list_elem_of_filter. done. }
  assert (length kept ≤ 256)%nat as Hkl.
  { unfold kept. pose proof (length_filter (λ x, ne_notification_id x ≠ ne_notification_id e) b). lia. }
  assert (NoDup (ne_notification_id <$> kept ++ [e])) as Hkn.
  { rewrite fmap_app. apply NoDup_app. split_and!; [|intros i (x & -> & Hx)%list_elem_of_fmap|apply NoDup_singleton].
    - eapply sublist_NoDup; [done|]. apply fmap_sublist, sublist_filter.
    - intros (y & Hy & ->%list_elem_of_singleton)%list_elem_of_fmap. by apply (Hkept x). }
  assert (∀ x, x ∈ kept ++ [e] → origin_hex (ne_origin x) = hex ∧ entry_allowed p x
      ∧ (is_dismissed (record_posted e g) hex (ne_notification_id x) = true → ne_state x = Dismissed)) as Hall.
  { intros x [Hx| ->%list_elem_of_singleton]%elem_of_app.
    - destruct (Hkept _ Hx) as [Hxb _]. destruct (Hb x Hxb) as (? & ? & Hs).
      split_and!; [done|done|]. intros [_ Hd]%record_posted_dismissed. by apply Hs.
    - split_and!; [done|done|]. intros [Hk _]%record_posted_dismissed. destruct Hk. unfold guard_key. congruence. }
  assert (length (kept ++ [e]) ≤ 257)%nat as Hl' by (rewrite length_app; simpl; lia).
  case_decide; [|split_and!; [lia|done|done]].
  split_and!; [rewrite length_drop; lia| |].
  - rewrite fmap_drop. eapply sublist_NoDup; [done|]. apply sublist_drop.
  - intros x Hx. apply Hall. by apply (subseteq_drop 1).
Qed.

Lemma tx_send_ok ev s :
  engine_ok s → (∀ e, ev = EvReceived e → entry_allowed (ei_policy s) e) → engine_ok (tx_send ev s).
Proof.
  intros (Hg & Ha & He) Hev. split_and!; [done|done|].
  intros e [Hx|Hx%list_elem_of_singleton]%elem_of_app; [by apply He|by apply Hev].
Qed.

(** Dismissals: the guard's and the bucket's edits agree. *)
Lemma dismissal_ok g' f hex s :
  engine_ok s → nguard_ok g' →
  (∀ e, f e = e ∨ f e = set_entry_state Dismissed e) →
  (∀ o id, o ≠ hex → is_dismissed g' o id = true → is_dismissed (ei_guard s) o id = true) →
  (∀ e, is_dismissed g' hex (ne_notification_id e) = true →
     is_dismissed (ei_guard s) hex (ne_notification_id e) = true ∨ f e = set_entry_state Dismissed e) →
  engine_ok (with_core g' (alter (map f) hex (ei_active s)) s).
Proof.
  intros (Hg & Ha & He) Hg' Hf Ho Hd. split_and!; [done| |done].
  intros h b. cbn. destruct (decide (h = hex)) as [->|Hh].
  - rewrite lookup_alter_eq. intros (b0 & Hb & ->)%fmap_Some.
    eapply bucket_ok_map; [by apply Ha|done|]. intros e _. apply Hd.
  - rewrite lookup_alter_ne by done. intros (Hl & Hn & Hb)%Ha. split_and!; [done|done|].
    intros e (? & ? & Hs)%Hb. split_and!; [done|done|]. intros Hx%Ho; [by apply Hs|done].
Qed.

Lemma record_dismissed_is hex id g o i :
  is_dismissed (record_dismissed hex id g) o i = true →
  is_dismissed g o i = true ∨ (o, i) = (hex, id).
Proof.
  rewrite !is_dismissed_true. cbn. destruct (decide ((o, i) = (hex, id))) as [->|Hk]; [by right|].
  rewrite lookup_alter_ne by done. by left.
Qed.

Lemma record_clear_all_is hex g o i :
  is_dismissed (record_clear_all hex g) o i = true → is_dismissed g o i = true ∨ o = hex.
Proof.
  rewrite !is_dismissed_true. cbn. rewrite map_lookup_imap.
  intros (st & Hs & Hd)%bind_Some. simpl in Hd. case_decide; [by right|left; congruence].
Qed.

Lemma dismiss_ok hex id s :
  engine_ok s →
  engine_ok (with_core (record_dismissed hex id (ei_guard s)) (alter (bucket_dismiss id) hex (ei_active s)) s).
Proof.
  intros Hs. apply (dismissal_ok _ (λ e, if decide (ne_notification_id e = id) then _ else e)); [done|..].
  - apply record_dismissed_ok, Hs.
  - intros e. case_decide; auto.
  - intros o i Ho [?|[=]]%record_dismissed_is; done.
  - intros e [?|[=]]%record_dismissed_is; [by left|right]. by rewrite decide_True.
Qed.

Lemma handle_message_ok msg s : engine_ok s → engine_ok (handle_message msg s).
Proof.
  intros Hs. destruct msg as [entry|o id q|o id q action|o q]; simpl.
  - unfold handle_post. set (e := enforce_size_limits entry).
    destruct (should_block (ei_policy s) e) eqn:Hb; [by apply tx_send_ok|].
    destruct (is_duplicate (ei_guard s) e) eqn:Hdup; [done|].
    destruct (is_dismissed (ei_guard s) _ _) eqn:Hdis; [done|].
    assert (entry_allowed (ei_policy s) e) as Hall by (split; [apply enforce_size_limits_limited|done]).
    apply tx_send_ok; [|intros ? [=]; by subst]. destruct Hs as (Hg & Ha & He).
    split_and!; [by apply record_posted_ok| |done]. intros h b. cbn.
    destruct (decide (h = origin_hex (ne_origin e))) as [->|Hh].
    + rewrite lookup_insert_eq. intros [= <-]. apply bucket_post_ok; [|done|done].
      destruct (ei_active s !! origin_hex (ne_origin e)) as [b|] eqn:Eb; [by apply Ha|apply bucket_ok_nil].
    + rewrite lookup_insert_ne by done. intros (Hl & Hn & Hx)%Ha. split_and!; [done|done|].
      intros x (? & ? & Hd)%Hx. split_and!; [done|done|]. intros [_ ?]%record_posted_dismissed. by apply Hd.
  - apply tx_send_ok; [by apply dismiss_ok|done].
  - apply tx_send_ok; [|done]. destruct action; [by apply dismiss_ok|done..].
  - apply tx_send_ok; [|done]. apply dismissal_ok; [done|apply record_clear_all_ok, Hs|auto..].
    intros o' i Ho [?|?]%record_clear_all_is; done.
Qed.

Definition handle_messages (msgs : list NotificationMessage) (s : EngineInner) : EngineInner :=
  foldl (λ s msg, handle_message msg s) s msgs.

Lemma handle_messages_ok msgs s : engine_ok s → engine_ok (handle_messages msgs s).
Proof. revert s. induction msgs as [|m l IH]; simpl; intros s Hs; [done|]. by apply IH, handle_message_ok. Qed.

Lemma handle_message_frame msg s :
  ei_policy (handle_message msg s) = ei_policy s
  ∧ ei_local_node_id (handle_message msg s) = ei_local_node_id s.
Proof.
  destruct msg as [e|o id q|o id q a|o q]; simpl; [unfold handle_post; by repeat case_match|done| |done].
  by destruct a.
Qed.

Lemma active_notifications_ok s o e :
  engine_ok s → e ∈ active_notifications o s →
  origin_hex (ne_origin e) = origin_hex o ∧ entry_allowed (ei_policy s) e ∧ ne_state e = Active
  ∧ is_dismissed (ei_guard s) (origin_hex o) (ne_notification_id e) = false.
Proof.
  intros (_ & Ha & _) [Hst Hin]%list_elem_of_filter.
  destruct (ei_active s !! origin_hex o) as [b|] eqn:Eb; [|by apply not_elem_of_nil in Hin].
  destruct (Ha _ _ Eb) as (_ & _ & Hb). destruct (Hb e Hin) as (? & ? & Hd).
  split_and!; [done|done|done|]. apply not_true_is_false. intros ?%Hd. congruence.
Qed.

Lemma active_notifications_bound s o :
  engine_ok s → (length (active_notifications o s) ≤ 256)%nat
  ∧ NoDup (ne_notification_id <$> active_notifications o s).
Proof.
  intros (_ & Ha & _). unfold active_notifications.
  assert (bucket_ok (ei_policy s) (ei_guard s) (origin_hex o) (default [] (ei_active s !! origin_hex o)))
    as (Hl & Hn & _).
  { destruct (ei_active s !! origin_hex o) eqn:E; [by apply Ha|apply bucket_ok_nil]. }
  split.
  - etrans; [apply length_filter|done].
  - eapply sublist_NoDup; [done|]. apply fmap_sublist, sublist_filter.
Qed.

Lemma handle_messages_policy msgs local p :
  ei_policy (handle_messages msgs (EngineInner_new local p)) = p.
Proof.
  assert (∀ s, ei_policy (handle_messages msgs s) = ei_policy s) as Hm; [|by rewrite Hm].
  induction msgs as [|m l IH]; intros s; [done|]. simpl. rewrite IH. apply handle_message_frame.
Qed.

(** *** How long the guard remembers a notification *)

(** [key] survives at least [n] more deliveries. *)
Definition outlives (n : nat) (key : nkey) (g : NotificationGuard) : Prop :=
  ∃ pre post, ng_eviction_ring g = pre ++ key :: post
    ∧ (n + length (ng_eviction_ring g) ≤ length pre + RING_CAPACITY)%nat.

Lemma outlives_fresh e g :
  nguard_ok g → ng_states g !! guard_key e = None → outlives 255 (guard_key e) (record_posted e g).
Proof.
  intros (Hn & Hl & Hr & Hh & He) Hk. unfold record_posted, outlives.
  destruct (ng_seen_hashes g !! guard_key e) as [h|] eqn:Es.
  { assert (ng_states g !! guard_key e = Some Active) by (apply Hh; eauto). congruence. }
  unfold RING_CAPACITY in *. case_decide; [destruct (ng_eviction_ring g) as [|x rest]; simpl in *; [lia|]|];
    simpl; eexists _, []; (split; [done|]); rewrite length_app; simpl; lia.
Qed.

Lemma outlives_posted n key e g :
  nguard_ok g → outlives (S n) key g → outlives n key (record_posted e g)
  ∧ (key ≠ guard_key e → ng_states (record_posted e g) !! key = ng_states g !! key).
Proof.
  intros (Hn & Hl & _) (pre & post & Hr & Hs). unfold record_posted.
  destruct (ng_seen_hashes g !! guard_key e) as [h|]; simpl.
  { split; [exists pre, post; split; [done|]; simpl; lia|]. intros ?. by rewrite lookup_insert_ne. }
  case_decide as Hf.
  - destruct pre as [|x pre]; rewrite Hr in Hs, Hf, Hn |- *; [simpl in *; unfold RING_CAPACITY in *; lia|].
    simpl. split.
    + exists pre, (post ++ [guard_key e]). simpl. split; [by rewrite <-app_assoc|].
      simpl in Hs. rewrite !length_app in *. simpl in *. lia.
    + intros ?. rewrite lookup_insert_ne by done. rewrite lookup_delete_ne; [done|]. intros ->.
      apply NoDup_cons in Hn as [Hn _]. apply Hn, elem_of_app. right. by left.
  - simpl. split.
    + exists pre, (post ++ [guard_key e]). simpl. rewrite Hr. split; [by rewrite <-app_assoc|].
      rewrite Hr in Hs. rewrite length_app. simpl. lia.
    + intros ?. by rewrite lookup_insert_ne.
Qed.

Lemma handle_message_remembers n o id msg s :
  engine_ok s → outlives (S n) (o, id) (ei_guard s) → is_dismissed (ei_guard s) o id = true →
  outlives n (o, id) (ei_guard (handle_message msg s))
  ∧ is_dismissed (ei_guard (handle_message msg s)) o id = true.
Proof.
  intros (Hg & _) Ho Hd.
  assert (∀ g, ng_eviction_ring g = ng_eviction_ring (ei_guard s) → outlives n (o, id) g) as Hmono.
  { destruct Ho as (pre & post & Hr & Hs). intros g Hg'. exists pre, post. rewrite Hg'. split; [done|lia]. }
  assert (∀ h i, is_dismissed (record_dismissed h i (ei_guard s)) o id = true) as Hdis.
  { intros h i. apply is_dismissed_true in Hd. apply is_dismissed_true. cbn.
    destruct (decide ((o, id) = (h, i))) as [<-|]; [by rewrite lookup_alter_eq; rewrite Hd|].
    by rewrite lookup_alter_ne by done. }
  destruct msg as [entry|o' i q|o' i q a|o' q]; simpl.
  - unfold handle_post. set (e := enforce_size_limits entry).
    destruct (should_block _ _); [split; [by apply Hmono|done]|].
    destruct (is_duplicate _ _); [split; [by apply Hmono|done]|].
    destruct (is_dismissed (ei_guard s) (origin_hex (ne_origin e)) (ne_notification_id e)) eqn:Hde; [split; [by apply Hmono|done]|].
    cbn. destruct (outlives_posted n (o, id) e (ei_guard s)) as [? Hst]; [done|done|]. split; [done|].
    apply is_dismissed_true. rewrite Hst; [by apply is_dismissed_true|].
    intros Heq. unfold guard_key in Heq. simplify_eq. congruence.
  - split; [by apply Hmono|apply Hdis].
  - destruct a; (split; [by apply Hmono|]); first [apply Hdis|done].
  - split; [by apply Hmono|]. apply is_dismissed_true in Hd. apply is_dismissed_true. cbn.
    rewrite map_lookup_imap, Hd. simpl. by case_decide.
Qed.

Lemma handle_messages_remembers o id msgs s :
  engine_ok s → outlives (length msgs) (o, id) (ei_guard s) → is_dismissed (ei_guard s) o id = true →
  is_dismissed (ei_guard (handle_messages msgs s)) o id = true.
Proof.
  revert s. induction msgs as [|m l IH]; simpl; intros s Hs Ho Hd; [done|].
  destruct (handle_message_remembers (length l) o id m s) as [? ?]; [done..|].
  apply IH; [by apply handle_message_ok|done|done].
Qed.
End EngineLemmas.

(** ** The Postcard format of the messages *)

#[global] Instance NotificationAction_valid : Valid NotificationAction := λ a,
  match a with
  | ADismiss | AOpen => True
  | AReply t => valid_str t
  | ACustom l k => valid_str l ∧ valid_str k
  end.
#[global] Instance NotificationEntry_valid : Valid NotificationEntry := λ e,
  in_width 64 (ne_sequence e) ∧ in_width 64 (ne_posted_at_ms e) ∧ valid_str (ne_notification_id e)
  ∧ valid_str (ne_app_id e) ∧ valid_str (ne_app_name e) ∧ valid_str (ne_title e) ∧ valid_str (ne_text e)
  ∧ match ne_sub_text e with Some t => valid_str t | None => True end
  ∧ match ne_icon_data e with Some d => zlen d < 2 ^ 64 | None => True end.
#[global] Instance NotificationMessage_valid : Valid NotificationMessage := λ m,
  match m with
  | Post e => valid e
  | Dismiss _ i s => valid_str i ∧ in_width 64 s
  | ActionInvoked _ i s a => valid_str i ∧ in_width 64 s ∧ valid a
  | ClearAll _ s => in_width 64 s
  end.

Definition c_urgency : codec NotificationUrgency :=
  c_iso (λ x, match x with inl _ => Low | inr (inl _) => Normal | inr (inr (inl _)) => High
              | inr (inr (inr _)) => Critical end)
    (λ u, match u with Low => inl tt | Normal => inr (inl tt) | High => inr (inr (inl tt))
          | Critical => inr (inr (inr tt)) end)
    (c_alt 0 c_unit (c_alt 1 c_unit (c_alt 2 c_unit (c_last 3 c_unit)))).
Definition c_nstate : codec NotificationState :=
  c_iso (λ x, match x with inl _ => Active | inr (inl _) => Dismissed | inr (inr _) => Expired end)
    (λ s, match s with Active => inl tt | Dismissed => inr (inl tt) | Expired => inr (inr tt) end)
    (c_alt 0 c_unit (c_alt 1 c_unit (c_last 2 c_unit))).
Definition c_action : codec NotificationAction :=
  c_iso (λ x, match x with inl _ => ADismiss | inr (inl _) => AOpen | inr (inr (inl t)) => AReply t
              | inr (inr (inr (l, k))) => ACustom l k end)
    (λ a, match a with ADismiss => inl tt | AOpen => inr (inl tt) | AReply t => inr (inr (inl t))
          | ACustom l k => inr (inr (inr (l, k))) end)
    (c_alt 0 c_unit (c_alt 1 c_unit (c_alt 2 c_string (c_last 3 (c_pair c_string c_string))))).
Definition c_nentry : codec NotificationEntry :=
  c_iso (λ '(o, (s, (p, (i, (a, (n, (t, (x, (u, (g, (st, (h, (d, b))))))))))))),
           Build_NotificationEntry o s p i a n t x u g st h d b)
    (λ e, (ne_origin e, (ne_sequence e, (ne_posted_at_ms e, (ne_notification_id e, (ne_app_id e,
             (ne_app_name e, (ne_title e, (ne_text e, (ne_sub_text e, (ne_urgency e, (ne_state e,
             (ne_icon_hash e, (ne_icon_data e, ne_is_ongoing e))))))))))))))
    (c_pair c_node_id (c_pair (varint 64) (c_pair (varint 64) (c_pair c_string (c_pair c_string
      (c_pair c_string (c_pair c_string (c_pair c_string (c_pair (c_option c_string) (c_pair c_urgency
      (c_pair c_nstate (c_pair (c_option (c_raw 32)) (c_pair (c_option c_bytes) c_bool))))))))))))).
Definition c_notification : codec NotificationMessage :=
  c_iso (λ x, match x with inl e => Post e | inr (inl (o, (i, s))) => Dismiss o i s
              | inr (inr (inl (o, (i, (s, a))))) => ActionInvoked o i s a
              | inr (inr (inr (o, s))) => ClearAll o s end)
    (λ m, match m with Post e => inl e | Dismiss o i s => inr (inl (o, (i, s)))
          | ActionInvoked o i s a => inr (inr (inl (o, (i, (s, a)))))
          | ClearAll o s => inr (inr (inr (o, s))) end)
    (c_alt 0 c_nentry (c_alt 1 (c_pair c_node_id (c_pair c_string (varint 64)))
      (c_alt 2 (c_pair c_node_id (c_pair c_string (c_pair (varint 64) c_action)))
        (c_last 3 (c_pair c_node_id (varint 64)))))).

Lemma c_urgency_ok : codec_ok c_urgency (λ _, True).
Proof. eapply c_iso_ok; [codec_solve; eauto with bridge|by intros []|by intros []|done]. Qed.
Lemma c_nstate_ok : codec_ok c_nstate (λ _, True).
Proof. eapply c_iso_ok; [codec_solve; eauto with bridge|by intros []|by intros []|done]. Qed.
Lemma c_action_ok : codec_ok c_action valid.
Proof.
  eapply c_iso_ok; [codec_solve; eauto with bridge|by intros []|by intros []|].
  by intros [?|[?|[?|[? ?]]]].
Qed.
#[export] Hint Resolve c_urgency_ok c_nstate_ok c_action_ok : bridge.
Lemma c_nentry_ok : codec_ok c_nentry valid.
Proof.
  eapply c_iso_ok; [codec_solve; eauto with bridge|by intros []| |].
  - intros e (?&?&(?&?)&(?&?)&(?&?)&(?&?)&(?&?)&?&?). simpl. split_and!; try done.
    by destruct (ne_icon_hash e).
  - intros (?&?&?&?&?&?&?&?&?&?&?&?&?&?); simpl.
    unfold valid, NotificationEntry_valid. simpl. intros; destruct_and?. by split_and!.
Qed.
#[export] Hint Resolve c_nentry_ok : bridge.
Lemma c_notification_ok : codec_ok c_notification valid.
Proof.
  eapply c_iso_ok; [codec_solve; eauto with bridge|by intros []| |].
  - by intros []; simpl; intros; destruct_and?.
  - by intros [?|[(?&?&?)|[(?&?&?&?)|[? ?]]]]; simpl; intros; destruct_and?.
Qed.

Module NotificationWire.
#[export] Instance notification_postcard : Postcard NotificationMessage := codec_postcard c_notification.
#[export] Instance notification_laws : PostcardLaws NotificationMessage :=
  codec_postcard_laws _ c_notification_ok.
(** On ASCII text, which the witnesses use, lower-casing is bytewise. *)
#[export] Instance ascii_lowercase : Lowercase := to_ascii_lowercase.
End NotificationWire.

(** ** Lemmas for the exchange *)

Section ExchangeLemmas.
Context `{Blake3, Hex, Lowercase}.

Lemma notification_frame_roundtrip `{PostcardLaws NotificationMessage} msg :
  valid msg → ∃ f, notification_to_data_frame msg = Ok f ∧ notification_from_data_frame f = Ok msg.
Proof.
  intros (bs & E & D)%postcard_roundtrip. exists (DataFrame_new CHANNEL_NOTIFICATIONS bs).
  unfold notification_to_data_frame, notification_from_data_frame. rewrite E. simpl. by rewrite D.
Qed.

Lemma enforce_size_limits_idemp e : enforce_size_limits (enforce_size_limits e) = enforce_size_limits e.
Proof.
  unfold enforce_size_limits, truncate_str_bytes. destruct (ne_icon_data e) as [icon|]; simpl.
  - case_decide as Hd; simpl; rewrite ?truncate_str_idemp; [|by rewrite decide_False].
    rewrite decide_False; [done|]. unfold zlen. rewrite length_take. lia.
  - by rewrite !truncate_str_idemp.
Qed.

(** A post of a new notification: delivered, remembered and listed. *)
Lemma handle_post_fresh e s :
  engine_ok s → enforce_size_limits e = e → should_block (ei_policy s) e = false →
  ng_states (ei_guard s) !! guard_key e = None →
  let s' := handle_message (Post e) s in
  ei_events s' = ei_events s ++ [EvReceived e] ∧ ei_guard s' = record_posted e (ei_guard s)
  ∧ (∃ rest, ei_active s' !! origin_hex (ne_origin e) = Some (rest ++ [e])).
Proof.
  intros (Hg & _) He Hb Hk. simpl. unfold handle_post. rewrite He, Hb.
  assert (is_duplicate (ei_guard s) e = false) as ->.
  { unfold is_duplicate. destruct (ng_seen_hashes _ !! _) eqn:Es; [|done].
    destruct Hg as (_ & _ & _ & Hh & _). assert (ng_states (ei_guard s) !! guard_key e = Some Active)
      by (apply Hh; eauto). congruence. }
  assert (is_dismissed (ei_guard s) (origin_hex (ne_origin e)) (ne_notification_id e) = false) as ->.
  { apply bool_decide_eq_false. unfold guard_key in Hk. by rewrite Hk. }
  cbn. split_and!; [done|done|]. rewrite lookup_insert_eq. unfold bucket_post.
  case_decide as Hl; [|by eexists].
  set (kept := filter _ _) in *. rewrite length_app in Hl. simpl in Hl.
  exists (drop 1 kept). rewrite drop_app_le by lia. done.
Qed.

(** After a dismissal of a tracked notification its id is held as dismissed. *)
Lemma dismiss_marks o id q s :
  is_Some (ng_states (ei_guard s) !! (origin_hex o, id)) →
  is_dismissed (ei_guard (handle_message (Dismiss o id q) s)) (origin_hex o) id = true.
Proof.
  intros [st Hst]. apply is_dismissed_true. cbn. rewrite lookup_alter_eq, Hst. done.
Qed.

Lemma handle_post_dismissed e s :
  is_dismissed (ei_guard s) (origin_hex (ne_origin e)) (ne_notification_id e) = true →
  handle_message (Post e) s = s ∨
  handle_message (Post e) s = tx_send (EvPolicyBlocked (ne_app_id (enforce_size_limits e)) (ne_notification_id e)) s.
Proof.
  intros Hd. simpl. unfold handle_post.
  destruct (enforce_size_limits_key e) as [Ho Hi]. rewrite Ho, Hi, Hd. repeat case_match; auto.
Qed.

Lemma guard_key_enforce e : guard_key (enforce_size_limits e) = guard_key e.
Proof. destruct (enforce_size_limits_key e) as [Ho Hi]. unfold guard_key. by rewrite Ho, Hi. Qed.

Lemma handle_post_enforce e s : handle_message (Post (enforce_size_limits e)) s = handle_message (Post e) s.
Proof. simpl. unfold handle_post. by rewrite enforce_size_limits_idemp. Qed.

Lemma fresh_dismissal_remembered e q after s :
  engine_ok s → should_block (ei_policy s) (enforce_size_limits e) = false →
  ng_states (ei_guard s) !! guard_key e = None → (length after ≤ 255)%nat →
  is_dismissed (ei_guard (handle_messages after
      (handle_message (Dismiss (ne_origin e) (ne_notification_id e) q) (handle_message (Post e) s))))
    (origin_hex (ne_origin e)) (ne_notification_id e) = true.
Proof.
  intros Hs Hb Hk Hl. rewrite <-handle_post_enforce. set (e' := enforce_size_limits e).
  rewrite <-guard_key_enforce in Hk. fold e' in Hk, Hb.
  destruct (handle_post_fresh e' s Hs (enforce_size_limits_idemp e) Hb Hk) as (_ & Hg & _).
  assert (guard_key e' = (origin_hex (ne_origin e), ne_notification_id e)) as He by apply guard_key_enforce.
  set (s1 := handle_message (Post e') s) in *. set (s2 := handle_message (Dismiss _ _ q) s1).
  assert (outlives 255 (guard_key e') (ei_guard s2)) as (pre & post & Hr & Hn).
  { unfold s2. simpl. rewrite Hg. apply outlives_fresh; [apply Hs|done]. }
  apply handle_messages_remembers.
  - by do 2 apply handle_message_ok.
  - exists pre, post. rewrite <-He. split; [done|lia].
  - apply dismiss_marks. rewrite Hg, <-He. unfold record_posted. cbn. rewrite lookup_insert_eq. by eexists.
Qed.

Lemma post_then_duplicate e e2 s :
  engine_ok s → should_block (ei_policy s) (enforce_size_limits e) = false →
  is_dismissed (ei_guard s) (origin_hex (ne_origin e)) (ne_notification_id e) = false →
  guard_key e2 = guard_key e →
  entry_compute_hash (enforce_size_limits e2) = entry_compute_hash (enforce_size_limits e) →
  should_block (ei_policy s) (enforce_size_limits e2) = false →
  handle_message (Post e2) (handle_message (Post e) s) = handle_message (Post e) s.
Proof.
  intros Hs Hb Hd Hk Hh Hb2. set (s1 := handle_message (Post e) s).
  assert (is_duplicate (ei_guard s1) (enforce_size_limits e2) = true) as Hdup.
  { unfold is_duplicate. rewrite guard_key_enforce, Hk, Hh. subst s1. simpl. unfold handle_post.
    rewrite Hb. destruct (is_duplicate (ei_guard s) (enforce_size_limits e)) eqn:Hx.
    - unfold is_duplicate in Hx. rewrite guard_key_enforce in Hx. done.
    - destruct (enforce_size_limits_key e) as [Ho Hi]. rewrite Ho, Hi, Hd. cbn [ei_guard tx_send with_core].
      rewrite <-guard_key_enforce. destruct (record_posted_ok (enforce_size_limits e) (ei_guard s)) as [_ ->].
      + apply Hs.
      + rewrite guard_key_enforce. done.
      + by apply bool_decide_eq_true. }
  simpl. unfold handle_post at 1. unfold s1 at 1. rewrite (proj1 (handle_message_frame (Post e) s)).
  by rewrite Hb2, Hdup.
Qed.

Lemma post_delivered e s :
  engine_ok s → should_block (ei_policy s) (enforce_size_limits e) = false →
  is_dismissed (ei_guard s) (origin_hex (ne_origin e)) (ne_notification_id e) = false →
  is_duplicate (ei_guard s) (enforce_size_limits e) = false →
  ei_events (handle_message (Post e) s) = ei_events s ++ [EvReceived (enforce_size_limits e)]
  ∧ (ne_state e = Active →
     enforce_size_limits e ∈ active_notifications (ne_origin e) (handle_message (Post e) s)).
Proof.
  intros Hs Hb Hd Hdup. destruct (enforce_size_limits_key e) as [Ho Hi]. simpl. unfold handle_post.
  rewrite Hb, Hdup, Ho, Hi, Hd. split; [done|]. intros Hst. unfold active_notifications. cbn.
  rewrite lookup_insert_eq. simpl. apply list_elem_of_filter. split.
  { rewrite <-Hst. unfold enforce_size_limits. by repeat case_match; simplify_eq/=. }
  unfold bucket_post. case_decide as Hl; [|set_solver].
  rewrite length_app in Hl. simpl in Hl. rewrite drop_app_le by lia. set_solver.
Qed.

(** What [build_post] sends. *)
Lemma build_post_inv id app name title text urgency now_ms a msg a' :
  build_post id app name title text urgency now_ms a = (Some msg, a') →
  let e := enforce_size_limits (NotificationEntry_new (ei_local_node_id a) (as_u64 (ei_local_sequence a + 1))
             id app name title text urgency now_ms) in
  should_block (ei_policy a) e = false ∧ msg = Post e ∧ ei_local_node_id a' = ei_local_node_id a.
Proof. unfold build_post. simpl. case_match eqn:Hb; intros; simplify_eq. done. Qed.

Lemma valid_truncate s n : valid_str s → valid_str (truncate_str_bytes s n).
Proof.
  intros [? ?]. split; [by apply truncate_str_valid|]. unfold truncate_str_bytes, truncate_str, str_len in *.
  rewrite as_of_bytes. eapply Z.le_lt_trans; [|done]. unfold zlen. apply inj_le.
  apply prefix_length, truncate_bytes_prefix.
Qed.

Lemma built_entry_valid local seq id app name title text urgency now_ms :
  in_width 64 seq → Forall valid_str [id; app; name; title; text] → 0 ≤ now_ms →
  valid (enforce_size_limits (NotificationEntry_new local seq id app name title text urgency now_ms)).
Proof.
  rewrite !Forall_cons. intros Hs (? & ? & ? & ? & ? & _) Hn.
  split_and!; cbn; try done; try by apply valid_truncate.
  unfold in_width in *. case_decide; lia.
Qed.
End ExchangeLemmas.

(** ** Properties *)



(** A notification is delivered once.  When a post that the policy allows and
    that was not dismissed has been handled, every further post of the same id and
    content (its hash) leaves the engine as it is; and when the first post was not
    itself a duplicate, it was delivered, and it is the one entry of its id in the
    list of its origin, an update replacing the earlier version. *)
Theorem notification_once `{Blake3, Hex, Lowercase} (local : NodeId) (policy : NotificationPolicy)
    (msgs : list NotificationMessage) (e : NotificationEntry) :
  let s := handle_messages msgs (EngineInner_new local policy) in
  let e' := enforce_size_limits e in
  should_block policy e' = false →
  is_dismissed (ei_guard s) (origin_hex (ne_origin e)) (ne_notification_id e) = false →
  let s1 := handle_message (Post e) s in
  (∀ e2, guard_key e2 = guard_key e →
     entry_compute_hash (enforce_size_limits e2) = entry_compute_hash e' →
     should_block policy (enforce_size_limits e2) = false → handle_message (Post e2) s1 = s1)
  ∧ (is_duplicate (ei_guard s) e' = false → ei_events s1 = ei_events s ++ [EvReceived e'])
  ∧ (is_duplicate (ei_guard s) e' = false → ne_state e = Active →
       e' ∈ active_notifications (ne_origin e) s1
       ∧ ∀ x, x ∈ active_notifications (ne_origin e) s1 →
           ne_notification_id x = ne_notification_id e → x = e').
Proof.
  intros s e' Hb Hd. assert (engine_ok s) as Hs by apply handle_messages_ok, engine_ok_new.
  assert (ei_policy s = policy) as Hp by apply handle_messages_policy.
  rewrite <-Hp in Hb. intros s1. rewrite <-Hp.
  split; [intros e2; by apply post_then_duplicate|].
  destruct (is_duplicate (ei_guard s) e') eqn:Hdup; [done|].
  destruct (post_delivered e s Hs Hb Hd Hdup) as (Hev & Hin). split; [done|]. intros _ Hst.
  specialize (Hin Hst). fold s1 e' in Hin. split; [done|]. intros x Hx Hxi.
  destruct (active_notifications_bound s1 (ne_origin e)) as [_ Hn]; [by apply handle_message_ok|].
  eapply NoDup_fmap_inj_on; [done|done|done|]. rewrite Hxi. symmetry. apply enforce_size_limits_key.
Qed.

(** Mirroring end to end.  A notification that device A builds (which its own
    policy let through) crosses the wire and is delivered by device B under the same
    policy, its title and text cut to 256 and 4096 bytes at a character boundary;
    it is listed as active at B under A's id.  When A then dismisses it, B's list of
    A's notifications no longer has it. *)
Theorem notification_mirrored `{Blake3, Hex, Lowercase, Postcard NotificationMessage, !PostcardLaws NotificationMessage}
    (a a' : EngineInner) (local_b : NodeId) (msgs : list NotificationMessage)
    (id app name title text : string) (urgency : NotificationUrgency) (now_ms : Z) (msg : NotificationMessage) :
  let b := handle_messages msgs (EngineInner_new local_b (ei_policy a)) in
  Forall valid_str [id; app; name; title; text] → 0 ≤ now_ms →
  build_post id app name title text urgency now_ms a = (Some msg, a') →
  ng_states (ei_guard b) !! (origin_hex (ei_local_node_id a), id) = None →
  ∃ e f b', msg = Post e ∧ notification_to_data_frame msg = Ok f
    ∧ notification_handle_frame f b = (Ok tt, b') ∧ ei_events b' = ei_events b ++ [EvReceived e]
    ∧ ne_title e = truncate_str_bytes title 256 ∧ ne_text e = truncate_str_bytes text 4096
    ∧ e ∈ active_notifications (ei_local_node_id a) b'
    ∧ ∃ f2 b'', notification_to_data_frame (build_dismiss id a').1 = Ok f2
        ∧ notification_handle_frame f2 b' = (Ok tt, b'')
        ∧ ∀ x, x ∈ active_notifications (ei_local_node_id a) b'' → ne_notification_id x ≠ id.
Proof.
  intros b Hv Hn Hbuild Hk. assert (engine_ok b) as Hb by apply handle_messages_ok, engine_ok_new.
  assert (ei_policy b = ei_policy a) as Hp by apply handle_messages_policy.
  destruct (build_post_inv _ _ _ _ _ _ _ _ _ _ Hbuild) as (Hblk & Hmsg & Ha').
  set (e := enforce_size_limits _) in Hblk, Hmsg.
  assert (enforce_size_limits e = e) as He by apply enforce_size_limits_idemp.
  destruct (notification_frame_roundtrip msg) as (f & Hf & Hf').
  { rewrite Hmsg. apply built_entry_valid; [by apply wrap_in_width|done|done]. }
  rewrite <-Hp in Hblk.
  destruct (handle_post_fresh e b Hb He Hblk Hk) as (Hev & Hg & rest & Hact).
  assert (engine_ok (handle_message (Post e) b)) as Hb' by by apply handle_message_ok.
  exists e, f, (handle_message (Post e) b). unfold notification_handle_frame. rewrite Hf', Hmsg.
  split_and!; [done|by rewrite <-Hmsg|done|done|done|done| |].
  { unfold active_notifications. change (ei_local_node_id a) with (ne_origin e). rewrite Hact. simpl.
    apply list_elem_of_filter. split; [done|]. apply elem_of_app. right. by left. }
  rewrite Forall_forall in Hv.
  destruct (notification_frame_roundtrip (build_dismiss id a').1) as (f2 & Hf2 & Hf2').
  { split; [apply Hv; by left|by apply wrap_in_width]. }
  eexists f2, _. rewrite Hf2'. split_and!; [done|done|]. cbn [build_dismiss next_sequence fst].
  rewrite Ha'. intros x Hx Hxi.
  destruct (active_notifications_ok _ _ x (handle_message_ok _ _ Hb') Hx) as (_ & _ & _ & Hd).
  rewrite Hxi, dismiss_marks in Hd; [done|].
  rewrite Hg. unfold record_posted. cbn [ng_states]. rewrite lookup_insert_eq. by eexists.
Qed.

(** An action on a mirrored notification goes astray.  [build_action] names the device
    that acts as the origin, so at whichever engine the message arrives, the
    notifications of every other device, those that the acting device can have
    mirrored included, stay active and undismissed. *)
Theorem action_misses_origin `{Blake3, Hex, Lowercase, !HexLaws} (actor receiver : EngineInner) (origin : NodeId)
    (id : string) (action : NotificationAction) :
  origin ≠ ei_local_node_id actor →
  let receiver' := handle_message (build_action id action actor).1 receiver in
  active_notifications origin receiver' = active_notifications origin receiver
  ∧ is_dismissed (ei_guard receiver') (origin_hex origin) id = is_dismissed (ei_guard receiver) (origin_hex origin) id.
Proof.
  intros Hne receiver'. assert (origin_hex origin ≠ origin_hex (ei_local_node_id actor)) as Hh.
  { intros E. apply Hne. apply (f_equal NodeId_from_hex) in E.
    change (origin_hex ?n) with (NodeId_to_hex n) in E. rewrite !NodeId_hex_ok in E. by injection E. }
  unfold receiver', build_action. cbn. destruct action; cbn; try done. unfold active_notifications, is_dismissed. cbn.
  rewrite !lookup_alter_ne by congruence. done.
Qed.

(** ** Witnesses *)

Section Witnesses.
Import Toy NotificationWire.

Definition note_node_a : NodeId := {| node_bytes := arr_rep 32 x0a |}.
Definition note_node_b : NodeId := {| node_bytes := arr_rep 32 x0b |}.
Definition note : NotificationEntry :=
  NotificationEntry_new note_node_a 1 "n1" "com.chat" "Chat" "Alice" "hello" Normal 7.
Definition note_update : NotificationEntry :=
  NotificationEntry_new note_node_a 2 "n1" "com.chat" "Chat" "Alice" "hello again" Normal 8.


Example notification_once_witness :
  let s := handle_messages [] (EngineInner_new note_node_b NotificationPolicy_default) in
  handle_message (Post note) (handle_message (Post note) s) = handle_message (Post note) s
  ∧ ei_events (handle_message (Post note) s) = [EvReceived (enforce_size_limits note)].
Proof.
  destruct (notification_once note_node_b NotificationPolicy_default [] note) as (Hd & He & _); [reflexivity..|].
  split; [by apply Hd|by apply He].
Defined.

Example notification_mirrored_witness :
  let a := EngineInner_new note_node_a NotificationPolicy_default in
  let b := EngineInner_new note_node_b NotificationPolicy_default in
  ∃ msg f, (build_post "n1" "com.chat" "Chat" "Alice" "hello" Normal 7 a).1 = Some msg
    ∧ notification_to_data_frame msg = Ok f ∧ (notification_handle_frame f b).1 = Ok tt.
Proof.
  intros a b. eexists.
  destruct (notification_mirrored a (build_post "n1" "com.chat" "Chat" "Alice" "hello" Normal 7 a).2
    note_node_b [] "n1" "com.chat" "Chat" "Alice" "hello" Normal 7 (Post note))
    as (e & f & b' & Hm & Hf & Hh & _).
  - repeat constructor.
  - lia.
  - reflexivity.
  - reflexivity.
  - exists f. split; [reflexivity|]. split; [exact Hf|]. unfold b. simpl in Hh. by rewrite Hh.
Defined.
End Witnesses.
