(* ===== verification/Discovery.v ===== *)
(** * Discovery: [crates/bridge-discovery]

    Local-network discovery: the UDP beacon format ([beacon.rs]), the peer directory
    ([peer.rs]), the UDP worker ([udp.rs]), the mDNS worker and its TXT records
    ([service.rs]) and the engine that runs both over one directory ([unified.rs]).
    A worker's [select!] loop is a step function, one input per round; the clock is
    an argument of the steps that read it; broadcast events and sent datagrams are
    logs.  The mDNS daemon, the resolver's records and the sockets are outside the
    repository: what they hand over is an input, what they answer an argument. *)
From S2P Require Import Prelude Text External Codec Core Protocol.

(** ** [std::net] and [std::time] *)

Inductive IpAddr := V4 (a : array 4) | V6 (a : array 16).
#[global] Instance IpAddr_eq_dec : EqDecision IpAddr.
Proof. solve_decision. Defined.
Record SocketAddr := { sa_ip : IpAddr; sa_port : u16 }.
#[global] Instance SocketAddr_eq_dec : EqDecision SocketAddr.
Proof. solve_decision. Defined.
(** [Duration] and [SystemTime], in nanoseconds. *)
Definition from_secs (s : Z) : Z := s * 1000000000.
(** [now.duration_since(t)]: an error when [t] is in the future. *)
Definition duration_since (now t : Z) : option Z := if decide (t ≤ now) then Some (now - t) else None.

(** ** [error.rs] *)

Inductive DiscoveryError :=
| DMdns (msg : string) | DInvalidTxtRecord (msg : string) | DInvalidNodeId (msg : string)
| DInvalidPacket (msg : string) | DIo (msg : string) | DInternal (msg : string)
| DAlreadyRunning | DNotRunning.

(** ** [beacon.rs] *)

Definition BEACON_MAGIC : list byte := as_bytes "BRGB".
Definition BEACON_VERSION : byte := z2b 1.
Definition MAX_BEACON_SIZE : usize := 1400.
Definition MAX_DEVICE_NAME_LEN : nat := 64.

Inductive BeaconMessage :=
| Announcement (version : ProtocolVersion) (node_id : NodeId) (device_name : string)
    (device_type : DeviceType) (port : u16) (capabilities : Capabilities) (seq : u64)
| Goodbye (node_id : NodeId) (seq : u64)
| Query (sender_id : NodeId) (seq : u64).
#[global] Instance BeaconMessage_eq_dec : EqDecision BeaconMessage.
Proof. solve_decision. Defined.

Definition beacon_node_id (self : BeaconMessage) : NodeId :=
  match self with
  | Announcement _ n _ _ _ _ _ | Goodbye n _ => n
  | Query n _ => n
  end.

(** [{:?}] of a byte slice. *)
Definition debug_bytes (l : list byte) : string :=
  "[" +:+ foldr (λ b r, dec (b2z b) +:+ (if decide (r = "") then "" else ", " +:+ r)) "" l +:+ "]".

Section Beacon.
Context `{Postcard BeaconMessage}.

Definition encode_beacon (message : BeaconMessage) : result DiscoveryError (list byte) :=
  payload ← map_err (λ e, DInternal ("failed to serialize beacon: " +:+ e)) (to_allocvec message);
  let total_len := 4 + 1 + zlen payload in
  if decide (MAX_BEACON_SIZE < total_len) then
    Err (DInvalidPacket ("beacon packet size " +:+ dec total_len +:+ " exceeds maximum allowed "
           +:+ dec MAX_BEACON_SIZE))
  else Ok (BEACON_MAGIC ++ [BEACON_VERSION] ++ payload).

(** The fields of an announcement are validated and its name cut. *)
Definition sanitize_beacon (msg : BeaconMessage) : result DiscoveryError BeaconMessage :=
  match msg with
  | Announcement v n device_name t port c s =>
    if decide (port = 0) then Err (DInvalidPacket "announcement port cannot be 0")
    else Ok (Announcement v n (truncate_str device_name MAX_DEVICE_NAME_LEN) t port c s)
  | _ => Ok msg
  end.

Definition decode_beacon (bytes : list byte) : result DiscoveryError BeaconMessage :=
  if decide (zlen bytes < 5) then
    Err (DInvalidPacket ("datagram length " +:+ dec (zlen bytes) +:+ " is too short for a valid beacon"))
  else if decide (MAX_BEACON_SIZE < zlen bytes) then
    Err (DInvalidPacket ("datagram length " +:+ dec (zlen bytes) +:+ " exceeds maximum allowed "
           +:+ dec MAX_BEACON_SIZE))
  else if decide (take 4 bytes ≠ BEACON_MAGIC) then
    Err (DInvalidPacket ("invalid magic header " +:+ debug_bytes (take 4 bytes) +:+ ", expected "
           +:+ debug_bytes BEACON_MAGIC))
  else
    let version := default (z2b 0) (bytes !! 4%nat) in
    if decide (version ≠ BEACON_VERSION) then
      Err (DInvalidPacket ("unsupported beacon version " +:+ dec (b2z version) +:+ ", expected "
             +:+ dec (b2z BEACON_VERSION)))
    else
      msg ← map_err (λ e, DInvalidPacket ("failed to deserialize beacon: " +:+ e)) (from_bytes (drop 5 bytes));
      sanitize_beacon msg.
End Beacon.

(** ** [peer.rs] *)

Record DiscoveredPeer := {
  dp_node_id : NodeId; dp_device_name : string; dp_device_type : DeviceType;
  dp_addresses : list SocketAddr; dp_capabilities : Capabilities; dp_last_seen : Z }.
#[global] Instance DiscoveredPeer_eq_dec : EqDecision DiscoveredPeer.
Proof. solve_decision. Defined.

Definition DiscoveredPeer_new (node_id : NodeId) (device_name : string) (device_type : DeviceType)
    (addresses : list SocketAddr) (capabilities : Capabilities) (now : Z) : DiscoveredPeer := {|
  dp_node_id := node_id; dp_device_name := device_name; dp_device_type := device_type;
  dp_addresses := addresses; dp_capabilities := capabilities; dp_last_seen := now |}.

Definition peer_is_expired (self : DiscoveredPeer) (max_age now : Z) : bool :=
  match duration_since now (dp_last_seen self) with
  | Some elapsed => bool_decide (max_age < elapsed)
  | None => false
  end.

Definition touch (now : Z) (self : DiscoveredPeer) : DiscoveredPeer := {|
  dp_node_id := dp_node_id self; dp_device_name := dp_device_name self;
  dp_device_type := dp_device_type self; dp_addresses := dp_addresses self;
  dp_capabilities := dp_capabilities self; dp_last_seen := now |}.

Notation PeerDirectory := (gmap NodeId DiscoveredPeer).
Definition PeerDirectory_new : PeerDirectory := ∅.

(** The loop that adds the addresses not yet listed. *)
Definition merge_addresses (existing new : list SocketAddr) : list SocketAddr :=
  foldl (λ l a, if decide (a ∈ l) then l else l ++ [a]) existing new.

Definition insert_or_update (peer : DiscoveredPeer) (now : Z) (map : PeerDirectory) :
    DiscoveredPeer * bool * PeerDirectory :=
  match map !! dp_node_id peer with
  | Some existing =>
    let existing := {|
      dp_node_id := dp_node_id existing; dp_device_name := dp_device_name peer;
      dp_device_type := dp_device_type peer;
      dp_addresses := merge_addresses (dp_addresses existing) (dp_addresses peer);
      dp_capabilities := dp_capabilities peer; dp_last_seen := now |} in
    (existing, false, <[dp_node_id peer := existing]> map)
  | None =>
    let peer := touch now peer in
    (peer, true, <[dp_node_id peer := peer]> map)
  end.

Definition dir_get (node_id : NodeId) (map : PeerDirectory) : option DiscoveredPeer := map !! node_id.
Definition dir_remove (node_id : NodeId) (map : PeerDirectory) : option DiscoveredPeer * PeerDirectory :=
  (map !! node_id, delete node_id map).
(** The order of [values] and [retain] is the map's own, unspecified by [HashMap]. *)
Definition dir_list (map : PeerDirectory) : list DiscoveredPeer := (map_to_list map).*2.
Definition dir_contains (node_id : NodeId) (map : PeerDirectory) : bool := bool_decide (is_Some (map !! node_id)).
Definition dir_len (map : PeerDirectory) : nat := size map.
Definition dir_is_empty (map : PeerDirectory) : bool := bool_decide (dir_len map = 0%nat).
Definition prune_expired (max_age now : Z) (map : PeerDirectory) : list DiscoveredPeer * PeerDirectory :=
  ((map_to_list (filter (λ kv, peer_is_expired kv.2 max_age now = true) map)).*2,
   filter (λ kv, peer_is_expired kv.2 max_age now = false) map).
Definition dir_clear (map : PeerDirectory) : PeerDirectory := ∅.

(** ** [service.rs]: events and what the channels share *)

Inductive DiscoveryEvent :=
| PeerDiscovered (p : DiscoveredPeer)
| PeerUpdated (p : DiscoveredPeer)
| PeerLost (n : NodeId)
| PeerExpired (n : NodeId).

(** The shared directory and event bus, and the datagrams handed to [send_to]. *)
Record Shared := {
  sh_directory : PeerDirectory; sh_events : list DiscoveryEvent;
  sh_sent : list (list byte * SocketAddr) }.
Definition Shared_new : Shared := {| sh_directory := PeerDirectory_new; sh_events := []; sh_sent := [] |}.

Definition publish (d : PeerDirectory) (evs : list DiscoveryEvent) (s : Shared) : Shared :=
  {| sh_directory := d; sh_events := sh_events s ++ evs; sh_sent := sh_sent s |}.
Definition send_to (bytes : list byte) (targets : list SocketAddr) (s : Shared) : Shared :=
  {| sh_directory := sh_directory s; sh_events := sh_events s;
     sh_sent := sh_sent s ++ map (λ t, (bytes, t)) targets |}.

(** The pruning round of either worker. *)
Definition prune_round (ttl now : Z) (s : Shared) : Shared :=
  let '(expired, d) := prune_expired ttl now (sh_directory s) in
  publish d (map (λ p, PeerExpired (dp_node_id p)) expired) s.
(** The rounds that record a sighting and a departure. *)
Definition sighting_round (peer : DiscoveredPeer) (now : Z) (s : Shared) : Shared :=
  let '(p, is_new, d) := insert_or_update peer now (sh_directory s) in
  publish d [if is_new : bool then PeerDiscovered p else PeerUpdated p] s.
Definition departure_round (n : NodeId) (s : Shared) : Shared :=
  match dir_remove n (sh_directory s) with
  | (Some _, d) => publish d [PeerLost n] s
  | (None, d) => publish d [] s
  end.

(** ** [udp.rs] *)

Definition DEFAULT_UDP_BROADCAST_PORT : u16 := 42424.
Record UdpConfig := {
  uc_broadcast_port : u16; uc_bind_addr : SocketAddr; uc_broadcast_targets : list SocketAddr;
  uc_beacon_interval : Z; uc_ttl : Z; uc_prune_interval : Z; uc_query_on_start : bool;
  uc_goodbye_on_shutdown : bool }.
Definition UdpConfig_default : UdpConfig := {|
  uc_broadcast_port := DEFAULT_UDP_BROADCAST_PORT;
  uc_bind_addr := {| sa_ip := V4 (arr_rep 4 (z2b 0)); sa_port := DEFAULT_UDP_BROADCAST_PORT |};
  uc_broadcast_targets := [{| sa_ip := V4 (arr_rep 4 (z2b 255)); sa_port := DEFAULT_UDP_BROADCAST_PORT |}];
  uc_beacon_interval := from_secs 2; uc_ttl := from_secs 6; uc_prune_interval := from_secs 1;
  uc_query_on_start := true; uc_goodbye_on_shutdown := true |}.

Record LocalAdvertisement := {
  la_node_id : NodeId; la_device_name : string; la_device_type : DeviceType; la_port : u16;
  la_capabilities : Capabilities; la_seq : u64 }.

(** [ud_started]: [shutdown_tx] is set; [ud_worker]: the worker task is running. *)
Record UdpDiscovery := {
  ud_config : UdpConfig; ud_local_node_id : option NodeId;
  ud_advertising_info : option LocalAdvertisement; ud_started : bool; ud_worker : bool }.
Definition UdpDiscovery_new (config : UdpConfig) : UdpDiscovery := {|
  ud_config := config; ud_local_node_id := None; ud_advertising_info := None;
  ud_started := false; ud_worker := false |}.

(** With a directory and an event bus of its own. *)
Definition UdpDiscovery_own (config : UdpConfig) : result DiscoveryError (UdpDiscovery * Shared) :=
  Ok (UdpDiscovery_new config, Shared_new).

Definition udp_advertise (node_id : NodeId) (device_name : string) (device_type : DeviceType)
    (port : u16) (capabilities : Capabilities) (u : UdpDiscovery) : UdpDiscovery := {|
  ud_config := ud_config u; ud_local_node_id := Some node_id;
  ud_advertising_info := Some {| la_node_id := node_id; la_device_name := device_name;
    la_device_type := device_type; la_port := port; la_capabilities := capabilities; la_seq := 1 |};
  ud_started := ud_started u; ud_worker := ud_worker u |}.
Definition udp_set_adv (a : option LocalAdvertisement) (u : UdpDiscovery) : UdpDiscovery := {|
  ud_config := ud_config u; ud_local_node_id := ud_local_node_id u; ud_advertising_info := a;
  ud_started := ud_started u; ud_worker := ud_worker u |}.
Definition udp_set_run (started worker : bool) (u : UdpDiscovery) : UdpDiscovery := {|
  ud_config := ud_config u; ud_local_node_id := ud_local_node_id u;
  ud_advertising_info := ud_advertising_info u; ud_started := started; ud_worker := worker |}.
Definition udp_stop_advertising (u : UdpDiscovery) : UdpDiscovery := udp_set_adv None u.

Definition adv_announcement (adv : LocalAdvertisement) : BeaconMessage :=
  Announcement ProtocolVersion_CURRENT (la_node_id adv) (la_device_name adv) (la_device_type adv)
    (la_port adv) (la_capabilities adv) (la_seq adv).
Definition adv_next (adv : LocalAdvertisement) : LocalAdvertisement := {|
  la_node_id := la_node_id adv; la_device_name := la_device_name adv;
  la_device_type := la_device_type adv; la_port := la_port adv;
  la_capabilities := la_capabilities adv; la_seq := as_u64 (la_seq adv + 1) |}.

(** What wakes a round of the worker, and the query task spawned at the start. *)
Inductive UdpInput :=
| UPrune | UBeacon
| URecv (datagram : list byte) (src : SocketAddr)
| URecvError
| UQueryTask.

Section Udp.
Context `{Postcard BeaconMessage}.

(** [if let Ok(encoded) = encode_beacon(&m) { for target … send_to }]. *)
Definition send_beacon (m : BeaconMessage) (targets : list SocketAddr) (s : Shared) : Shared :=
  match encode_beacon m with Ok encoded => send_to encoded targets s | Err _ => s end.

(** A decoded beacon that is not our own. *)
Definition handle_beacon (beacon : BeaconMessage) (src : SocketAddr) (now : Z) (u : UdpDiscovery) (s : Shared) :
    Shared :=
  match beacon with
  | Announcement _ node_id device_name device_type port capabilities _ =>
    let peer_addr := {| sa_ip := sa_ip src; sa_port := port |} in
    sighting_round (DiscoveredPeer_new node_id device_name device_type [peer_addr] capabilities now) now s
  | Goodbye node_id _ => departure_round node_id s
  | Query _ _ =>
    match ud_advertising_info u with
    | Some adv => send_beacon (adv_announcement adv) [src] s
    | None => s
    end
  end.

Definition udp_recv (datagram : list byte) (src : SocketAddr) (now : Z) (u : UdpDiscovery) (s : Shared) : Shared :=
  match decode_beacon (take 2048 datagram) with
  | Ok beacon =>
    if decide (ud_local_node_id u = Some (beacon_node_id beacon)) then s
    else handle_beacon beacon src now u s
  | Err _ => s
  end.

Definition udp_step (i : UdpInput) (now : Z) (us : UdpDiscovery * Shared) : UdpDiscovery * Shared :=
  let '(u, s) := us in
  match i with
  | UPrune => (u, prune_round (uc_ttl (ud_config u)) now s)
  | UBeacon =>
    match ud_advertising_info u with
    | Some adv =>
      let adv := adv_next adv in
      (udp_set_adv (Some adv) u,
       send_beacon (adv_announcement adv) (uc_broadcast_targets (ud_config u)) s)
    | None => (u, s)
    end
  | URecv datagram src => (u, udp_recv datagram src now u s)
  | URecvError => (udp_set_run (ud_started u) false u, s)
  | UQueryTask =>
    let sender_id := default {| node_bytes := arr_rep 32 (z2b 0) |} (ud_local_node_id u) in
    (u, send_beacon (Query sender_id 1) (uc_broadcast_targets (ud_config u)) s)
  end.

(** *** The socket *)

(** A socket of the operating system, and the options the code sets. *)
Record UdpSocket := {
  sk_ipv4 : bool; sk_reuse_address : bool; sk_reuse_port : bool; sk_broadcast : bool; sk_nonblocking : bool;
  sk_bound : option SocketAddr }.
(** What the operating system answers to each call; [os_text] prints an address. *)
Record SocketOs := {
  os_new : bool → result string unit; os_reuse_address : result string unit; os_reuse_port : result string unit;
  os_broadcast : result string unit; os_nonblocking : result string unit; os_bind : UdpSocket → SocketAddr → result string unit;
  os_tokio : result string unit; os_text : SocketAddr → string }.

Definition is_ipv4 (a : SocketAddr) : bool := match sa_ip a with V4 _ => true | V6 _ => false end.
Definition socket_call (text : string) (r : result string unit) : result DiscoveryError unit :=
  map_err (λ e, DInternal (text +:+ ": " +:+ e)) r.

(** As built for Unix, where [SO_REUSEPORT] is tried as well. *)
Definition create_udp_socket (os : SocketOs) (bind_addr : SocketAddr) : result DiscoveryError UdpSocket :=
  let domain := is_ipv4 bind_addr in
  _ ← socket_call "failed to create UDP socket" (os_new os domain);
  _ ← socket_call "failed to set SO_REUSEADDR" (os_reuse_address os);
  let reuse_port := match os_reuse_port os with Ok _ => true | Err _ => false end in
  _ ← socket_call "failed to enable broadcast" (os_broadcast os);
  _ ← socket_call "failed to set nonblocking" (os_nonblocking os);
  let socket := {| sk_ipv4 := domain; sk_reuse_address := true; sk_reuse_port := reuse_port; sk_broadcast := true;
                   sk_nonblocking := true; sk_bound := None |} in
  _ ← socket_call ("failed to bind UDP socket to " +:+ os_text os bind_addr) (os_bind os socket bind_addr);
  _ ← socket_call "failed to convert into Tokio UdpSocket" (os_tokio os);
  Ok {| sk_ipv4 := domain; sk_reuse_address := true; sk_reuse_port := reuse_port; sk_broadcast := true;
        sk_nonblocking := true; sk_bound := Some bind_addr |}.

Definition udp_start_discovery (sock : SocketOs) (u : UdpDiscovery) : result DiscoveryError unit * UdpDiscovery :=
  if ud_started u then (Err DAlreadyRunning, u)
  else match create_udp_socket sock (uc_bind_addr (ud_config u)) with
       | Err e => (Err e, u)
       | Ok _ => (Ok tt, udp_set_run true true u)
       end.

(** [ephemeral]: the bind of the ephemeral socket succeeded. *)
Definition udp_shutdown (ephemeral : bool) (us : UdpDiscovery * Shared) : UdpDiscovery * Shared :=
  let '(u, s) := us in
  let s :=
    if uc_goodbye_on_shutdown (ud_config u) then
      match ud_advertising_info u with
      | Some adv =>
        if ephemeral then
          send_beacon (Goodbye (la_node_id adv) (as_u64 (la_seq adv + 1)))
            (uc_broadcast_targets (ud_config u)) s
        else s
      | None => s
      end
    else s in
  (udp_set_run false false (udp_stop_advertising u), s).
End Udp.

(** ** [service.rs]: TXT records *)

Definition BRIDGEOS_SERVICE_TYPE : string := "_bridgeos._tcp.local.".
Record DiscoveryConfig := { dc_service_type : string; dc_ttl : Z; dc_prune_interval : Z }.
Definition DiscoveryConfig_default : DiscoveryConfig := {|
  dc_service_type := BRIDGEOS_SERVICE_TYPE; dc_ttl := from_secs 5; dc_prune_interval := from_secs 1 |}.

(** [{:x}] of a [u32] (eight digits at most) and [u32::from_str_radix(_, 16)]: an
    optional [+], then digits of either case, within 32 bits. *)
Definition hex_digit (d : Z) : byte := if decide (d < 10) then z2b (48 + d) else z2b (87 + d).
Fixpoint lower_hex_digits (fuel : nat) (z : Z) : list byte :=
  match fuel with
  | O => []
  | S fuel' => if decide (z < 16) then [hex_digit z]
               else lower_hex_digits fuel' (z / 16) ++ [hex_digit (z mod 16)]
  end.
Definition lower_hex (z : u32) : string := of_bytes (lower_hex_digits 8 z).

Definition digit16 (b : byte) : option Z :=
  let z := b2z b in
  if decide (48 ≤ z ≤ 57) then Some (z - 48)
  else if decide (97 ≤ z ≤ 102) then Some (z - 87)
  else if decide (65 ≤ z ≤ 70) then Some (z - 55)
  else None.
Definition radix_step (acc : option Z) (b : byte) : option Z :=
  a ← acc; d ← digit16 b; if decide (a * 16 + d < 2 ^ 32) then Some (a * 16 + d) else None.
Definition u32_from_str_radix16 (s : string) : option u32 :=
  let l := as_bytes s in
  match l with
  | [] => None
  | b :: rest =>
    if decide (b2z b = 43) then
      match rest with [] => None | _ => foldl radix_step (Some 0) rest end
    else foldl radix_step (Some 0) l
  end.

(** What a resolved service record answers: its name, port, addresses in the order
    they are iterated, and text properties. *)
Record ResolvedService := {
  rs_fullname : string; rs_port : u16; rs_addresses : list IpAddr; rs_properties : gmap string string }.

Section Txt.
Context `{Hex}.

Definition peer_to_txt_properties (node_id : NodeId) (device_name : string) (device_type : DeviceType)
    (capabilities : Capabilities) : gmap string string :=
  <["ver" := ProtocolVersion_to_string ProtocolVersion_CURRENT]>
  (<["caps" := lower_hex (flags capabilities)]>
  (<["type" := DeviceType_to_string device_type]>
  (<["name" := device_name]>
  (<["node_id" := NodeId_to_hex node_id]> ∅)))).

Definition parse_discovered_peer (node_id_hex device_name device_type_str capabilities_str : option string)
    (addresses : list SocketAddr) (fallback_name : string) (now : Z) : result DiscoveryError DiscoveredPeer :=
  node_id_hex ← ok_or (DInvalidTxtRecord "missing 'node_id' in TXT") node_id_hex;
  node_id ← map_err (λ e, DInvalidNodeId ("invalid hex in 'node_id': " +:+ e)) (NodeId_from_hex node_id_hex);
  let device_name := default fallback_name device_name in
  let device_type := match device_type_str with Some s => DeviceType_from_str s | None => UnknownDevice end in
  let capabilities :=
    match capabilities_str with
    | Some caps_str =>
      match u32_from_str_radix16 caps_str with
      | Some f => Capabilities_from_bits f
      | None => Capabilities_default
      end
    | None => Capabilities_default
    end in
  Ok (DiscoveredPeer_new node_id device_name device_type addresses capabilities now).

Definition parse_resolved_service (info : ResolvedService) (now : Z) : result DiscoveryError DiscoveredPeer :=
  let port := rs_port info in
  let addresses := map (λ ip, {| sa_ip := ip; sa_port := port |}) (rs_addresses info) in
  parse_discovered_peer (rs_properties info !! "node_id") (rs_properties info !! "name")
    (rs_properties info !! "type") (rs_properties info !! "caps") addresses (rs_fullname info) now.

(** The same of a [ServiceInfo], which offers the same accessors. *)
Definition parse_service_info (info : ResolvedService) (now : Z) : result DiscoveryError DiscoveredPeer :=
  let port := rs_port info in
  let addresses := map (λ ip, {| sa_ip := ip; sa_port := port |}) (rs_addresses info) in
  parse_discovered_peer (rs_properties info !! "node_id") (rs_properties info !! "name")
    (rs_properties info !! "type") (rs_properties info !! "caps") addresses (rs_fullname info) now.
End Txt.

(** ** [service.rs]: the mDNS worker *)

Record MdnsDiscovery := {
  md_config : DiscoveryConfig; md_fullname_to_node : gmap string NodeId; md_local_node_id : option NodeId;
  md_registered_fullname : option string; md_started : bool; md_worker : bool }.
Definition MdnsDiscovery_new (config : DiscoveryConfig) : MdnsDiscovery := {|
  md_config := config; md_fullname_to_node := ∅; md_local_node_id := None;
  md_registered_fullname := None; md_started := false; md_worker := false |}.
(** With a directory and an event bus of its own. *)
Definition MdnsDiscovery_own (daemon : result string unit) (config : DiscoveryConfig) :
    result DiscoveryError (MdnsDiscovery * Shared) :=
  _ ← map_err (λ e, DMdns ("failed to create ServiceDaemon: " +:+ e)) daemon;
  Ok (MdnsDiscovery_new config, Shared_new).
Definition md_set_names (names : gmap string NodeId) (m : MdnsDiscovery) : MdnsDiscovery := {|
  md_config := md_config m; md_fullname_to_node := names; md_local_node_id := md_local_node_id m;
  md_registered_fullname := md_registered_fullname m; md_started := md_started m; md_worker := md_worker m |}.
Definition md_set_run (started worker : bool) (m : MdnsDiscovery) : MdnsDiscovery := {|
  md_config := md_config m; md_fullname_to_node := md_fullname_to_node m;
  md_local_node_id := md_local_node_id m; md_registered_fullname := md_registered_fullname m;
  md_started := started; md_worker := worker |}.
Definition md_set_registration (id : option NodeId) (name : option string) (m : MdnsDiscovery) : MdnsDiscovery := {|
  md_config := md_config m; md_fullname_to_node := md_fullname_to_node m; md_local_node_id := id;
  md_registered_fullname := name; md_started := md_started m; md_worker := md_worker m |}.

(** The constructor of [mdns_sd::ServiceInfo], from the service type, the instance
    and host names, the addresses, the port and the properties to the full name. *)
Class ServiceInfo :=
  ServiceInfo_new : string → string → string → option (list IpAddr) → u16 → gmap string string → result string string.

(** [device_name.replace(['.', ' '], "-")]. *)
Definition dashed (s : string) : string :=
  of_bytes (map (λ b, if decide (b2z b = 46 ∨ b2z b = 32) then z2b 45 else b) (as_bytes s)).

Section Mdns.
Context `{Hex, ServiceInfo}.

(** [registered]: the daemon's answer to the registration. *)
Definition mdns_advertise (node_id : NodeId) (device_name : string) (device_type : DeviceType)
    (port : u16) (capabilities : Capabilities) (ips : option (list IpAddr)) (registered : result string unit)
    (m : MdnsDiscovery) : result DiscoveryError unit * MdnsDiscovery :=
  match md_registered_fullname m with
  | Some _ => (Err DAlreadyRunning, m)
  | None =>
    let m := md_set_registration (Some node_id) None m in
    let properties := peer_to_txt_properties node_id device_name device_type capabilities in
    let hex := as_bytes (NodeId_to_hex node_id) in
    let instance_name := dashed device_name +:+ "-" +:+ of_bytes (take 8 hex) in
    let host_name := of_bytes (take 12 hex) +:+ ".local." in
    match ServiceInfo_new (dc_service_type (md_config m)) instance_name host_name ips port properties with
    | Err e => (Err (DMdns ("failed to construct ServiceInfo: " +:+ e)), m)
    | Ok fullname =>
      match registered with
      | Err e => (Err (DMdns ("failed to register mDNS service: " +:+ e)), m)
      | Ok _ => (Ok tt, md_set_registration (Some node_id) (Some fullname) m)
      end
    end
  end.

(** [unregistered]: the daemon's answer; the name is taken first. *)
Definition mdns_stop_advertising (unregistered : result string unit) (m : MdnsDiscovery) :
    result DiscoveryError unit * MdnsDiscovery :=
  match md_registered_fullname m with
  | None => (Ok tt, m)
  | Some fullname =>
    let m := md_set_registration (md_local_node_id m) None m in
    (map_err (λ e, DMdns ("failed to unregister " +:+ fullname +:+ ": " +:+ e)) unregistered, m)
  end.

Definition mdns_start_discovery (browse : result string unit) (m : MdnsDiscovery) :
    result DiscoveryError unit * MdnsDiscovery :=
  if md_started m then (Err DAlreadyRunning, m)
  else match browse with
       | Err e => (Err (DMdns ("failed to start browsing: " +:+ e)), m)
       | Ok _ => (Ok tt, md_set_run true true m)
       end.

Inductive MdnsInput :=
| MPrune | MResolved (info : ResolvedService) | MRemoved (fullname : string) | MOther | MRecvError.

Definition mdns_step (i : MdnsInput) (now : Z) (ms : MdnsDiscovery * Shared) : MdnsDiscovery * Shared :=
  let '(m, s) := ms in
  match i with
  | MPrune => (m, prune_round (dc_ttl (md_config m)) now s)
  | MResolved info =>
    match parse_resolved_service info now with
    | Ok peer =>
      if decide (md_local_node_id m = Some (dp_node_id peer)) then (m, s)
      else
        (md_set_names (<[rs_fullname info := dp_node_id peer]> (md_fullname_to_node m)) m,
         sighting_round peer now s)
    | Err _ => (m, s)
    end
  | MRemoved fullname =>
    let m' := md_set_names (delete fullname (md_fullname_to_node m)) m in
    match md_fullname_to_node m !! fullname with
    | Some node_id => (m', departure_round node_id s)
    | None => (m', s)
    end
  | MOther => (m, s)
  | MRecvError => (md_set_run (md_started m) false m, s)
  end.

Definition mdns_shutdown (unregistered : result string unit) (m : MdnsDiscovery) : MdnsDiscovery :=
  md_set_run false false (mdns_stop_advertising unregistered m).2.
End Mdns.

(** ** [unified.rs] *)

Inductive UnifiedDiscoveryMode := Both | MdnsOnly | UdpOnly.
#[global] Instance UnifiedDiscoveryMode_eq_dec : EqDecision UnifiedDiscoveryMode.
Proof. solve_decision. Defined.
Record UnifiedDiscoveryConfig := {
  uf_mode : UnifiedDiscoveryMode; uf_mdns : DiscoveryConfig; uf_udp : UdpConfig }.
Definition UnifiedDiscoveryConfig_default : UnifiedDiscoveryConfig := {|
  uf_mode := Both; uf_mdns := DiscoveryConfig_default; uf_udp := UdpConfig_default |}.

Record UnifiedDiscovery := {
  un_config : UnifiedDiscoveryConfig; un_shared : Shared; un_mdns : option MdnsDiscovery;
  un_udp : option UdpDiscovery; un_is_running : bool }.

(** [daemon]: the outcome of starting the mDNS daemon. *)
Definition UnifiedDiscovery_new (daemon : result string unit) (config : UnifiedDiscoveryConfig) :
    result DiscoveryError UnifiedDiscovery :=
  mdns ← match uf_mode config with
         | Both | MdnsOnly =>
           _ ← map_err (λ e, DMdns ("failed to create ServiceDaemon: " +:+ e)) daemon;
           Ok (Some (MdnsDiscovery_new (uf_mdns config)))
         | UdpOnly => Ok None
         end;
  let udp := match uf_mode config with
             | Both | UdpOnly => Some (UdpDiscovery_new (uf_udp config))
             | MdnsOnly => None
             end in
  Ok {| un_config := config; un_shared := Shared_new; un_mdns := mdns; un_udp := udp; un_is_running := false |}.

Definition un_set (mdns : option MdnsDiscovery) (udp : option UdpDiscovery) (s : Shared) (r : bool)
    (d : UnifiedDiscovery) : UnifiedDiscovery := {|
  un_config := un_config d; un_shared := s; un_mdns := mdns; un_udp := udp; un_is_running := r |}.

Section Unified.
Context `{Hex, ServiceInfo, Postcard BeaconMessage}.

Definition unified_advertise (node_id : NodeId) (device_name : string) (device_type : DeviceType)
    (port : u16) (capabilities : Capabilities) (ips : option (list IpAddr)) (registered : result string unit)
    (d : UnifiedDiscovery) : result DiscoveryError unit * UnifiedDiscovery :=
  let '(r, mdns) :=
    match un_mdns d with
    | Some m =>
      let '(r, m) := mdns_advertise node_id device_name device_type port capabilities ips registered m in
      (r, Some m)
    | None => (Ok tt, None)
    end in
  match r with
  | Err e => (Err e, un_set mdns (un_udp d) (un_shared d) (un_is_running d) d)
  | Ok _ =>
    let udp := udp_advertise node_id device_name device_type port capabilities <$> un_udp d in
    (Ok tt, un_set mdns udp (un_shared d) (un_is_running d) d)
  end.

Definition unified_stop_advertising (unregistered : result string unit) (d : UnifiedDiscovery) :
    UnifiedDiscovery :=
  un_set (snd ∘ mdns_stop_advertising unregistered <$> un_mdns d) (udp_stop_advertising <$> un_udp d)
    (un_shared d) (un_is_running d) d.

Definition unified_start_discovery (browse : result string unit) (sock : SocketOs)
    (d : UnifiedDiscovery) : result DiscoveryError unit * UnifiedDiscovery :=
  if un_is_running d then (Err DAlreadyRunning, d)
  else
    let '(r, mdns) :=
      match un_mdns d with
      | Some m => let '(r, m) := mdns_start_discovery browse m in (r, Some m)
      | None => (Ok tt, None)
      end in
    match r with
    | Err e => (Err e, un_set mdns (un_udp d) (un_shared d) false d)
    | Ok _ =>
      let '(r, udp) :=
        match un_udp d with
        | Some u => let '(r, u) := udp_start_discovery sock u in (r, Some u)
        | None => (Ok tt, None)
        end in
      match r with
      | Err e => (Err e, un_set mdns udp (un_shared d) false d)
      | Ok _ => (Ok tt, un_set mdns udp (un_shared d) true d)
      end
    end.

Definition unified_shutdown (unregistered : result string unit) (ephemeral : bool) (d : UnifiedDiscovery) :
    UnifiedDiscovery :=
  let mdns := mdns_shutdown unregistered <$> un_mdns d in
  let '(udp, s) :=
    match un_udp d with
    | Some u => let '(u, s) := udp_shutdown ephemeral (u, un_shared d) in (Some u, s)
    | None => (None, un_shared d)
    end in
  un_set mdns udp s false d.

(** One round of one of the two workers over the shared directory. *)
Inductive UnifiedInput := InUdp (i : UdpInput) | InMdns (i : MdnsInput).

Definition unified_step (i : UnifiedInput) (now : Z) (d : UnifiedDiscovery) : UnifiedDiscovery :=
  match i with
  | InUdp i =>
    match un_udp d with
    | Some u =>
      if ud_worker u then
        let '(u, s) := udp_step i now (u, un_shared d) in
        un_set (un_mdns d) (Some u) s (un_is_running d) d
      else d
    | None => d
    end
  | InMdns i =>
    match un_mdns d with
    | Some m =>
      if md_worker m then
        let '(m, s) := mdns_step i now (m, un_shared d) in
        un_set (Some m) (un_udp d) s (un_is_running d) d
      else d
    | None => d
    end
  end.
End Unified.

(** ** The Postcard format of the beacons *)

#[global] Instance BeaconMessage_valid : Valid BeaconMessage := λ m,
  match m with
  | Announcement v _ n _ p c s => valid v ∧ valid_str n ∧ in_width 16 p ∧ valid c ∧ in_width 64 s
  | Goodbye _ s | Query _ s => in_width 64 s
  end.
Definition c_beacon : codec BeaconMessage :=
  c_iso (λ x, match x with inl (v, (n, (d, (t, (p, (c, s)))))) => Announcement v n d t p c s
              | inr (inl (n, s)) => Goodbye n s | inr (inr (n, s)) => Query n s end)
    (λ m, match m with Announcement v n d t p c s => inl (v, (n, (d, (t, (p, (c, s))))))
          | Goodbye n s => inr (inl (n, s)) | Query n s => inr (inr (n, s)) end)
    (c_alt 0 (c_pair c_version (c_pair c_node_id (c_pair c_string (c_pair c_device (c_pair (varint 16)
        (c_pair c_caps (varint 64)))))))
      (c_alt 1 (c_pair c_node_id (varint 64)) (c_last 2 (c_pair c_node_id (varint 64))))).
Lemma c_beacon_ok : codec_ok c_beacon valid.
Proof.
  eapply c_iso_ok; [codec_solve; eauto with bridge|by intros []| |].
  - intros [v n d t p c s|n s|n s] Hv; [destruct Hv as (?&[? ?]&?&?&?)|done|done]. by split_and!.
  - by intros [(?&?&?&?&?&?&?)|[[? ?]|[? ?]]]; simpl; intros; destruct_and?.
Qed.
Module BeaconWire.
#[export] Instance beacon_postcard : Postcard BeaconMessage := codec_postcard c_beacon.
#[export] Instance beacon_laws : PostcardLaws BeaconMessage := codec_postcard_laws _ c_beacon_ok.
End BeaconWire.

(** ** Lemmas: beacons and TXT records *)

(** What a receiver can rely on. *)
Definition beacon_sane (m : BeaconMessage) : Prop :=
  valid m ∧ match m with
            | Announcement _ _ name _ port _ _ => port ≠ 0 ∧ (length (as_bytes name) ≤ MAX_DEVICE_NAME_LEN)%nat
            | _ => True
            end.

Lemma sanitize_beacon_sane m m' : valid m → sanitize_beacon m = Ok m' → beacon_sane m'.
Proof.
  destruct m as [v n d t p c s|n s|n s]; simpl; [|by intros ? [= <-]..].
  case_decide; [done|]. intros (? & [? Hl] & ? & ? & ?) [= <-].
  split; [|split; [done|apply truncate_str_len]].
  split; [done|split; [split; [by apply truncate_str_valid|]|done]].
  unfold str_len, zlen in *. pose proof (truncate_str_len d MAX_DEVICE_NAME_LEN) as Ht.
  unfold MAX_DEVICE_NAME_LEN in *. lia.
Qed.

Lemma decode_encode_beacon `{Postcard BeaconMessage, !PostcardLaws BeaconMessage} m bs :
  valid m → encode_beacon m = Ok bs →
  decode_beacon bs = sanitize_beacon m ∧ decode_beacon (take 2048 bs) = sanitize_beacon m.
Proof.
  intros (pl & E & D)%postcard_roundtrip. unfold encode_beacon. rewrite E. cbn.
  case_decide as Hsz; [done|]. intros [= <-]. cbn in Hsz.
  change (_ ++ ?l) with (BEACON_MAGIC ++ [BEACON_VERSION] ++ l).
  rewrite (take_ge _ 2048).
  2:{ unfold zlen, MAX_BEACON_SIZE in Hsz. simpl. lia. }
  assert (decode_beacon (BEACON_MAGIC ++ [BEACON_VERSION] ++ pl) = sanitize_beacon m) as Hd; [|done].
  unfold decode_beacon.
  rewrite decide_False by (unfold zlen; simpl; lia).
  rewrite decide_False.
  2:{ unfold zlen, MAX_BEACON_SIZE in *. simpl. lia. }
  rewrite decide_False by (intros Hx; by apply Hx).
  rewrite decide_False by (intros Hx; by apply Hx).
  change (drop 5 (BEACON_MAGIC ++ [BEACON_VERSION] ++ pl)) with pl. by rewrite D.
Qed.

Lemma decode_beacon_inv `{Postcard BeaconMessage, !PostcardLaws BeaconMessage} bs m :
  decode_beacon bs = Ok m →
  beacon_sane m ∧ 5 ≤ zlen bs ≤ MAX_BEACON_SIZE ∧ take 4 bs = BEACON_MAGIC ∧ bs !! 4%nat = Some BEACON_VERSION.
Proof.
  unfold decode_beacon. repeat (case_decide; [done|]). intros Hd.
  destruct (from_bytes (drop 5 bs)) as [m0|e] eqn:Ef; [|done]. apply postcard_valid in Ef.
  split_and!; [by eapply sanitize_beacon_sane|lia|lia|by destruct (decide (take 4 bs = BEACON_MAGIC))|].
  destruct (lookup_lt_is_Some_2 bs 4) as [b Hb]; [unfold zlen in *; lia|].
  rewrite Hb in *. simpl in *. f_equal. by destruct (decide (b = BEACON_VERSION)).
Qed.

Lemma digit16_hex d : 0 ≤ d < 16 → digit16 (hex_digit d) = Some d.
Proof.
  intros Hd. assert (d ∈ [0;1;2;3;4;5;6;7;8;9;10;11;12;13;14;15]) as Hin by (rewrite !elem_of_cons; lia).
  repeat (apply elem_of_cons in Hin as [->|Hin]; [reflexivity|]). by apply not_elem_of_nil in Hin.
Qed.

Lemma hex_digit_not_plus d : 0 ≤ d < 16 → b2z (hex_digit d) ≠ 43.
Proof.
  intros Hd E. pose proof (digit16_hex d Hd) as Hx. unfold digit16 in Hx. rewrite E in Hx. done.
Qed.

Lemma lower_hex_digits_read fuel z :
  0 ≤ z < 16 ^ Z.of_nat fuel → z < 2 ^ 32 → (0 < fuel)%nat →
  foldl radix_step (Some 0) (lower_hex_digits fuel z) = Some z
  ∧ ∃ d r, lower_hex_digits fuel z = hex_digit d :: r ∧ 0 ≤ d < 16.
Proof.
  revert z. induction fuel as [|fuel IH]; [lia|]. intros z Hz Hw _.
  rewrite Nat2Z.inj_succ, Z.pow_succ_r in Hz by lia. cbn [lower_hex_digits]. case_decide as Hs.
  - split; [|exists z, []; split; [done|lia]]. simpl. rewrite digit16_hex by lia. cbn. by rewrite decide_True by lia.
  - pose proof (Z.div_mod z 16 ltac:(lia)). pose proof (Z.mod_pos_bound z 16 ltac:(lia)).
    assert (0 < fuel)%nat by (destruct fuel; [simpl in Hz|]; lia).
    destruct (IH (z / 16)) as (Hr & d & r & Hd & Hdr).
    { split; [apply Z.div_pos; lia|apply Z.div_lt_upper_bound; lia]. } { lia. } { done. }
    split; [|exists d, (r ++ [hex_digit (z mod 16)]); rewrite Hd; done].
    rewrite foldl_app, Hr. simpl. rewrite digit16_hex by lia. cbn.
    rewrite decide_True by lia. f_equal. lia.
Qed.

Lemma lower_hex_roundtrip z : in_width 32 z → u32_from_str_radix16 (lower_hex z) = Some z.
Proof.
  intros [Hz Hw]. unfold u32_from_str_radix16, lower_hex. rewrite as_of_bytes.
  destruct (lower_hex_digits_read 8 z) as (Hr & d & r & Hd & Hdr); [|done|lia|].
  { split; [done|]. apply Z.lt_le_trans with (2 ^ 32); [done|]. by vm_compute. }
  rewrite Hd in *. rewrite decide_False by (by apply hex_digit_not_plus). done.
Qed.


Lemma txt_lookups `{Hex} id name ty caps :
  let props := peer_to_txt_properties id name ty caps in
  props !! "node_id" = Some (NodeId_to_hex id) ∧ props !! "name" = Some name
  ∧ props !! "type" = Some (DeviceType_to_string ty) ∧ props !! "caps" = Some (lower_hex (flags caps)).
Proof. unfold peer_to_txt_properties. split_and!; by simplify_map_eq. Qed.

(** ** Lemmas: the directory and its events *)

(** What a subscriber reconstructs from the event stream alone. *)
Definition apply_event (d : PeerDirectory) (ev : DiscoveryEvent) : PeerDirectory :=
  match ev with
  | PeerDiscovered p | PeerUpdated p => <[dp_node_id p := p]> d
  | PeerLost n | PeerExpired n => delete n d
  end.
Definition replay (evs : list DiscoveryEvent) : PeerDirectory := foldl apply_event ∅ evs.

Definition event_node (ev : DiscoveryEvent) : NodeId :=
  match ev with PeerDiscovered p | PeerUpdated p => dp_node_id p | PeerLost n | PeerExpired n => n end.

Lemma replay_app l1 l2 : replay (l1 ++ l2) = foldl apply_event (replay l1) l2.
Proof. apply foldl_app. Qed.

(** The directory is keyed by the peers' ids and is what its events say. *)
Definition shared_ok (s : Shared) : Prop :=
  replay (sh_events s) = sh_directory s ∧ map_Forall (λ n p, dp_node_id p = n) (sh_directory s).

Lemma replay_expired l (d : PeerDirectory) n :
  foldl apply_event d (map (λ p, PeerExpired (dp_node_id p)) l) !! n =
    if decide (n ∈ dp_node_id <$> l) then None else d !! n.
Proof.
  revert d. induction l as [|p l IH]; intros d; cbn [foldl map].
  - rewrite decide_False; [done|]. apply not_elem_of_nil.
  - rewrite IH. cbn [apply_event]. destruct (decide (n = dp_node_id p)) as [->|Hn].
    + rewrite lookup_delete_eq. rewrite (decide_True (P := _ ∈ _ <$> p :: l)) by left. by case_decide.
    + rewrite lookup_delete_ne by done. cbn [fmap list_fmap].
      destruct (decide (n ∈ dp_node_id <$> l)) as [Hi|Hi].
      * rewrite decide_True; [done|by right].
      * rewrite decide_False; [done|]. by intros [?|?]%elem_of_cons.
Qed.

Lemma prune_expired_spec max_age now (d : PeerDirectory) n :
  map_Forall (λ n p, dp_node_id p = n) d →
  n ∈ dp_node_id <$> (prune_expired max_age now d).1 ↔
  ∃ p, d !! n = Some p ∧ peer_is_expired p max_age now = true.
Proof.
  intros Hk. cbn. rewrite list_elem_of_fmap. setoid_rewrite list_elem_of_fmap. split.
  - intros (p & -> & [n' p'] & -> & Hin%elem_of_map_to_list). apply map_lookup_filter_Some in Hin as [Hd He].
    simpl in *. exists p'. by rewrite (Hk _ _ Hd).
  - intros (p & Hd & He). exists p. split; [by rewrite (Hk _ _ Hd)|]. exists (n, p). split; [done|].
    apply elem_of_map_to_list, map_lookup_filter_Some. done.
Qed.

Lemma prune_round_ok ttl now s : shared_ok s → shared_ok (prune_round ttl now s).
Proof.
  intros [Hr Hk]. unfold prune_round. cbn. split; cbn.
  - rewrite replay_app, Hr. apply map_eq. intros n. rewrite replay_expired.
    case_decide as Hin.
    + apply (prune_expired_spec ttl now _ n Hk) in Hin as (p & Hd & He).
      symmetry. apply map_lookup_filter_None. right. intros p' Hp'. simplify_eq. simpl. by rewrite He.
    + destruct (sh_directory s !! n) as [p|] eqn:Hd.
      * symmetry. apply map_lookup_filter_Some. split; [done|]. simpl. apply not_true_is_false. intros He.
        apply Hin, (prune_expired_spec ttl now _ n Hk). eauto.
      * symmetry. apply map_lookup_filter_None. by left.
  - intros n p [Hd _]%map_lookup_filter_Some. by apply Hk.
Qed.

Lemma sighting_round_ok peer now s : shared_ok s → shared_ok (sighting_round peer now s).
Proof.
  intros [Hr Hk]. unfold sighting_round, insert_or_update.
  destruct (sh_directory s !! dp_node_id peer) as [ex|] eqn:Ed; cbn; (split; cbn; [rewrite replay_app, Hr; cbn|]).
  - by rewrite (Hk _ _ Ed).
  - apply map_Forall_insert_2; [cbn; by apply Hk|done].
  - done.
  - by apply map_Forall_insert_2.
Qed.

Lemma departure_round_ok n s : shared_ok s → shared_ok (departure_round n s).
Proof.
  intros [Hr Hk]. unfold departure_round. cbn.
  destruct (sh_directory s !! n) as [p|] eqn:Ed; (split; cbn; [rewrite replay_app, Hr; cbn|by apply map_Forall_delete]).
  - done.
  - symmetry. by apply delete_id.
Qed.

(** The three rounds that touch the directory generate everything the workers do
    to it. *)
Inductive round_kind := KPrune (ttl : Z) | KSight (peer : DiscoveredPeer) | KDepart (n : NodeId) | KQuiet.

Definition do_round (k : round_kind) (now : Z) (s : Shared) : Shared :=
  match k with
  | KPrune ttl => prune_round ttl now s
  | KSight peer => sighting_round peer now s
  | KDepart n => departure_round n s
  | KQuiet => s
  end.

(** Equality of what subscribers and the directory see; sending changes neither. *)
Definition same_view (s1 s2 : Shared) : Prop :=
  sh_directory s1 = sh_directory s2 ∧ sh_events s1 = sh_events s2.
#[global] Instance same_view_equiv : Equivalence same_view.
Proof. split; [by intros s|by intros s1 s2 []|by intros s1 s2 s3 [] []; split; etrans]. Qed.
#[global] Instance shared_ok_proper : Proper (same_view ==> iff) shared_ok.
Proof. intros s1 s2 [Hd He]. unfold shared_ok. by rewrite Hd, He. Qed.

(** An entry built from the announcement [peer]. *)
Definition entry_from (p peer : DiscoveredPeer) : Prop :=
  dp_device_name p = dp_device_name peer ∧ dp_device_type p = dp_device_type peer
  ∧ dp_capabilities p = dp_capabilities peer ∧ dp_addresses peer ⊆ dp_addresses p.

Lemma merge_addresses_spec l new a : a ∈ merge_addresses l new ↔ a ∈ l ∨ a ∈ new.
Proof.
  revert l. induction new as [|x new IH]; intros l; cbn.
  - split; [by left|by intros [?|?%not_elem_of_nil]].
  - rewrite IH, elem_of_cons. case_decide as Hx; [naive_solver|].
    rewrite elem_of_app, list_elem_of_singleton. naive_solver.
Qed.

Lemma do_round_lookup k now s n p :
  sh_directory (do_round k now s) !! n = Some p →
  (sh_directory s !! n = Some p ∧ ∀ ttl, k = KPrune ttl → peer_is_expired p ttl now = false)
  ∨ ∃ peer, k = KSight peer ∧ dp_node_id peer = n ∧ dp_last_seen p = now ∧ entry_from p peer.
Proof.
  destruct k as [ttl|peer|m|]; cbn [do_round].
  - unfold prune_round. cbn. intros [Hd He]%map_lookup_filter_Some. left. split; [done|]. by intros ? [= <-].
  - unfold sighting_round, insert_or_update.
    destruct (sh_directory s !! dp_node_id peer) as [ex|] eqn:Ed; cbn;
      (intros [[<- <-]|[? ?]]%lookup_insert_Some; [right|left; done]); exists peer.
    + split_and!; try done. unfold entry_from. split_and!; try done. intros a Ha. cbn. apply merge_addresses_spec. by right.
    + done.
  - unfold departure_round. cbn. destruct (sh_directory s !! m); cbn; intros [_ ?]%lookup_delete_Some; by left.
  - by left.
Qed.

Lemma do_round_events k now s ev :
  map_Forall (λ n p, dp_node_id p = n) (sh_directory s) →
  ev ∈ sh_events (do_round k now s) →
  ev ∈ sh_events s ∨ is_Some (sh_directory s !! event_node ev)
  ∨ ∃ peer, k = KSight peer ∧ dp_node_id peer = event_node ev.
Proof.
  intros Hk. destruct k as [ttl|peer|m|]; cbn [do_round].
  - unfold prune_round. cbn. intros [?|Hin]%elem_of_app; [by left|right; left].
    apply list_elem_of_fmap in Hin as (p & -> & Hp). cbn.
    destruct (proj1 (prune_expired_spec ttl now _ (dp_node_id p) Hk)) as (q & Hq & _); [|eauto].
    by apply list_elem_of_fmap_2.
  - unfold sighting_round, insert_or_update.
    destruct (sh_directory s !! dp_node_id peer) as [ex|] eqn:Ed; cbn;
      (intros [?| ->%list_elem_of_singleton]%elem_of_app; [by left|right; right]); exists peer; cbn; [|done].
    by rewrite (Hk _ _ Ed).
  - unfold departure_round. cbn. destruct (sh_directory s !! m) eqn:Ed; cbn.
    + intros [?| ->%list_elem_of_singleton]%elem_of_app; [by left|right; left]. cbn. by rewrite Ed.
    + rewrite app_nil_r. by left.
  - by left.
Qed.

Lemma do_round_ok k now s : shared_ok s → shared_ok (do_round k now s).
Proof.
  destruct k; [apply prune_round_ok|apply sighting_round_ok|apply departure_round_ok|done].
Qed.

Section WorkerLemmas.
Context `{Hex, Postcard BeaconMessage}.

Lemma send_beacon_view m ts s : same_view (send_beacon m ts s) s.
Proof. unfold send_beacon. by destruct (encode_beacon m). Qed.

(** The input [i], at time [now], announces [peer]. *)
Definition hears (i : UnifiedInput) (now : Z) (peer : DiscoveredPeer) : Prop :=
  match i with
  | InUdp (URecv dg src) =>
    ∃ v n name t port c q, decode_beacon (take 2048 dg) = Ok (Announcement v n name t port c q)
      ∧ peer = DiscoveredPeer_new n name t [{| sa_ip := sa_ip src; sa_port := port |}] c now
  | InMdns (MResolved info) => parse_resolved_service info now = Ok peer
  | _ => False
  end.

(** The local id of the running channels. *)
Definition local_id_is (me : NodeId) (d : UnifiedDiscovery) : Prop :=
  (∀ u, un_udp d = Some u → ud_local_node_id u = Some me)
  ∧ (∀ m, un_mdns d = Some m → md_local_node_id m = Some me).

(** Each round of a worker is one of the rounds above; a sighting is of a peer that
    the input announces, and never of the local node. *)
Lemma unified_step_round i now d :
  ∃ k, same_view (un_shared (unified_step i now d)) (do_round k now (un_shared d))
    ∧ (∀ peer, k = KSight peer → hears i now peer
         ∧ ∀ me, local_id_is me d → dp_node_id peer ≠ me)
    ∧ (∀ me, local_id_is me d → local_id_is me (unified_step i now d)).
Proof.
  destruct i as [i|i]; simpl.
  - destruct (un_udp d) as [u|] eqn:Eu; [|by exists KQuiet].
    destruct (ud_worker u); [|by exists KQuiet].
    assert (∀ u' s', ud_local_node_id u' = ud_local_node_id u → ∀ me, local_id_is me d →
      local_id_is me (un_set (un_mdns d) (Some u') s' (un_is_running d) d)) as Hid.
    { intros u' s' Hu me [Hl Hm]. split; [|done]. cbn. intros ? [= <-]. rewrite Hu. by apply Hl. }
    destruct i as [| |dg src| |]; simpl.
    + exists (KPrune (uc_ttl (ud_config u))). split_and!; [done|done|by apply Hid].
    + destruct (ud_advertising_info u); exists KQuiet;
        (split_and!; [|done|by apply Hid]); [apply send_beacon_view|done].
    + unfold udp_recv. destruct (decode_beacon (take 2048 dg)) as [b|] eqn:Ed;
        [|exists KQuiet; split_and!; [done|done|by apply Hid]].
      case_decide as Hl; [exists KQuiet; split_and!; [done|done|by apply Hid]|].
      destruct b as [v n name t port c q|n q|n q]; cbn [handle_beacon].
      * eexists (KSight _). split_and!; [done| |by apply Hid]. intros ? [= <-]. split; [by repeat eexists|].
        intros me [Hme _] <-. by apply Hl, Hme.
      * exists (KDepart n). split_and!; [done|done|by apply Hid].
      * exists KQuiet. split_and!; [|done|by apply Hid].
        destruct (ud_advertising_info u); [apply send_beacon_view|done].
    + exists KQuiet. split_and!; [done|done|by apply Hid].
    + exists KQuiet. split_and!; [apply send_beacon_view|done|by apply Hid].
  - destruct (un_mdns d) as [m|] eqn:Em; [|by exists KQuiet].
    destruct (md_worker m); [|by exists KQuiet].
    assert (∀ m' s', md_local_node_id m' = md_local_node_id m → ∀ me, local_id_is me d →
      local_id_is me (un_set (Some m') (un_udp d) s' (un_is_running d) d)) as Hid.
    { intros m' s' Hu me [Hl Hm]. split; [done|]. cbn. intros ? [= <-]. rewrite Hu. by apply Hm. }
    destruct i as [|info|fullname| |]; simpl.
    + exists (KPrune (dc_ttl (md_config m))). split_and!; [done|done|by apply Hid].
    + destruct (parse_resolved_service info now) as [peer|] eqn:Ep;
        [|exists KQuiet; split_and!; [done|done|by apply Hid]].
      case_decide as Hl; [exists KQuiet; split_and!; [done|done|by apply Hid]|].
      exists (KSight peer). split_and!; [done| |by apply Hid]. intros ? [= <-]. split; [done|].
      intros me [_ Hme] <-. by apply Hl, Hme.
    + destruct (md_fullname_to_node m !! fullname) as [n|];
        [exists (KDepart n)|exists KQuiet]; (split_and!; [done|done|by apply Hid]).
    + exists KQuiet. split_and!; [done|done|by apply Hid].
    + exists KQuiet. split_and!; [done|done|by apply Hid].
Qed.

(** A sequence of rounds of the two workers, in any interleaving. *)
Definition unified_run (trace : list (UnifiedInput * Z)) (d : UnifiedDiscovery) : UnifiedDiscovery :=
  foldl (λ d it, unified_step it.1 it.2 d) d trace.

(** What holds after the trace [tr] of a node [me]. *)
Definition discovery_ok (me : NodeId) (tr : list (UnifiedInput * Z)) (d : UnifiedDiscovery) : Prop :=
  shared_ok (un_shared d) ∧ local_id_is me d
  ∧ sh_directory (un_shared d) !! me = None
  ∧ (∀ ev, ev ∈ sh_events (un_shared d) → event_node ev ≠ me)
  ∧ (∀ n p, sh_directory (un_shared d) !! n = Some p →
       ∃ i peer, (i, dp_last_seen p) ∈ tr ∧ hears i (dp_last_seen p) peer ∧ dp_node_id peer = n
         ∧ entry_from p peer).

Lemma unified_step_ok me tr i now d :
  discovery_ok me tr d → discovery_ok me (tr ++ [(i, now)]) (unified_step i now d).
Proof.
  intros (Hs & Hl & Hme & Hev & Hp).
  destruct (unified_step_round i now d) as (k & Hv & Hk & Hl').
  assert (Hv' := Hv). destruct Hv' as [Hd He]. split_and!.
  - rewrite Hv. by apply do_round_ok.
  - by apply Hl'.
  - rewrite Hd. apply eq_None_not_Some. intros [p Hx].
    apply do_round_lookup in Hx as [[Hx _]|(peer & Hkp & Hn & _)]; [congruence|].
    by apply (proj2 (Hk peer Hkp) me Hl).
  - intros ev. rewrite He. intros [?|[[p Hx]|(peer & Hkp & Hn)]]%do_round_events; [by apply Hev| | |apply Hs].
    + intros <-. congruence.
    + rewrite <-Hn. by apply (Hk peer Hkp).
  - intros n p. rewrite Hd. intros [[Hx _]|(peer & Hkp & Hn & Ht & Hf)]%do_round_lookup.
    + destruct (Hp n p Hx) as (i' & peer & Hin & ? & ? & ?). exists i', peer. rewrite elem_of_app. naive_solver.
    + exists i, peer. rewrite Ht. split_and!; [apply elem_of_app; right; by left|by apply (Hk peer)|done|done].
Qed.

Lemma unified_run_ok me tr tr' d :
  discovery_ok me tr d → discovery_ok me (tr ++ tr') (unified_run tr' d).
Proof.
  revert tr d. induction tr' as [|[i t] tr' IH]; intros tr d Hd; cbn; [by rewrite app_nil_r|].
  rewrite (cons_middle (i, t) tr tr'), app_assoc. by apply IH, unified_step_ok.
Qed.

(** Setting up: a new engine that advertises and starts. *)
Lemma discovery_ok_new `{ServiceInfo} daemon config d0 me name ty port caps ips reg d1 browse sock d2 :
  UnifiedDiscovery_new daemon config = Ok d0 →
  unified_advertise me name ty port caps ips reg d0 = (Ok tt, d1) →
  unified_start_discovery browse sock d1 = (Ok tt, d2) →
  discovery_ok me [] d2.
Proof.
  intros Hn Ha Hst.
  assert (local_id_is me d2 ∧ un_shared d2 = Shared_new) as [Hl Hsh].
  { unfold UnifiedDiscovery_new in Hn. destruct (uf_mode config), daemon; cbn in Hn; simplify_eq;
      unfold unified_advertise in Ha; cbn in Ha;
      repeat case_match; simplify_eq; unfold unified_start_discovery in Hst; cbn in Hst;
      unfold mdns_advertise, mdns_start_discovery, udp_start_discovery in *; cbn in *;
      repeat case_match; simplify_eq/=; (split; [split; intros ? [=]; by subst|done]). }
  unfold discovery_ok. rewrite Hsh. split_and!; [|done|done|by intros ? ?%not_elem_of_nil|done].
  split; [done|]. intros ???. done.
Qed.

Lemma unexpired_age p max_age now :
  0 ≤ max_age → peer_is_expired p max_age now = false → now - dp_last_seen p ≤ max_age.
Proof.
  unfold peer_is_expired, duration_since. intros ?. case_decide; [|lia]. intros ?%bool_decide_eq_false. lia.
Qed.

Lemma send_beacon_sent m bs ts s :
  encode_beacon m = Ok bs → sh_sent (send_beacon m ts s) = sh_sent s ++ map (λ t, (bs, t)) ts.
Proof. intros E. unfold send_beacon. by rewrite E. Qed.

Lemma udp_recv_beacon dg m u src now s :
  decode_beacon (take 2048 dg) = Ok m → ud_local_node_id u ≠ Some (beacon_node_id m) →
  udp_recv dg src now u s = handle_beacon m src now u s.
Proof. intros E Hl. unfold udp_recv. rewrite E. by rewrite decide_False. Qed.
End WorkerLemmas.

(** A sighting lists the peer and publishes the entry; a departure undoes it. *)
Lemma sighting_round_spec peer now s :
  ∃ p, sh_directory (sighting_round peer now s) !! dp_node_id peer = Some p
    ∧ dp_last_seen p = now ∧ entry_from p peer
    ∧ (sh_events (sighting_round peer now s) = sh_events s ++ [PeerDiscovered p]
       ∨ sh_events (sighting_round peer now s) = sh_events s ++ [PeerUpdated p]).
Proof.
  unfold sighting_round, insert_or_update, entry_from.
  destruct (sh_directory s !! dp_node_id peer) as [ex|]; cbn; rewrite lookup_insert_eq; eexists;
    (split; [reflexivity|]); cbn; split_and!; auto.
  intros a Ha. apply merge_addresses_spec. by right.
Qed.


(** ** Properties *)


(** No stale and no invented peers.  After any rounds followed by a pruning
    round of the UDP worker, every listed peer was announced, under its own id and
    with the listed name, type and capabilities and a listed address, by a beacon
    or a service record received no longer than the TTL before the pruning, whatever
    the clock did in between. *)
Theorem directory_heard_recently `{Hex, Postcard BeaconMessage, ServiceInfo} daemon config d0 me name ty port
    caps ips reg d1 browse sock d2 (trace : list (UnifiedInput * Z)) (now : Z) (n : NodeId) (p : DiscoveredPeer) :
  UnifiedDiscovery_new daemon config = Ok d0 →
  unified_advertise me name ty port caps ips reg d0 = (Ok tt, d1) →
  unified_start_discovery browse sock d1 = (Ok tt, d2) →
  ∀ u, un_udp (unified_run trace d2) = Some u → ud_worker u = true → 0 ≤ uc_ttl (ud_config u) →
  dir_get n (sh_directory (un_shared (unified_step (InUdp UPrune) now (unified_run trace d2)))) = Some p →
  ∃ i t peer, (i, t) ∈ trace ∧ hears i t peer ∧ dp_node_id peer = n ∧ entry_from p peer
    ∧ now - t ≤ uc_ttl (ud_config u).
Proof.
  intros Hn Ha Hs u Hu Hw Ht. pose proof (discovery_ok_new _ _ _ _ _ _ _ _ _ _ _ _ _ _ Hn Ha Hs) as Hok.
  destruct (unified_run_ok me [] trace d2 Hok) as (_ & _ & _ & _ & Hp).
  unfold dir_get. cbn [unified_step]. rewrite Hu, Hw. cbn. intros [Hd He]%map_lookup_filter_Some. simpl in He.
  destruct (Hp n p Hd) as (i & peer & ? & ? & ? & ?). exists i, (dp_last_seen p), peer. split_and!; try done.
  by apply unexpired_age.
Qed.

(** The beacon format.  A valid message that fits a datagram reads back as the
    same message, its device name cut to 64 bytes at a character boundary (an
    announcement of port 0 is refused); and whatever is accepted, from any bytes,
    is a well-formed message with a usable port and a bounded UTF-8 name, in a
    datagram of 5 to 1400 bytes that starts with the magic and the version. *)
Theorem beacon_roundtrip `{Postcard BeaconMessage, !PostcardLaws BeaconMessage} (m : BeaconMessage)
    (bs any : list byte) :
  valid m → encode_beacon m = Ok bs →
  decode_beacon bs =
    match m with
    | Announcement v n name t port c q =>
      if decide (port = 0) then Err (DInvalidPacket "announcement port cannot be 0")
      else Ok (Announcement v n (truncate_str name 64) t port c q)
    | _ => Ok m
    end
  ∧ zlen bs ≤ 1400
  ∧ (∀ m', decode_beacon any = Ok m' →
       beacon_sane m' ∧ 5 ≤ zlen any ≤ 1400 ∧ take 4 any = BEACON_MAGIC ∧ any !! 4%nat = Some BEACON_VERSION).
Proof.
  intros Hv He. destruct (decode_encode_beacon m bs Hv He) as [-> _]. split_and!.
  - by destruct m.
  - unfold encode_beacon in He. destruct (to_allocvec m); [|done]. cbn in He. case_decide as Hs; [done|].
    injection He as <-. unfold zlen, MAX_BEACON_SIZE in *. cbn in Hs |- *. lia.
  - intros m' Hm'. by apply decode_beacon_inv in Hm'.
Qed.

(** One beacon makes a device known, its goodbye makes it unknown.  When device
    A advertises (valid fields, a port, a beacon that fits) and its beacon timer
    fires, a datagram goes to every configured target; device B (any state, another
    id) that receives it from [src] lists A at [src]'s address with A's port and
    publishes it; and after A shuts down, the goodbye sent to the same targets
    removes A at B and publishes the loss. *)
Theorem beacon_discovers `{Postcard BeaconMessage, !PostcardLaws BeaconMessage} (cfg : UdpConfig) (sa : Shared)
    (id : NodeId) (name : string) (ty : DeviceType) (port : u16) (caps : Capabilities) (ta : Z) (bs gb : list byte)
    (ub : UdpDiscovery) (sb : Shared) (src : SocketAddr) (tb tb2 : Z) :
  valid_str name → in_width 16 port → port ≠ 0 → valid caps → uc_goodbye_on_shutdown cfg = true →
  encode_beacon (Announcement ProtocolVersion_CURRENT id name ty port caps 2) = Ok bs →
  encode_beacon (Goodbye id 3) = Ok gb →
  ud_local_node_id ub ≠ Some id →
  let a0 := udp_advertise id name ty port caps (UdpDiscovery_new cfg) in
  let a1 := udp_step UBeacon ta (a0, sa) in
  let a2 := udp_shutdown true a1 in
  sh_sent a1.2 = sh_sent sa ++ map (λ t, (bs, t)) (uc_broadcast_targets cfg)
  ∧ sh_sent a2.2 = sh_sent a1.2 ++ map (λ t, (gb, t)) (uc_broadcast_targets cfg)
  ∧ let b1 := (udp_step (URecv bs src) tb (ub, sb)).2 in
    let b2 := (udp_step (URecv gb src) tb2 (ub, b1)).2 in
    (∃ p, dir_get id (sh_directory b1) = Some p ∧ {| sa_ip := sa_ip src; sa_port := port |} ∈ dp_addresses p
       ∧ dp_device_name p = truncate_str name 64 ∧ dp_last_seen p = tb
       ∧ (sh_events b1 = sh_events sb ++ [PeerDiscovered p] ∨ sh_events b1 = sh_events sb ++ [PeerUpdated p]))
    ∧ dir_get id (sh_directory b2) = None ∧ sh_events b2 = sh_events b1 ++ [PeerLost id].
Proof.
  intros Hn Hw Hp Hc Hg He Hgb Hub a0 a1 a2.
  set (m := Announcement ProtocolVersion_CURRENT id name ty port caps 2) in *.
  assert (valid m) as Hm by (split; [by split|split; [done|split; [done|split; [done|by split]]]]).
  destruct (decode_encode_beacon m bs Hm He) as [_ Hd].
  destruct (decode_encode_beacon (Goodbye id 3) gb) as [_ Hdg]; [done|done|].
  assert (a1.2 = send_beacon m (uc_broadcast_targets cfg) sa) as Ha1 by done.
  assert (a2.2 = send_beacon (Goodbye id 3) (uc_broadcast_targets cfg) a1.2) as Ha2.
  { unfold a2, udp_shutdown. cbn. by rewrite Hg. }
  split; [by rewrite Ha1, (send_beacon_sent m bs)|].
  split; [by rewrite Ha2, (send_beacon_sent (Goodbye id 3) gb)|].
  cbn [udp_step snd]. unfold m in Hd. cbn [sanitize_beacon] in Hd. rewrite decide_False in Hd by done.
    rewrite (udp_recv_beacon _ _ _ _ _ _ Hd), (udp_recv_beacon _ _ _ _ _ _ Hdg) by done. cbn [handle_beacon].
    set (peer := DiscoveredPeer_new _ _ _ _ _ _).
    destruct (sighting_round_spec peer tb sb) as (p & Hx & Hl & (Hnm & _ & _ & Ha) & Hev).
    set (b1 := sighting_round peer tb sb) in *.
    split; [exists p; split_and!; try done; apply Ha; by left|].
    unfold departure_round. cbn. change (sh_directory b1 !! id = Some p) in Hx. rewrite Hx. cbn.
    split; [apply lookup_delete_eq|done].
Qed.

(** A start that fails half-way can only be undone.  When mDNS browsing has
    started and the UDP socket cannot be had, [start_discovery] reports the socket's
    error but keeps mDNS running: every later [start_discovery] answers
    [AlreadyRunning], also when the socket could be had then, until [shutdown], after
    which it starts again. *)
Theorem failed_start_sticks `{Hex, ServiceInfo, Postcard BeaconMessage} (d : UnifiedDiscovery) (m : MdnsDiscovery)
    (u : UdpDiscovery) (os : SocketOs) (e : DiscoveryError) :
  un_is_running d = false → un_mdns d = Some m → md_started m = false → un_udp d = Some u → ud_started u = false →
  create_udp_socket os (uc_bind_addr (ud_config u)) = Err e →
  ∃ d', unified_start_discovery (Ok tt) os d = (Err e, d')
    ∧ (∀ browse os', (unified_start_discovery browse os' d').1 = Err DAlreadyRunning)
    ∧ ∀ unregistered eph os' sock, create_udp_socket os' (uc_bind_addr (ud_config u)) = Ok sock →
        (unified_start_discovery (Ok tt) os' (unified_shutdown unregistered eph d')).1 = Ok tt.
Proof.
  intros Hr Em Hm Eu Hu Es. eexists. split; [|split].
  - unfold unified_start_discovery, mdns_start_discovery, udp_start_discovery. by rewrite Hr, Em, Hm, Eu, Hu, Es.
  - done.
  - intros unreg eph os' sock Eo. unfold unified_shutdown, mdns_shutdown, mdns_stop_advertising, udp_shutdown. cbn.
    unfold unified_start_discovery, mdns_start_discovery, udp_start_discovery. cbn. by rewrite Eo.
Qed.

(** The TXT records that a device publishes over mDNS read back as the device:
    the record any resolver rebuilds from them gives the same id, name, type and
    capabilities, with the resolved addresses and port. *)
Theorem txt_roundtrip `{Hex, !HexLaws} (id : NodeId) (name : string) (ty : DeviceType) (caps : Capabilities)
    (info : ResolvedService) (now : Z) :
  in_width 32 (flags caps) →
  rs_properties info = peer_to_txt_properties id name ty caps →
  parse_resolved_service info now =
    Ok (DiscoveredPeer_new id name ty
          (map (λ ip, {| sa_ip := ip; sa_port := rs_port info |}) (rs_addresses info)) caps now).
Proof.
  intros Hc Hi. unfold parse_resolved_service. rewrite Hi.
  destruct (txt_lookups id name ty caps) as (-> & -> & -> & ->). unfold parse_discovered_peer.
  cbn [ok_or map_err mbind result_bind default]. rewrite NodeId_hex_ok. cbn [map_err mbind result_bind]. rewrite DeviceType_roundtrip, lower_hex_roundtrip by done.
  by destruct caps.
Qed.

(** ** Witnesses *)

Section Witnesses.
Import Toy BeaconWire.

#[local] Instance toy_service_info : ServiceInfo := λ ty inst _ _ _ _, Ok (inst +:+ "." +:+ ty).

(** An operating system that grants every call. *)
Definition sockets_ok : SocketOs := {|
  os_new := λ _, Ok tt; os_reuse_address := Ok tt; os_reuse_port := Ok tt; os_broadcast := Ok tt;
  os_nonblocking := Ok tt; os_bind := λ _ _, Ok tt; os_tokio := Ok tt; os_text := λ _, "address" |}.
Definition disc_me : NodeId := {| node_bytes := arr_rep 32 x0a |}.
Definition disc_peer : NodeId := {| node_bytes := arr_rep 32 x0b |}.
Definition disc_src : SocketAddr := {| sa_ip := V4 (arr_rep 4 x07); sa_port := 42424 |}.
Definition disc_beacon : BeaconMessage :=
  Announcement ProtocolVersion_CURRENT disc_peer "Phone" Android 9000 Capabilities_all 2.
Definition disc_d0 : UnifiedDiscovery :=
  {| un_config := UnifiedDiscoveryConfig_default; un_shared := Shared_new;
     un_mdns := Some (MdnsDiscovery_new DiscoveryConfig_default);
     un_udp := Some (UdpDiscovery_new UdpConfig_default); un_is_running := false |}.
Definition disc_d1 : UnifiedDiscovery :=
  (unified_advertise disc_me "Laptop" Linux 8443 Capabilities_all None (Ok tt) disc_d0).2.
Definition disc_d2 : UnifiedDiscovery := (unified_start_discovery (Ok tt) sockets_ok disc_d1).2.
Definition disc_trace : list (UnifiedInput * Z) :=
  [(InUdp (URecv (BEACON_MAGIC ++ [BEACON_VERSION] ++ enc c_beacon disc_beacon) disc_src), 5);
   (InMdns MPrune, 6)].


Lemma disc_listed :
  dir_contains disc_peer (sh_directory (un_shared
    (unified_step (InUdp UPrune) 7 (unified_run disc_trace disc_d2)))) = true.
Proof. vm_compute. reflexivity. Qed.

Example directory_heard_recently_witness :
  ∃ i t peer, (i, t) ∈ disc_trace ∧ hears i t peer ∧ dp_node_id peer = disc_peer ∧ 7 - t ≤ from_secs 6.
Proof.
  pose proof disc_listed as Hl. apply bool_decide_eq_true in Hl as [p Hp].
  destruct (directory_heard_recently (Ok tt) UnifiedDiscoveryConfig_default disc_d0 disc_me "Laptop" Linux 8443
    Capabilities_all None (Ok tt) disc_d1 (Ok tt) sockets_ok disc_d2 disc_trace 7 disc_peer p)
    with (u := default (UdpDiscovery_new UdpConfig_default) (un_udp disc_d2))
    as (i & t & peer & Hi & Hh & Hn & _ & Ht); [reflexivity..| | |].
  - vm_compute. congruence.
  - exact Hp.
  - exists i, t, peer. split; [exact Hi|]. split; [exact Hh|]. split; [exact Hn|exact Ht].
Defined.

(** An operating system on which the port is taken. *)
Definition sockets_busy : SocketOs := {|
  os_new := λ _, Ok tt; os_reuse_address := Ok tt; os_reuse_port := Ok tt; os_broadcast := Ok tt;
  os_nonblocking := Ok tt; os_bind := λ _ _, Err "Address already in use"; os_tokio := Ok tt;
  os_text := λ _, "0.0.0.0:42424" |}.

Example failed_start_sticks_witness :
  ∃ d', (unified_start_discovery (Ok tt) sockets_busy disc_d1).2 = d'
    ∧ (unified_start_discovery (Ok tt) sockets_ok d').1 = Err DAlreadyRunning.
Proof.
  destruct (failed_start_sticks disc_d1 (default (MdnsDiscovery_new DiscoveryConfig_default) (un_mdns disc_d1))
    (default (UdpDiscovery_new UdpConfig_default) (un_udp disc_d1)) sockets_busy
    (DInternal "failed to bind UDP socket to 0.0.0.0:42424: Address already in use")) as (d' & E & Hs & _);
    [reflexivity..|]. exists d'. split; [by rewrite E|exact (Hs (Ok tt) sockets_ok)].
Defined.

Example beacon_roundtrip_witness :
  decode_beacon (BEACON_MAGIC ++ [BEACON_VERSION] ++ enc c_beacon disc_beacon) = Ok disc_beacon.
Proof.
  destruct (beacon_roundtrip disc_beacon (BEACON_MAGIC ++ [BEACON_VERSION] ++ enc c_beacon disc_beacon) [])
    as (Hd & _ & _).
  - repeat split; vm_compute; congruence.
  - vm_compute. reflexivity.
  - rewrite Hd. reflexivity.
Defined.

Example beacon_discovers_witness :
  let b1 := (udp_step (URecv (BEACON_MAGIC ++ [BEACON_VERSION] ++ enc c_beacon disc_beacon) disc_src) 5
               (UdpDiscovery_new UdpConfig_default, Shared_new)).2 in
  ∃ p, dir_get disc_peer (sh_directory b1) = Some p ∧ dp_device_name p = "Phone".
Proof.
  destruct (beacon_discovers UdpConfig_default Shared_new disc_peer "Phone" Android 9000 Capabilities_all 1
    (BEACON_MAGIC ++ [BEACON_VERSION] ++ enc c_beacon disc_beacon)
    (BEACON_MAGIC ++ [BEACON_VERSION] ++ enc c_beacon (Goodbye disc_peer 3))
    (UdpDiscovery_new UdpConfig_default) Shared_new disc_src 5 6) as (_ & _ & (p & Hp & _ & Hn & _) & _).
  - repeat split; vm_compute; congruence.
  - split; vm_compute; congruence.
  - lia.
  - split; vm_compute; congruence.
  - reflexivity.
  - vm_compute. reflexivity.
  - vm_compute. reflexivity.
  - discriminate.
  - exists p. split; [exact Hp|]. rewrite Hn. reflexivity.
Defined.

Example txt_roundtrip_witness :
  let info := {| rs_fullname := "Phone._bridgeos._tcp.local."; rs_port := 9000; rs_addresses := [V4 (arr_rep 4 x07)];
                 rs_properties := peer_to_txt_properties disc_peer "Phone" Android Capabilities_all |} in
  parse_resolved_service info 5 =
    Ok (DiscoveredPeer_new disc_peer "Phone" Android
          [{| sa_ip := V4 (arr_rep 4 x07); sa_port := 9000 |}] Capabilities_all 5).
Proof.
  intros info. apply (txt_roundtrip disc_peer "Phone" Android Capabilities_all info 5); [|reflexivity].
  split; vm_compute; congruence.
Defined.
End Witnesses.
