(* ===== verification/Node.v ===== *)
(** * Node: [tools/bridge-cli/src/{node,client}.rs]

    The peer node and the command-line client: the loop that serves a connection
    ([handle_connection]), the server side of a file transfer over the connection
    ([handle_file_transfer]), and the client commands that handshake, ping and send a
    file.  A connection's file transfer works on the stream and
    the file system ([Net]); the node's registry of outbound channels is a map from
    peers to connections.  Nonces, clock readings, the user's answers and the
    lengths of short reads are arguments; what is printed is not modelled. *)
From S2P Require Import Prelude Text External Codec Core Protocol Transport Fs Keys Trust Pairing TransferMsg Transfer Clipboard Session Discovery.

(** What [anyhow] carries: the context and the cause, or the text of [bail!]. *)
Inductive NodeError :=
| NSession (context : string) (e : SessionError)
| NIo (context : string) (e : BridgeError)
| NTransfer (context : string) (e : TransferError)
| NIdentity (context : string) (e : IdentityError)
| NDiscovery (context : string) (e : DiscoveryError)
| NFile (context msg : string)
| NBail (msg : string)
| NPanic (msg : string).

(** ** The stream and the disk of a transfer *)

Notation Net := (Io * Fs)%type.

Definition net_io {A} (context : string) (m : st Io BridgeError A) : st Net NodeError A :=
  st_map_err (NIo context) (zoom fst (λ io n, (io, n.2)) m).
Definition net_fs {A} (context : string) (m : st Fs TransferError A) : st Net NodeError A :=
  st_map_err (NTransfer context) (zoom snd (λ f n, (n.1, f)) m).

Section Wire.
Context `{Postcard Frame, Postcard TransferMessage, Debug Frame, Debug TransferMessage}.

(** [recv_frame().await.context(context)?.context(none)?]. *)
Definition net_recv (context none : string) : st Net NodeError Frame :=
  o ← net_io context recv_frame;
  match o with Some f => mret f | None => fail (NBail none) end.

(** [send_frame(&Frame::Data(msg.to_data_frame()?)).await.context(context)?]. *)
Definition net_send (context : string) (msg : TransferMessage) : st Net NodeError unit :=
  d ← lift (map_err (NTransfer "") (to_data_frame msg));
  net_io context (send_frame (Data d)).

(** The reply a sender waits for: a data frame of the transfer channel. *)
Definition net_reply (context none verb : string) : st Net NodeError TransferMessage :=
  frame ← net_recv context none;
  match frame with
  | Data df => lift (map_err (NTransfer "") (from_data_frame df))
  | other => fail (NBail ("Expected Data frame, " +:+ verb +:+ ": " +:+ debug other))
  end.

(** ** [node.rs]: [handle_file_transfer] *)

Section Server.
Context `{Blake3, Hex}.

Definition of_stop (context : string) (e : stop TransferError) : NodeError :=
  match e with Raise e => NTransfer context e | Panic msg => NPanic msg end.

(** A call of the receiver, which also works on the disk. *)
Definition on_receiver {E A} (f : E → NodeError) (m : st (FileReceiver * Fs) E A) :
    st (FileReceiver * Net) NodeError A :=
  st_map_err f (zoom (λ rn : FileReceiver * Net, (rn.1, rn.2.2)) (λ rf rn, (rf.1, (rn.2.1, rf.2))) m).
Definition on_net {A} (m : st Net NodeError A) : st (FileReceiver * Net) NodeError A :=
  zoom snd (λ n rn, (rn.1, n)) m.

(** The chunk loop; every round receives a frame, so it runs at most once per byte
    that is left on the stream. *)
Fixpoint receive_loop (fuel : nat) (rd : nat → nat) (manifest : FileManifest) :
    st (FileReceiver * Net) NodeError unit :=
  match fuel with
  | O => fail (NBail "unreachable")
  | S fuel' =>
    let file_id := fm_file_id manifest in
    frame ← on_net (net_recv "Failed to receive chunk frame" "Sender disconnected during file transfer");
    chunk_msg ←
      match frame with
      | Data df => lift (map_err (NTransfer "") (from_data_frame df))
      | Control (Disconnect _) => fail (NBail "Sender aborted transfer with Disconnect signal")
      | other => fail (NBail ("Expected Data frame for file transfer, received " +:+ debug other))
      end;
    match chunk_msg with
    | TData chunk =>
      let idx := fc_chunk_index chunk in
      _ ← on_receiver (of_stop "Failed to write received file chunk") (receive_chunk chunk);
      _ ← on_net (net_send "Failed to send chunk Ack" (Ack file_id idx));
      receive_loop fuel' rd manifest
    | Finished fin_id blake3_root_hash =>
      if decide (fin_id ≠ file_id) then fail (NBail "Finished file ID mismatch")
      else if decide (blake3_root_hash ≠ fm_blake3_root_hash manifest) then
        fail (NBail "Finished message root hash mismatch with initial offer manifest")
      else
        final_path ← on_receiver (NTransfer "Blake3 root hash verification failed for received file")
                       (finalize_file rd);
        on_net (net_send "Failed to send TransferMessage::Complete" (Complete file_id))
    | Cancel _ reason => fail (NBail ("Transfer cancelled by sender: " +:+ reason))
    | other => fail (NBail ("Unexpected message during chunk streaming: " +:+ debug other))
    end
  end.

Definition receive_chunks (rd : nat → nat) (manifest : FileManifest) (receiver : FileReceiver) :
    st Net NodeError unit := λ n,
  let '(r, rn) := receive_loop (S (length (rx n.1))) rd manifest (receiver, n) in (r, rn.2).

Definition handle_file_transfer (rd : nat → nat) (payload : list byte) (receive_dir : string) :
    st Net NodeError unit :=
  msg ← lift (map_err (NTransfer "Failed to deserialize TransferMessage payload")
                (TransferMessage_from_bytes payload));
  match msg with
  | Offer manifest =>
    receiver ← net_fs "Failed to initialize file receiver" (to_dir receive_dir manifest);
    let start_chunk := next_expected_chunk receiver in
    _ ← net_send "Failed to send Accept frame" (Accept (fm_file_id manifest) start_chunk);
    receive_chunks rd manifest receiver
  | _ => mret tt
  end.

(** ** [client.rs]: sending a file *)

(** The loop over the sender's chunks: each [next_chunk] that gives a chunk moves
    on, so there are at most [total_chunks] rounds. *)
Fixpoint stream_loop (fuel : nat) (manifest : FileManifest) : st (FileSender * Net) NodeError unit := λ sn,
  match fuel with
  | O => (Err (NBail "unreachable"), sn)
  | S fuel' =>
    let '(sender, n) := sn in
    let '(r, sender) := next_chunk n.2 sender in
    match r with
    | Err e => (Err (NTransfer "Failed to read next file chunk" e), (sender, n))
    | Ok None => (Ok tt, (sender, n))
    | Ok (Some chunk) =>
      let chunk_idx := fc_chunk_index chunk in
      let round : st Net NodeError unit :=
        _ ← net_send "Failed to send file chunk" (TData chunk);
        ack ← net_reply "Failed to receive Chunk Ack" "Peer disconnected mid-transfer" "got";
        match ack with
        | Ack ack_fid ack_idx =>
          if decide (ack_fid ≠ fm_file_id manifest ∨ ack_idx ≠ chunk_idx) then
            fail (NBail ("Ack mismatch: expected chunk " +:+ dec chunk_idx +:+ ", got " +:+ dec ack_idx))
          else mret tt
        | Cancel _ reason => fail (NBail ("Transfer cancelled by peer: " +:+ reason))
        | other => fail (NBail ("Expected Ack frame, got: " +:+ debug other))
        end in
      match round n with
      | (Err e, n) => (Err e, (sender, n))
      | (Ok _, n) => stream_loop fuel' manifest (sender, n)
      end
    end
  end.

Definition stream_chunks (manifest : FileManifest) (sender : FileSender) : st Net NodeError unit := λ n,
  let '(r, sn) := stream_loop (S (Z.to_nat (fm_total_chunks manifest))) manifest (sender, n) in (r, sn.2).

(** [run_send_file] from the offer on. *)
Definition offer_and_stream (file_path : string) (manifest : FileManifest) : st Net NodeError unit :=
  _ ← net_send "Failed to send TransferMessage::Offer" (Offer manifest);
  reply ← net_reply "Failed to receive Accept frame" "Peer closed connection while awaiting Accept" "received";
  '(file_id, start_chunk) ←
    match reply with
    | Accept file_id start_chunk => mret (file_id, start_chunk)
    | Cancel _ reason => fail (NBail ("Peer rejected file transfer: " +:+ reason))
    | other => fail (NBail ("Expected Accept frame from peer, received: " +:+ debug other))
    end;
  if decide (file_id ≠ fm_file_id manifest) then
    fail (NBail ("File ID mismatch in Accept message: expected " +:+ fm_file_id manifest +:+ ", got " +:+ file_id))
  else
    sender ← net_fs "Failed to initialize FileSender" (FileSender_from_file file_path manifest start_chunk);
    _ ← stream_chunks manifest sender;
    _ ← net_send "Failed to send Finished signal" (Finished (fm_file_id manifest) (fm_blake3_root_hash manifest));
    done ← net_reply "Failed to receive Complete frame" "Peer closed connection while awaiting Complete confirmation"
              "got";
    match done with
    | Complete file_id =>
      if decide (file_id ≠ fm_file_id manifest) then
        fail (NBail ("Complete file ID mismatch: expected " +:+ fm_file_id manifest +:+ ", got " +:+ file_id))
      else ignore (net_io "" (send_frame (Control (Disconnect Graceful))))
    | Cancel _ reason => fail (NBail ("Peer rejected file hash verification: " +:+ reason))
    | other => fail (NBail ("Expected Complete confirmation, got: " +:+ debug other))
    end.
End Server.

(** ** [client.rs]: [connect_and_handshake], [run_send_file], [run_ping] *)

Section Client.
Context `{Ed25519, Sha256, Blake3, Hex}.

(** [connected] is the outcome of [TcpStream::connect], after which the stream of the
    state is the connection. *)
Definition connect_and_handshake (connected : result string unit) (peer_addr : string) (client_key : IdentityKey)
    (device_name : string) (client_nonce : array 32) : st Net NodeError ServerHello :=
  _ ← lift (map_err (NFile ("Failed to connect to peer at " +:+ peer_addr)) connected);
  let client_hello := {|
    ch_version := ProtocolVersion_CURRENT; ch_node_id := IdentityKey_node_id client_key;
    ch_device_name := device_name; ch_client_nonce := client_nonce; ch_capabilities := Capabilities_all |} in
  _ ← net_io "Failed to send ClientHello" (send_frame (Handshake (HClientHello client_hello)));
  frame ← net_recv "Failed to receive ServerHello frame"
            "Connection closed unexpectedly while awaiting ServerHello";
  match frame with
  | Handshake (HServerHello server_hello) =>
    let signature := sign_handshake_challenge client_key client_nonce (sh_server_nonce server_hello) in
    _ ← net_io "Failed to send AuthResponse"
          (send_frame (Handshake (HAuthResponse {| ar_signature := signature |})));
    auth_frame ← net_recv "Failed to receive AuthResult"
                   "Connection closed unexpectedly while awaiting AuthResult";
    match auth_frame with
    | Handshake (HAuthResult auth) =>
      if au_success auth then mret server_hello
      else fail (NBail ("Peer rejected authentication: " +:+ default "unspecified error" (au_reason auth)))
    | other => fail (NBail ("Expected AuthResult frame, received: " +:+ debug other))
    end
  | other => fail (NBail ("Expected ServerHello from peer, received: " +:+ debug other))
  end.

Definition run_send_file (rd : nat → nat) (connected : result string unit) (peer_addr file_path device_name : string)
    (client_key : option IdentityKey) (generated : IdentityKey) (client_nonce : array 32) : st Net NodeError unit := λ n,
  if negb (fs_exists file_path n.2) then (Err (NBail ("File not found: " +:+ file_path)), n)
  else (
    manifest ← net_fs ("Failed to create file manifest for " +:+ file_path) (create_manifest_from_file rd file_path);
    let effective_key := default generated client_key in
    _ ← connect_and_handshake connected peer_addr effective_key device_name client_nonce;
    offer_and_stream file_path manifest) n.

(** One probe per nonce; the answer is the number of matching pongs. *)
Fixpoint ping_loop (nonces : list u64) (successful : nat) : st Net NodeError nat :=
  match nonces with
  | [] => mret successful
  | nonce :: rest =>
    _ ← net_io "Failed to send Ping frame" (send_frame (Control (Ping nonce)));
    reply ← net_recv "Failed to receive Pong frame" "Peer closed connection while awaiting Pong";
    match reply with
    | Control (Pong reply_nonce) =>
      if decide (reply_nonce = nonce) then ping_loop rest (S successful) else ping_loop rest successful
    | _ => ping_loop rest successful
    end
  end.
Definition run_ping (connected : result string unit) (peer_addr : string) (key : IdentityKey) (device_name : string)
    (client_nonce : array 32) (nonces : list u64) : st Net NodeError nat :=
  _ ← connect_and_handshake connected peer_addr key device_name client_nonce;
  successful ← ping_loop nonces 0;
  _ ← ignore (net_io "" (send_frame (Control (Disconnect Graceful))));
  mret successful.

End Client.
End Wire.

(** ** [node.rs]: [handle_connection] *)

Section Connection.
Context `{Ed25519, Sha256, Blake3, Hex}.
Context `{Postcard Frame, Postcard PairingMessage, Postcard TransferMessage, Postcard ClipboardMessage}.
Context `{Debug Frame, Debug PairingMessage, Debug TransferMessage, ClipboardBackend B}.

(** A connection of the node: its session and world, and the registry of outbound
    channels that all connections share (which connection serves a peer). *)
Record Node := {
  nd_session : ActiveSession; nd_world : World B; nd_registry : gmap NodeId nat }.
Definition with_sw (sw : ActiveSession * World B) (n : Node) : Node :=
  {| nd_session := sw.1; nd_world := sw.2; nd_registry := nd_registry n |}.
Definition register (conn_id : nat) (n : Node) : Node := {|
  nd_session := nd_session n; nd_world := nd_world n;
  nd_registry := <[remote_node_id (nd_session n) := conn_id]> (nd_registry n) |}.
Definition unregister (n : Node) : Node := {|
  nd_session := nd_session n; nd_world := nd_world n;
  nd_registry := delete (remote_node_id (nd_session n)) (nd_registry n) |}.

Definition on_session {A} (context : string) (m : st (ActiveSession * World B) SessionError A) :
    st Node NodeError A :=
  st_map_err (NSession context) (zoom (λ n, (nd_session n, nd_world n)) with_sw m).
Definition on_stream {A} (context : string) (m : st Io BridgeError A) : st Node NodeError A :=
  st_map_err (NIo context)
    (zoom (λ n, w_io (nd_world n)) (λ io n, with_sw (nd_session n, set_io io (nd_world n)) n) m).
Definition on_transfer {A} (m : st Net NodeError A) : st Node NodeError A :=
  zoom (λ n, (w_io (nd_world n), w_fs (nd_world n)))
    (λ nf n, with_sw (nd_session n, set_fs nf.2 (set_io nf.1 (nd_world n))) n) m.

(** What the surroundings supply to a round: the user's answer, the nonce and clock
    readings of a ceremony, and the cuts of the reads of a file. *)
Record RoundEnv := {
  re_confirm : SasVerification → string → bool; re_nonce : array 32; re_now : u64; re_now' : u64;
  re_rd : nat → nat }.

(** A frame has arrived; the answer is whether the loop goes on. *)
Definition handle_node_frame (conn_id : nat) (receive_dir : string) (env : RoundEnv) (frame : Frame) :
    st Node NodeError bool :=
  match frame with
  | Control (Ping nonce) => _ ← on_stream "" (send_frame (Control (Pong nonce))); mret true
  | Control (Pong _) => mret true
  | Control (Disconnect _) => mret false
  | Data df =>
    if decide (df_channel df = CHANNEL_PAIRING) then
      r ← try (on_session "" (execute_pairing false (re_confirm env) (re_nonce env) (re_now env) (re_now' env)));
      match r with
      | Ok _ => _ ← modify (register conn_id); mret true
      | Err _ => mret true
      end
    else if decide (df_channel df = CHANNEL_CLIPBOARD) then
      trusted ← gets (λ n, state_is_trusted (state (nd_session n)));
      if negb trusted then mret true
      else
        _ ← modify (λ n, with_sw (nd_session n,
              match w_clip (nd_world n) with
              | Some engine => set_clip (Some (handle_incoming_frame df engine).2) (nd_world n)
              | None => nd_world n
              end) n);
        mret true
    else if decide (df_channel df = CHANNEL_FILE_TRANSFER) then
      trusted ← gets (λ n, state_is_trusted (state (nd_session n)));
      if (trusted : bool) then
        _ ← on_transfer (handle_file_transfer (re_rd env) (df_payload df) receive_dir); mret true
      else mret true
    else mret true
  | Handshake _ => mret true
  end.

(** The two arms of the [select!]: a frame is complete, or a channel message is taken
    when the pending [recv_frame] has read [consumed] bytes, which are dropped with it. *)
Inductive NodeInput :=
| NFrame (env : RoundEnv)
| NOutbound (consumed : nat) (df : DataFrame).

Definition node_round (conn_id : nat) (receive_dir : string) (i : NodeInput) : st Node NodeError bool :=
  match i with
  | NFrame env =>
    frame_opt ← on_stream "Failed to read frame" recv_frame;
    match frame_opt with
    | None => mret false
    | Some frame => handle_node_frame conn_id receive_dir env frame
    end
  | NOutbound consumed outbound_df =>
    _ ← modify (λ n, with_sw (nd_session n, set_io (recv_dropped consumed (w_io (nd_world n))) (nd_world n)) n);
    trusted ← gets (λ n, state_is_trusted (state (nd_session n)));
    if (trusted : bool) then _ ← ignore (on_stream "" (send_frame (Data outbound_df))); mret true
    else mret true
  end.

(** The loop, until it breaks, fails or the inputs end (the answer: whether it
    broke); the registration is removed after a break only. *)
Fixpoint node_loop (conn_id : nat) (receive_dir : string) (inputs : list NodeInput) : st Node NodeError bool :=
  match inputs with
  | [] => mret false
  | i :: rest =>
    continue ← node_round conn_id receive_dir i;
    if (continue : bool) then node_loop conn_id receive_dir rest
    else _ ← modify unregister; mret true
  end.

Definition handle_connection (conn_id : nat) (identity : IdentityKey) (receive_dir server_name : string)
    (server_nonce : array 32) (now : u64) (inputs : list NodeInput) :
    st (World B * gmap NodeId nat) NodeError bool := λ '(w, registry),
  match server_handshake identity server_name Windows (Some receive_dir) server_nonce now w with
  | (Err e, w) => (Err (NSession "Handshake failed" e), (w, registry))
  | (Ok session, w) =>
    let n := {| nd_session := session; nd_world := w; nd_registry := registry |} in
    let n := if state_is_trusted (state session) then register conn_id n else n in
    let '(r, n) := node_loop conn_id receive_dir inputs n in
    (r, (nd_world n, nd_registry n))
  end.
End Connection.
Arguments Node {_} B.

(** ** Lemmas: a connection that is not trusted *)

Section NodeLemmas.
Context `{Ed25519, Sha256, Blake3, Hex}.
Context `{Postcard Frame, Postcard PairingMessage, Postcard TransferMessage, Postcard ClipboardMessage}.
Context `{Debug Frame, Debug PairingMessage, Debug TransferMessage, ClipboardBackend B}.

Lemma is_trusted_table n k s : peers_table (is_trusted n k s).2 = peers_table s.
Proof.
  set (R := λ s s' : TrustStore, peers_table s' = peers_table s).
  assert (Transitive R) by (intros ??? E1 E2; unfold R in *; congruence).
  change (R s (is_trusted n k s).2). unfold is_trusted. apply st_bind_rel; [done| |].
  - unfold get_peer. apply st_bind_rel; [done| |].
    + unfold sql. destruct (head (sql_faults s)) as [[]|]; done.
    + intros [row|] s1 _; [|done]. apply st_bind_rel; [done|done|done].
  - intros [p|] s1 _; [|done]. repeat case_match; done.
Qed.

(** The handshake leaves the clipboard and the files alone, and the trust table too
    when it ends untrusted. *)
Lemma server_handshake_frame k name ty dir sn now (w w' : World B) s :
  server_handshake k name ty dir sn now w = (Ok s, w') →
  w_clip w' = w_clip w ∧ w_fs w' = w_fs w
  ∧ (state_is_trusted (state s) = false → peers_table (w_store w') = peers_table (w_store w)).
Proof.
  intros (h & sig & io1 & io2 & io3 & io4 & _ & _ & _ & _ & _ & Hst)%server_handshake_inv.
  revert Hst. unfold consult_trust, mbind, st_bind, try, on_store, zoom.
  match goal with |- context [is_trusted ?a ?b ?c] =>
    pose proof (is_trusted_table a b c) as Ht; destruct (is_trusted a b c) as [[[]|e] st'] end; simpl in *.
  - unfold ignore, zoom. destruct (update_last_seen _ _ _). unfold mret, st_ret. simpl. intros [= <- <-]. by split_and!.
  - unfold mret, st_ret. intros [= <- <-]. by split_and!.
  - destruct e; unfold ignore, fail; simpl; intros; simplify_eq.
Qed.

(** *** What happens to the trust table

    A relation between tables that is a preorder and holds across an update of
    [last_seen_at] holds across the handshakes, and if it holds across a ceremony, it
    holds across a round of the node. *)
Section TableRel.
Context (R : gmap string Row → gmap string Row → Prop) `{!PreOrder R}.

Definition table_rel (w w' : World B) : Prop := R (peers_table (w_store w)) (peers_table (w_store w')).
#[local] Instance table_rel_preorder : PreOrder table_rel.
Proof. split; [intros w; unfold table_rel; reflexivity|]. intros w1 w2 w3. unfold table_rel. by etrans. Qed.
Definition node_rel (n n' : Node B) : Prop := table_rel (nd_world n) (nd_world n').
#[local] Instance node_rel_preorder : PreOrder node_rel.
Proof. split; [intros n; unfold node_rel; reflexivity|]. intros n1 n2 n3. unfold node_rel. by etrans. Qed.

(** The store has not been written. *)
Local Ltac same_table := unfold node_rel, table_rel; reflexivity.

Lemma on_io_rel {A} (m : st Io BridgeError A) (w : World B) : table_rel w (on_io m w).2.
Proof. destruct (on_io_only m w) as [E _]. unfold table_rel. by rewrite E. Qed.
Lemma recv_or_closed_rel msg (w : World B) : table_rel w (recv_or_closed msg w).2.
Proof. unfold recv_or_closed. apply st_bind_rel; [apply _|apply on_io_rel|]. intros [] ? _; same_table. Qed.

Section Clock.
Context (now : u64) (Hseen : ∀ n t, R t (alter (row_set_last_seen (as_i64 now)) (NodeId_to_hex n) t)).

Lemma consult_trust_rel n k (w : World B) : table_rel w (consult_trust n k now w).2.
Proof.
  unfold consult_trust. apply st_bind_rel; [apply _| |].
  - unfold try, on_store, zoom. pose proof (is_trusted_table n k (w_store w)) as E.
    destruct (is_trusted n k (w_store w)) as [r s]. unfold table_rel. cbn in *. by rewrite E.
  - intros [[]|e] w1 _; [|same_table|].
    + apply st_bind_rel; [apply _| |intros; same_table]. unfold ignore, on_store, zoom, update_last_seen, sql.
      destruct (head _) as [[x|]|]; unfold table_rel; cbn; [reflexivity|apply Hseen..].
    + destruct e; try same_table; (apply st_bind_rel; [apply _| |intros; same_table]); unfold ignore; apply on_io_rel.
Qed.

Lemma server_handshake_rel k name ty dir sn (w : World B) : table_rel w (server_handshake k name ty dir sn now w).2.
Proof.
  unfold server_handshake. apply st_bind_rel; [apply _|apply recv_or_closed_rel|]. intros [[]| |] w1 _; try same_table.
  apply st_bind_rel; [apply _|same_table|intros pk w2 _]. apply st_bind_rel; [apply _|apply on_io_rel|intros _ w3 _].
  apply st_bind_rel; [apply _|apply recv_or_closed_rel|]. intros [[]| |] w4 _; try same_table.
  destruct (verify_handshake_challenge _ _ _ _).
  - apply st_bind_rel; [apply _|apply on_io_rel|intros _ w5 _].
    apply st_bind_rel; [apply _|apply consult_trust_rel|intros; same_table].
  - apply st_bind_rel; [apply _| |intros; same_table]. unfold ignore. apply on_io_rel.
Qed.

Lemma client_handshake_rel k name dir cn (w : World B) : table_rel w (client_handshake k name dir cn now w).2.
Proof.
  unfold client_handshake. apply st_bind_rel; [apply _|apply on_io_rel|intros _ w1 _].
  apply st_bind_rel; [apply _|apply recv_or_closed_rel|]. intros [[]| |] w2 _; try same_table.
  apply st_bind_rel; [apply _|same_table|intros pk w3 _]. apply st_bind_rel; [apply _|apply on_io_rel|intros _ w4 _].
  apply st_bind_rel; [apply _|apply recv_or_closed_rel|]. intros [[]| |] w5 _; try same_table.
  destruct (negb _); [same_table|]. apply st_bind_rel; [apply _|apply consult_trust_rel|intros; same_table].
Qed.
End Clock.

Lemma on_stream_rel {A} ctx (m : st Io BridgeError A) (n : Node B) : node_rel n (on_stream ctx m n).2.
Proof. unfold on_stream, st_map_err, zoom. destruct (m _). same_table. Qed.

(** A ceremony on the terms of [i] keeps the relation. *)
Definition ceremony_rel (i : NodeInput) : Prop :=
  match i with
  | NFrame env => ∀ s w, table_rel w
      (execute_pairing false (re_confirm env) (re_nonce env) (re_now env) (re_now' env) (s, w)).2.2
  | NOutbound _ _ => True
  end.

Lemma node_round_rel cid dir i (n : Node B) : ceremony_rel i → node_rel n (node_round cid dir i n).2.
Proof.
  intros Hi. destruct i as [env|c df]; cbn [node_round].
  - apply st_bind_rel; [apply _|apply on_stream_rel|]. intros [f|] n1 _; [|same_table].
    destruct f as [h|[x|x|x]|df]; cbn [handle_node_frame]; try same_table.
    + apply st_bind_rel; [apply _|apply on_stream_rel|intros; same_table].
    + repeat case_decide; [..|same_table].
      * apply st_bind_rel; [apply _| |intros [] ? _; same_table]. unfold try, on_session, st_map_err, zoom.
        specialize (Hi (nd_session n1) (nd_world n1)). by destruct (execute_pairing _ _ _ _ _ _) as [r [s' w']].
      * apply st_bind_rel; [apply _|same_table|intros [] n2 _]; [|same_table]. cbn [negb].
        apply st_bind_rel; [apply _| |intros; same_table]. unfold node_rel, table_rel. cbn.
        destruct (w_clip (nd_world n2)); reflexivity.
      * apply st_bind_rel; [apply _|same_table|intros [] n2 _]; [|same_table].
        apply st_bind_rel; [apply _| |intros; same_table]. unfold on_transfer, zoom.
        destruct (handle_file_transfer _ _ _ _). same_table.
  - apply st_bind_rel; [apply _|same_table|intros _ n1 _]. apply st_bind_rel; [apply _|same_table|intros [] n2 _; [|same_table]].
    apply st_bind_rel; [apply _| |intros; same_table]. unfold ignore. apply on_stream_rel.
Qed.
End TableRel.

(** [n'] has the clipboard, files, trusted peers and (at most the) registrations of
    [n], and is still not trusted. *)
Definition isolated (n n' : Node B) : Prop :=
  w_clip (nd_world n') = w_clip (nd_world n) ∧ w_fs (nd_world n') = w_fs (nd_world n)
  ∧ peers_table (w_store (nd_world n')) = peers_table (w_store (nd_world n))
  ∧ nd_registry n' ⊆ nd_registry n ∧ state_is_trusted (state (nd_session n')) = false.

Lemma isolated_trans n1 n2 n3 : isolated n1 n2 → isolated n2 n3 → isolated n1 n3.
Proof. intros (?&?&?&?&?) (?&?&?&?&?). split_and!; [congruence..|by etrans|done]. Qed.

Lemma isolated_refl n : state_is_trusted (state (nd_session n)) = false → isolated n n.
Proof. by intros ?. Qed.

Lemma on_stream_isolated {A} ctx (m : st Io BridgeError A) (n : Node B) :
  state_is_trusted (state (nd_session n)) = false → isolated n (on_stream ctx m n).2.
Proof. intros Hs. unfold on_stream, st_map_err, zoom. destruct (m _) as [r io]. by split_and!. Qed.

Definition refuses (i : NodeInput) : Prop :=
  match i with NFrame env => ∀ sas name, re_confirm env sas name = false | NOutbound _ _ => True end.

Lemma handle_node_frame_isolated cid dir env f (n : Node B) :
  refuses (NFrame env) → state_is_trusted (state (nd_session n)) = false →
  isolated n (handle_node_frame cid dir env f n).2.
Proof.
  intros Hr Hs. destruct f as [h|[x|x|x]|df]; simpl; try (by apply isolated_refl).
  - unfold mbind, st_bind. pose proof (on_stream_isolated "" (send_frame (Control (Pong x))) n Hs) as Hi.
    destruct (on_stream "" (send_frame (Control (Pong x))) n) as [[[]|e] n1]; done.
  - case_decide.
    + unfold mbind, st_bind, try, on_session, st_map_err, zoom.
      pose proof (execute_pairing_outcome false (re_confirm env) (re_nonce env) (re_now env) (re_now' env)
        (nd_session n) (nd_world n)) as Ho.
      destruct (execute_pairing _ _ _ _ _ _) as [r [s' w']]. destruct Ho as ((Hc & Hf & Ho) & Hy).
      destruct r as [sas|e]; [specialize (Hy sas eq_refl); by rewrite Hr in Hy|].
      destruct Ho as [Ht Hst]. split_and!; simpl; try done. by destruct Hst as [-> | ->].
    + repeat case_decide; unfold mbind, st_bind, gets; cbn; rewrite ?Hs; by apply isolated_refl.
Qed.

Lemma node_round_isolated cid dir i (n : Node B) :
  refuses i → state_is_trusted (state (nd_session n)) = false → isolated n (node_round cid dir i n).2.
Proof.
  intros Hr Hs. destruct i as [env|c df]; simpl.
  - unfold mbind at 1, st_bind at 1. pose proof (on_stream_isolated "Failed to read frame" recv_frame n Hs) as Hi.
    destruct (on_stream "Failed to read frame" recv_frame n) as [[[f|]|e] n1]; [|done|done].
    eapply isolated_trans; [exact Hi|]. apply handle_node_frame_isolated; [done|]. apply Hi.
  - unfold mbind, st_bind, gets. cbn. rewrite ?Hs. by split_and!.
Qed.

Lemma node_loop_isolated cid dir inputs (n : Node B) :
  Forall refuses inputs → state_is_trusted (state (nd_session n)) = false →
  isolated n (node_loop cid dir inputs n).2.
Proof.
  intros Hr. revert n. induction Hr as [|i rest Hi Hr IH]; intros n Hs; simpl; [by apply isolated_refl|].
  unfold mbind at 1, st_bind at 1. pose proof (node_round_isolated cid dir i n Hi Hs) as Hx.
  destruct (node_round cid dir i n) as [[[]|e] n1]; simpl in *; [| |done].
  - eapply isolated_trans; [exact Hx|]. apply IH, Hx.
  - destruct Hx as (?&?&?&?&?). split_and!; simpl; try done. etrans; [apply delete_subseteq|done].
Qed.
(** The outbound arm never ends the loop; it leaves of the input what the dropped
    receive leaves, whether the message could be sent or not. *)
Lemma node_round_outbound cid dir c df (n : Node B) :
  ∃ n', node_round cid dir (NOutbound c df) n = (Ok true, n')
    ∧ rx (w_io (nd_world n')) = rx (recv_dropped c (w_io (nd_world n)))
    ∧ (recv_frame (w_io (nd_world n'))).1 = (recv_frame (recv_dropped c (w_io (nd_world n)))).1
    ∧ nd_registry n' = nd_registry n.
Proof.
  unfold node_round. erewrite st_bind_ok by reflexivity. erewrite st_bind_ok by reflexivity. cbn.
  destruct (state_is_trusted _); [|eexists; split; [reflexivity|done]].
  unfold mbind, st_bind, ignore, on_stream, st_map_err, zoom. cbn.
  pose proof (send_frame_rx (Data df) (recv_dropped c (w_io (nd_world n)))) as [Hrx Hend].
  destruct (send_frame _ _) as [r io]. cbn in *.
  eexists. split; [by destruct r|]. cbn. split_and!; [done| |done].
  by apply recv_frame_rx.
Qed.
End NodeLemmas.

(** ** Lemmas: what a transfer can touch *)

Section TransferLemmas.
Context `{Postcard Frame, Postcard TransferMessage, Debug Frame, Debug TransferMessage}.
Context `{Blake3, Hex, !Blake3Laws}.

(** Only [part] and [final] may differ, and [final] only by holding bytes of hash [h]. *)
Definition confined (final part : string) (h : array 32) (fs fs' : Fs) : Prop :=
  (∀ p, p ≠ final → p ≠ part → files fs' !! p = files fs !! p)
  ∧ (files fs' !! final = files fs !! final ∨ ∃ c, files fs' !! final = Some c ∧ b3_hash c = h).

Lemma confined_refl final part h fs : confined final part h fs fs.
Proof. split; [done|by left]. Qed.

Lemma confined_trans final part h fs1 fs2 fs3 :
  confined final part h fs1 fs2 → confined final part h fs2 fs3 → confined final part h fs1 fs3.
Proof.
  intros [Ha1 Hf1] [Ha2 Hf2]. split; [intros p ??; by rewrite Ha2, Ha1|].
  destruct Hf2 as [->|?]; [done|by right].
Qed.

Lemma net_io_fs {A} ctx (m : st Io BridgeError A) n : (net_io ctx m n).2.2 = n.2.
Proof. unfold net_io, st_map_err, zoom. by destruct (m n.1). Qed.

Lemma net_recv_fs ctx none n : (net_recv ctx none n).2.2 = n.2.
Proof.
  unfold net_recv, mbind, st_bind. pose proof (net_io_fs ctx recv_frame n) as E.
  destruct (net_io ctx recv_frame n) as [[[f|]|e] n1]; done.
Qed.

Lemma net_send_fs ctx msg n : (net_send ctx msg n).2.2 = n.2.
Proof.
  unfold net_send, mbind, st_bind, lift. destruct (map_err _ (to_data_frame msg)); [|done].
  apply net_io_fs.
Qed.

(** A change of the file system that leaves every path but [part] alone. *)
Lemma receive_chunk_confined final part h c r fs :
  fr_target r = DFile final part → part ≠ final →
  let '(_, (r', fs')) := receive_chunk c (r, fs) in
  fr_target r' = fr_target r ∧ fr_manifest r' = fr_manifest r ∧ confined final part h fs fs'.
Proof.
  intros Ht Hne. unfold receive_chunk. destruct (check_chunk r c); [|by split_and!; [..|apply confined_refl]].
  rewrite Ht. unfold fs_write_at, fs_change. destruct (fs_fault fs); simpl.
  - split_and!; [done|done|apply confined_refl].
  - split_and!; [done|done|]. split; cbn.
    + intros p _ Hp. by rewrite lookup_alter_ne.
    + left. by rewrite lookup_alter_ne.
Qed.

Lemma finalize_file_confined rd final part r fs :
  fr_target r = DFile final part → part ≠ final →
  let '(res, (r', fs')) := finalize_file rd (r, fs) in
  r' = r ∧ confined final part (fm_blake3_root_hash (fr_manifest r)) fs fs'
  ∧ (∀ p, res = Ok p → ∃ c, files fs' !! final = Some c ∧ b3_hash c = fm_blake3_root_hash (fr_manifest r)).
Proof.
  intros Ht Hne. unfold finalize_file. destruct (is_complete r); simpl;
    [|by split_and!; [..|apply confined_refl|]].
  rewrite Ht, hash_file_whole. case_decide as Hh; [by split_and!; [..|apply confined_refl|]|].
  unfold fs_rename. destruct (fs_fault fs); [by split_and!; [..|apply confined_refl|]|].
  destruct (files fs !! part) as [c|] eqn:E; [|by split_and!; [..|apply confined_refl|]]. cbn in *.
  assert (b3_hash c = fm_blake3_root_hash (fr_manifest r)) as Hc
    by (by destruct (decide (b3_hash c = fm_blake3_root_hash (fr_manifest r)))).
  split_and!; [done| |].
  - split; cbn; [intros p ??; by rewrite lookup_insert_ne, lookup_delete_ne|].
    right. rewrite lookup_insert_eq. eauto.
  - intros _ _. rewrite lookup_insert_eq. eauto.
Qed.

Lemma to_dir_confined dir m fs :
  let '(res, fs') := to_dir dir m fs in
  confined (final_of dir m) (part_of dir m) (fm_blake3_root_hash m) fs fs'
  ∧ ∀ r, res = Ok r → fr_target r = DFile (final_of dir m) (part_of dir m) ∧ fr_manifest r = m.
Proof.
  destruct (fs_fault fs) as [e|] eqn:Hf.
  - unfold to_dir, mbind at 1, st_bind at 1, st_map_err at 1, fs_create_dir_all, fs_change. rewrite Hf. cbn.
    split; [apply confined_refl|done].
  - assert (part_of dir m ≠ final_of dir m) as Hne by (symmetry; by apply path_join_ext).
    rewrite to_dir_ok by done. split; [|intros r [=]; by subst]. split; cbn.
    + intros p _ Hp. by rewrite lookup_insert_ne.
    + left. by rewrite lookup_insert_ne.
Qed.

Lemma receive_loop_confined fuel rd m final part r n :
  fr_target r = DFile final part → fr_manifest r = m → part ≠ final →
  let '(res, (_, n')) := receive_loop fuel rd m (r, n) in
  confined final part (fm_blake3_root_hash m) n.2 n'.2
  ∧ (res = Ok tt → ∃ c, files n'.2 !! final = Some c ∧ b3_hash c = fm_blake3_root_hash m).
Proof.
  intros Ht Hm Hne. revert r n Ht Hm. induction fuel as [|fuel IH]; intros r n Ht Hm; cbn [receive_loop].
  { split; [apply confined_refl|done]. }
  assert (∀ e (n1 : Net), n1.2 = n.2 → confined final part (fm_blake3_root_hash m) n.2 n1.2
    ∧ (Err (E := NodeError) (T := unit) e = Ok tt → ∃ c, files n1.2 !! final = Some c ∧ b3_hash c = fm_blake3_root_hash m))
    as Herr by (intros e n1 ->; split; [apply confined_refl|done]).
  unfold mbind at 1, st_bind at 1, on_net at 1, zoom at 1. cbn [snd fst].
  pose proof (net_recv_fs "Failed to receive chunk frame" "Sender disconnected during file transfer" n) as E1.
  destruct (net_recv _ _ n) as [[f|e] n1]; [|by apply Herr]. cbn in E1.
  unfold mbind at 1, st_bind at 1.
  destruct f as [h|[x|x|x]|df]; try (by apply Herr). unfold lift.
  destruct (from_data_frame df) as [msg|e]; cbn [map_err]; [|by apply Herr].
  destruct msg as [mm|a b|chunk|a b|fin h|a|a reason]; try (by apply Herr).
  - unfold mbind at 1, st_bind at 1, on_receiver, st_map_err, zoom. cbn [fst snd].
    pose proof (receive_chunk_confined final part (fm_blake3_root_hash m) chunk r n1.2 Ht Hne) as Hc.
    destruct (receive_chunk chunk (r, n1.2)) as [[[]|e] [r' fs']]; destruct Hc as (Ht' & Hm' & Hc); cbn [map_err];
      rewrite E1 in Hc; [|by split].
    unfold mbind at 1, st_bind at 1, on_net, zoom. cbn [fst snd].
    pose proof (net_send_fs "Failed to send chunk Ack" (Ack (fm_file_id m) (fc_chunk_index chunk)) (n1.1, fs')) as E2.
    destruct (net_send _ _ (n1.1, fs')) as [[[]|e] n2]; cbn in E2; [|split; [by rewrite E2|done]].
    specialize (IH r' n2 ltac:(congruence) ltac:(congruence)).
    destruct (receive_loop fuel rd m (r', n2)) as [res [r2 n3]]. destruct IH as [IH1 IH2]. rewrite E2 in IH1.
    split; [by eapply confined_trans|done].
  - case_decide; [by apply Herr|]. case_decide; [by apply Herr|].
    unfold mbind at 1, st_bind at 1, on_receiver, st_map_err, zoom. cbn [fst snd].
    pose proof (finalize_file_confined rd final part r n1.2 Ht Hne) as Hc. rewrite Hm, E1 in Hc.
    rewrite E1. destruct (finalize_file rd (r, n.2)) as [[p|e] [r' fs']]; destruct Hc as (-> & Hc & Hok); cbn [map_err];
      [|by split].
    unfold on_net, zoom. cbn [fst snd].
    pose proof (net_send_fs "Failed to send TransferMessage::Complete" (Complete (fm_file_id m)) (n1.1, fs')) as E2.
    destruct (net_send _ _ (n1.1, fs')) as [res n2]. cbn in E2. rewrite E2.
    split; [done|]. intros _. by apply (Hok p).
Qed.
End TransferLemmas.

(** ** Lemmas: a transfer over a working connection *)

Section OverWire.
Context `{Postcard Frame, Postcard TransferMessage, Debug Frame, Debug TransferMessage}.
Context `{!PostcardLaws Frame, !PostcardLaws TransferMessage, Blake3, Hex, !Blake3Laws}.

(** [bs] is what sending the message writes. *)
Definition carried_as (msg : TransferMessage) (bs : list byte) : Prop :=
  valid msg ∧ ∃ d, to_data_frame msg = Ok d ∧ valid (Data d) ∧ encode_frame (Data d) = Ok bs.

Lemma carried_nonempty msg bs : carried_as msg bs → (0 < length bs)%nat.
Proof.
  intros (_ & d & _ & _ & E). destruct (encode_frame_inv _ _ E) as (p & _ & -> & _).
  rewrite !length_app. simpl. lia.
Qed.

Lemma net_send_conn ctx msg bs r t fs :
  carried_as msg bs → net_send ctx msg (conn r t, fs) = (Ok tt, (conn r (t ++ bs), fs)).
Proof.
  intros (_ & d & Ed & _ & E). unfold net_send, lift. rewrite Ed. cbn [map_err].
  erewrite st_bind_ok; [|reflexivity]. unfold net_io, st_map_err, zoom. cbn [fst snd].
  by rewrite (send_frame_ok _ _ bs E).
Qed.

Lemma net_recv_conn ctx none msg bs k t fs :
  carried_as msg bs →
  ∃ d, from_data_frame d = Ok msg ∧ net_recv ctx none (conn (bs ++ k) t, fs) = (Ok (Data d), (conn k t, fs)).
Proof.
  intros (Hm & d & Ed & Hv & E). destruct (to_data_frame_ok msg Hm) as (f & Ef & _ & Df).
  exists d. split; [congruence|]. unfold net_recv, net_io, st_map_err, zoom, mbind, st_bind. cbn [fst snd].
  by rewrite (recv_frame_sent _ _ bs k Hv E).
Qed.

Lemma net_reply_conn ctx none verb msg bs k t fs :
  carried_as msg bs → net_reply ctx none verb (conn (bs ++ k) t, fs) = (Ok msg, (conn k t, fs)).
Proof.
  intros Hc. destruct (net_recv_conn ctx none msg bs k t fs Hc) as (d & Ed & E).
  unfold net_reply. rewrite (st_bind_ok _ _ _ _ _ E). unfold lift. by rewrite Ed.
Qed.

(** The bytes of the chunks and of their acknowledgements. *)
Definition chunk_wire (m : FileManifest) (data : list byte) (cb ab : Z → list byte) : Prop :=
  ∀ i, 0 ≤ i < fm_total_chunks m →
    carried_as (TData (chunk_of m data i)) (cb i) ∧ carried_as (Ack (fm_file_id m) i) (ab i).

Lemma chunk_wire_fuel m data cb ab js k :
  chunk_wire m data cb ab → Forall (λ i, 0 ≤ i < fm_total_chunks m) js →
  (length js ≤ length (concat (map cb js) ++ k))%nat.
Proof.
  intros Hw Hjs. induction Hjs as [|j js Hj Hjs IH]; cbn; [lia|].
  pose proof (carried_nonempty _ _ (proj1 (Hw j Hj))). rewrite !length_app in *. lia.
Qed.

Lemma receive_loop_run rd m data cb ab fb gb final part k js : ∀ fuel r fs t,
  chunk_wire m data cb ab →
  carried_as (Finished (fm_file_id m) (fm_blake3_root_hash m)) fb → carried_as (Complete (fm_file_id m)) gb →
  describes m data → fm_total_chunks m < 2 ^ 32 → part ≠ final →
  (length js < fuel)%nat → Forall (λ i, 0 ≤ i < fm_total_chunks m) js →
  fr_manifest r = m → fr_target r = DFile final part → writable r fs →
  agrees data (assembled r fs) (fr_received_chunks r) →
  list_to_set js ∪ fr_received_chunks r = list_to_set (seqZ 0 (fm_total_chunks m)) →
  ∃ r' fs', receive_loop fuel rd m (r, (conn (concat (map cb js) ++ fb ++ k) t, fs))
      = (Ok tt, (r', (conn k (t ++ concat (map ab js) ++ gb), fs')))
    ∧ files fs' !! final = Some data ∧ files fs' !! part = None.
Proof.
  intros fuel r fs t Hw Hfb Hgb Hd Hu Hne. revert fuel r fs t.
  induction js as [|j js IH]; intros [|fuel] r fs t Hfu Hjs Hm Ht Hwr Ha Hall; try (simpl in Hfu; lia);
    cbn [receive_loop map concat].
  - destruct (net_recv_conn "Failed to receive chunk frame" "Sender disconnected during file transfer"
      _ fb k t fs Hfb) as (d & Ed & E).
    erewrite st_bind_ok; [|unfold on_net, zoom; cbn [snd fst app]; rewrite E; reflexivity].
    unfold lift. rewrite Ed. cbn [map_err]. erewrite st_bind_ok; [|reflexivity]. cbv beta iota.
    rewrite decide_False by (intros Hx; by apply Hx). rewrite decide_False by (intros Hx; by apply Hx).
    destruct (complete_data r fs data) as [Hc Has]; rewrite ?Hm; [done|done|done|set_solver|].
    unfold writable, assembled in *. rewrite Ht in *. destruct Hwr as [Hf [c Hp]]. rewrite Hp in Has. simpl in Has. subst c.
    assert (finalize_file rd (r, fs) = (Ok final, (r, with_files (<[final := data]> (delete part (files fs))) fs))) as Efin.
    { eapply finalize_file_ok; [done..|]. rewrite Hm. symmetry. apply Hd. }
    erewrite st_bind_ok; [|unfold on_receiver, st_map_err, zoom; cbn [fst snd]; rewrite Efin; reflexivity].
    unfold on_net, zoom. cbn [fst snd]. rewrite (net_send_conn _ _ gb) by done.
    eexists _, _. split; [reflexivity|]. cbn. split; [apply lookup_insert_eq|].
    rewrite lookup_insert_ne by done. apply lookup_delete_eq.
  - inversion_clear Hjs as [|? ? Hj Hjs']. destruct (Hw j Hj) as [Hcb Hab].
    destruct (net_recv_conn "Failed to receive chunk frame" "Sender disconnected during file transfer"
      _ (cb j) (concat (map cb js) ++ fb ++ k) t fs Hcb) as (d & Ed & E).
    erewrite st_bind_ok; [|unfold on_net, zoom; cbn [snd fst]; rewrite <-app_assoc, E; reflexivity].
    unfold lift. rewrite Ed. cbn [map_err]. erewrite st_bind_ok; [|reflexivity]. cbv beta iota.
    rewrite <-Hm in Hd, Hj.
    destruct (receive_chunk_step r fs data j Hd Hj Hwr Ha) as (r1 & fs1 & E1 & Em1 & Hw1 & Ht1 & Hr1 & Ha1).
    rewrite Hm in E1. cbn [fc_chunk_index chunk_of FileChunk_new].
    erewrite st_bind_ok; [|unfold on_receiver, st_map_err, zoom; cbn [fst snd]; rewrite E1; reflexivity].
    erewrite st_bind_ok; [|unfold on_net, zoom; cbn [snd fst]; rewrite (net_send_conn _ _ (ab j)) by done; reflexivity].
    cbn [fst snd].
    destruct (IH fuel r1 fs1 (t ++ ab j)) as (r2 & fs2 & E2 & Hf2); try done.
    + simpl in Hfu. lia.
    + congruence.
    + unfold same_target in Ht1. rewrite Ht in Ht1. destruct (fr_target r1); [|done]. by destruct Ht1 as [-> ->].
    + rewrite Hr1. rewrite <-Hall. set_solver.
    + exists r2, fs2. split; [|done]. etrans; [exact E2|]. by rewrite <-!app_assoc.
Qed.

Lemma stream_loop_run m data cb ab k cnt : ∀ fuel i s t fs,
  chunk_wire m data cb ab → describes m data → sends fs m data i s → 0 ≤ i →
  i + Z.of_nat cnt = fm_total_chunks m → (cnt < fuel)%nat →
  ∃ s', stream_loop fuel m (s, (conn (concat (map ab (seqZ i (Z.of_nat cnt))) ++ k) t, fs))
    = (Ok tt, (s', (conn k (t ++ concat (map cb (seqZ i (Z.of_nat cnt)))), fs))).
Proof.
  induction cnt as [|cnt IH]; intros [|fuel] i s t fs Hw Hd Hs Hi Hc Hfu; try lia; cbn [stream_loop].
  - destruct Hs as (Em & Ec & _). unfold next_chunk. rewrite Em, Ec. cbn [snd]. rewrite decide_True by lia.
    eexists. cbn. by rewrite app_nil_r.
  - destruct (next_chunk_step fs m data i s Hd Hs ltac:(lia)) as (s1 & E1 & Hs1). cbn [snd]. rewrite E1.
    replace (Z.of_nat (S cnt)) with (Z.succ (Z.of_nat cnt)) by lia.
    rewrite (seqZ_cons i) by lia. rewrite Z.pred_succ. replace (Z.succ i) with (i + 1) by lia.
    destruct (Hw i ltac:(lia)) as [Hcb Hab]. cbn [map concat fc_chunk_index chunk_of FileChunk_new].
    unfold mbind at 1, st_bind at 1. rewrite (net_send_conn _ _ (cb i)) by done.
    unfold mbind at 1, st_bind at 1. rewrite <-app_assoc, (net_reply_conn _ _ _ (Ack (fm_file_id m) i) (ab i)) by done.
    rewrite decide_False by (by intros [Hx|Hx]; apply Hx). unfold mret, st_ret.
    destruct (IH fuel (i + 1) s1 (t ++ cb i) fs) as (s2 & E2); [done|done|done|lia|lia|lia|].
    exists s2. etrans; [exact E2|]. by rewrite <-app_assoc.
Qed.

Lemma resume_bounds m data old :
  describes m data → old `prefix_of` data →
  0 ≤ zlen old / CHUNK_SIZE ≤ fm_total_chunks m ∧ zlen old / CHUNK_SIZE * CHUNK_SIZE ≤ zlen data.
Proof.
  intros Hd Hp. pose proof CHUNK_SIZE_pos as Hc. pose proof (zlen_nonneg old) as Hz.
  pose proof (prefix_length _ _ Hp). pose proof (Z.mul_div_le (zlen old) CHUNK_SIZE Hc).
  destruct Hd as (Hm & Hsz & _). pose proof (sized_bounds m Hm).
  assert (zlen old ≤ zlen data) by (unfold zlen; lia).
  assert (0 ≤ zlen old / CHUNK_SIZE) by (apply Z.div_pos; lia). split; [|lia]. split; [done|].
  apply Z.div_le_upper_bound; nia.
Qed.

Lemma offer_and_stream_run path m data old cfs cb ab ob acb fb gb db k t :
  describes m data → files cfs !! path = Some data → old `prefix_of` data →
  carried_as (Offer m) ob → carried_as (Accept (fm_file_id m) (zlen old / CHUNK_SIZE)) acb →
  chunk_wire m data cb ab →
  carried_as (Finished (fm_file_id m) (fm_blake3_root_hash m)) fb → carried_as (Complete (fm_file_id m)) gb →
  encode_frame (Control (Disconnect Graceful)) = Ok db →
  let js := seqZ (zlen old / CHUNK_SIZE) (fm_total_chunks m - zlen old / CHUNK_SIZE) in
  offer_and_stream path m (conn (acb ++ concat (map ab js) ++ gb ++ k) t, cfs)
    = (Ok tt, (conn k (t ++ ob ++ concat (map cb js) ++ fb ++ db), cfs)).
Proof.
  intros Hd Hc Hp Hob Hacb Hw Hfb Hgb Hdb js. destruct (resume_bounds m data old Hd Hp) as [Hv Hvl].
  set (v := zlen old / CHUNK_SIZE) in *. unfold offer_and_stream.
  erewrite st_bind_ok; [|by apply net_send_conn].
  erewrite st_bind_ok; [|by apply net_reply_conn].
  erewrite st_bind_ok; [|reflexivity]. cbv beta iota. rewrite decide_False by (intros Hx; by apply Hx).
  erewrite st_bind_ok; cycle 1.
  { unfold net_fs, zoom, FileSender_from_file, mbind, st_bind, st_map_err, fs_read. cbn [snd fst].
    rewrite Hc. cbn. unfold lift, validate_and_seek_file. rewrite decide_False by lia. reflexivity. }
  set (sender := {| fs_manifest := m; fs_source := SFile path (v * CHUNK_SIZE); fs_current_chunk := v |}).
  destruct (stream_loop_run m data cb ab (gb ++ k) (Z.to_nat (fm_total_chunks m - v))
    (S (Z.to_nat (fm_total_chunks m))) v sender (t ++ ob) cfs) as (s' & Es); [done|done| |lia|lia|lia|].
  { split_and!; simpl; try done; [by rewrite Hc|lia]. }
  rewrite Z2Nat.id in Es by lia. fold js in Es.
  assert (stream_chunks m sender (conn (concat (map ab js) ++ gb ++ k) (t ++ ob), cfs)
    = (Ok tt, (conn (gb ++ k) ((t ++ ob) ++ concat (map cb js)), cfs))) as E by (unfold stream_chunks; by rewrite Es).
  erewrite st_bind_ok; [|exact E].
  erewrite st_bind_ok; [|by apply net_send_conn].
  erewrite st_bind_ok; [|by apply net_reply_conn]. cbv beta iota. rewrite decide_False by (intros Hx; by apply Hx).
  unfold ignore, net_io, st_map_err, zoom. cbn [fst snd]. rewrite (send_frame_ok _ _ db Hdb) by done.
  cbn. unfold with_tx. cbn. by rewrite <-!app_assoc.
Qed.

Lemma handle_file_transfer_run rd dir m data old fs cb ab acb fb gb payload k t :
  describes m data → fm_total_chunks m < 2 ^ 32 →
  fs_fault fs = None → old = default [] (files fs !! part_of dir m) → old `prefix_of` data →
  valid (Offer m) → TransferMessage_to_bytes (Offer m) = Ok payload →
  carried_as (Accept (fm_file_id m) (zlen old / CHUNK_SIZE)) acb → chunk_wire m data cb ab →
  carried_as (Finished (fm_file_id m) (fm_blake3_root_hash m)) fb → carried_as (Complete (fm_file_id m)) gb →
  let js := seqZ (zlen old / CHUNK_SIZE) (fm_total_chunks m - zlen old / CHUNK_SIZE) in
  ∃ fs', handle_file_transfer rd payload dir (conn (concat (map cb js) ++ fb ++ k) t, fs)
      = (Ok tt, (conn k (t ++ acb ++ concat (map ab js) ++ gb), fs'))
    ∧ files fs' !! final_of dir m = Some data ∧ files fs' !! part_of dir m = None.
Proof.
  intros Hd Hu Hf Hold Hp Hvo Hpay Hacb Hw Hfb Hgb js. destruct (resume_bounds m data old Hd Hp) as [Hv Hvl].
  pose proof (to_dir_ok dir m fs Hf) as E. cbv zeta in E. rewrite <-Hold in E.
  rewrite (resumed_prefix m data old Hd Hu Hp) in E. cbn [fst snd] in E.
  set (v := zlen old / CHUNK_SIZE) in *.
  assert (TransferMessage_from_bytes payload = Ok (Offer m)) as Hdec.
  { destruct (postcard_roundtrip (Offer m) Hvo) as (bs & Eb & Db).
    unfold TransferMessage_to_bytes in Hpay. rewrite Eb in Hpay. simplify_eq/=.
    unfold TransferMessage_from_bytes. by rewrite Db. }
  unfold handle_file_transfer, lift. rewrite Hdec. cbn [map_err]. erewrite st_bind_ok; [|reflexivity]. cbv beta iota.
  erewrite st_bind_ok; [|unfold net_fs, st_map_err, zoom; cbn [fst snd]; rewrite E; reflexivity].
  set (r := Build_FileReceiver _ _ _). cbn [fst snd].
  assert (next_expected_chunk r = v) as ->.
  { unfold next_expected_chunk. subst r. cbn [fr_received_chunks fr_manifest]. rewrite next_from_seq by lia. lia. }
  erewrite st_bind_ok; [|by apply net_send_conn].
  assert (Forall (λ i, 0 ≤ i < fm_total_chunks m) js) as Hjs.
  { apply Forall_forall. intros i Hi%elem_of_seqZ. lia. }
  set (fs1 := Build_Fs _ _).
  destruct (receive_loop_run rd m data cb ab fb gb (final_of dir m) (part_of dir m) k js
    (S (length (concat (map cb js) ++ fb ++ k))) r fs1 (t ++ acb)) as (r' & fs' & El & Hfin & Hpart);
    try done.
  - symmetry. by apply path_join_ext.
  - pose proof (chunk_wire_fuel m data cb ab js (fb ++ k) Hw Hjs). lia.
  - split; [done|]. cbn. rewrite lookup_insert_eq. eauto.
  - unfold assembled, r, fs1. cbn. rewrite lookup_insert_eq. cbn. apply agrees_prefix. lia.
  - apply leibniz_equiv. intros i. unfold js. cbn. rewrite elem_of_union, !elem_of_list_to_set, !elem_of_seqZ. lia.
  - exists fs'. split; [|done]. unfold receive_chunks. cbn [fst rx conn]. rewrite El. cbn. by rewrite <-!app_assoc.
Qed.
End OverWire.

(** ** Lemmas: a stream with nothing to read *)

Section Stall.
Context `{Ed25519, Sha256, Blake3, Hex}.
Context `{Postcard Frame, Postcard PairingMessage, Postcard TransferMessage, Postcard ClipboardMessage}.
Context `{Debug Frame, Debug PairingMessage, Debug TransferMessage, ClipboardBackend B}.

Lemma recv_pairing_empty t s (w : World B) :
  w_io w = conn [] t →
  on_world recv_pairing (s, w) = (Err (SClosed "Peer disconnected while awaiting data frame"), (s, w)).
Proof.
  intros Hw. assert (on_io recv_frame w = (Ok None, w)) as E.
  { rewrite (on_io_ok recv_frame w None (conn [] t)); [|by rewrite Hw]. destruct w. cbn in *. by subst. }
  assert (recv_data_frame CHANNEL_PAIRING w = (Err (SClosed "Peer disconnected while awaiting data frame"), w)) as E2.
  { unfold recv_data_frame. cbn [recv_data_loop]. by rewrite (st_bind_ok _ _ _ _ _ E). }
  unfold on_world, zoom, recv_pairing. cbn [snd]. by rewrite (st_bind_err _ _ _ _ _ E2).
Qed.

Lemma responder_stalls confirm nonce t t' tx0 s (w : World B) :
  w_io w = conn [] tx0 →
  execute_pairing false confirm nonce t t' (s, w)
    = (Err (SClosed "Peer disconnected while awaiting data frame"), (with_session_state SPairing s, w)).
Proof.
  intros Hw. unfold execute_pairing. erewrite st_bind_ok; [|reflexivity]. cbn [fst snd].
  erewrite st_bind_ok; [|reflexivity]. cbv iota. erewrite st_bind_err; [|by eapply recv_pairing_empty]. done.
Qed.

Lemma initiator_stalls confirm nonce t t' tx0 bs s (w : World B) :
  w_io w = conn [] tx0 →
  sent_as (Request (new_initiator (local_identity s) (local_name s) (local_device_type s) nonce t).2) bs →
  execute_pairing true confirm nonce t t' (s, w)
    = (Err (SClosed "Peer disconnected while awaiting data frame"),
       (with_session_state SPairing s, set_io (conn [] (tx0 ++ bs)) w)).
Proof.
  intros Hw Hs. unfold execute_pairing. erewrite st_bind_ok; [|reflexivity]. cbn [fst snd].
  erewrite st_bind_ok; [|reflexivity]. cbv iota. cbn [fst].
  change (new_initiator (local_identity (with_session_state SPairing s)) (local_name (with_session_state SPairing s))
    (local_device_type (with_session_state SPairing s)) nonce t)
    with (new_initiator (local_identity s) (local_name s) (local_device_type s) nonce t).
  destruct (new_initiator (local_identity s) (local_name s) (local_device_type s) nonce t) as [session req].
  cbv beta iota. cbn [snd] in Hs.
  erewrite st_bind_ok; [|by eapply send_pairing_conn].
  erewrite st_bind_err; [|by eapply recv_pairing_empty]. done.
Qed.
End Stall.

(** ** Properties *)


(** C10: a file offer touches its two files only.  Whatever the peer sends after
    the offer, and however the transfer ends, every path other than the offer's
    final path and its [.part] file is unchanged, and the final path is unchanged
    or holds bytes with the root hash of the offer; the transfer reports success
    only in the latter case.  A payload that is no offer changes no file. *)
Theorem offer_confined `{Postcard Frame, Postcard TransferMessage, Debug Frame, Debug TransferMessage,
    Blake3, Hex, !Blake3Laws} (rd : nat → nat) (payload : list byte) (dir : string) (n : Net) :
  let '(r, n') := handle_file_transfer rd payload dir n in
  match TransferMessage_from_bytes payload with
  | Ok (Offer m) =>
    confined (final_of dir m) (part_of dir m) (fm_blake3_root_hash m) n.2 n'.2
    ∧ (r = Ok tt → ∃ c, files n'.2 !! final_of dir m = Some c ∧ b3_hash c = fm_blake3_root_hash m)
  | _ => n' = n
  end.
Proof.
  unfold handle_file_transfer, mbind at 1, st_bind at 1, lift.
  destruct (TransferMessage_from_bytes payload) as [msg|e]; cbn [map_err]; [|done].
  destruct msg as [m|a b|c|a b|a h|a|a reason]; try done.
  assert (part_of dir m ≠ final_of dir m) as Hne by (symmetry; by apply path_join_ext).
  unfold mbind at 1, st_bind at 1, net_fs, st_map_err, zoom.
  pose proof (to_dir_confined dir m n.2) as Hd.
  destruct (to_dir dir m n.2) as [[r|e] fs1]; cbn [map_err]; destruct Hd as (Hc & Hr); [|by split].
  destruct (Hr r eq_refl) as [Ht Hm].
  unfold mbind at 1, st_bind at 1.
  pose proof (net_send_fs "Failed to send Accept frame" (Accept (fm_file_id m) (next_expected_chunk r)) (n.1, fs1)) as E.
  destruct (net_send _ _ (n.1, fs1)) as [[[]|e] n1]; cbn in E; [|split; [by rewrite E|done]].
  unfold receive_chunks.
  pose proof (receive_loop_confined (S (length (rx n1.1))) rd m _ _ r n1 Ht Hm Hne) as Hl.
  destruct (receive_loop _ rd m (r, n1)) as [res [r' n2]]. destruct Hl as [Hl1 Hl2]. cbn [snd].
  split; [|done]. eapply confined_trans; [exact Hc|]. by rewrite E in Hl1.
Qed.

(** C4: a file sent is the file received.  The client's offer and stream and the
    node's transfer handler, run against each other over one connection, agree byte
    for byte on what crosses it; both report success; the receiver, which may hold
    a torn or whole prefix of the file from an earlier attempt and asks only for
    the rest, ends with the sender's exact bytes at the final path and no [.part]
    file. *)
Theorem file_transfer_over_wire `{Postcard Frame, Postcard TransferMessage, Debug Frame, Debug TransferMessage,
    !PostcardLaws Frame, !PostcardLaws TransferMessage, Blake3, Hex, !Blake3Laws}
    (rd : nat → nat) (path dir : string) (m : FileManifest) (data old : list byte) (cfs sfs : Fs)
    (cb ab : Z → list byte) (ob acb fb gb db payload k k' tc ts : list byte) :
  describes m data → fm_total_chunks m < 2 ^ 32 →
  files cfs !! path = Some data →
  fs_fault sfs = None → old = default [] (files sfs !! part_of dir m) → old `prefix_of` data →
  TransferMessage_to_bytes (Offer m) = Ok payload →
  carried_as (Offer m) ob → carried_as (Accept (fm_file_id m) (zlen old / CHUNK_SIZE)) acb →
  chunk_wire m data cb ab →
  carried_as (Finished (fm_file_id m) (fm_blake3_root_hash m)) fb → carried_as (Complete (fm_file_id m)) gb →
  encode_frame (Control (Disconnect Graceful)) = Ok db →
  let js := seqZ (zlen old / CHUNK_SIZE) (fm_total_chunks m - zlen old / CHUNK_SIZE) in
  offer_and_stream path m (conn (acb ++ concat (map ab js) ++ gb ++ k') tc, cfs)
    = (Ok tt, (conn k' (tc ++ ob ++ concat (map cb js) ++ fb ++ db), cfs))
  ∧ ∃ sfs', handle_file_transfer rd payload dir (conn (concat (map cb js) ++ fb ++ k) ts, sfs)
      = (Ok tt, (conn k (ts ++ acb ++ concat (map ab js) ++ gb), sfs'))
    ∧ files sfs' !! final_of dir m = Some data ∧ files sfs' !! part_of dir m = None.
Proof.
  intros Hd Hu Hc Hf Hold Hp Hpay Hob Hacb Hw Hfb Hgb Hdb js. split.
  - by apply (offer_and_stream_run path m data old cfs cb ab ob acb fb gb db k' tc).
  - apply (handle_file_transfer_run rd dir m data old sfs cb ab acb fb gb payload k ts); try done. apply Hob.
Qed.

(** C39: the pairing command and the node wait for each other.  The client's
    ceremony writes its request and reads the stream for the response.  The node's
    loop takes the request off the stream, and the ceremony it then starts reads
    the stream for a request: with nothing more to read it has written nothing, and
    neither side is trusted.  (An end of the stream stands for a peer that sends
    nothing more.) *)
Theorem pairing_request_lost `{Ed25519, Sha256, Blake3, Hex, Postcard Frame, Postcard PairingMessage,
    Postcard TransferMessage, Postcard ClipboardMessage, Debug Frame, Debug PairingMessage,
    Debug TransferMessage, ClipboardBackend B, !PostcardLaws Frame}
    (conn_id : nat) (dir : string) (env : RoundEnv) (n : Node B) (s : ActiveSession) (w : World B)
    (confirm : SasVerification → string → bool) (nonce : array 32) (t t' : u64) (bs ti tn : list byte) :
  sent_as (Request (new_initiator (local_identity s) (local_name s) (local_device_type s) nonce t).2) bs →
  w_io w = conn [] ti → w_io (nd_world n) = conn bs tn →
  (let '(r, (s', w')) := execute_pairing true confirm nonce t t' (s, w) in
   (∃ e, r = Err e) ∧ state s' = SPairing ∧ w_io w' = conn [] (ti ++ bs))
  ∧ ∃ n', node_round conn_id dir (NFrame env) n = (Ok true, n')
      ∧ w_io (nd_world n') = conn [] tn ∧ state (nd_session n') = SPairing
      ∧ w_store (nd_world n') = w_store (nd_world n) ∧ nd_registry n' = nd_registry n.
Proof.
  intros Hs Hw Hn. split.
  - rewrite (initiator_stalls confirm nonce t t' ti bs s w Hw Hs). split; [by eexists|done].
  - destruct Hs as (_ & d & Ed & Hv & Hb).
    assert (df_channel d = CHANNEL_PAIRING) as Hch.
    { unfold pairing_to_data_frame in Ed. destruct (to_allocvec _); by simplify_eq/=. }
    unfold node_round. erewrite st_bind_ok; cycle 1.
    { unfold on_stream, st_map_err, zoom. rewrite Hn, <-(app_nil_r bs) at 1.
      rewrite (recv_frame_sent _ (Data d) bs []) by done. reflexivity. }
    cbv beta iota. cbn [handle_node_frame]. rewrite decide_True by done.
    erewrite st_bind_ok; cycle 1.
    { unfold try, on_session, st_map_err, zoom. cbn [nd_session nd_world with_sw fst snd].
      rewrite (responder_stalls _ _ _ _ tn) by done. reflexivity. }
    eexists. split; [reflexivity|]. done.
Qed.


(** ** Witnesses *)

Section Witnesses.
Import Toy FrameWire PairingWire TransferWire ClipboardWire.

#[local] Instance node_debug_frame : Debug Frame := λ _, "Frame".
#[local] Instance node_debug_pairing : Debug PairingMessage := λ _, "PairingMessage".
#[local] Instance node_debug_transfer : Debug TransferMessage := λ _, "TransferMessage".

Definition node_world : World MemoryClipboardBackend :=
  world_of (conn (bytes_of demo_f1 ++ bytes_of demo_f3) []) empty_store.
Definition refuse_env : RoundEnv :=
  {| re_confirm := λ _ _, false; re_nonce := nonce_s; re_now := 1; re_now' := 2; re_rd := λ _, 1%nat |}.

Lemma node_handshake :
  ∃ s w', server_handshake key_a "Laptop" Windows (Some "in") nonce_s 100 node_world = (Ok s, w')
    ∧ state_is_trusted (state s) = false.
Proof.
  destruct demo_encoded as (E1 & E2 & E3 & E4).
  destruct (server_handshake_run key_a "Laptop" Windows (Some "in") nonce_s 100 node_world key_b "Phone"
    nonce_c false _ _ _ _ ltac:(repeat split; vm_compute; congruence) I E1 E2 E3 E4 eq_refl eq_refl)
    as (s & w' & E & _ & _ & _ & Hs).
  exists s, w'. split; [exact E|]. by rewrite Hs.
Qed.


Definition busy_node : Node MemoryClipboardBackend :=
  {| nd_session := demo_b; nd_world := world_of (conn (bytes_of demo_f1) []) empty_store; nd_registry := ∅ |}.


Definition waiting_node : Node MemoryClipboardBackend :=
  {| nd_session := demo_b; nd_world := world_of (conn (wire_of (Request demo_init.2)) []) empty_store;
     nd_registry := ∅ |}.

Example pairing_request_lost_witness :
  ∃ n', node_round 1 "in" (NFrame refuse_env) waiting_node = (Ok true, n')
    ∧ w_io (nd_world n') = conn [] [].
Proof.
  destruct (pairing_request_lost 1 "in" refuse_env waiting_node demo_a (world_of (conn [] []) empty_store)
    (AutoConfirm true) nonce_s 1 2 (wire_of (Request demo_init.2)) [] []) as (_ & n' & E & Hio & _).
  - split; [repeat split; vm_compute; congruence|]. eexists. split; [reflexivity|].
    split; [repeat split; vm_compute; congruence|]. vm_compute. reflexivity.
  - reflexivity.
  - reflexivity.
  - exists n'. split; [exact E|exact Hio].
Defined.

Definition transfer_wire (msg : TransferMessage) : list byte :=
  match to_data_frame msg with Ok d => bytes_of (Data d) | Err _ => [] end.
Definition offer_payload : list byte :=
  match TransferMessage_to_bytes (Offer sample_manifest) with Ok b => b | Err _ => [] end.
Definition sender_fs : Fs := {| files := {[ "out/f.bin" := sample_data ]}; fs_fault := None |}.

Example offer_confined_witness :
  let '(r, n') := handle_file_transfer (λ _, 4%nat) offer_payload "in" (conn [] [], torn_fs) in
  confined "in/f.bin" "in/f.bin.part" (fm_blake3_root_hash sample_manifest) torn_fs n'.2.
Proof.
  assert (TransferMessage_from_bytes offer_payload = Ok (Offer sample_manifest)) as E.
  { destruct (postcard_roundtrip (Offer sample_manifest)) as (bs & Eb & Db);
      [repeat split; vm_compute; congruence|].
    unfold offer_payload, TransferMessage_from_bytes, TransferMessage_to_bytes. rewrite Eb. cbn [map_err].
    by rewrite Db. }
  pose proof (offer_confined (λ _, 4%nat) offer_payload "in" (conn [] [], torn_fs)) as Hc.
  destruct (handle_file_transfer _ _ _ _) as [r n']. rewrite E in Hc. destruct Hc as [Hc _]. exact Hc.
Defined.

Lemma carried_demo msg :
  msg ∈ [Offer sample_manifest; Accept "id1" 0; TData (chunk_of sample_manifest sample_data 0); Ack "id1" 0;
         Finished "id1" (fm_blake3_root_hash sample_manifest); Complete "id1"] →
  carried_as msg (transfer_wire msg).
Proof.
  intros Hin. repeat (apply elem_of_cons in Hin as [->|Hin];
    [split; [repeat split; vm_compute; congruence|];
     eexists; split; [reflexivity|]; split; [repeat split; vm_compute; congruence|vm_compute; reflexivity]|]).
  by apply not_elem_of_nil in Hin.
Qed.

Example file_transfer_over_wire_witness :
  ∃ sfs', (handle_file_transfer (λ _, 4%nat) offer_payload "in"
      (conn (transfer_wire (TData (chunk_of sample_manifest sample_data 0))
             ++ transfer_wire (Finished "id1" (fm_blake3_root_hash sample_manifest))) [], torn_fs)).2.2 = sfs'
    ∧ files sfs' !! "in/f.bin" = Some sample_data.
Proof.
  destruct (file_transfer_over_wire (λ _, 4%nat) "out/f.bin" "in" sample_manifest sample_data (as_bytes "hel")
    sender_fs torn_fs
    (λ i, transfer_wire (TData (chunk_of sample_manifest sample_data i))) (λ i, transfer_wire (Ack "id1" i))
    (transfer_wire (Offer sample_manifest)) (transfer_wire (Accept "id1" 0))
    (transfer_wire (Finished "id1" (fm_blake3_root_hash sample_manifest))) (transfer_wire (Complete "id1"))
    (bytes_of (Control (Disconnect Graceful))) offer_payload [] [] [] []) as (_ & sfs' & E & Hf & _).
  - exact sample_describes.
  - vm_compute. reflexivity.
  - apply lookup_singleton_eq.
  - reflexivity.
  - symmetry. unfold torn_fs. cbn [files]. change (part_of "in" sample_manifest) with "in/f.bin.part".
    by rewrite lookup_singleton_eq.
  - by exists (drop 3 sample_data).
  - vm_compute. reflexivity.
  - apply carried_demo. set_solver.
  - apply carried_demo. set_solver.
  - intros i Hi. change (fm_total_chunks sample_manifest) with 1 in Hi. assert (i = 0) as -> by lia.
    split; apply carried_demo; set_solver.
  - apply carried_demo. set_solver.
  - apply carried_demo. set_solver.
  - vm_compute. reflexivity.
  - exists sfs'. split; [|exact Hf].
    change (seqZ _ _) with [0] in E. cbn [map concat] in E. rewrite !app_nil_r in E. rewrite E. reflexivity.
Defined.
End Witnesses.
