(* ===== verification/Broadcast.v ===== *)
(** * Broadcast: the tasks of a running node and the registry they share

    [run_node] of [tools/bridge-cli/src/node.rs] starts one task that forwards
    clipboard frames to every registered connection, and [handle_connection] one
    task per connection.  They share the map [active_sessions] behind a mutex, and
    each connection has a bounded channel of outbound frames.  The file models these
    tasks at the level of their await points, as a step relation: what can happen
    between two awaits of one task happens in one step, and steps of different tasks
    interleave freely. *)
From stdpp Require Import relations.
From S2P Require Import Prelude Text External Codec Core Protocol Clipboard.

(** [mpsc::channel(32)], and the capacity of the engine's event channel. *)
Definition OUTBOUND_CAPACITY : nat := 32.
Definition DEFAULT_EVENT_CAPACITY : nat := 128.

(** Where a connection's task is. *)
Inductive ConnPc :=
| CSelect        (* in the [select!] of its loop *)
| CHandling      (* in the arm of a frame: a transfer or a pairing may take long *)
| CRegister      (* waiting for the lock to insert its channel *)
| CUnregister    (* past the loop, waiting for the lock to remove its channel *)
| CGone.         (* returned: its receiver is dropped *)
#[global] Instance ConnPc_eq_dec : EqDecision ConnPc.
Proof. solve_decision. Defined.

Record Conn := {
  cn_peer : NodeId; cn_pc : ConnPc;
  cn_queue : list DataFrame;      (* its channel *)
  cn_taken : list DataFrame }.    (* what it has taken from the channel *)

(** Where the broadcaster is; it holds the lock while it sends. *)
Inductive CastPc :=
| BRecv
| BLock (f : DataFrame)
| BSend (f : DataFrame) (targets : list nat)
| BEnd.

Record Hub := {
  hb_cast : CastPc;
  hb_events : list (option DataFrame);   (* events it has not read; [Some]: a frame to broadcast *)
  hb_lagged : bool;                      (* events were dropped before it read them *)
  hb_log : list DataFrame;               (* the frames it has read *)
  hb_registry : gmap NodeId nat;
  hb_conns : gmap nat Conn;
  hb_next : nat }.

Definition Hub_new : Hub := {|
  hb_cast := BRecv; hb_events := []; hb_lagged := false; hb_log := []; hb_registry := ∅; hb_conns := ∅;
  hb_next := 0 |}.

Definition set_cast (c : CastPc) (h : Hub) : Hub := {|
  hb_cast := c; hb_events := hb_events h; hb_lagged := hb_lagged h; hb_log := hb_log h;
  hb_registry := hb_registry h; hb_conns := hb_conns h; hb_next := hb_next h |}.
Definition set_events (es : list (option DataFrame)) (lagged : bool) (h : Hub) : Hub := {|
  hb_cast := hb_cast h; hb_events := es; hb_lagged := lagged; hb_log := hb_log h;
  hb_registry := hb_registry h; hb_conns := hb_conns h; hb_next := hb_next h |}.
Definition add_log (f : DataFrame) (h : Hub) : Hub := {|
  hb_cast := hb_cast h; hb_events := hb_events h; hb_lagged := hb_lagged h; hb_log := hb_log h ++ [f];
  hb_registry := hb_registry h; hb_conns := hb_conns h; hb_next := hb_next h |}.
Definition set_registry (r : gmap NodeId nat) (h : Hub) : Hub := {|
  hb_cast := hb_cast h; hb_events := hb_events h; hb_lagged := hb_lagged h; hb_log := hb_log h;
  hb_registry := r; hb_conns := hb_conns h; hb_next := hb_next h |}.
Definition set_conn (id : nat) (c : Conn) (h : Hub) : Hub := {|
  hb_cast := hb_cast h; hb_events := hb_events h; hb_lagged := hb_lagged h; hb_log := hb_log h;
  hb_registry := hb_registry h; hb_conns := <[id := c]> (hb_conns h); hb_next := hb_next h |}.
Definition bump_next (h : Hub) : Hub := {|
  hb_cast := hb_cast h; hb_events := hb_events h; hb_lagged := hb_lagged h; hb_log := hb_log h;
  hb_registry := hb_registry h; hb_conns := hb_conns h; hb_next := S (hb_next h) |}.

Definition set_pc (pc : ConnPc) (c : Conn) : Conn :=
  {| cn_peer := cn_peer c; cn_pc := pc; cn_queue := cn_queue c; cn_taken := cn_taken c |}.
Definition push_queue (f : DataFrame) (c : Conn) : Conn :=
  {| cn_peer := cn_peer c; cn_pc := cn_pc c; cn_queue := cn_queue c ++ [f]; cn_taken := cn_taken c |}.
Definition pop_queue (f : DataFrame) (q : list DataFrame) (c : Conn) : Conn :=
  {| cn_peer := cn_peer c; cn_pc := cn_pc c; cn_queue := q; cn_taken := cn_taken c ++ [f] |}.

(** [event_tx.send]: a full channel drops its oldest event, and its reader will be
    told that it lagged. *)
Definition publish_event (ev : option DataFrame) (h : Hub) : Hub :=
  let es := hb_events h ++ [ev] in
  if decide (DEFAULT_EVENT_CAPACITY < length es)%nat then set_events (tail es) true h
  else set_events es (hb_lagged h) h.

Definition locked (h : Hub) : Prop := ∃ f ts, hb_cast h = BSend f ts.

Inductive hub_step : Hub → Hub → Prop :=
(* the clipboard engine emits an event *)
| h_publish h ev : hub_step h (publish_event ev h)
(* [while let Ok(event) = clip_event_rx.recv().await] *)
| h_lagged h : hb_cast h = BRecv → hb_lagged h = true → hub_step h (set_cast BEnd h)
| h_other h es :
    hb_cast h = BRecv → hb_lagged h = false → hb_events h = None :: es → hub_step h (set_events es false h)
| h_frame h f es :
    hb_cast h = BRecv → hb_lagged h = false → hb_events h = Some f :: es →
    hub_step h (set_cast (BLock f) (add_log f (set_events es false h)))
(* [active_sessions_clip.lock().await], then the sessions in any order *)
| h_lock h f ts :
    hb_cast h = BLock f → ts ≡ₚ (map_to_list (hb_registry h)).*2 → hub_step h (set_cast (BSend f ts) h)
(* [tx.send(frame.clone()).await] waits for room *)
| h_send h f id ts c :
    hb_cast h = BSend f (id :: ts) → hb_conns h !! id = Some c → cn_pc c ≠ CGone →
    (length (cn_queue c) < OUTBOUND_CAPACITY)%nat →
    hub_step h (set_cast (BSend f ts) (set_conn id (push_queue f c) h))
| h_send_closed h f id ts c :
    hb_cast h = BSend f (id :: ts) → hb_conns h !! id = Some c → cn_pc c = CGone →
    hub_step h (set_cast (BSend f ts) h)
(* the lock is released at the end of the block *)
| h_unlock h f : hb_cast h = BSend f [] → hub_step h (set_cast BRecv h)
(* a handshake has succeeded; a trusted peer's channel is registered first *)
| c_accept h peer (trusted : bool) :
    hub_step h (bump_next (set_conn (hb_next h)
      {| cn_peer := peer; cn_pc := if trusted then CRegister else CSelect; cn_queue := []; cn_taken := [] |} h))
| c_register h id c :
    hb_conns h !! id = Some c → cn_pc c = CRegister → ¬ locked h →
    hub_step h (set_conn id (set_pc CSelect c) (set_registry (<[cn_peer c := id]> (hb_registry h)) h))
(* the two arms of the loop *)
| c_outbound h id c f q :
    hb_conns h !! id = Some c → cn_pc c = CSelect → cn_queue c = f :: q →
    hub_step h (set_conn id (pop_queue f q c) h)
| c_frame h id c :
    hb_conns h !! id = Some c → cn_pc c = CSelect → hub_step h (set_conn id (set_pc CHandling c) h)
| c_handled h id c :
    hb_conns h !! id = Some c → cn_pc c = CHandling → hub_step h (set_conn id (set_pc CSelect c) h)
(* a pairing ceremony has succeeded *)
| c_paired h id c :
    hb_conns h !! id = Some c → cn_pc c = CHandling → hub_step h (set_conn id (set_pc CRegister c) h)
(* end of file or a disconnect: [break], then [lock().await.remove(..)] *)
| c_break h id c :
    hb_conns h !! id = Some c → cn_pc c = CSelect → hub_step h (set_conn id (set_pc CUnregister c) h)
| c_unregister h id c :
    hb_conns h !! id = Some c → cn_pc c = CUnregister → ¬ locked h →
    hub_step h (set_conn id (set_pc CGone c) (set_registry (delete (cn_peer c) (hb_registry h)) h))
(* a [?] of the loop *)
| c_error h id c :
    hb_conns h !! id = Some c → cn_pc c = CSelect ∨ cn_pc c = CHandling →
    hub_step h (set_conn id (set_pc CGone c) h).

(** ** Lemmas: what holds in every reachable state *)

(** The frames that connection [id] can have been given: all that were read, less
    the one being sent if its turn is still to come. *)
Definition given (h : Hub) (id : nat) : list DataFrame :=
  match hb_cast h with
  | BLock f => take (length (hb_log h) - 1) (hb_log h)
  | BSend f ts => if decide (id ∈ ts) then take (length (hb_log h) - 1) (hb_log h) else hb_log h
  | _ => hb_log h
  end.

Record hub_inv (h : Hub) : Prop := {
  hi_capacity id c : hb_conns h !! id = Some c → (length (cn_queue c) ≤ OUTBOUND_CAPACITY)%nat;
  hi_fifo id c : hb_conns h !! id = Some c → cn_taken c ++ cn_queue c `sublist_of` given h id;
  hi_registry n id : hb_registry h !! n = Some id → ∃ c, hb_conns h !! id = Some c ∧ cn_peer c = n;
  hi_next id : is_Some (hb_conns h !! id) → (id < hb_next h)%nat;
  hi_targets f ts : hb_cast h = BSend f ts →
    NoDup ts ∧ (∀ id, id ∈ ts → is_Some (hb_conns h !! id)) ∧ last (hb_log h) = Some f;
  hi_log f : hb_cast h = BLock f → last (hb_log h) = Some f;
  hi_events : (length (hb_events h) ≤ DEFAULT_EVENT_CAPACITY)%nat }.

Lemma hub_inv_new : hub_inv Hub_new.
Proof. split; try done; simpl; try (intros *; rewrite lookup_empty; naive_solver). unfold DEFAULT_EVENT_CAPACITY. lia. Qed.

(** A connection's own step keeps the invariant: it keeps its peer and what it was
    given, and its channel does not grow. *)
Lemma hub_inv_set_conn h id c c' :
  hub_inv h → hb_conns h !! id = Some c → cn_peer c' = cn_peer c →
  cn_taken c' ++ cn_queue c' = cn_taken c ++ cn_queue c → (length (cn_queue c') ≤ length (cn_queue c))%nat →
  hub_inv (set_conn id c' h).
Proof.
  intros [Hc Hf Hr Hn Ht Hl He] E Hp Hq Hle.
  split; cbn; try done.
  - intros id' c0 [[<- <-]|[? E']]%lookup_insert_Some; [|by eapply Hc]. specialize (Hc _ _ E). lia.
  - intros id' c0 [[<- <-]|[? E']]%lookup_insert_Some; [|by apply Hf]. rewrite Hq. by apply Hf.
  - intros n id' E'. destruct (Hr _ _ E') as (c0 & E0 & <-). destruct (decide (id = id')) as [->|].
    + exists c'. rewrite lookup_insert_eq. split; congruence.
    + exists c0. by rewrite lookup_insert_ne.
  - intros id' [c0 [[<- <-]|[? E']]%lookup_insert_Some]; apply Hn; eauto.
  - intros f ts Hb. destruct (Ht _ _ Hb) as (H1 & H2 & H3). split_and!; [done| |done].
    intros id' Hid. destruct (decide (id = id')) as [->|]; [by rewrite lookup_insert_eq; eexists|].
    rewrite lookup_insert_ne by done. by apply H2.
Qed.

Lemma hub_inv_set_registry h r :
  hub_inv h → (∀ n id, r !! n = Some id → ∃ c, hb_conns h !! id = Some c ∧ cn_peer c = n) →
  hub_inv (set_registry r h).
Proof. intros [Hc Hf Hr Hn Ht Hl He] Hreg. by split. Qed.

Lemma hub_inv_set_events h es b :
  hub_inv h → (length es ≤ DEFAULT_EVENT_CAPACITY)%nat → hub_inv (set_events es b h).
Proof. intros [Hc Hf Hr Hn Ht Hl He] Hes. by split. Qed.

Lemma take_snoc {A} (l : list A) x : take (length (l ++ [x]) - 1) (l ++ [x]) = l.
Proof. rewrite length_app. simpl. rewrite Nat.add_sub. by rewrite take_app_length. Qed.

Lemma last_snoc_inv {A} (l : list A) x : last l = Some x → l = take (length l - 1) l ++ [x].
Proof. intros [k ->]%last_Some. by rewrite take_snoc. Qed.

(** The targets of a broadcast are distinct: a channel is registered under its
    connection's peer only. *)
Lemma registry_targets h ts :
  hub_inv h → ts ≡ₚ (map_to_list (hb_registry h)).*2 →
  NoDup ts ∧ ∀ id, id ∈ ts → is_Some (hb_conns h !! id).
Proof.
  intros Hi Hts. split.
  - rewrite Hts. apply NoDup_fmap_2_strong; [|apply NoDup_map_to_list].
    intros [n1 id1] [n2 id2] H1%elem_of_map_to_list H2%elem_of_map_to_list E. simpl in E. subst id2.
    destruct (hi_registry _ Hi _ _ H1) as (c1 & E1 & <-), (hi_registry _ Hi _ _ H2) as (c2 & E2 & <-). congruence.
  - intros id Hid. rewrite Hts in Hid. apply list_elem_of_fmap in Hid as ([n id'] & -> & Hin%elem_of_map_to_list).
    destruct (hi_registry _ Hi _ _ Hin) as (c & E & _). eauto.
Qed.

(** The broadcaster gives the frame to the next target. *)
Lemma hub_inv_send h f id ts c :
  hub_inv h → hb_cast h = BSend f (id :: ts) → hb_conns h !! id = Some c →
  (length (cn_queue c) < OUTBOUND_CAPACITY)%nat →
  hub_inv (set_cast (BSend f ts) (set_conn id (push_queue f c) h)).
Proof.
  intros [Hc Hf Hr Hn Ht Hl He] Hb E Hroom. destruct (Ht _ _ Hb) as (Hnd & Hts & Hlast).
  apply NoDup_cons in Hnd as [Hid Hnd]. split; cbn; try done.
  - intros id' c0 [[<- <-]|[? E']]%lookup_insert_Some; [|by eapply Hc]. cbn. rewrite length_app. simpl. lia.
  - intros id' c0 E0. unfold given in *. rewrite Hb in Hf. cbn.
    apply lookup_insert_Some in E0 as [[<- <-]|[Hne E']].
    + rewrite decide_False by done. specialize (Hf _ _ E). rewrite decide_True in Hf by set_solver.
      cbn. rewrite app_assoc, (last_snoc_inv _ _ Hlast). by apply sublist_app.
    + specialize (Hf _ _ E'). destruct (decide (id' ∈ ts)) as [Hin|Hin].
      * by rewrite decide_True in Hf by set_solver.
      * by rewrite decide_False in Hf by set_solver.
  - intros n id' E'. destruct (Hr _ _ E') as (c0 & E0 & <-). destruct (decide (id = id')) as [->|].
    + exists (push_queue f c). rewrite lookup_insert_eq. split; [done|]. cbn. congruence.
    + exists c0. by rewrite lookup_insert_ne.
  - intros id' [c0 [[<- <-]|[? E']]%lookup_insert_Some]; apply Hn; eauto.
  - intros f' ts' [= <- <-]. split_and!; [done| |done]. intros id' Hin.
    destruct (decide (id = id')) as [->|]; [by rewrite lookup_insert_eq; eexists|].
    rewrite lookup_insert_ne by done. apply Hts. set_solver.
Qed.

Lemma take_sublist {A} n (l : list A) : take n l `sublist_of` l.
Proof. apply sublist_take. Qed.

(** A move of the broadcaster that gives nobody less. *)
Lemma hub_inv_cast h pc :
  hub_inv h → (∀ id, given h id `sublist_of` given (set_cast pc h) id) →
  (∀ f ts, pc = BSend f ts → NoDup ts ∧ (∀ id, id ∈ ts → is_Some (hb_conns h !! id)) ∧ last (hb_log h) = Some f) →
  (∀ f, pc = BLock f → last (hb_log h) = Some f) →
  hub_inv (set_cast pc h).
Proof.
  intros [Hc Hf Hr Hn Ht Hl He] Hg Hs Hlk. split; try done. intros id c E. etrans; [by apply Hf|apply Hg].
Qed.

Lemma hub_inv_step h h' : hub_inv h → hub_step h h' → hub_inv h'.
Proof.
  intros Hi Hs. destruct Hs as [h ev|h Hb Hl|h es Hb Hl He|h f es Hb Hl He|h f ts Hb Hts|h f id ts c Hb E Hpc Hroom
    |h f id ts c Hb E Hpc|h f Hb|h peer trusted|h id c E Hpc Hlk|h id c f q E Hpc Hq|h id c E Hpc|h id c E Hpc
    |h id c E Hpc|h id c E Hpc|h id c E Hpc Hlk|h id c E Hpc].
  - unfold publish_event. case_decide as Hlen; (apply hub_inv_set_events; [done|]); [|lia].
    pose proof (hi_events _ Hi). destruct (hb_events h) as [|x es]; simpl in *; [lia|].
    rewrite length_app. simpl. lia.
  - apply hub_inv_cast; try done. intros id. unfold given. by rewrite Hb.
  - apply hub_inv_set_events; [done|]. pose proof (hi_events _ Hi) as Hlen. rewrite He in Hlen. simpl in Hlen. lia.
  - destruct Hi as [Hc Hf Hr Hn Ht Hl' He']. split; try done; cbn.
    + intros id c E. unfold given in *. rewrite Hb in Hf. cbn. rewrite take_snoc. by apply (Hf id).
    + intros f' [= <-]. by rewrite last_snoc.
    + rewrite He in He'. simpl in He'. lia.
  - pose proof (hi_log _ Hi _ Hb) as Hlast. apply hub_inv_cast; [done| | |done].
    + intros id. unfold given. rewrite Hb. cbn. case_decide; [done|apply take_sublist].
    + intros f' ts' [= <- <-]. destruct (registry_targets _ _ Hi Hts). by split_and!.
  - by apply hub_inv_send with (id := id).
  - destruct (hi_targets _ Hi _ _ Hb) as (Hnd & Hts & Hlast). apply NoDup_cons in Hnd as [Hid Hnd].
    apply hub_inv_cast; [done| | |done].
    + intros id'. unfold given. rewrite Hb. cbn. repeat case_decide; try done; [apply take_sublist|set_solver].
    + intros f' ts' [= <- <-]. split_and!; [done| |done]. intros. apply Hts. set_solver.
  - apply hub_inv_cast; try done. intros id. unfold given. rewrite Hb. cbn. by rewrite decide_False by set_solver.
  - destruct Hi as [Hc Hf Hr Hn Ht Hl He]. assert (hb_conns h !! hb_next h = None) as Hfresh.
    { destruct (hb_conns h !! hb_next h) eqn:E; [|done]. specialize (Hn (hb_next h)). rewrite E in Hn.
      specialize (Hn ltac:(eauto)). lia. }
    split; cbn; try done.
    + intros id c [[<- <-]|[? E]]%lookup_insert_Some; [cbn; lia|by eapply Hc].
    + intros id c [[<- <-]|[? E]]%lookup_insert_Some; [apply sublist_nil_l|by apply Hf].
    + intros n id E. destruct (Hr _ _ E) as (c & Ec & <-). exists c. rewrite lookup_insert_ne; [done|congruence].
    + intros id [c [[<- <-]|[? E]]%lookup_insert_Some]; [lia|]. specialize (Hn id ltac:(eauto)). lia.
    + intros f ts Hb. destruct (Ht _ _ Hb) as (H1 & H2 & H3). split_and!; [done| |done]. intros id Hid.
      destruct (H2 _ Hid) as [c Hc']. exists c. rewrite lookup_insert_ne; [done|congruence].
  - eapply hub_inv_set_conn; [|exact E|done|done|done]. apply hub_inv_set_registry; [done|].
    intros n id' [[<- <-]|[? E']]%lookup_insert_Some; [eauto|by apply Hi].
  - eapply hub_inv_set_conn; [done|exact E|done| |cbn; rewrite Hq; simpl; lia].
    cbn. rewrite Hq, <-app_assoc. done.
  - by eapply hub_inv_set_conn.
  - by eapply hub_inv_set_conn.
  - by eapply hub_inv_set_conn.
  - by eapply hub_inv_set_conn.
  - eapply hub_inv_set_conn; [|exact E|done|done|done]. apply hub_inv_set_registry; [done|].
    intros n id' [? E']%lookup_delete_Some. by apply Hi.
  - by eapply hub_inv_set_conn.
Qed.

Lemma hub_reachable h : rtc hub_step Hub_new h → hub_inv h.
Proof.
  intros Hr. pose proof hub_inv_new as H0. revert H0.
  induction Hr as [|h1 h2 h3 Hs Hr IH]; [done|]. intros Hi. by apply IH, (hub_inv_step h1).
Qed.

Lemma given_log h id : given h id `sublist_of` hb_log h.
Proof. unfold given. repeat case_match; try done; apply take_sublist. Qed.

(** ** Lemmas: how the tasks lock each other out *)

Section Deadlock.
Variables (p : NodeId) (f : DataFrame).

(** One registered connection that has been given [q] and has taken nothing. *)
Definition idle_hub (q : list DataFrame) : Hub := {|
  hb_cast := BRecv; hb_events := []; hb_lagged := false; hb_log := q; hb_registry := {[p := 0%nat]};
  hb_conns := {[0%nat := {| cn_peer := p; cn_pc := CSelect; cn_queue := q; cn_taken := [] |}]}; hb_next := 1 |}.
(** The broadcaster is about to send one more frame to it. *)
Definition sending_hub (pc : ConnPc) (q : list DataFrame) : Hub := {|
  hb_cast := BSend f [0%nat]; hb_events := []; hb_lagged := false; hb_log := q ++ [f];
  hb_registry := {[p := 0%nat]};
  hb_conns := {[0%nat := {| cn_peer := p; cn_pc := pc; cn_queue := q; cn_taken := [] |}]}; hb_next := 1 |}.

Lemma idle_hub_start : rtc hub_step Hub_new (idle_hub []).
Proof.
  eapply rtc_l; [apply (c_accept Hub_new p true)|].
  eapply rtc_l; [eapply (c_register _ 0); [apply lookup_insert_eq|done|intros (g & ts & E); done]|].
  unfold idle_hub, bump_next, set_conn, set_registry, set_pc, Hub_new. simpl.
  rewrite insert_insert_eq. apply rtc_refl.
Qed.

Lemma idle_hub_sending q : rtc hub_step (idle_hub q) (sending_hub CSelect q).
Proof.
  eapply rtc_l; [apply (h_publish _ (Some f))|].
  eapply rtc_l; [eapply h_frame; done|].
  eapply rtc_l; [eapply (h_lock _ f [0%nat]); [done|]|].
  - change ([0%nat] ≡ₚ (map_to_list ({[p := 0%nat]} : gmap NodeId nat)).*2). by rewrite map_to_list_singleton.
  - apply rtc_refl.
Qed.

Lemma idle_hub_deliver q :
  (length q < OUTBOUND_CAPACITY)%nat → rtc hub_step (idle_hub q) (idle_hub (q ++ [f])).
Proof.
  intros Hq. etrans; [apply idle_hub_sending|].
  eapply rtc_l; [eapply (h_send _ f 0 []); [done|apply lookup_singleton_eq|done|done]|].
  eapply rtc_l; [eapply h_unlock; done|].
  unfold sending_hub, set_cast, set_conn, push_queue. simpl. rewrite insert_singleton_eq. apply rtc_refl.
Qed.

Lemma idle_hub_full n :
  (n ≤ OUTBOUND_CAPACITY)%nat → rtc hub_step Hub_new (idle_hub (replicate n f)).
Proof.
  induction n as [|n IH]; intros Hn; [apply idle_hub_start|].
  etrans; [apply IH; lia|]. rewrite replicate_S_end. apply idle_hub_deliver. rewrite length_replicate. lia.
Qed.

(** The broadcaster waits for room in the channel of a connection that waits for
    the lock. *)
Definition wedged (r : gmap NodeId nat) (l : list DataFrame) (h : Hub) : Prop :=
  hb_cast h = BSend f [0%nat] ∧ hb_registry h = r ∧ hb_log h = l ∧ (0 < hb_next h)%nat
  ∧ ∃ c, hb_conns h !! 0%nat = Some c ∧ cn_pc c = CUnregister ∧ length (cn_queue c) = OUTBOUND_CAPACITY.

Lemma wedged_step r l h h' : wedged r l h → hub_step h h' → wedged r l h'.
Proof.
  intros (Hb & Hr & Hl & Hn & c & Ec & Hpc & Hq) Hs.
  assert (locked h) as Hlk by (eexists _, _; done).
  assert (∀ id c0, hb_conns h !! id = Some c0 → cn_pc c0 ≠ CUnregister → id ≠ 0%nat) as Hid.
  { intros id c0 E0 Hne ->. congruence. }
  destruct Hs; try congruence; try done;
    try (unfold publish_event; case_decide; by split_and!; [..|exists c]);
    try (match goal with E : hb_conns h !! ?i = Some ?c0 |- _ =>
           assert (i ≠ 0%nat) by (eapply Hid; [exact E|naive_solver congruence]) end;
         split_and!; cbn; [done..|exists c; by rewrite lookup_insert_ne]).
  - match goal with E : hb_cast h = BSend _ (_ :: _) |- _ => rewrite Hb in E; injection E as <- <- <- end.
    simplify_eq. lia.
  - split_and!; cbn; [done..|lia|]. exists c. rewrite lookup_insert_ne by lia. done.
Qed.
End Deadlock.

(** ** Properties *)

(** C16: broadcasting keeps order and bounds.  In every reachable state of the
    node's tasks: no channel holds more than 32 frames and no more than 128 events
    wait; what a connection has taken and what waits in its channel is, in order and
    each at most once, part of what the broadcaster has read; a registered channel
    belongs to a connection of that peer; and if the broadcaster cannot go on while
    it holds the lock, the channel it sends to is full. *)
Theorem broadcast_ordered (h : Hub) :
  rtc hub_step Hub_new h →
  (∀ id c, hb_conns h !! id = Some c →
     (length (cn_queue c) ≤ OUTBOUND_CAPACITY)%nat ∧ cn_taken c ++ cn_queue c `sublist_of` hb_log h)
  ∧ (length (hb_events h) ≤ DEFAULT_EVENT_CAPACITY)%nat
  ∧ (∀ n id, hb_registry h !! n = Some id → ∃ c, hb_conns h !! id = Some c ∧ cn_peer c = n)
  ∧ (∀ f id ts, hb_cast h = BSend f (id :: ts) →
       (∃ h', hub_step h h' ∧ hb_cast h' = BSend f ts)
       ∨ ∃ c, hb_conns h !! id = Some c ∧ cn_pc c ≠ CGone ∧ length (cn_queue c) = OUTBOUND_CAPACITY).
Proof.
  intros Hi%hub_reachable. split_and!; [|apply Hi|apply Hi|].
  - intros id c E. split; [by eapply hi_capacity|]. etrans; [by eapply hi_fifo|apply given_log].
  - intros f id ts Hb. destruct (hi_targets _ Hi _ _ Hb) as (_ & Hts & _).
    destruct (Hts id) as [c Ec]; [set_solver|]. destruct (decide (cn_pc c = CGone)).
    { left. eexists. split; [by eapply h_send_closed|done]. }
    destruct (decide (length (cn_queue c) < OUTBOUND_CAPACITY)%nat).
    + left. eexists. split; [by eapply h_send|done].
    + right. exists c. split_and!; [done..|]. pose proof (hi_capacity _ Hi _ _ Ec). lia.
Qed.

(** C38: the node can lock itself up.  There is a reachable state (one peer that
    leaves while its channel is full and one more clipboard change is on its way)
    after which, whatever happens, the broadcaster keeps the lock, reads no frame
    and the registry never changes: no connection is registered or removed, no
    clipboard change is sent any more. *)
Theorem broadcast_deadlock (p : NodeId) (f : DataFrame) :
  ∃ h, rtc hub_step Hub_new h
    ∧ ∀ h', rtc hub_step h h' →
        locked h' ∧ hb_log h' = hb_log h ∧ hb_registry h' = hb_registry h
        ∧ ∃ c, hb_conns h' !! 0%nat = Some c ∧ cn_pc c = CUnregister.
Proof.
  set (q := replicate OUTBOUND_CAPACITY f). exists (sending_hub p f CUnregister q). split.
  - etrans; [apply (idle_hub_full p f OUTBOUND_CAPACITY); lia|]. etrans; [apply idle_hub_sending|].
    eapply rtc_l; [eapply (c_break _ 0); [apply lookup_singleton_eq|done]|].
    unfold sending_hub, set_conn, set_pc. simpl. rewrite insert_singleton_eq. apply rtc_refl.
  - intros h' Hr. assert (wedged f {[p := 0%nat]} (q ++ [f]) h') as (Hb & Hreg & Hl & _ & c & Ec & Hpc & _).
    { assert (wedged f {[p := 0%nat]} (q ++ [f]) (sending_hub p f CUnregister q)) as Hw.
      { split_and!; [done..|cbn; lia|]. eexists. split_and!; [apply lookup_singleton_eq|done|].
        apply length_replicate. }
      revert Hw. induction Hr as [|h1 h2 h3 Hs Hr IH]; [done|]. intros Hw. by apply IH, (wedged_step f _ _ h1). }
    split_and!; [by eexists _, _|done|done|by exists c].
Qed.

(** ** Witnesses *)

Example broadcast_ordered_witness :
  rtc hub_step Hub_new (idle_hub {| node_bytes := arr_rep 32 x0b |} [])
  ∧ (length (hb_events (idle_hub {| node_bytes := arr_rep 32 x0b |} [])) ≤ DEFAULT_EVENT_CAPACITY)%nat.
Proof.
  pose proof (idle_hub_start {| node_bytes := arr_rep 32 x0b |}) as Hr. split; [exact Hr|].
  apply (broadcast_ordered _ Hr).
Defined.
