(* ===== verification/Runtime.v ===== *)
(** * Runtime: [run_node] of [tools/bridge-cli/src/node.rs]

    The whole node: how it starts from its configuration and its data directory,
    the connections it serves at the same time over one trust store, disk, clipboard
    engine and registry, the task that forwards clipboard changes, the discovery
    workers, and the shutdown.  A run is a sequence of inputs, each handled in one
    step: a round of a connection ([node_round]), the acceptance of one, a local
    copy, a round of the broadcaster, a round of discovery; so every order of these
    steps is covered.  Waiting inside a step (for the lock, for room in a channel)
    is the subject of [Broadcast.v]. *)
From S2P Require Import Prelude Channel Text External Codec Core Protocol Transport Fs Keys Trust Pairing TransferMsg Transfer Clipboard Session Discovery Node Broadcast.

(** ** The machine a command runs on *)

(** Its files, and the databases among them by path. *)
Record Host := { h_fs : Fs; h_dbs : gmap string TrustStore }.
Definition set_host_fs (fs : Fs) (h : Host) : Host := {| h_fs := fs; h_dbs := h_dbs h |}.
Definition set_db (path : string) (s : TrustStore) (h : Host) : Host :=
  {| h_fs := h_fs h; h_dbs := <[path := s]> (h_dbs h) |}.
Definition db_exists (path : string) (h : Host) : bool := bool_decide (is_Some (h_dbs h !! path)).
Definition empty_db : TrustStore := {| peers_table := ∅; schema_versions := []; sql_faults := [] |}.

Definition on_files {E A} (f : E → NodeError) (m : st Fs E A) : st Host NodeError A :=
  st_map_err f (zoom h_fs set_host_fs m).
(** A call on the database at [path]. *)
Definition on_db {A} (context path : string) (m : st TrustStore IdentityError A) : st Host NodeError A :=
  st_map_err (NIdentity context)
    (zoom (λ h, default empty_db (h_dbs h !! path)) (set_db path) m).

(** [TrustStore::open(path)]: the parent directory, the file, the schema. *)
Definition open_store (context path : string) : st Host NodeError unit :=
  _ ← on_files (λ e, NIdentity context (IoErr e)) fs_create_dir_all;
  on_db context path TrustStore_open.

Definition key_path (data_dir : string) : string := path_join (path_join data_dir "identity") "secret.key".
Definition trust_path (data_dir : string) : string := path_join data_dir "trust.db".

(** ** Configuration *)

Record NodeConfig := {
  nc_name : string; nc_port : u16; nc_device_type : DeviceType; nc_receive_dir : string;
  nc_data_dir : string; nc_broadcast_port : u16; nc_enable_mdns : bool; nc_enable_udp : bool;
  nc_memory_clipboard : bool }.

Definition discovery_mode (enable_mdns enable_udp : bool) : option UnifiedDiscoveryMode :=
  match enable_mdns, enable_udp with
  | true, true => Some Both
  | true, false => Some MdnsOnly
  | false, true => Some UdpOnly
  | false, false => None
  end.

(** The UDP settings of every command that discovers. *)
Definition lan_udp_config (broadcast_port : u16) : UdpConfig := {|
  uc_broadcast_port := broadcast_port;
  uc_bind_addr := {| sa_ip := V4 (arr_rep 4 (z2b 0)); sa_port := broadcast_port |};
  uc_broadcast_targets := [{| sa_ip := V4 (arr_rep 4 (z2b 255)); sa_port := broadcast_port |}];
  uc_beacon_interval := uc_beacon_interval UdpConfig_default; uc_ttl := uc_ttl UdpConfig_default;
  uc_prune_interval := uc_prune_interval UdpConfig_default;
  uc_query_on_start := uc_query_on_start UdpConfig_default;
  uc_goodbye_on_shutdown := uc_goodbye_on_shutdown UdpConfig_default |}.

Definition unified_config (mode : UnifiedDiscoveryMode) (broadcast_port : u16) : UnifiedDiscoveryConfig :=
  {| uf_mode := mode; uf_mdns := DiscoveryConfig_default; uf_udp := lan_udp_config broadcast_port |}.

(** What the network answers a command that discovers. *)
Record LanEnv := {
  le_daemon : result string unit; le_registered : result string unit; le_browse : result string unit;
  le_sock : SocketOs; le_unregistered : result string unit; le_ephemeral : bool }.

(** ** The clipboard of the node *)

(** [Arc<dyn ClipboardBackend>]: the native backend, of type [NB], or the in-memory one. *)
Inductive DynBackend (NB : Type) := Native (b : NB) | InMemory (b : MemoryClipboardBackend).
Arguments Native {_}.
Arguments InMemory {_}.

Section DynBackend.
Context `{ClipboardBackend NB}.

(** A method of the trait, called through the object. *)
Definition dyn_call {E A} (native : st NB E A) (memory : st MemoryClipboardBackend E A) : st (DynBackend NB) E A := λ b,
  match b with
  | Native n => let '(r, n') := native n in (r, Native n')
  | InMemory m => let '(r, m') := memory m in (r, InMemory m')
  end.
#[export] Instance dyn_backend : ClipboardBackend (DynBackend NB) := {
  get_content := dyn_call get_content get_content;
  set_content c := dyn_call (set_content c) (set_content c);
  clear_content := dyn_call clear_content clear_content;
  backend_notices b := match b with Native n => backend_notices n | InMemory m => backend_notices m end }.

#[export] Instance dyn_backend_laws `{!ClipboardBackendLaws NB} : ClipboardBackendLaws (DynBackend NB).
Proof.
  split; cbn [get_content set_content clear_content backend_notices dyn_backend]; unfold dyn_call.
  - intros c [n|m] b' E; [destruct (set_content c n) as [r n'] eqn:Es|destruct (set_content c m) as [r n'] eqn:Es];
      cbv iota beta in E; simplify_eq; apply set_get in Es; by destruct (get_content n').
  - intros c [n|m] r b' E; [destruct (set_content c n) as [r' n'] eqn:Es|destruct (set_content c m) as [r' n'] eqn:Es];
      cbv iota beta in E; simplify_eq; exact (set_notices _ _ _ _ Es).
  - intros [n|m] b' E; [destruct (clear_content n) as [r n'] eqn:Es|destruct (clear_content m) as [r n'] eqn:Es];
      cbv iota beta in E; simplify_eq; apply clear_get in Es; by destruct (get_content n').
Qed.

(** [native]: what [WindowsClipboardBackend::new] answers; [None] on other systems. *)
Definition choose_backend (memory_clipboard : bool) (native : option (result ClipboardError NB)) :
    DynBackend NB * string :=
  if memory_clipboard then (InMemory MemoryClipboardBackend_new, "In-Memory")
  else match native with
       | Some (Ok b) => (Native b, "Native OS (Windows Win32 Event-Driven)")
       | Some (Err _) => (InMemory MemoryClipboardBackend_new, "In-Memory (Windows Init Fallback)")
       | None => (InMemory MemoryClipboardBackend_new, "In-Memory (Non-Windows Platform Fallback)")
       end.
End DynBackend.

Section Runtime.
Context `{Ed25519, Sha256, Blake3, Hex, ServiceInfo}.
Context `{Postcard Frame, Postcard PairingMessage, Postcard TransferMessage, Postcard ClipboardMessage,
          Postcard BeaconMessage}.
Context `{Debug Frame, Debug PairingMessage, Debug TransferMessage, ClipboardBackend B}.

(** ** State *)

(** The clipboard broadcaster waits for an event, or for room for the frame it has
    read, or has ended. *)
Inductive CastState := CastReading | CastSending (f : DataFrame) | CastEnded.

Record RtConn := { rc_session : ActiveSession; rc_io : Io; rc_queue : list DataFrame }.

Record Runtime := {
  rt_identity : IdentityKey; rt_name : string; rt_receive_dir : string;
  rt_store : TrustStore; rt_fs : Fs; rt_clip : ClipboardSyncEngine B;
  rt_seen : nat;                       (* events of the engine the broadcaster has read *)
  rt_cast : CastState;
  rt_registry : gmap NodeId nat;       (* [active_sessions]: which connection's channel *)
  rt_conns : gmap nat RtConn; rt_next : nat;
  rt_discovery : UnifiedDiscovery }.

Definition set_shared (w : World B) (registry : gmap NodeId nat) (rt : Runtime) : Runtime := {|
  rt_identity := rt_identity rt; rt_name := rt_name rt; rt_receive_dir := rt_receive_dir rt;
  rt_store := w_store w; rt_fs := w_fs w; rt_clip := default (rt_clip rt) (w_clip w); rt_seen := rt_seen rt; rt_cast := rt_cast rt;
  rt_registry := registry; rt_conns := rt_conns rt; rt_next := rt_next rt; rt_discovery := rt_discovery rt |}.
Definition set_conns (conns : gmap nat RtConn) (next : nat) (rt : Runtime) : Runtime := {|
  rt_identity := rt_identity rt; rt_name := rt_name rt; rt_receive_dir := rt_receive_dir rt;
  rt_store := rt_store rt; rt_fs := rt_fs rt; rt_clip := rt_clip rt; rt_seen := rt_seen rt; rt_cast := rt_cast rt;
  rt_registry := rt_registry rt; rt_conns := conns; rt_next := next; rt_discovery := rt_discovery rt |}.
Definition set_engine (e : ClipboardSyncEngine B) (seen : nat) (cast : CastState) (rt : Runtime) : Runtime := {|
  rt_identity := rt_identity rt; rt_name := rt_name rt; rt_receive_dir := rt_receive_dir rt;
  rt_store := rt_store rt; rt_fs := rt_fs rt; rt_clip := e; rt_seen := seen; rt_cast := cast;
  rt_registry := rt_registry rt; rt_conns := rt_conns rt; rt_next := rt_next rt; rt_discovery := rt_discovery rt |}.
Definition set_discovery (d : UnifiedDiscovery) (rt : Runtime) : Runtime := {|
  rt_identity := rt_identity rt; rt_name := rt_name rt; rt_receive_dir := rt_receive_dir rt;
  rt_store := rt_store rt; rt_fs := rt_fs rt; rt_clip := rt_clip rt; rt_seen := rt_seen rt; rt_cast := rt_cast rt;
  rt_registry := rt_registry rt; rt_conns := rt_conns rt; rt_next := rt_next rt; rt_discovery := d |}.

(** What the connection with stream [io] works on. *)
Definition shared_world (io : Io) (rt : Runtime) : World B :=
  {| w_io := io; w_store := rt_store rt; w_clip := Some (rt_clip rt); w_fs := rt_fs rt |}.

(** ** Running *)

Inductive RtRound := RtFrame (env : RoundEnv) | RtOutbound (consumed : nat).
Inductive RtInput :=
| RtAccept (io : Io) (server_nonce : array 32) (now : u64)
| RtAcceptError
| RtConnRound (id : nat) (i : RtRound)
| RtCopied (content : ClipboardContent) (now_ms : Z)
| RtBroadcast
| RtDiscovery (i : UnifiedInput) (now : Z).

(** A new connection: the handshake, the registration of a trusted peer.  The first
    lines of [handle_connection]. *)
Definition rt_accept (io : Io) (server_nonce : array 32) (now : u64) (rt : Runtime) : Runtime :=
  match server_handshake (rt_identity rt) (rt_name rt) Windows (Some (rt_receive_dir rt)) server_nonce now
          (shared_world io rt) with
  | (Err _, w) => set_shared w (rt_registry rt) rt
  | (Ok session, w) =>
    let id := rt_next rt in
    let registry := if state_is_trusted (state session) then <[remote_node_id session := id]> (rt_registry rt)
                    else rt_registry rt in
    set_conns (<[id := {| rc_session := session; rc_io := w_io w; rc_queue := [] |}]> (rt_conns rt)) (S id)
      (set_shared w registry rt)
  end.

(** A round of connection [id], after which its channel holds [queue]: it goes on,
    or it leaves the loop and is unregistered, or an error ends it. *)
Definition rt_settle (id : nat) (queue : list DataFrame) (r : result NodeError bool) (n : Node B) (rt : Runtime) :
    Runtime :=
  match r with
  | Ok true =>
    set_conns (<[id := {| rc_session := nd_session n; rc_io := w_io (nd_world n); rc_queue := queue |}]> (rt_conns rt))
      (rt_next rt) (set_shared (nd_world n) (nd_registry n) rt)
  | Ok false =>
    set_conns (delete id (rt_conns rt)) (rt_next rt) (set_shared (nd_world n) (nd_registry (unregister n)) rt)
  | Err _ => set_conns (delete id (rt_conns rt)) (rt_next rt) (set_shared (nd_world n) (nd_registry n) rt)
  end.

Definition rt_round (id : nat) (i : RtRound) (rt : Runtime) : Runtime :=
  match rt_conns rt !! id with
  | None => rt
  | Some c =>
    let n := {| nd_session := rc_session c; nd_world := shared_world (rc_io c) rt; nd_registry := rt_registry rt |} in
    match i, rc_queue c with
    | RtFrame env, q =>
      let '(r, n) := node_round id (rt_receive_dir rt) (NFrame env) n in rt_settle id q r n rt
    | RtOutbound _, [] => rt
    | RtOutbound consumed, df :: q =>
      let '(r, n) := node_round id (rt_receive_dir rt) (NOutbound consumed df) n in rt_settle id q r n rt
    end
  end.

(** The clipboard broadcaster.  It reads the next event, ends if it has fallen more
    than the channel's capacity behind, and sends a frame it has read to every
    registered channel, for which it waits while one of them is full; a closed
    channel takes nothing. *)
Definition enqueue (f : DataFrame) (c : RtConn) : RtConn :=
  {| rc_session := rc_session c; rc_io := rc_io c; rc_queue := rc_queue c ++ [f] |}.
Definition registered (rt : Runtime) (id : nat) : bool :=
  bool_decide (id ∈ (map_to_list (rt_registry rt)).*2).
Definition has_room (c : RtConn) : bool := bool_decide (length (rc_queue c) < OUTBOUND_CAPACITY)%nat.

Definition rt_broadcast (rt : Runtime) : Runtime :=
  match rt_cast rt with
  | CastReading =>
    match recv_at DEFAULT_EVENT_CAPACITY (rt_seen rt) (en_events (rt_clip rt)) with
    | Lagged => set_engine (rt_clip rt) (rt_seen rt) CastEnded rt
    | Waiting => rt
    | Value (OutgoingBroadcastReady _ frame) => set_engine (rt_clip rt) (S (rt_seen rt)) (CastSending frame) rt
    | Value _ => set_engine (rt_clip rt) (S (rt_seen rt)) CastReading rt
    end
  | CastSending frame =>
    if decide (map_Forall (λ id c, registered rt id = true → has_room c = true) (rt_conns rt)) then
      set_conns (map_imap (λ id c, Some (if registered rt id then enqueue frame c else c)) (rt_conns rt))
        (rt_next rt) (set_engine (rt_clip rt) (rt_seen rt) CastReading rt)
    else rt
  | CastEnded => rt
  end.

Definition runtime_step (i : RtInput) (rt : Runtime) : Runtime :=
  match i with
  | RtAccept io sn now => rt_accept io sn now rt
  | RtAcceptError => rt
  | RtConnRound id i => rt_round id i rt
  | RtCopied content now_ms => set_engine (monitor [content] now_ms (rt_clip rt)).2 (rt_seen rt) (rt_cast rt) rt
  | RtBroadcast => rt_broadcast rt
  | RtDiscovery i now => set_discovery (unified_step i now (rt_discovery rt)) rt
  end.
Definition runtime_run (inputs : list RtInput) (rt : Runtime) : Runtime :=
  foldl (λ rt i, runtime_step i rt) rt inputs.

End Runtime.
Arguments Runtime {_} B.

(** ** The discovery event logger *)

(** The task of [run_node] that prints what discovery reports, a subscriber since the
    start.  [broadcast::channel(128)]. *)
Definition DISCOVERY_CHANNEL : nat := 128.
(** What is printed; an update goes to the debug log only. *)
Definition printed (ev : DiscoveryEvent) : bool :=
  match ev with PeerDiscovered _ | PeerLost _ | PeerExpired _ => true | PeerUpdated _ => false end.
Definition logger_body (ev : DiscoveryEvent) (s : Shared) : list DiscoveryEvent * Shared :=
  (if printed ev then [ev] else [], s).
Definition logger_task : nat → Task → Shared → list DiscoveryEvent * (Task * Shared) :=
  task_rounds DISCOVERY_CHANNEL sh_events logger_body.

Section Start.
Context `{Ed25519, Sha256, Blake3, Hex, ServiceInfo}.
Context `{Postcard Frame, Postcard PairingMessage, Postcard TransferMessage, Postcard ClipboardMessage,
          Postcard BeaconMessage}.
Context `{Debug Frame, Debug PairingMessage, Debug TransferMessage, ClipboardBackend NB}.

(** ** Starting *)

Record StartEnv := {
  sv_entropy : array 32; sv_native : option (result ClipboardError NB); sv_bind : result string unit;
  sv_local_addr : result string u16; sv_lan : LanEnv }.

Definition start_discovery_on (env : LanEnv) (node_id : NodeId) (config : NodeConfig) (actual_port : u16)
    (mode : UnifiedDiscoveryMode) : result NodeError UnifiedDiscovery :=
  discovery ← map_err (NDiscovery "Failed to initialize UnifiedDiscovery")
    (UnifiedDiscovery_new (le_daemon env) (unified_config mode (nc_broadcast_port config)));
  let '(r, discovery) := unified_advertise node_id (nc_name config) (nc_device_type config) actual_port
                           Capabilities_all None (le_registered env) discovery in
  _ ← map_err (NDiscovery "Failed to advertise node service") r;
  let '(r, discovery) := unified_start_discovery (le_browse env) (le_sock env) discovery in
  _ ← map_err (NDiscovery "Failed to start LAN peer discovery") r;
  Ok discovery.

Definition start_node (config : NodeConfig) (env : StartEnv) : st Host NodeError (Runtime (DynBackend NB)) :=
  _ ← on_files (NFile ("Failed to create receive directory: " +:+ nc_receive_dir config)) fs_create_dir_all;
  _ ← on_files (NFile ("Failed to create data directory: " +:+ nc_data_dir config)) fs_create_dir_all;
  identity ← on_files (NIdentity "Failed to initialize node identity")
               (load_or_generate (sv_entropy env) (key_path (nc_data_dir config)));
  let node_id := IdentityKey_node_id identity in
  _ ← open_store "Failed to open persistent trust store" (trust_path (nc_data_dir config));
  let clip := ClipboardSyncEngine_new node_id (choose_backend (nc_memory_clipboard config) (sv_native env)).1
                ClipboardPolicy_default in
  _ ← lift (map_err (NFile ("Failed to bind TCP listener on 0.0.0.0:" +:+ dec (nc_port config))) (sv_bind env));
  actual_port ← lift (map_err (NFile "") (sv_local_addr env));
  match discovery_mode (nc_enable_mdns config) (nc_enable_udp config) with
  | None => fail (NBail "At least one discovery mechanism (mDNS or UDP) must be enabled")
  | Some mode =>
    discovery ← lift (start_discovery_on (sv_lan env) node_id config actual_port mode);
    host ← get;
    mret {| rt_identity := identity; rt_name := nc_name config; rt_receive_dir := nc_receive_dir config;
            rt_store := default empty_db (h_dbs host !! trust_path (nc_data_dir config));
            rt_fs := h_fs host; rt_clip := clip; rt_seen := 0; rt_cast := CastReading; rt_registry := ∅; rt_conns := ∅; rt_next := 0;
            rt_discovery := discovery |}
  end.

(** [run_node], with the inputs that arrive before Ctrl+C. *)
Definition run_node (config : NodeConfig) (env : StartEnv) (inputs : list RtInput) : 
    st Host NodeError (Runtime (DynBackend NB)) :=
  rt ← start_node config env;
  let rt := runtime_run inputs rt in
  let rt := set_discovery (unified_shutdown (le_unregistered (sv_lan env)) (le_ephemeral (sv_lan env))
                             (rt_discovery rt)) rt in
  _ ← modify (λ h, set_db (trust_path (nc_data_dir config)) (rt_store rt) (set_host_fs (rt_fs rt) h));
  mret rt.
End Start.
Arguments StartEnv : clear implicits.

(** ** Lemmas *)

Section RuntimeLemmas.
Context `{Ed25519, Sha256, Blake3, Hex, ServiceInfo}.
Context `{Postcard Frame, Postcard PairingMessage, Postcard TransferMessage, Postcard ClipboardMessage,
          Postcard BeaconMessage}.
Context `{Debug Frame, Debug PairingMessage, Debug TransferMessage, ClipboardBackend B}.

(** A computation on the stream of a connection leaves the registry alone. *)
Lemma on_stream_registry {A} ctx (m : st Io BridgeError A) (n : Node B) :
  nd_registry (on_stream ctx m n).2 = nd_registry n.
Proof. unfold on_stream, st_map_err, zoom. by destruct (m _). Qed.

(** A round registers no connection but its own. *)
Lemma handle_node_frame_registry cid dir env f (n : Node B) k x :
  let n' := (handle_node_frame cid dir env f n).2 in
  nd_registry n' !! k = Some x → (x = cid ∧ k = remote_node_id (nd_session n')) ∨ nd_registry n !! k = Some x.
Proof.
  destruct f as [h|[y|y|y]|df]; simpl; try (by right).
  - unfold mbind, st_bind. pose proof (on_stream_registry "" (send_frame (Control (Pong y))) n) as Hr.
    destruct (on_stream "" (send_frame (Control (Pong y))) n) as [[[]|e] n1]; simpl in *; rewrite Hr; by right.
  - repeat case_decide.
    + unfold mbind, st_bind, try, on_session, st_map_err, zoom.
      destruct (execute_pairing _ _ _ _ _ _) as [[sas|e] [s' w']]; simpl; [|by right].
      intros [[<- <-]|[_ ?]]%lookup_insert_Some; [by left|by right].
    + unfold mbind, st_bind, gets. cbn. destruct (negb _); simpl; by right.
    + unfold mbind, st_bind, gets. cbn. destruct (state_is_trusted _); [|by right].
      unfold on_transfer, zoom. by destruct (handle_file_transfer _ _ _ _) as [[[]|e] nf]; right.
    + by right.
Qed.

Lemma node_round_registry cid dir i (n : Node B) k x :
  let n' := (node_round cid dir i n).2 in
  nd_registry n' !! k = Some x → (x = cid ∧ k = remote_node_id (nd_session n')) ∨ nd_registry n !! k = Some x.
Proof.
  destruct i as [env|c df]; unfold node_round.
  - unfold mbind, st_bind. pose proof (on_stream_registry "Failed to read frame" recv_frame n) as Hr.
    destruct (on_stream "Failed to read frame" recv_frame n) as [[[f|]|e] n1]; cbn [snd] in Hr; rewrite <-Hr;
      [exact (handle_node_frame_registry cid dir env f n1 k x)|by right|by right].
  - destruct (node_round_outbound cid dir c df n) as (n' & E & _ & _ & Hr). unfold node_round in E. rewrite E.
    simpl. rewrite Hr. by right.
Qed.

(** Connection [id] is untrusted, has no registered channel and nothing queued. *)
Definition silent (id : nat) (rt : Runtime B) : Prop :=
  (id < rt_next rt)%nat ∧ (∀ k, rt_registry rt !! k ≠ Some id)
  ∧ ∀ c, rt_conns rt !! id = Some c → state_is_trusted (state (rc_session c)) = false ∧ rc_queue c = [].

(** The user refuses whatever connection [id] asks. *)
Definition refused (id : nat) (i : RtInput) : Prop :=
  match i with
  | RtConnRound id' (RtFrame env) => id' = id → ∀ sas name, re_confirm env sas name = false
  | _ => True
  end.

Lemma rt_settle_silent id id' q r (n : Node B) rt :
  silent id rt → (∀ k, nd_registry n !! k ≠ Some id) →
  (id' = id → state_is_trusted (state (nd_session n)) = false ∧ q = []) →
  silent id (rt_settle id' q r n rt).
Proof.
  intros (Hn & Hr & Hc) Hreg Hid. destruct r as [[]|e]; simpl; (split_and!; [done| |]); cbn.
  - done.
  - intros c [[-> <-]|[? E]]%lookup_insert_Some; [by apply Hid|by apply Hc].
  - intros k [? E]%lookup_delete_Some. by apply (Hreg k).
  - intros c [? E]%lookup_delete_Some. by apply Hc.
  - done.
  - intros c [? E]%lookup_delete_Some. by apply Hc.
Qed.

Lemma rt_round_silent id id' i rt :
  silent id rt → refused id (RtConnRound id' i) → silent id (rt_round id' i rt).
Proof.
  intros Hs Hf. pose proof Hs as (Hn & Hr & Hc). unfold rt_round.
  destruct (rt_conns rt !! id') as [c|] eqn:Ec; [|done].
  set (n := {| nd_session := rc_session c; nd_world := shared_world (rc_io c) rt; nd_registry := rt_registry rt |}).
  assert (∀ j q, (id' = id → refuses j ∧ q = []) →
    silent id (let '(r, n') := node_round id' (rt_receive_dir rt) j n in rt_settle id' q r n' rt)) as Hround.
  { intros j q Hj. pose proof (node_round_registry id' (rt_receive_dir rt) j n) as Hreg.
    pose proof (node_round_isolated id' (rt_receive_dir rt) j n) as Hiso.
    destruct (node_round id' (rt_receive_dir rt) j n) as [r n']. simpl in *.
    destruct (decide (id' = id)) as [->|Hne].
    - destruct (Hj eq_refl) as [Hj1 Hj2]. destruct (Hc _ Ec) as [Ht _].
      destruct (Hiso Hj1 Ht) as (_ & _ & _ & Hsub & Hst). apply rt_settle_silent; [done| |done].
      intros k Hk. by apply (Hr k), (lookup_weaken _ _ _ _ Hk Hsub).
    - apply rt_settle_silent; [done| |done]. intros k Hk. destruct (Hreg k id Hk) as [[-> _]|Hk']; [done|by apply (Hr k)]. }
  destruct i as [env|consumed].
  - apply Hround. intros ->. split; [exact (Hf eq_refl)|]. by apply Hc.
  - destruct (rc_queue c) as [|df q] eqn:Eq; [done|]. apply Hround. intros ->.
    destruct (Hc _ Ec) as [_ Hq]. congruence.
Qed.

Lemma rt_broadcast_silent id rt : silent id rt → silent id (rt_broadcast rt).
Proof.
  intros Hs. pose proof Hs as (Hn & Hr & Hc). unfold rt_broadcast.
  destruct (rt_cast rt) as [|f|]; [by destruct (recv_at _ _ _) as [[]| |]| |done]. case_decide; [|done].
  split_and!; [done|done|]. cbn. intros c E. rewrite map_lookup_imap in E.
  destruct (rt_conns rt !! id) as [c0|] eqn:Ec; [|done]. simpl in E. injection E as <-.
  assert (registered rt id = false) as ->; [|by apply Hc].
  apply bool_decide_eq_false. intros ([k x] & -> & Hin%elem_of_map_to_list)%list_elem_of_fmap. by apply (Hr k).
Qed.

Lemma runtime_step_silent id i rt : silent id rt → refused id i → silent id (runtime_step i rt).
Proof.
  intros Hs Hf. destruct i as [io sn now| |id' i|content now| |i now]; cbn [runtime_step]; try done.
  - unfold rt_accept. destruct Hs as (Hn & Hr & Hc).
    destruct (server_handshake _ _ _ _ _ _ _) as [[session|e] w]; [|done]. split_and!; cbn; [lia| |].
    + intros k. destruct (state_is_trusted _); [|by apply Hr].
      intros [[_ E]|[_ E]]%lookup_insert_Some; [lia|by apply (Hr k)].
    + intros c [[E _]|[_ E]]%lookup_insert_Some; [lia|by apply Hc].
  - by apply rt_round_silent.
  - by apply rt_broadcast_silent.
Qed.

Lemma runtime_run_silent id inputs rt :
  silent id rt → Forall (refused id) inputs → silent id (runtime_run inputs rt).
Proof.
  intros Hs Hf. revert rt Hs. induction Hf as [|i inputs Hi Hf IH]; intros rt Hs; [done|].
  simpl. by apply IH, runtime_step_silent.
Qed.

(** *** Whose connection is whose *)

(** A ceremony changes the state of its session only. *)
Lemma execute_pairing_remote ini confirmer nonce t t' (sw : ActiveSession * World B) :
  remote_node_id (execute_pairing ini confirmer nonce t t' sw).2.1 = remote_node_id sw.1.
Proof.
  set (R := λ x y : ActiveSession * World B, remote_node_id y.1 = remote_node_id x.1).
  assert (Transitive R) by (intros ??? E1 E2; unfold R in *; congruence).
  assert (∀ A (m : st (World B) SessionError A) x, R x (on_world m x).2) as Hw.
  { intros A m x. unfold on_world, zoom. by destruct (m _). }
  assert (∀ session sas x, R x (conclude_pairing session sas x).2) as Hc.
  { intros session sas x. unfold conclude_pairing. apply st_bind_rel; [done|done|intros ? ? _].
    apply st_bind_rel; [done|apply Hw|intros ? ? _]. apply st_bind_rel; [done|apply Hw|].
    intros [] ? _; try done. apply st_bind_rel; [done|done|intros ? ? _].
    apply st_bind_rel; [done|apply Hw|intros ? ? _]. done. }
  assert (∀ x, R x (reject_pairing x).2) as Hj.
  { intros x. unfold reject_pairing. repeat (apply st_bind_rel; [done|first [apply Hw|done]|intros ? ? _]); done. }
  change (R sw (execute_pairing ini confirmer nonce t t' sw).2). unfold execute_pairing.
  apply st_bind_rel; [done|done|intros ? ? _]. apply st_bind_rel; [done|done|intros this ? _].
  destruct ini.
  - destruct (new_initiator _ _ _ _ _) as [session req].
    apply st_bind_rel; [done|apply Hw|intros ? ? _]. apply st_bind_rel; [done|apply Hw|intros [] ? _]; try done.
    destruct (initiator_receive_response _ _ _) as [r0 session']. apply st_bind_rel; [done|done|intros ? ? _].
    by destruct (negb _).
  - apply st_bind_rel; [done|apply Hw|intros [] ? _]; try done.
    apply st_bind_rel; [done|done|intros [[session resp] sas] ? _].
    apply st_bind_rel; [done|apply Hw|intros ? ? _]. by destruct (negb _).
Qed.

Lemma node_round_remote cid dir i (n : Node B) :
  remote_node_id (nd_session (node_round cid dir i n).2) = remote_node_id (nd_session n).
Proof.
  assert (∀ A ctx (m : st Io BridgeError A) (n : Node B), nd_session (on_stream ctx m n).2 = nd_session n) as Hs.
  { intros. unfold on_stream, st_map_err, zoom. by destruct (m _). }
  destruct i as [env|c df]; unfold node_round.
  - unfold mbind at 1, st_bind at 1. pose proof (Hs _ "Failed to read frame" recv_frame n) as Hr.
    destruct (on_stream "Failed to read frame" recv_frame n) as [[[f|]|e] n1]; simpl in *; [|congruence..].
    rewrite <-Hr. destruct f as [h|[y|y|y]|df]; simpl; try done.
    + unfold mbind, st_bind. specialize (Hs _ "" (send_frame (Control (Pong y))) n1).
      destruct (on_stream "" (send_frame (Control (Pong y))) n1) as [[[]|e] n2]; simpl in *; congruence.
    + repeat case_decide; try done.
      * unfold mbind, st_bind, try, on_session, st_map_err, zoom.
        pose proof (execute_pairing_remote false (re_confirm env) (re_nonce env) (re_now env) (re_now' env)
          (nd_session n1, nd_world n1)) as Hp.
        by destruct (execute_pairing _ _ _ _ _ _) as [[sas|e] [s' w']].
      * unfold mbind, st_bind, gets. cbn. by destruct (negb _).
      * unfold mbind, st_bind, gets. cbn. destruct (state_is_trusted _); [|done].
        unfold on_transfer, zoom. by destruct (handle_file_transfer _ _ _ _) as [[[]|e] nf].
  - unfold mbind, st_bind, gets. cbn. destruct (state_is_trusted _); [|done].
    unfold ignore, on_stream, st_map_err, zoom. cbn. by destruct (send_frame _ _).
Qed.

(** *** The invariant of a running node *)

Record runtime_inv (rt : Runtime B) : Prop := {
  ri_registry k id : rt_registry rt !! k = Some id →
    (id < rt_next rt)%nat ∧ ∀ c, rt_conns rt !! id = Some c → remote_node_id (rc_session c) = k;
  ri_conns id c : rt_conns rt !! id = Some c →
    (id < rt_next rt)%nat ∧ (length (rc_queue c) ≤ OUTBOUND_CAPACITY)%nat }.

Lemma rt_settle_inv id c q r (n : Node B) rt :
  runtime_inv rt → rt_conns rt !! id = Some c → (length q ≤ OUTBOUND_CAPACITY)%nat →
  remote_node_id (nd_session n) = remote_node_id (rc_session c) →
  (∀ k x, nd_registry n !! k = Some x → (x = id ∧ k = remote_node_id (rc_session c)) ∨ rt_registry rt !! k = Some x) →
  runtime_inv (rt_settle id q r n rt).
Proof.
  intros [Hr Hc] Ec Hq Hrem Hreg. destruct (Hc _ _ Ec) as [Hid _].
  assert (∀ k x, nd_registry n !! k = Some x → (x < rt_next rt)%nat
    ∧ ∀ c0, rt_conns rt !! x = Some c0 → remote_node_id (rc_session c0) = k) as Hreg'.
  { intros k x [[-> ->]|E]%Hreg; [|by apply Hr]. split; [done|]. intros c0 E0. by simplify_eq. }
  destruct r as [[]|e]; split; cbn.
  - intros k x E. destruct (Hreg' _ _ E) as [? Hx]. split; [done|].
    intros c0 [[<- <-]|[? E0]]%lookup_insert_Some; [|by apply Hx]. cbn. rewrite Hrem. by apply Hx.
  - intros id' c0 [[<- <-]|[? E0]]%lookup_insert_Some; [done|by apply Hc].
  - intros k x [? E]%lookup_delete_Some. destruct (Hreg' _ _ E) as [? Hx]. split; [done|].
    intros c0 [? E0]%lookup_delete_Some. by apply Hx.
  - intros id' c0 [? E0]%lookup_delete_Some. by apply Hc.
  - intros k x E. destruct (Hreg' _ _ E) as [? Hx]. split; [done|].
    intros c0 [? E0]%lookup_delete_Some. by apply Hx.
  - intros id' c0 [? E0]%lookup_delete_Some. by apply Hc.
Qed.

Lemma rt_round_inv id i rt : runtime_inv rt → runtime_inv (rt_round id i rt).
Proof.
  intros Hi. unfold rt_round. destruct (rt_conns rt !! id) as [c|] eqn:Ec; [|done].
  set (n := {| nd_session := rc_session c; nd_world := shared_world (rc_io c) rt; nd_registry := rt_registry rt |}).
  assert (∀ j q, (length q ≤ length (rc_queue c))%nat →
    runtime_inv (let '(r, n') := node_round id (rt_receive_dir rt) j n in rt_settle id q r n' rt)) as Hround.
  { intros j q Hq. pose proof (node_round_registry id (rt_receive_dir rt) j n) as Hreg.
    pose proof (node_round_remote id (rt_receive_dir rt) j n) as Hrem.
    destruct (node_round id (rt_receive_dir rt) j n) as [r n']. simpl in *.
    apply (rt_settle_inv _ c); [done|done| |done|].
    - destruct (ri_conns _ Hi _ _ Ec). lia.
    - intros k x Hk. rewrite <-Hrem. by apply Hreg. }
  destruct i as [env|consumed]; [by apply Hround|]. destruct (rc_queue c) as [|df q]; [done|].
  apply Hround. simpl. lia.
Qed.

Lemma rt_broadcast_inv rt : runtime_inv rt → runtime_inv (rt_broadcast rt).
Proof.
  intros [Hr Hc]. unfold rt_broadcast.
  destruct (rt_cast rt) as [|f|]; [by destruct (recv_at _ _ _) as [[]| |]; split| |by split].
  case_decide as Hroom; [|by split]. split; cbn.
  - intros k id E. destruct (Hr _ _ E) as [? Hk]. split; [done|]. intros c Ec. rewrite map_lookup_imap in Ec.
    destruct (rt_conns rt !! id) as [c0|] eqn:E0; [|done]. simpl in Ec. injection Ec as <-.
    by destruct (registered rt id); apply (Hk c0).
  - intros id c Ec. rewrite map_lookup_imap in Ec.
    destruct (rt_conns rt !! id) as [c0|] eqn:E0; [|done]. simpl in Ec. injection Ec as <-.
    destruct (Hc _ _ E0) as [? Hq]. split; [done|]. destruct (registered rt id) eqn:Eg; [|done]. cbn.
    specialize (Hroom id c0 E0 Eg). apply bool_decide_eq_true in Hroom. rewrite length_app. simpl. lia.
Qed.

Lemma runtime_step_inv i rt : runtime_inv rt → runtime_inv (runtime_step i rt).
Proof.
  intros Hi. destruct i as [io sn now| |id i|content now| |i now]; cbn [runtime_step]; try done.
  - unfold rt_accept. destruct Hi as [Hr Hc].
    destruct (server_handshake _ _ _ _ _ _ _) as [[session|e] w]; [|by split].
    assert (rt_conns rt !! rt_next rt = None) as Hfresh.
    { destruct (rt_conns rt !! rt_next rt) as [c|] eqn:E; [|done]. apply Hc in E. lia. }
    assert (∀ k id, rt_registry rt !! k = Some id → (id < S (rt_next rt))%nat ∧ ∀ c,
      <[rt_next rt := {| rc_session := session; rc_io := w_io w; rc_queue := [] |}]> (rt_conns rt) !! id = Some c →
      remote_node_id (rc_session c) = k) as Hold.
    { intros k id E. destruct (Hr _ _ E) as [? Hk]. split; [lia|].
      intros c [[<- _]|[_ E0]]%lookup_insert_Some; [lia|by apply Hk]. }
    split; cbn.
    + intros k id. destruct (state_is_trusted _); [|by apply Hold].
      intros [[<- <-]|[_ E]]%lookup_insert_Some; [|by apply Hold]. split; [lia|].
      intros c E. rewrite lookup_insert_eq in E. by injection E as <-.
    + intros id c [[<- <-]|[_ E]]%lookup_insert_Some; [cbn; lia|]. apply Hc in E. lia.
  - by apply rt_round_inv.
  - by destruct Hi.
  - by apply rt_broadcast_inv.
  - by destruct Hi.
Qed.

Lemma runtime_run_inv inputs rt : runtime_inv rt → runtime_inv (runtime_run inputs rt).
Proof.
  revert rt. induction inputs as [|i inputs IH]; intros rt Hi; [done|]. simpl. by apply IH, runtime_step_inv.
Qed.

(** *** The trust store stays readable *)

(** Every row of the table is that of a peer. *)
Definition readable (t : gmap string Row) : Prop := ∃ m, represents t m.
Definition keeps_readable (t t' : gmap string Row) : Prop := readable t → readable t'.
#[local] Instance keeps_readable_preorder : PreOrder keeps_readable.
Proof. split; unfold keeps_readable; [by intros t ?|]. intros t1 t2 t3. auto. Qed.

(** The clock readings of an input are [u64]. *)
Definition clocked (i : RtInput) : Prop :=
  match i with
  | RtAccept _ _ now => in_width 64 now
  | RtConnRound _ (RtFrame env) => in_width 64 (re_now env) ∧ in_width 64 (re_now' env)
  | _ => True
  end.

Section Readable.
Context `{!Ed25519Laws, !HexLaws}.

Lemma seen_readable now n t :
  in_width 64 now → keeps_readable t (alter (row_set_last_seen (as_i64 now)) (NodeId_to_hex n) t).
Proof. intros Hn [m Hm]. exists (a_op (OSeen n now) m). exact (op_represents (OSeen n now) t m Hn Hm). Qed.

(** The peer a pairing session is with has the clock readings of this device. *)
Definition session_clocked (s : PairingSession) : Prop := ∀ p, ps_remote_peer s = Some p → peer_ok p.

Definition sw_readable (x y : ActiveSession * World B) : Prop := table_rel keeps_readable x.2 y.2.
#[local] Instance sw_readable_preorder : PreOrder sw_readable.
Proof. split; [intros x; unfold sw_readable, table_rel; reflexivity|]. intros x y z. unfold sw_readable, table_rel. by etrans. Qed.

Lemma on_world_readable {A} (m : st (World B) SessionError A) (x : ActiveSession * World B) :
  (∀ w, io_only w (m w).2) → sw_readable x (on_world m x).2.
Proof.
  intros Hm. destruct x as [s w]. unfold on_world, zoom, sw_readable, table_rel, keeps_readable. specialize (Hm w).
  cbn. destruct (m w) as [r w']. destruct Hm as [E _]. cbn in *. by rewrite E.
Qed.

Lemma conclude_readable session sas (x : ActiveSession * World B) :
  session_clocked session → sw_readable x (conclude_pairing session sas x).2.
Proof.
  intros Hc. destruct x as [s w]. pose proof (conclude_cases session sas s w) as H'.
  destruct (conclude_pairing session sas (s, w)) as [r [s' w']]. destruct H' as (_ & _ & H'). unfold sw_readable, table_rel, keeps_readable. cbn.
  destruct H' as [(e & _ & _ & ->)|(conf & p & _ & _ & Hf & ->)]; [done|]. intros [m Hm].
  assert (peer_ok p) as Hp.
  { destruct (finalize_cases conf session) as [[e E]|(? & q & ? & _ & Hq & _ & _ & _ & _ & E)]; rewrite E in Hf;
      simplify_eq/=. exact (Hc q Hq). }
  exists (a_op (OSave p) m). exact (op_represents (OSave p) _ _ Hp Hm).
Qed.

Lemma answered_readable (yes : bool) session sas (x : ActiveSession * World B) :
  session_clocked session →
  sw_readable x ((if negb yes then reject_pairing else conclude_pairing session sas) x).2.
Proof.
  intros Hc. destruct yes; cbn; [by apply conclude_readable|]. destruct x as [s w].
  pose proof (reject_cases s w) as H'. destruct (reject_pairing (s, w)) as [r [s' w']].
  destruct H' as (_ & (E & _) & _). unfold sw_readable, table_rel, keeps_readable. cbn. by rewrite E.
Qed.

Lemma receive_response_clocked resp t s sas s' :
  in_width 64 t → initiator_receive_response resp t s = (Ok sas, s') → session_clocked s'.
Proof.
  intros Ht. unfold initiator_receive_response.
  destruct (PublicKey_from_bytes (rp_public_key resp)) as [pk|]; cbn; [|done].
  unfold mbind, st_bind, lift, get, modify, mret, st_ret. cbn. case_decide; [done|]. intros [= _ <-] p [= <-]. done.
Qed.
Lemma new_responder_clocked k name ty req nonce t s resp sas :
  in_width 64 t → new_responder k name ty req nonce t = Ok (s, resp, sas) → session_clocked s.
Proof.
  intros Ht. unfold new_responder. destruct (PublicKey_from_bytes (rq_public_key req)) as [pk|]; cbn; [|done].
  case_decide; [done|]. intros [= <- _ _] p [= <-]. done.
Qed.

(** Nothing was stored. *)
Local Ltac same_store := by unfold sw_readable, table_rel, keeps_readable.

Lemma execute_pairing_readable ini confirmer nonce t t' (x : ActiveSession * World B) :
  in_width 64 t → in_width 64 t' → sw_readable x (execute_pairing ini confirmer nonce t t' x).2.
Proof.
  intros Ht Ht'. unfold execute_pairing. apply st_bind_rel; [apply _|same_store|intros _ x1 _].
  apply st_bind_rel; [apply _|same_store|intros this x2 _]. destruct ini.
  - destruct (new_initiator _ _ _ _ _) as [session req].
    apply st_bind_rel; [apply _|apply on_world_readable, send_pairing_only|intros _ x3 _].
    apply st_bind_rel; [apply _|apply on_world_readable, recv_pairing_only|intros [] x4 _]; try same_store.
    destruct (initiator_receive_response _ t' session) as [res session'] eqn:Er.
    apply st_bind_rel; [apply _|same_store|intros sas x5 E]. unfold lift in E. destruct res as [sas'|]; [|same_store].
    apply answered_readable. exact (receive_response_clocked _ _ _ _ _ Ht' Er).
  - apply st_bind_rel; [apply _|apply on_world_readable, recv_pairing_only|intros [] x4 _]; try same_store.
    apply st_bind_rel; [apply _|same_store|intros [[session resp] sas] x5 E]. unfold lift in E.
    destruct (new_responder _ _ _ _ _ _) as [[[s0 r0] sas0]|] eqn:Er; simplify_eq/=.
    apply st_bind_rel; [apply _|apply on_world_readable, send_pairing_only|intros _ x6 _].
    apply answered_readable. exact (new_responder_clocked _ _ _ _ _ _ _ _ _ Ht Er).
Qed.

Lemma rt_settle_store id q r (n : Node B) rt : rt_store (rt_settle id q r n rt) = w_store (nd_world n).
Proof. by destruct r as [[]|]. Qed.

Lemma rt_round_readable id i rt :
  clocked (RtConnRound id i) → readable (peers_table (rt_store rt)) →
  readable (peers_table (rt_store (rt_round id i rt))).
Proof.
  intros Hi Hr. unfold rt_round. destruct (rt_conns rt !! id) as [c|]; [|done].
  set (n := {| nd_session := rc_session c; nd_world := shared_world (rc_io c) rt; nd_registry := rt_registry rt |}).
  assert (∀ j q, ceremony_rel (B := B) keeps_readable j → readable (peers_table (rt_store
    (let '(r, n') := node_round id (rt_receive_dir rt) j n in rt_settle id q r n' rt)))) as Hround.
  { intros j q Hj. pose proof (node_round_rel keeps_readable id (rt_receive_dir rt) j n Hj Hr) as Hn.
    destruct (node_round id (rt_receive_dir rt) j n) as [r n']. by rewrite rt_settle_store. }
  destruct i as [env|consumed]; [|by destruct (rc_queue c); [|apply Hround]]. apply Hround. intros s w. destruct Hi.
  by apply (execute_pairing_readable false (re_confirm env) (re_nonce env) (re_now env) (re_now' env) (s, w)).
Qed.

Lemma runtime_run_readable inputs rt :
  Forall clocked inputs → readable (peers_table (rt_store rt)) →
  readable (peers_table (rt_store (runtime_run inputs rt))).
Proof.
  intros Hf. revert rt. induction Hf as [|i inputs Hi Hf IH]; intros rt Hr; [done|]. apply IH.
  destruct i as [io sn now| |id i|content now| |i now]; cbn [runtime_step]; try done.
  - unfold rt_accept. pose proof (server_handshake_rel keeps_readable now (λ n t, seen_readable now n t Hi)
      (rt_identity rt) (rt_name rt) Windows (Some (rt_receive_dir rt)) sn (shared_world io rt) Hr) as Hk.
    by destruct (server_handshake _ _ _ _ _ _ _) as [[session|e] w].
  - by apply rt_round_readable.
  - unfold rt_broadcast. destruct (rt_cast rt) as [|f|]; [by destruct (recv_at _ _ _) as [[]| |]| |done].
    by case_decide.
Qed.
End Readable.

(** What waits in the channel of connection [id]. *)
Definition queue_of (id : nat) (rt : Runtime B) : list DataFrame := default [] (rc_queue <$> rt_conns rt !! id).
(** No connection gets anything: each has at most what it had waiting. *)
Definition drained (rt rt' : Runtime B) : Prop := ∀ id, queue_of id rt' `suffix_of` queue_of id rt.
#[local] Instance drained_preorder : PreOrder drained.
Proof. split; [by intros rt id|]. intros r1 r2 r3 R1 R2 id. etrans; [apply R2|apply R1]. Qed.

Lemma drained_same (rt rt' : Runtime B) : rt_conns rt' = rt_conns rt → drained rt rt'.
Proof. intros E id. unfold queue_of. by rewrite E. Qed.
Lemma drained_insert id c rt next rt0 :
  rt_conns rt0 = rt_conns rt → rc_queue c `suffix_of` queue_of id rt → drained rt (set_conns (<[id := c]> (rt_conns rt)) next rt0).
Proof.
  intros E Hs j. unfold queue_of in *. cbn. destruct (decide (j = id)) as [->|];
    [by rewrite lookup_insert_eq|by rewrite lookup_insert_ne].
Qed.
Lemma drained_delete id rt next rt0 : drained rt (set_conns (delete id (rt_conns rt)) next rt0).
Proof.
  intros j. unfold queue_of. cbn. destruct (decide (j = id)) as [->|];
    [rewrite lookup_delete_eq; apply suffix_nil|by rewrite lookup_delete_ne].
Qed.
Lemma rt_settle_drained id c q r n rt :
  rt_conns rt !! id = Some c → q `suffix_of` rc_queue c → drained rt (rt_settle id q r n rt).
Proof.
  intros Ec Hq. destruct r as [[]|e]; cbn; [|apply drained_delete..].
  apply drained_insert; [done|]. unfold queue_of. by rewrite Ec.
Qed.

(** A broadcaster that has ended gives nothing to anybody. *)
Lemma ended_step i rt : rt_cast rt = CastEnded → rt_cast (runtime_step i rt) = CastEnded ∧ drained rt (runtime_step i rt).
Proof.
  intros Hc. destruct i as [io sn now| |id i|content now_ms| |i now]; cbn;
    try (by split; [|apply drained_same]).
  - unfold rt_accept. destruct (server_handshake _ _ _ _ _ _ _) as [[s|e] w]; [|by split; [|apply drained_same]]. split; [done|].
    apply drained_insert; [done|]. apply suffix_nil.
  - unfold rt_round. destruct (rt_conns rt !! id) as [c|] eqn:Ec; [|done].
    destruct i as [env|consumed]; [|destruct (rc_queue c) as [|df q] eqn:Eq; [done|]].
    + destruct (node_round id (rt_receive_dir rt) (NFrame env) _) as [r n].
      split; [by destruct r as [[]|]|]. by eapply rt_settle_drained.
    + destruct (node_round id (rt_receive_dir rt) (NOutbound consumed df) _) as [r n].
      split; [by destruct r as [[]|]|]. eapply rt_settle_drained; [done|]. rewrite Eq. by exists [df].
  - unfold rt_broadcast. rewrite Hc. by split.
Qed.

Lemma ended_run inputs rt :
  rt_cast rt = CastEnded → rt_cast (runtime_run inputs rt) = CastEnded ∧ drained rt (runtime_run inputs rt).
Proof.
  revert rt. induction inputs as [|i inputs IH]; intros rt Hc; [done|]. unfold runtime_run in *. cbn [foldl].
  destruct (ended_step i rt Hc) as [Hc1 Hd1]. destruct (IH _ Hc1) as [Hc2 Hd2]. split; [done|]. by etrans.
Qed.
End RuntimeLemmas.

Section StartLemmas.
Context `{Ed25519, Sha256, Blake3, Hex, ServiceInfo}.
Context `{Postcard Frame, Postcard PairingMessage, Postcard TransferMessage, Postcard ClipboardMessage,
          Postcard BeaconMessage}.
Context `{Debug Frame, Debug PairingMessage, Debug TransferMessage, ClipboardBackend B}.

(** A node that has just started has no connections. *)
Lemma start_node_fresh config (env : StartEnv B) h (rt : Runtime (DynBackend B)) h' :
  start_node config env h = (Ok rt, h') → rt_registry rt = ∅ ∧ rt_conns rt = ∅ ∧ rt_next rt = 0%nat.
Proof.
  unfold start_node. intros E.
  repeat match type of E with
    | mbind _ _ _ = _ => apply st_bind_Ok_inv in E as (? & ? & _ & E)
    | match ?o with _ => _ end _ = _ => destruct o; [|done] end.
  unfold mret, st_ret in E. by simplify_eq/=.
Qed.

Lemma start_node_inv config (env : StartEnv B) h (rt : Runtime (DynBackend B)) h' :
  start_node config env h = (Ok rt, h') → runtime_inv rt.
Proof.
  intros (Hr & Hc & _)%start_node_fresh. split; [rewrite Hr|rewrite Hc]; intros ? ?; by rewrite lookup_empty.
Qed.
End StartLemmas.

(** ** Properties *)

(** C1: a peer that the user has not accepted hears nothing from the others.  In
    any run of the node, once a connection's handshake has ended untrusted and as
    long as the user refuses its pairing requests, whatever the other connections,
    the clipboard and discovery do in whatever order: the connection stays
    untrusted, no channel of it is registered, and no clipboard frame is ever queued
    for it. *)
Theorem untrusted_hears_nothing `{Ed25519, Sha256, Blake3, Hex, ServiceInfo, Postcard Frame,
    Postcard PairingMessage, Postcard TransferMessage, Postcard ClipboardMessage, Postcard BeaconMessage,
    Debug Frame, Debug PairingMessage, Debug TransferMessage, ClipboardBackend B}
    (config : NodeConfig) (env : StartEnv B) (h h' : Host) (rt0 : Runtime (DynBackend B)) (before after : list RtInput)
    (io : Io) (sn : array 32) (now : u64) (c : RtConn) :
  start_node config env h = (Ok rt0, h') →
  let rt := runtime_run before rt0 in
  let id := rt_next rt in
  rt_conns (runtime_step (RtAccept io sn now) rt) !! id = Some c →
  state_is_trusted (state (rc_session c)) = false → Forall (refused id) after →
  silent id (runtime_run after (runtime_step (RtAccept io sn now) rt)).
Proof.
  intros Hstart rt id Ec Hu Hf. apply runtime_run_silent; [|done].
  assert (runtime_inv rt) as Hi by (by eapply runtime_run_inv, start_node_inv).
  assert (∀ k, rt_registry rt !! k ≠ Some id) as Hold by (intros k E%(ri_registry _ Hi); lia).
  assert (rt_conns rt !! id = None) as Hfresh.
  { destruct (rt_conns rt !! id) as [c0|] eqn:E; [|done]. apply (ri_conns _ Hi) in E. lia. }
  revert Ec. cbn [runtime_step]. unfold rt_accept.
  destruct (server_handshake _ _ _ _ _ _ _) as [[session|e] w]; cbn; [|by rewrite Hfresh].
  fold id. rewrite lookup_insert_eq. intros [= <-]. cbn in Hu. rewrite Hu.
  split_and!; cbn; [lia|done|]. fold id. intros c0 E. rewrite lookup_insert_eq in E. by injection E as <-.
Qed.

(** C17: the registry of a running node is sound.  After any inputs, every
    registered channel is that of a connection the node has accepted, and if the
    connection is still served it is one with that peer; no channel holds more than
    its capacity. *)
Theorem registry_sound `{Ed25519, Sha256, Blake3, Hex, ServiceInfo, Postcard Frame,
    Postcard PairingMessage, Postcard TransferMessage, Postcard ClipboardMessage, Postcard BeaconMessage,
    Debug Frame, Debug PairingMessage, Debug TransferMessage, ClipboardBackend B}
    (config : NodeConfig) (env : StartEnv B) (h h' : Host) (rt0 : Runtime (DynBackend B)) (inputs : list RtInput) :
  start_node config env h = (Ok rt0, h') → runtime_inv (runtime_run inputs rt0).
Proof. intros Hstart. by eapply runtime_run_inv, start_node_inv. Qed.

(** C18: the trust store stays readable.  When every row of the database reads as a
    peer, then after any run of the node, with any peers, frames,
    pairings and database faults, every row still reads as a peer: the columns that
    the node writes (identifiers and keys in hexadecimal, times as signed 64-bit
    integers, states by name) are ones it can read. *)
Theorem store_readable `{Ed25519, Sha256, Blake3, Hex, ServiceInfo, Postcard Frame,
    Postcard PairingMessage, Postcard TransferMessage, Postcard ClipboardMessage, Postcard BeaconMessage,
    Debug Frame, Debug PairingMessage, Debug TransferMessage, ClipboardBackend B, !Ed25519Laws, !HexLaws}
    (rt : Runtime B) (inputs : list RtInput) (m : gmap NodeId TrustedPeer) :
  represents (peers_table (rt_store rt)) m → Forall clocked inputs →
  let table := peers_table (rt_store (runtime_run inputs rt)) in
  (∃ m', represents table m') ∧ ∀ k r, table !! k = Some r → ∃ p, row_to_peer r = Ok p ∧ k = NodeId_to_hex (tp_node_id p).
Proof.
  intros Hm Hf table. destruct (runtime_run_readable inputs rt Hf) as [m' Hm']; [by exists m|].
  split; [by exists m'|]. intros k r Hk. destruct Hm' as [R1 R2]. destruct (R2 k r Hk) as (n & p & -> & Hp).
  destruct (R1 n p Hp) as (<- & r' & Er & Hr & _). unfold table in Hk. assert (r' = r) as -> by congruence. by exists p.
Qed.

(** Closing an old connection silences the new one.  When a peer has
    reconnected, the end of its earlier connection removes the registration of the
    later one, which is still served but gets no clipboard changes any more. *)
Theorem old_connection_unregisters `{Ed25519, Sha256, Blake3, Hex, ServiceInfo, Postcard Frame,
    Postcard PairingMessage, Postcard TransferMessage, Postcard ClipboardMessage, Postcard BeaconMessage,
    Debug Frame, Debug PairingMessage, Debug TransferMessage, ClipboardBackend B}
    (rt : Runtime B) (old new : nat) (co cn : RtConn) (env : RoundEnv) :
  let peer := remote_node_id (rc_session co) in
  old ≠ new → rt_conns rt !! old = Some co → rt_conns rt !! new = Some cn → rt_registry rt !! peer = Some new →
  rx (rc_io co) = [] → rx_end (rc_io co) = None →
  let rt' := runtime_step (RtConnRound old (RtFrame env)) rt in
  rt_conns rt' !! new = Some cn ∧ rt_registry rt' !! peer = None.
Proof.
  intros peer Hne Eo En Hreg Hrx Hend. cbn [runtime_step]. unfold rt_round. rewrite Eo.
  assert (recv_frame (rc_io co) = (Ok None, with_rx [] (rc_io co))) as Hrecv.
  { unfold recv_frame, mbind, st_bind, try, read_exact. by rewrite Hrx, Hend. }
  unfold node_round, mbind, st_bind, on_stream, st_map_err, zoom. cbn. rewrite Hrecv. cbn. split.
  - by rewrite lookup_delete_ne.
  - apply lookup_delete_eq.
Qed.

(** The events of a local copy that is accepted. *)
Lemma monitor_accepts `{ClipboardBackend B, Blake3, Hex, Postcard ClipboardMessage} c now f
    (e : ClipboardSyncEngine B) :
  policy_validate (en_policy e) c false = Ok tt → should_suppress (en_guard e) (content_compute_hash c) = false →
  let entry := ClipboardEntry_new (en_local_node_id e) (en_sequence e) c false now in
  clipboard_to_data_frame (Sync entry) = Ok f →
  en_events (monitor [c] now e).2
  = en_events e ++ [LocalCopied (content_compute_hash c) (content_format c) (byte_len c);
                    OutgoingBroadcastReady (Sync entry) f].
Proof.
  intros Hp Hs entry Ef. cbn [monitor]. unfold handle_local_change. rewrite Hp, Hs. cbn. fold entry. rewrite Ef.
  cbn. by rewrite <-app_assoc.
Qed.

Lemma registered_lookup `{Ed25519, ClipboardBackend B} (rt : Runtime B) k id :
  rt_registry rt !! k = Some id → registered rt id = true.
Proof.
  intros E. apply bool_decide_eq_true, list_elem_of_fmap. exists (k, id). split; [done|].
  by apply elem_of_map_to_list.
Qed.

(** A copy reaches every registered trusted peer.  When the clipboard engine
    admits a local change and the broadcaster has caught up, three rounds of the
    broadcaster and one outbound round of a registered, trusted connection write
    exactly the frame that announces the change to that connection's stream, and
    nothing else changes there. *)
Theorem copy_reaches_peer `{Ed25519, Sha256, Blake3, Hex, ServiceInfo, Postcard Frame,
    Postcard PairingMessage, Postcard TransferMessage, Postcard ClipboardMessage, Postcard BeaconMessage,
    Debug Frame, Debug PairingMessage, Debug TransferMessage, ClipboardBackend B}
    (rt : Runtime B) (k : NodeId) (id : nat) (cn : RtConn) (c : ClipboardContent) (now : Z) (f : DataFrame)
    (bs : list byte) :
  rt_registry rt !! k = Some id → rt_conns rt !! id = Some cn → state_is_trusted (state (rc_session cn)) = true →
  rc_queue cn = [] → rt_cast rt = CastReading → rt_seen rt = length (en_events (rt_clip rt)) →
  map_Forall (λ id c, registered rt id = true → has_room c = true) (rt_conns rt) →
  policy_validate (en_policy (rt_clip rt)) c false = Ok tt →
  should_suppress (en_guard (rt_clip rt)) (content_compute_hash c) = false →
  clipboard_to_data_frame (Sync (ClipboardEntry_new (en_local_node_id (rt_clip rt)) (en_sequence (rt_clip rt))
                                   c false now)) = Ok f →
  encode_frame (Data f) = Ok bs → tx_room (rc_io cn) = None → flush_err (rc_io cn) = None →
  let rt' := runtime_run [RtCopied c now; RtBroadcast; RtBroadcast; RtBroadcast; RtConnRound id (RtOutbound 0)] rt in
  rt_conns rt' !! id = Some {| rc_session := rc_session cn;
                               rc_io := with_tx (tx (rc_io cn) ++ bs) None (rc_io cn); rc_queue := [] |}.
Proof.
  intros Hreg Ec Ht Hq Hcast Hseen Hroom Hp Hs Ef Eb Htr Hfl.
  pose proof (monitor_accepts c now f (rt_clip rt) Hp Hs Ef) as Hev. set (e' := (monitor [c] now (rt_clip rt)).2) in *.
  unfold runtime_run. cbn [foldl runtime_step]. fold e'.
  rewrite Hcast. set (rt1 := set_engine e' (rt_seen rt) CastReading rt).
  assert (rt_broadcast rt1 = set_engine e' (S (rt_seen rt)) CastReading rt1) as ->.
  { unfold rt_broadcast. cbn. rewrite Hev, Hseen. unfold recv_at. by rewrite drop_app_length. }
  set (rt2 := set_engine e' (S (rt_seen rt)) CastReading rt1).
  assert (rt_broadcast rt2 = set_engine e' (S (S (rt_seen rt))) (CastSending f) rt2) as ->.
  { unfold rt_broadcast. cbn. rewrite Hev, Hseen. unfold recv_at. by rewrite <-(Nat.add_1_r (length _)), drop_app_add. }
  set (rt3 := set_engine e' (S (S (rt_seen rt))) (CastSending f) rt2).
  assert (rt_broadcast rt3 = set_conns (map_imap (λ id c, Some (if registered rt id then enqueue f c else c))
    (rt_conns rt)) (rt_next rt) (set_engine e' (S (S (rt_seen rt))) CastReading rt3)) as ->.
  { unfold rt_broadcast. cbn. by rewrite decide_True. }
  unfold rt_round. cbn. rewrite map_lookup_imap, Ec. cbn. rewrite (registered_lookup rt k id Hreg). cbn. rewrite Hq. cbn.
  unfold node_round. unfold mbind, st_bind, modify, gets. cbn. rewrite Ht. unfold ignore, on_stream, st_map_err, zoom.
  cbn. rewrite recv_dropped_0, (send_frame_ok _ _ _ Eb Htr Hfl). cbn. by rewrite lookup_insert_eq.
Qed.

(** Falling behind ends the broadcaster for good.  When the clipboard engine has
    published more events than the channel holds since the broadcaster last read,
    its next round ends it; from then on, whatever happens on the node, no clipboard
    change is queued for any connection, old or new. *)
Theorem broadcaster_lag_ends `{Ed25519, Sha256, Blake3, Hex, ServiceInfo, Postcard Frame,
    Postcard PairingMessage, Postcard TransferMessage, Postcard ClipboardMessage, Postcard BeaconMessage,
    Debug Frame, Debug PairingMessage, Debug TransferMessage, ClipboardBackend B} (rt : Runtime B)
    (inputs : list RtInput) :
  rt_cast rt = CastReading → (DEFAULT_EVENT_CAPACITY < length (drop (rt_seen rt) (en_events (rt_clip rt))))%nat →
  rt_cast (runtime_run (RtBroadcast :: inputs) rt) = CastEnded
  ∧ ∀ id, queue_of id (runtime_run (RtBroadcast :: inputs) rt) `suffix_of` queue_of id rt.
Proof.
  intros Hc Hl. unfold runtime_run. cbn [foldl runtime_step].
  assert (rt_broadcast rt = set_engine (rt_clip rt) (rt_seen rt) CastEnded rt) as ->.
  { unfold rt_broadcast. by rewrite Hc, recv_at_lagged. }
  exact (ended_run inputs (set_engine (rt_clip rt) (rt_seen rt) CastEnded rt) eq_refl).
Qed.

(** The logger prints what happens, until it falls behind.  While no more events wait
    than the channel holds, as many rounds as there are events print the events that
    are not updates, all of them and in order; a round that finds more ends the task,
    and nothing that discovery reports afterwards is printed. *)
Theorem logger_prints (s s' : Shared) (seen n : nat) :
  let backlog := drop seen (sh_events s) in
  ((length backlog ≤ DISCOVERY_CHANNEL)%nat →
   logger_task (length backlog) (Reading seen) s
   = (filter (λ ev, printed ev = true) backlog, (Reading (seen + length backlog), s)))
  ∧ ((DISCOVERY_CHANNEL < length backlog)%nat →
     logger_task (1 + n) (Reading seen) s = ([], (Ended, s)) ∧ logger_task n Ended s' = ([], (Ended, s'))).
Proof.
  intros backlog. unfold logger_task. split.
  - intros Hl. pose proof (task_catches_up DISCOVERY_CHANNEL sh_events logger_body seen s) as Ht. fold backlog in Ht.
    rewrite Ht by done.
    assert (each logger_body backlog s = (filter (λ ev, printed ev = true) backlog, s)) as ->; [|done].
    clear Hl Ht. induction backlog as [|ev l IH]; [done|]. cbn. rewrite IH. by destruct (printed ev).
  - intros Hl. by rewrite task_lags, task_ended.
Qed.

(** ** Witnesses *)

Section Witnesses.
Import Toy FrameWire PairingWire TransferWire ClipboardWire BeaconWire.

#[local] Instance rt_debug_frame : Debug Frame := λ _, "Frame".
#[local] Instance rt_debug_pairing : Debug PairingMessage := λ _, "PairingMessage".
#[local] Instance rt_debug_transfer : Debug TransferMessage := λ _, "TransferMessage".
#[local] Instance rt_service_info : ServiceInfo := λ ty inst _ _ _ _, Ok (inst +:+ "." +:+ ty).

Definition demo_config : NodeConfig := {|
  nc_name := "Laptop"; nc_port := 9801; nc_device_type := Windows; nc_receive_dir := "in"; nc_data_dir := "data";
  nc_broadcast_port := 42424; nc_enable_mdns := true; nc_enable_udp := true; nc_memory_clipboard := true |}.
Definition demo_lan : LanEnv := {|
  le_daemon := Ok tt; le_registered := Ok tt; le_browse := Ok tt; le_sock := sockets_ok; le_unregistered := Ok tt;
  le_ephemeral := true |}.
Definition demo_env : StartEnv MemoryClipboardBackend := {|
  sv_entropy := arr_rep 32 x0a; sv_native := None; sv_bind := Ok tt; sv_local_addr := Ok 9801; sv_lan := demo_lan |}.
Definition demo_host : Host := {| h_fs := {| files := ∅; fs_fault := None |}; h_dbs := ∅ |}.

Lemma demo_start : ∃ rt h', start_node demo_config demo_env demo_host = (Ok rt, h')
  ∧ rt_identity rt = key_a ∧ rt_name rt = "Laptop" ∧ rt_receive_dir rt = "in" ∧ rt_store rt = empty_store.
Proof.
  unfold start_node. eexists _, _. split.
  - erewrite st_bind_ok by reflexivity. erewrite st_bind_ok by reflexivity. erewrite st_bind_ok by reflexivity.
    cbv zeta. erewrite st_bind_ok by (vm_compute; reflexivity). erewrite st_bind_ok by reflexivity.
    erewrite st_bind_ok by reflexivity. cbv iota beta.
    cbn [discovery_mode demo_config nc_enable_mdns nc_enable_udp].
    erewrite st_bind_ok by reflexivity. erewrite st_bind_ok by reflexivity. reflexivity.
  - split_and!; reflexivity.
Qed.

Example registry_sound_witness : ∃ rt, runtime_inv (runtime_run [RtAcceptError; RtBroadcast] (B := DynBackend MemoryClipboardBackend) rt).
Proof.
  destruct demo_start as (rt & h' & E & _). exists rt.
  exact (registry_sound demo_config demo_env demo_host h' rt [RtAcceptError; RtBroadcast] E).
Defined.

Example store_readable_witness : ∃ (rt : Runtime (DynBackend MemoryClipboardBackend)) m',
  represents (peers_table (rt_store (runtime_run [RtAccept (conn [] []) nonce_s 7; RtBroadcast] rt))) m'.
Proof.
  destruct demo_start as (rt & h' & E & _ & _ & _ & Hs). exists rt.
  apply (store_readable rt [RtAccept (conn [] []) nonce_s 7; RtBroadcast] ∅).
  - rewrite Hs. exact empty_represents.
  - constructor; [vm_compute; split; congruence|]. constructor; [exact I|constructor].
Defined.

Definition phone_io : Io := conn (bytes_of demo_f1 ++ bytes_of demo_f3) [].

(** A phone connects and is authenticated. *)
Lemma demo_accept rt :
  rt_identity rt = key_a → rt_name rt = "Laptop" → rt_receive_dir rt = "in" → rt_store rt = empty_store →
  ∃ c, rt_conns (runtime_step (B := DynBackend MemoryClipboardBackend) (RtAccept phone_io nonce_s 100) rt) !! rt_next rt = Some c
    ∧ state_is_trusted (state (rc_session c)) = false.
Proof.
  intros Hk Hn Hd Hs. destruct demo_encoded as (E1 & E2 & E3 & E4).
  destruct (server_handshake_run key_a "Laptop" Windows (Some "in") nonce_s 100 (shared_world phone_io rt) key_b "Phone"
    nonce_c false _ _ _ _ ltac:(repeat split; vm_compute; congruence) I E1 E2 E3 E4 eq_refl
    ltac:(cbn [shared_world w_store]; rewrite Hs; vm_compute; reflexivity)) as (s & w' & E & _ & _ & _ & Hst).
  cbn [runtime_step]. unfold rt_accept. rewrite Hk, Hn, Hd, E. cbn.
  eexists. split; [apply lookup_insert_eq|]. cbn. by rewrite Hst.
Qed.

(** What happens to the demonstration node after the phone has connected. *)
Definition demo_after (id : nat) : list RtInput :=
  [RtConnRound id (RtFrame refuse_env); RtCopied hello 1; RtBroadcast; RtBroadcast].

Lemma demo_after_refused id : Forall (refused id) (demo_after id).
Proof. repeat constructor. Qed.

Lemma demo_running : ∃ rt h' c, start_node demo_config demo_env demo_host = (Ok rt, h')
  ∧ rt_conns (runtime_step (B := DynBackend MemoryClipboardBackend) (RtAccept phone_io nonce_s 100) (runtime_run [] rt))
      !! rt_next (runtime_run [] rt) = Some c
  ∧ state_is_trusted (state (rc_session c)) = false.
Proof.
  destruct demo_start as (rt & h' & E & Hk & Hn & Hd & Hs). destruct (demo_accept rt Hk Hn Hd Hs) as (c & Ec & Hu).
  by exists rt, h', c.
Qed.

Example untrusted_hears_nothing_witness :
  ∃ rt h' c, start_node demo_config demo_env demo_host = (Ok rt, h')
    ∧ rt_conns (runtime_step (B := DynBackend MemoryClipboardBackend) (RtAccept phone_io nonce_s 100) (runtime_run [] rt))
        !! rt_next (runtime_run [] rt) = Some c
    ∧ silent (rt_next (runtime_run [] rt)) (runtime_run (demo_after (rt_next (runtime_run [] rt)))
         (runtime_step (RtAccept phone_io nonce_s 100) (runtime_run [] rt))).
Proof.
  destruct demo_running as (rt & h' & c & E & Ec & Hu). exists rt, h', c. split; [exact E|]. split; [exact Ec|].
  exact (untrusted_hears_nothing demo_config demo_env demo_host h' rt []
    (demo_after (rt_next (runtime_run [] rt))) phone_io nonce_s 100 c E Ec Hu (demo_after_refused _)).
Defined.

Definition demo_session (st : SessionState) : ActiveSession := with_session_state st demo_a.
Definition demo_conn (st : SessionState) : RtConn :=
  {| rc_session := demo_session st; rc_io := conn [] []; rc_queue := [] |}.
(** A node with two connections to one peer, of which the later is registered. *)
Definition demo_rt (d : UnifiedDiscovery) : Runtime MemoryClipboardBackend := {|
  rt_identity := key_a; rt_name := "Laptop"; rt_receive_dir := "in"; rt_store := empty_store;
  rt_fs := {| files := ∅; fs_fault := None |}; rt_clip := engine_a; rt_seen := 0; rt_cast := CastReading;
  rt_registry := {[remote_node_id demo_a := 1%nat]};
  rt_conns := {[0%nat := demo_conn STrusted; 1%nat := demo_conn STrusted]}; rt_next := 2; rt_discovery := d |}.
Definition no_discovery : UnifiedDiscovery := {|
  un_config := UnifiedDiscoveryConfig_default; un_shared := Shared_new; un_mdns := None; un_udp := None;
  un_is_running := false |}.

Example old_connection_unregisters_witness :
  rt_registry (runtime_step (RtConnRound 0 (RtFrame refuse_env)) (demo_rt no_discovery)) !! remote_node_id demo_a = None.
Proof.
  apply (old_connection_unregisters (demo_rt no_discovery) 0 1 (demo_conn STrusted) (demo_conn STrusted) refuse_env);
    [lia|reflexivity|reflexivity|apply lookup_singleton_eq|reflexivity|reflexivity].
Defined.

Definition hello_frame : DataFrame :=
  match clipboard_to_data_frame (Sync (ClipboardEntry_new node_a 1 hello false 1000)) with
  | Ok f => f | Err _ => DataFrame_new 0 [] end.

Example copy_reaches_peer_witness :
  ∃ cn, rt_conns (runtime_run [RtCopied hello 1000; RtBroadcast; RtBroadcast; RtBroadcast; RtConnRound 1 (RtOutbound 0)]
      (demo_rt no_discovery)) !! 1%nat = Some cn ∧ tx (rc_io cn) = bytes_of (Data hello_frame).
Proof.
  eexists. split.
  - apply (copy_reaches_peer (demo_rt no_discovery) (remote_node_id demo_a) 1 (demo_conn STrusted) hello 1000 hello_frame
      (bytes_of (Data hello_frame)));
      [apply lookup_singleton_eq|reflexivity..| |reflexivity|reflexivity|vm_compute; reflexivity|vm_compute; reflexivity
      |reflexivity|reflexivity].
    intros id c E _. cbn [demo_rt rt_conns] in E. apply lookup_insert_Some in E as [[_ <-]|[_ E]]; [reflexivity|].
    apply lookup_singleton_Some in E as [_ <-]. reflexivity.
  - reflexivity.
Defined.
End Witnesses.
