(* ===== verification/Cli.v ===== *)
(** * Cli: [tools/bridge-cli/src/{lib,client}.rs]

    The commands of [bridge-cli] and their dispatch.  A command runs on a machine
    ([Host]: files and databases) with at most one TCP connection; what the user
    types, the randomness, the clock, the outcome of [connect] and what the network
    answers are in [CliEnv].  The value of a command is the data it prints.  Parsing
    the command line is the [clap] library's. *)
From S2P Require Import Prelude Channel Text External Codec Core Protocol Transport Fs Keys Trust Pairing TransferMsg Transfer Clipboard Session Discovery Node Runtime.

(** ** Commands *)

Inductive TrustAction := TrustList | TrustRevoke (node_id : string).

Inductive Commands :=
| CNode (name : string) (port : u16) (device_type receive_dir data_dir : string) (broadcast_port : u16)
    (no_mdns no_udp memory_clipboard : bool)
| CDiscover (duration : u64) (broadcast_port : u16)
| CPeers (duration : u64) (broadcast_port : u16) (data_dir : string)
| CPing (peer : string) (count : nat) (name : string)
| CSendFile (peer file name data_dir : string)
| CPair (peer name data_dir : string)
| CTrust (action : TrustAction) (data_dir : string)
| CIdentity (generate : bool).

(** [{:?}] of a trust state. *)
Definition TrustState_debug (s : TrustState) : string :=
  match s with Trusted => "Trusted" | Pending => "Pending" | Revoked => "Revoked" end.

Section Cli.
Context `{Ed25519, Sha256, Blake3, Hex, ServiceInfo, Lowercase}.
Context `{Postcard Frame, Postcard PairingMessage, Postcard TransferMessage, Postcard ClipboardMessage,
          Postcard BeaconMessage}.
Context `{Debug Frame, Debug PairingMessage, Debug TransferMessage, ClipboardBackend B}.

(** The machine, and the stream that [connect] opens. *)
Notation Term := (Host * Io)%type.

Record CliEnv := {
  ce_entropy : array 32;               (* for a key that must be generated *)
  ce_entropy' : array 32;              (* for the key of a sender without one *)
  ce_nonce : array 32;                 (* of the client's hello *)
  ce_pair_nonce : array 32;
  ce_ping : nat → u64;                 (* the nonces of the probes *)
  ce_now : u64; ce_now' : u64; ce_now'' : u64;
  ce_input : option string;            (* the line the user types *)
  ce_connect : result string unit;
  ce_rd : nat → nat;                   (* how much each read of a file delivers *)
  ce_lan : LanEnv;
  ce_heard : list (UnifiedInput * Z);  (* what discovery meets during the scan *)
  ce_start : StartEnv B; ce_inputs : list RtInput }.

Definition on_host {A} (m : st Host NodeError A) : st Term NodeError A := zoom fst (λ h t, (h, t.2)) m.
Definition on_conn {A} (m : st Net NodeError A) : st Term NodeError A :=
  zoom (λ t, (t.2, h_fs t.1)) (λ n t, (set_host_fs n.2 t.1, n.1)) m.

(** What a session of a command works on: it has no clipboard. *)
Definition cli_world (path : string) (t : Term) : World B := {|
  w_io := t.2; w_store := default empty_db (h_dbs t.1 !! path); w_clip := None; w_fs := h_fs t.1 |}.
Definition set_cli_world (path : string) (w : World B) (t : Term) : Term :=
  (set_db path (w_store w) (set_host_fs (w_fs w) t.1), w_io w).

(** ** [lib.rs] *)

(** The scan of [run_discover] and [run_peers]: what the directory holds when the
    time is over; then discovery is shut down, which does not fail. *)
Definition scan (env : CliEnv) (broadcast_port : u16) : result NodeError (list DiscoveredPeer) :=
  discovery ← map_err (NDiscovery "")
    (UnifiedDiscovery_new (le_daemon (ce_lan env)) (unified_config Both broadcast_port));
  let '(r, discovery) := unified_start_discovery (le_browse (ce_lan env)) (le_sock (ce_lan env)) discovery in
  _ ← map_err (NDiscovery "") r;
  Ok (dir_list (sh_directory (un_shared (unified_run (ce_heard env) discovery)))).

Definition run_discover (env : CliEnv) (broadcast_port : u16) : st Term NodeError (list DiscoveredPeer) :=
  lift (scan env broadcast_port).

Definition run_identity (env : CliEnv) (generate : bool) : st Term NodeError IdentityKey :=
  let key := if generate then IdentityKey_generate (ce_entropy env) else IdentityKey_generate (ce_entropy env) in
  mret key.

(** ** [client.rs] *)

Definition run_pair (env : CliEnv) (peer_addr device_name data_dir : string) :
    st Term NodeError (ActiveSession * SasVerification) :=
  _ ← on_host (on_files (NFile "") fs_create_dir_all);
  key ← on_host (on_files (NIdentity "") (load_or_generate (ce_entropy env) (key_path data_dir)));
  _ ← on_host (open_store "" (trust_path data_dir));
  _ ← lift (map_err (NFile ("Failed to connect to " +:+ peer_addr)) (ce_connect env));
  session ← st_map_err (NSession "Cryptographic authentication handshake failed")
    (zoom (cli_world (trust_path data_dir)) (set_cli_world (trust_path data_dir))
       (client_handshake key device_name None (ce_nonce env) (ce_now env)));
  λ t,
    let '(r, (session, w)) :=
      execute_pairing true (InteractiveCliConfirm (ce_input env)) (ce_pair_nonce env) (ce_now' env) (ce_now'' env)
        (session, cli_world (trust_path data_dir) t) in
    (sas ← map_err (NSession "Pairing ceremony failed or was rejected") r; Ok (session, sas),
     set_cli_world (trust_path data_dir) w t).

(** [None]: there is no database. *)
Definition run_trust_list (data_dir : string) : st Term NodeError (option (list TrustedPeer)) :=
  present ← gets (λ t : Term, db_exists (trust_path data_dir) t.1);
  if negb present then mret None
  else
    _ ← on_host (open_store "" (trust_path data_dir));
    peers ← on_host (on_db "" (trust_path data_dir) list_peers);
    mret (Some peers).

Definition run_trust_revoke (data_dir node_id_hex : string) : st Term NodeError NodeId :=
  _ ← on_host (open_store "" (trust_path data_dir));
  node_id ← lift (map_err (NFile ("Invalid hexadecimal NodeId '" +:+ node_id_hex +:+ "'")) (NodeId_from_hex node_id_hex));
  _ ← on_host (on_db "" (trust_path data_dir) (revoke_peer node_id));
  mret node_id.

(** The label of a discovered peer. *)
Definition trust_status (trust_store : option string) (node_id : NodeId) : st Term NodeError string :=
  match trust_store with
  | Some path =>
    r ← try (on_host (on_db "" path (get_peer node_id)));
    match r with
    | Ok (Some p) => mret ("[" +:+ TrustState_debug (tp_trust_state p) +:+ "]")
    | Ok None => mret "[UNTRUSTED / UNPAIRED]"
    | Err _ => mret "[UNKNOWN]"
    end
  | None => mret "[UNTRUSTED / NO TRUST DB]"
  end.

Fixpoint label_peers (trust_store : option string) (peers : list DiscoveredPeer) :
    st Term NodeError (list (DiscoveredPeer * string)) :=
  match peers with
  | [] => mret []
  | peer :: rest =>
    label ← trust_status trust_store (dp_node_id peer);
    labelled ← label_peers trust_store rest;
    mret ((peer, label) :: labelled)
  end.

Definition run_peers (env : CliEnv) (broadcast_port : u16) (data_dir : string) :
    st Term NodeError (list (DiscoveredPeer * string)) :=
  present ← gets (λ t : Term, db_exists (trust_path data_dir) t.1);
  trust_store ← (if present : bool then _ ← on_host (open_store "" (trust_path data_dir)); mret (Some (trust_path data_dir))
                 else mret None);
  peers ← lift (scan env broadcast_port);
  label_peers trust_store peers.

(** ** [execute_cli] *)

(** [DeviceType::from_str] never fails, so its [unwrap_or] is idle. *)
Definition node_config (name : string) (port : u16) (device_type receive_dir data_dir : string) (broadcast_port : u16)
    (no_mdns no_udp memory_clipboard : bool) : NodeConfig := {|
  nc_name := name; nc_port := port; nc_device_type := DeviceType_from_str device_type; nc_receive_dir := receive_dir;
  nc_data_dir := data_dir; nc_broadcast_port := broadcast_port; nc_enable_mdns := negb no_mdns;
  nc_enable_udp := negb no_udp; nc_memory_clipboard := memory_clipboard |}.

Inductive CliOutput :=
| OutNode (rt : Runtime (DynBackend B))
| OutPeers (peers : list DiscoveredPeer)
| OutLabelled (peers : list (DiscoveredPeer * string))
| OutPing (transmitted successful : nat)
| OutSent
| OutPaired (session : ActiveSession) (sas : SasVerification)
| OutTrusted (peers : option (list TrustedPeer))
| OutRevoked (node_id : NodeId)
| OutIdentity (key : IdentityKey).

Definition execute_cli (env : CliEnv) (command : Commands) : st Term NodeError CliOutput :=
  match command with
  | CNode name port device_type receive_dir data_dir broadcast_port no_mdns no_udp memory_clipboard =>
    rt ← on_host (run_node (node_config name port device_type receive_dir data_dir broadcast_port no_mdns no_udp
                              memory_clipboard) (ce_start env) (ce_inputs env));
    mret (OutNode rt)
  | CDiscover _ broadcast_port => peers ← run_discover env broadcast_port; mret (OutPeers peers)
  | CPeers _ broadcast_port data_dir => peers ← run_peers env broadcast_port data_dir; mret (OutLabelled peers)
  | CPing peer count name =>
    n ← on_conn (run_ping (ce_connect env) peer (IdentityKey_generate (ce_entropy env)) name (ce_nonce env)
                   (ce_ping env <$> seq 0 count));
    mret (OutPing count n)
  | CSendFile peer file name data_dir =>
    key ← try (on_host (on_files (NIdentity "") (load_or_generate (ce_entropy env) (key_path data_dir))));
    _ ← on_conn (run_send_file (ce_rd env) (ce_connect env) peer file name
                   (match key with Ok k => Some k | Err _ => None end)
                   (IdentityKey_generate (ce_entropy' env)) (ce_nonce env));
    mret OutSent
  | CPair peer name data_dir => '(session, sas) ← run_pair env peer name data_dir; mret (OutPaired session sas)
  | CTrust TrustList data_dir => peers ← run_trust_list data_dir; mret (OutTrusted peers)
  | CTrust (TrustRevoke node_id) data_dir => id ← run_trust_revoke data_dir node_id; mret (OutRevoked id)
  | CIdentity generate => key ← run_identity env generate; mret (OutIdentity key)
  end.
End Cli.
Arguments CliEnv : clear implicits.
Arguments CliOutput {_} B.

(** ** Lemmas *)

(** What a row says about whom to trust, and that two tables say the same. *)
Definition verdict (r : Row) : string * string := (r_public_key r, r_trust_state r).
Definition same_trust (t t' : gmap string Row) : Prop := verdict <$> t' = verdict <$> t.

#[global] Instance same_trust_preorder : PreOrder same_trust.
Proof. split; [by intros t|]. intros t1 t2 t3 E1 E2. unfold same_trust in *. congruence. Qed.

Lemma same_trust_seen x k (t : gmap string Row) : same_trust t (alter (row_set_last_seen x) k t).
Proof.
  unfold same_trust. apply map_eq. intros j. rewrite !lookup_fmap. destruct (decide (j = k)) as [->|];
    [rewrite lookup_alter_eq|by rewrite lookup_alter_ne]. by destruct (t !! k).
Qed.

(** The row of a revoked peer. *)
Definition revoked_row `{Ed25519, Hex} (n : NodeId) (t : gmap string Row) : Prop :=
  ∃ r, t !! NodeId_to_hex n = Some r ∧ r_trust_state r = "revoked".

Section CliLemmas.
Context `{Ed25519, Sha256, Blake3, Hex, ServiceInfo}.
Context `{Postcard Frame, Postcard PairingMessage, Postcard TransferMessage, Postcard ClipboardMessage,
          Postcard BeaconMessage}.
Context `{Debug Frame, Debug PairingMessage, Debug TransferMessage, ClipboardBackend B}.

Lemma revoked_row_same n (t t' : gmap string Row) : same_trust t t' → revoked_row n t → revoked_row n t'.
Proof.
  intros E (r & Er & Hr). apply (f_equal (lookup (NodeId_to_hex n))) in E. rewrite !lookup_fmap, Er in E.
  destruct (t' !! NodeId_to_hex n) as [r'|] eqn:Er'; simpl in E; [|done]. exists r'. split; [done|].
  unfold verdict in E. congruence.
Qed.

(** The trust store has no other answer for a revoked peer than an error. *)
Lemma revoked_not_trusted n k s b : revoked_row n (peers_table s) → (is_trusted n k s).1 ≠ Ok b.
Proof.
  intros (r & Er & Hr). unfold is_trusted, get_peer, mbind, st_bind, sql. destruct (head (sql_faults s)) as [[e|]|]; [done|..].
  all: cbn; rewrite Er; cbn; unfold lift, map_err; destruct (row_to_peer r) as [q|] eqn:Eq; cbn; [|done].
  all: apply row_to_peer_iff in Eq as (n' & k' & _ & ->); cbn; case_decide; [done|]; rewrite Hr; by vm_compute.
Qed.

(** A ceremony that the user refuses stores nobody. *)
Lemma pairing_refused ini confirmer nonce t t' s (w : World B) :
  (∀ sas name, confirmer sas name = false) →
  let '(r, (s', w')) := execute_pairing ini confirmer nonce t t' (s, w) in
  (∃ e, r = Err e) ∧ peers_table (w_store w') = peers_table (w_store w).
Proof.
  intros Hno. pose proof (execute_pairing_outcome ini confirmer nonce t t' s w) as Ho.
  destruct (execute_pairing ini confirmer nonce t t' (s, w)) as [[sas|e] [s' w']]; destruct Ho as ((_ & _ & Ho) & Hy).
  - specialize (Hy sas eq_refl). by rewrite Hno in Hy.
  - destruct Ho as [Ht _]. eauto.
Qed.

(** *** A revoked peer and a running node *)

Lemma refused_ceremony i : refuses i → ceremony_rel (B := B) same_trust i.
Proof.
  destruct i as [env|c df]; [|done]. intros Hf s w.
  pose proof (pairing_refused false (re_confirm env) (re_nonce env) (re_now env) (re_now' env) s w Hf) as Hp.
  destruct (execute_pairing _ _ _ _ _ _) as [r [s' w']]. destruct Hp as [_ Hp]. unfold table_rel. cbn. by rewrite Hp.
Qed.

(** [n] is revoked, and no connection of the node is with it. *)
Record shut_out (n : NodeId) (rt : Runtime B) : Prop := {
  so_row : revoked_row n (peers_table (rt_store rt));
  so_conns id c : rt_conns rt !! id = Some c → remote_node_id (rc_session c) ≠ n;
  so_registry : rt_registry rt !! n = None }.

Lemma rt_round_shut_out n id i rt :
  shut_out n rt → refused id (RtConnRound id i) → shut_out n (rt_round id i rt).
Proof.
  intros [Hr Hc Hg] Hf. unfold rt_round. destruct (rt_conns rt !! id) as [c|] eqn:Ec; [|by split].
  set (nd := {| nd_session := rc_session c; nd_world := shared_world (rc_io c) rt; nd_registry := rt_registry rt |}).
  assert (∀ j q, refuses j →
    shut_out n (let '(r, nd') := node_round id (rt_receive_dir rt) j nd in rt_settle id q r nd' rt)) as Hround.
  { intros j q Hj. pose proof (node_round_rel same_trust id (rt_receive_dir rt) j nd (refused_ceremony j Hj)) as Hk.
    pose proof (node_round_remote id (rt_receive_dir rt) j nd) as Hrem.
    pose proof (node_round_registry id (rt_receive_dir rt) j nd n) as Hreg.
    destruct (node_round id (rt_receive_dir rt) j nd) as [r nd']. cbn [snd] in *.
    assert (remote_node_id (nd_session nd') ≠ n) as Hne by (rewrite Hrem; by apply (Hc id)).
    assert (revoked_row n (peers_table (w_store (nd_world nd')))) as Hrow by exact (revoked_row_same _ _ _ Hk Hr).
    assert (nd_registry nd' !! n = None) as Hnone.
    { destruct (nd_registry nd' !! n) as [x|]; [|done]. destruct (Hreg x eq_refl) as [[_ E]|E]; [done|].
      cbn in E. by rewrite Hg in E. }
    destruct r as [[]|e]; split; cbn; try done.
    - intros id' c' [[_ <-]|[_ E]]%lookup_insert_Some; [done|by apply (Hc id')].
    - intros id' c' [_ E]%lookup_delete_Some. by apply (Hc id').
    - by rewrite lookup_delete_ne.
    - intros id' c' [_ E]%lookup_delete_Some. by apply (Hc id'). }
  destruct i as [env|consumed]; [apply Hround; exact (Hf eq_refl)|]. destruct (rc_queue c); [by split|]. by apply Hround.
Qed.

Lemma rt_accept_shut_out n io sn now rt : shut_out n rt → shut_out n (rt_accept io sn now rt).
Proof.
  intros [Hr Hc Hg]. unfold rt_accept.
  pose proof (server_handshake_rel same_trust now (λ n t, same_trust_seen _ _ t) (rt_identity rt) (rt_name rt) Windows
    (Some (rt_receive_dir rt)) sn (shared_world io rt)) as Hk.
  destruct (server_handshake _ _ _ _ _ _ _) as [[session|e] w] eqn:Es; cbn [snd] in Hk;
    pose proof (revoked_row_same _ _ _ Hk Hr) as Hrow; [|by split].
  apply server_handshake_inv in Es as (h & sig & io1 & io2 & io3 & io4 & _ & _ & _ & _ & _ & Hst).
  assert (remote_node_id session ≠ n) as Hne.
  { intros E. destruct (consult_trust_ok _ _ _ _ _ _ Hst) as [[_ Ht]|[_ Ht]];
      rewrite E in Ht; by apply (revoked_not_trusted n _ _ _ Hr) in Ht. }
  split; cbn; [done| |].
  - intros id c [[_ <-]|[_ E]]%lookup_insert_Some; [done|by apply (Hc id)].
  - destruct (state_is_trusted _); [|done]. by rewrite lookup_insert_ne.
Qed.

Lemma runtime_run_shut_out n inputs rt :
  shut_out n rt → Forall (λ i, ∀ id, refused id i) inputs → shut_out n (runtime_run inputs rt).
Proof.
  intros Hs Hf. revert rt Hs. induction Hf as [|i inputs Hi Hf IH]; intros rt Hs; [done|]. cbn. apply IH.
  destruct i as [io sn now| |id i|content now| |i now]; cbn [runtime_step]; [|done|..].
  - by apply rt_accept_shut_out.
  - apply rt_round_shut_out; [done|exact (Hi id)].
  - by destruct Hs.
  - unfold rt_broadcast. destruct Hs as [Hr Hc Hg].
    destruct (rt_cast rt) as [|f|]; [by destruct (recv_at _ _ _) as [[]| |]; split| |by split].
    case_decide; [|by split]. split; [done| |done]. intros id c E. cbn in E. rewrite map_lookup_imap in E.
    destruct (rt_conns rt !! id) as [c0|] eqn:E0; [|done]. simpl in E. injection E as <-.
    destruct (registered rt id); exact (Hc id c0 E0).
  - by destruct Hs.
Qed.

(** *** The database of a data directory *)

Definition db_table (path : string) (h : Host) : gmap string Row := peers_table (default empty_db (h_dbs h !! path)).
Definition same_tables (h h' : Host) : Prop := ∀ path, db_table path h' = db_table path h.
#[local] Instance same_tables_preorder : PreOrder same_tables.
Proof. split; [by intros h|]. intros h1 h2 h3 E1 E2 path. by rewrite E2, E1. Qed.

Lemma on_files_tables {E A} (f : E → NodeError) (m : st Fs E A) h : same_tables h (on_files f m h).2.
Proof. unfold on_files, st_map_err, zoom. by destruct (m _). Qed.

(** A call on one database leaves the others alone. *)
Lemma on_db_run {A} ctx path (m : st TrustStore IdentityError A) h r s :
  m (default empty_db (h_dbs h !! path)) = (r, s) → on_db ctx path m h = (map_err (NIdentity ctx) r, set_db path s h).
Proof. intros E. unfold on_db, st_map_err, zoom. by rewrite E. Qed.

Lemma on_db_tables {A} ctx path (m : st TrustStore IdentityError A) h :
  (∀ s, peers_table (m s).2 = peers_table s) → same_tables h (on_db ctx path m h).2.
Proof.
  intros Hm path'. destruct (m (default empty_db (h_dbs h !! path))) as [r s] eqn:E.
  rewrite (on_db_run _ _ _ _ _ _ E). unfold db_table. cbn. destruct (decide (path = path')) as [->|].
  - rewrite lookup_insert_eq. cbn. specialize (Hm (default empty_db (h_dbs h !! path'))). by rewrite E in Hm.
  - by rewrite lookup_insert_ne.
Qed.

Lemma sql_table {A} (f : TrustStore → A * TrustStore) s :
  (∀ s, peers_table (f s).2 = peers_table s) → peers_table (sql f s).2 = peers_table s.
Proof.
  intros Hf. unfold sql. destruct (head (sql_faults s)) as [[e|]|]; [done|..];
    match goal with |- context [f ?x] => specialize (Hf x); by destruct (f x) end.
Qed.

Lemma open_table s : peers_table (TrustStore_open s).2 = peers_table s.
Proof.
  set (R := λ s s' : TrustStore, peers_table s' = peers_table s).
  assert (Transitive R) by (intros ??? E1 E2; unfold R in *; congruence).
  change (R s (TrustStore_open s).2). unfold TrustStore_open, init_schema.
  apply st_bind_rel; [done|by apply sql_table|intros _ s1 _].
  apply st_bind_rel; [done|by apply sql_table|intros c s2 _]. case_decide; [by apply sql_table|done].
Qed.

Lemma open_store_tables ctx path h : same_tables h (open_store ctx path h).2.
Proof.
  unfold open_store. apply st_bind_rel; [apply _|apply on_files_tables|intros _ h1 _].
  apply on_db_tables, open_table.
Qed.

(** The trust store of a node that has started is the database of its directory. *)
Lemma start_node_table config (env : StartEnv B) h (rt : Runtime (DynBackend B)) h' :
  start_node config env h = (Ok rt, h') → peers_table (rt_store rt) = db_table (trust_path (nc_data_dir config)) h.
Proof.
  unfold start_node.
  intros ([] & h1 & E1 & ([] & h2 & E2 & (key & h3 & E3 & ([] & h4 & E4 & ([] & hb & Eb & (port & h5 & E5 & E)
    %st_bind_Ok_inv)%st_bind_Ok_inv)%st_bind_Ok_inv)%st_bind_Ok_inv)%st_bind_Ok_inv)%st_bind_Ok_inv.
  destruct (discovery_mode _ _); [|done]. apply st_bind_Ok_inv in E as (d & h6 & E6 & E).
  unfold lift in Eb, E5, E6. simplify_eq.
  assert (same_tables h h6) as Hs.
  { pose proof (on_files_tables (NFile ("Failed to create receive directory: " +:+ nc_receive_dir config))
      fs_create_dir_all h) as R1. rewrite E1 in R1.
    pose proof (on_files_tables (NFile ("Failed to create data directory: " +:+ nc_data_dir config))
      fs_create_dir_all h1) as R2. rewrite E2 in R2.
    pose proof (on_files_tables (NIdentity "Failed to initialize node identity")
      (load_or_generate (sv_entropy env) (key_path (nc_data_dir config))) h2) as R3. rewrite E3 in R3.
    pose proof (open_store_tables "Failed to open persistent trust store" (trust_path (nc_data_dir config)) h3) as R4.
    rewrite E4 in R4. cbn in *. by do 3 (etrans; [eassumption|]). }
  apply st_bind_Ok_inv in E as (h7 & h8 & E7 & E). unfold get in E7. unfold mret, st_ret in E. simplify_eq.
  cbn. by rewrite <-(Hs _).
Qed.

(** Revoking a peer that the database knows. *)
Lemma run_trust_revoke_table data_dir hex (t t' : Host * Io) n :
  run_trust_revoke data_dir hex t = (Ok n, t') →
  db_table (trust_path data_dir) t'.1
  = alter (row_set_state "revoked") (NodeId_to_hex n) (db_table (trust_path data_dir) t.1).
Proof.
  unfold run_trust_revoke. intros ([] & t1 & E1 & (id & t2 & E2 & ([] & t3 & E3 & E)%st_bind_Ok_inv)
    %st_bind_Ok_inv)%st_bind_Ok_inv.
  unfold lift in E2. unfold mret, st_ret in E. simplify_eq.
  assert (same_tables t.1 t2.1) as Hs.
  { unfold on_host, zoom in E1. pose proof (open_store_tables "" (trust_path data_dir) t.1) as R1.
    destruct (open_store "" (trust_path data_dir) t.1) as [r h1]. by simplify_eq/=. }
  rewrite <-(Hs _). unfold on_host, zoom, on_db, st_map_err, zoom, revoke_peer, set_trust_state, sql in E3.
  destruct (head _) as [[e|]|]; simplify_eq/=; unfold db_table; cbn; by rewrite lookup_insert_eq.
Qed.
(** *** Pairing from the command line *)

(** [t'] has the verdicts of [t] at [path], and the other databases of [t]. *)
Definition cli_kept (path : string) (t t' : Host * Io) : Prop :=
  same_trust (db_table path t.1) (db_table path t'.1) ∧ ∀ p, p ≠ path → h_dbs t'.1 !! p = h_dbs t.1 !! p.
#[local] Instance cli_kept_preorder path : PreOrder (cli_kept path).
Proof.
  split; [by intros t|]. intros t1 t2 t3 [E1 F1] [E2 F2]. split; [by etrans|].
  intros p Hp. by rewrite F2, F1.
Qed.

Lemma on_files_kept {E A} path (f : E → NodeError) (m : st Fs E A) t : cli_kept path t (on_host (on_files f m) t).2.
Proof. unfold on_host, on_files, st_map_err, zoom. by destruct (m _). Qed.

Lemma open_store_kept ctx path t : cli_kept path t (on_host (open_store ctx path) t).2.
Proof.
  unfold on_host, zoom. pose proof (open_store_tables ctx path t.1) as Hs.
  destruct (open_store ctx path t.1) as [r h] eqn:E. split; [by rewrite <-(Hs path)|].
  intros p Hp. cbn. revert E. unfold open_store, mbind, st_bind, on_files, on_db, st_map_err, zoom.
  destruct (fs_create_dir_all (h_fs t.1)) as [[]]; [|intros; by simplify_eq/=].
  cbn. destruct (TrustStore_open _) as [r' s']. intros. simplify_eq/=. by rewrite lookup_insert_ne.
Qed.

Lemma set_cli_world_table path (w : World B) t : db_table path (set_cli_world path w t).1 = peers_table (w_store w).
Proof. unfold db_table. cbn. by rewrite lookup_insert_eq. Qed.

Lemma set_cli_world_kept path (w : World B) t :
  same_trust (db_table path t.1) (peers_table (w_store w)) → cli_kept path t (set_cli_world path w t).
Proof. intros E. split; [by rewrite set_cli_world_table|]. intros p Hp. cbn. by rewrite lookup_insert_ne. Qed.

(** Connected, the command handshakes and pairs, and has not touched the verdicts before. *)
Lemma run_pair_split `{Lowercase} (env : CliEnv B) addr name dir t :
  let path := trust_path dir in
  let '(r, t') := run_pair env addr name dir t in
  (∃ e, r = Err e ∧ cli_kept path t t')
  ∨ ∃ session t1, cli_kept path t t1 ∧
    let '(r1, (session', w')) :=
      execute_pairing true (InteractiveCliConfirm (ce_input env)) (ce_pair_nonce env) (ce_now' env) (ce_now'' env)
        (session, cli_world (B := B) path t1) in
    r = (sas ← map_err (NSession "Pairing ceremony failed or was rejected") r1; Ok (session', sas))
    ∧ t' = set_cli_world path w' t1.
Proof.
  intros path. unfold run_pair.
  pose proof (on_files_kept path (NFile "") fs_create_dir_all t) as R.
  destruct (on_host (on_files (NFile "") fs_create_dir_all) t) as [[[]|e] t1] eqn:E;
    [rewrite (st_bind_ok _ _ _ _ _ E)|rewrite (st_bind_err _ _ _ _ _ E); left; eauto]. clear E. cbn [snd] in R.
  pose proof (on_files_kept path (NIdentity "") (load_or_generate (ce_entropy env) (key_path dir)) t1) as R1.
  destruct (on_host (on_files (NIdentity "") _) t1) as [[key|e] t2] eqn:E; cbn [snd] in R1;
    [rewrite (st_bind_ok _ _ _ _ _ E)|rewrite (st_bind_err _ _ _ _ _ E); left; eexists; split; [done|by etrans]].
  clear E. pose proof (open_store_kept "" path t2) as R2.
  destruct (on_host (open_store "" _) t2) as [[[]|e] t3] eqn:E; cbn [snd] in R2;
    [rewrite (st_bind_ok _ _ _ _ _ E)|rewrite (st_bind_err _ _ _ _ _ E); left; eexists; split; [done|by do 2 (etrans; [eassumption|])]].
  clear E. assert (cli_kept path t t3) as R3 by (by do 2 (etrans; [eassumption|])). clear R R1 R2.
  unfold mbind at 1, st_bind at 1, lift. destruct (map_err _ (ce_connect env)) as [[]|e]; [|left; eauto].
  unfold mbind at 1, st_bind at 1, st_map_err, zoom.
  pose proof (client_handshake_rel same_trust (ce_now env) (λ n t, same_trust_seen _ _ t) key name None (ce_nonce env)
    (cli_world (B := B) path t3)) as Hk.
  fold path. destruct (client_handshake _ _ _ _ _ (cli_world path t3)) as [[session|e] w]; cbn [snd] in Hk; cbn [map_err];
    pose proof (set_cli_world_kept path w t3 Hk) as R4.
  - destruct (execute_pairing _ _ _ _ (ce_now'' env) _) as [r1 [session' w']] eqn:Ep.
    right. exists session, (set_cli_world path w t3). split; [by etrans|]. by rewrite Ep.
  - left. eexists. split; [done|by etrans].
Qed.

(** *** The labels of discovered peers *)

(** The label that says what the trust database [m] holds of a peer. *)
Definition peer_label (o : option TrustedPeer) : string :=
  match o with
  | Some p => "[" +:+ TrustState_debug (tp_trust_state p) +:+ "]"
  | None => "[UNTRUSTED / UNPAIRED]"
  end.

Definition db_faults (path : string) (h : Host) : list (option string) := sql_faults (default empty_db (h_dbs h !! path)).

(** A label is right, or the database failed. *)
Definition label_ok (path : string) (m : gmap NodeId TrustedPeer) (t : Host * Io) (pl : DiscoveredPeer * string) : Prop :=
  pl.2 = peer_label (m !! dp_node_id pl.1) ∨ (pl.2 = "[UNKNOWN]" ∧ db_faults path t.1 ≠ []).

Lemma get_peer_keeps n s :
  peers_table (get_peer n s).2 = peers_table s ∧ sql_faults (get_peer n s).2 = tail (sql_faults s).
Proof.
  unfold get_peer, mbind, st_bind, sql. destruct (head (sql_faults s)) as [[e|]|]; [done|..];
    cbn; (destruct (peers_table s !! _) as [r|]; [|done]); cbn; unfold lift; by destruct (map_err _ _).
Qed.

Lemma trust_status_spec `{!Ed25519Laws, !HexLaws} path n m (t : Host * Io) :
  represents (db_table path t.1) m →
  ∃ label t', trust_status (Some path) n t = (Ok label, t') ∧ db_table path t'.1 = db_table path t.1
    ∧ db_faults path t'.1 = tail (db_faults path t.1) ∧ (∀ p, p ≠ path → h_dbs t'.1 !! p = h_dbs t.1 !! p)
    ∧ (label = peer_label (m !! n) ∨ (label = "[UNKNOWN]" ∧ db_faults path t.1 ≠ [])).
Proof.
  intros R. unfold db_table, db_faults in *. set (s := default empty_db (h_dbs t.1 !! path)) in *.
  destruct (get_peer_keeps n s) as [Ht Hf]. destruct (get_peer n s) as [r s'] eqn:E. cbn in Ht, Hf.
  assert (try (F := NodeError) (on_host (on_db "" path (get_peer n))) t
    = (Ok (map_err (NIdentity "") r), (set_db path s' t.1, t.2))) as Et.
  { unfold try, on_host, zoom at 1. by rewrite (on_db_run "" path (get_peer n) t.1 r s' E). }
  assert (∀ label, (label = peer_label (m !! n) ∨ (label = "[UNKNOWN]" ∧ sql_faults s ≠ [])) →
    ∃ label0 t', (Ok label, (set_db path s' t.1, t.2)) = (Ok (E := NodeError) label0, t')
    ∧ peers_table (default empty_db (h_dbs t'.1 !! path)) = peers_table s
    ∧ sql_faults (default empty_db (h_dbs t'.1 !! path)) = tail (sql_faults s)
    ∧ (∀ p, p ≠ path → h_dbs t'.1 !! p = h_dbs t.1 !! p)
    ∧ (label0 = peer_label (m !! n) ∨ (label0 = "[UNKNOWN]" ∧ sql_faults s ≠ []))) as Hdone.
  { intros label Hl. eexists _, _. split; [reflexivity|]. cbn. rewrite lookup_insert_eq. split_and!; try done.
    intros p Hp. by rewrite lookup_insert_ne. }
  unfold trust_status. rewrite (st_bind_ok _ _ _ _ _ Et).
  destruct (decide (no_fault s)) as [Hn|Hn].
  - pose proof (get_peer_spec n s m R Hn) as Es. rewrite E in Es. cbn in Es. subst r. cbn.
    destruct (m !! n) as [p|] eqn:Em; apply Hdone; by left.
  - assert (sql_faults s ≠ []) as Hne by (intros Hs; apply Hn; left; by rewrite Hs).
    unfold no_fault in Hn. unfold get_peer, mbind, st_bind, sql in E.
    destruct (head (sql_faults s)) as [[e|]|]; [|destruct Hn; eauto..]. simplify_eq/=. apply Hdone. by right.
Qed.

Lemma label_peers_spec `{!Ed25519Laws, !HexLaws} path m peers (t : Host * Io) :
  represents (db_table path t.1) m →
  ∃ out t', label_peers (Some path) peers t = (Ok out, t') ∧ out.*1 = peers ∧ Forall (label_ok path m t) out
    ∧ db_table path t'.1 = db_table path t.1 ∧ ∀ p, p ≠ path → h_dbs t'.1 !! p = h_dbs t.1 !! p.
Proof.
  revert t. induction peers as [|peer rest IH]; intros t R; cbn [label_peers].
  { eexists _, _. split; [reflexivity|]. done. }
  destruct (trust_status_spec path (dp_node_id peer) m t R) as (label & t1 & E1 & Ht & Hf & Ho & Hl).
  rewrite (st_bind_ok _ _ _ _ _ E1). destruct (IH t1) as (out & t2 & E2 & Ep & Hok & Ht2 & Ho2); [by rewrite Ht|].
  rewrite (st_bind_ok _ _ _ _ _ E2). eexists _, _. split; [reflexivity|]. cbn. rewrite Ep, Ht2. split_and!; try done.
  - constructor; [done|]. eapply Forall_impl; [exact Hok|]. intros pl [?|[? Hne]]; [by left|right].
    split; [done|]. intros Hs. apply Hne. by rewrite Hf, Hs.
  - intros p Hp. by rewrite Ho2, Ho.
Qed.

(** Opening a database that does not fail leaves it so. *)
Lemma open_store_faults ctx path h : db_faults path h = [] → db_faults path (open_store ctx path h).2 = [].
Proof.
  intros Hf. unfold open_store, mbind, st_bind.
  assert (db_faults path (on_files (λ e, NIdentity ctx (IoErr e)) fs_create_dir_all h).2 = []) as Hf1.
  { unfold on_files, st_map_err, zoom. by destruct (fs_create_dir_all _). }
  destruct (on_files _ _ h) as [[[]|e] h1]; [|done]. cbn [snd] in Hf1.
  unfold on_db, st_map_err, zoom, db_faults in *. destruct (default empty_db (h_dbs h1 !! path)) as [tb vs fs].
  cbn in Hf1. subst fs. unfold TrustStore_open, init_schema, mbind, st_bind, sql. cbn.
  case_decide; cbn; by rewrite lookup_insert_eq.
Qed.

Lemma label_peers_none peers (t : Host * Io) :
  label_peers None peers t = (Ok ((λ p, (p, "[UNTRUSTED / NO TRUST DB]")) <$> peers), t).
Proof.
  induction peers as [|peer rest IH]; [done|]. cbn [label_peers trust_status].
  erewrite st_bind_ok by reflexivity. by rewrite (st_bind_ok _ _ _ _ _ IH).
Qed.
End CliLemmas.

(** ** Properties *)

(** C5: revocation on the command line shuts the peer out of the node.  Once
    [bridge-cli trust revoke] has reported success for a peer that the database of
    the data directory knows, a node started on that directory never serves it:
    whatever the peer and the others send, in whatever order, as long as the user
    accepts no pairing, no connection is with that peer and it is never registered
    for clipboard changes. *)
Theorem revoked_shut_out `{Ed25519, Sha256, Blake3, Hex, ServiceInfo, Postcard Frame,
    Postcard PairingMessage, Postcard TransferMessage, Postcard ClipboardMessage, Postcard BeaconMessage,
    Debug Frame, Debug PairingMessage, Debug TransferMessage, ClipboardBackend B}
    (config : NodeConfig) (env : StartEnv B) (hex : string) (t t' : Host * Io) (n : NodeId) (h' : Host)
    (rt0 : Runtime (DynBackend B)) (inputs : list RtInput) :
  run_trust_revoke (nc_data_dir config) hex t = (Ok n, t') →
  is_Some (db_table (trust_path (nc_data_dir config)) t.1 !! NodeId_to_hex n) →
  start_node config env t'.1 = (Ok rt0, h') → Forall (λ i, ∀ id, refused id i) inputs →
  let rt := runtime_run inputs rt0 in
  rt_registry rt !! n = None ∧ ∀ id c, rt_conns rt !! id = Some c → remote_node_id (rc_session c) ≠ n.
Proof.
  intros Hrev [r Hr] Hstart Hf rt. assert (shut_out n rt) as [_ ? ?]; [|done].
  apply runtime_run_shut_out; [|done]. pose proof (start_node_fresh _ _ _ _ _ Hstart) as (Hreg & Hc & _). split.
  - rewrite (start_node_table _ _ _ _ _ Hstart), (run_trust_revoke_table _ _ _ _ _ Hrev).
    exists (row_set_state "revoked" r). by rewrite lookup_alter_eq, Hr.
  - intros id c. by rewrite Hc, lookup_empty.
  - by rewrite Hreg, lookup_empty.
Qed.

(** C19: pairing from the command line needs the user's yes.  Whatever the peer
    sends, [bridge-cli pair] changes the trust database of its data directory only
    when it reports success, and then the user has typed [y] or [yes], the session is
    trusted, and the change is one record, trusted, whose node identifier is that of
    its public key; otherwise every peer keeps its key and its trust state.  No other
    database changes. *)
Theorem run_pair_consent `{Ed25519, Sha256, Blake3, Hex, Lowercase, Postcard Frame,
    Postcard PairingMessage, Debug Frame, Debug PairingMessage, ServiceInfo,
    Postcard TransferMessage, Postcard ClipboardMessage, Postcard BeaconMessage, Debug TransferMessage,
    ClipboardBackend B} (env : CliEnv B) (addr name dir : string) (t : Host * Io) :
  let path := trust_path dir in
  let '(r, t') := run_pair env addr name dir t in
  (∀ p, p ≠ path → h_dbs t'.1 !! p = h_dbs t.1 !! p) ∧
  match r with
  | Ok (session, sas) =>
    (∃ line, ce_input env = Some line ∧ (to_lowercase (trim line) = "y" ∨ to_lowercase (trim line) = "yes"))
    ∧ state session = STrusted
    ∧ ∃ p tbl, same_trust (db_table path t.1) tbl ∧ PublicKey_node_id (tp_public_key p) = tp_node_id p
        ∧ tp_trust_state p = Trusted ∧ db_table path t'.1 = upsert (peer_params p) tbl
  | Err _ => same_trust (db_table path t.1) (db_table path t'.1)
  end.
Proof.
  intros path. pose proof (run_pair_split env addr name dir t) as Hs. cbv zeta in Hs. fold path in Hs.
  destruct (run_pair env addr name dir t) as [r t']. destruct Hs as [(e & -> & [? ?])|(session & t1 & [R Ro] & Hs)]; [done|].
  pose proof (execute_pairing_outcome true (InteractiveCliConfirm (ce_input env)) (ce_pair_nonce env) (ce_now' env)
    (ce_now'' env) session (cli_world (B := B) path t1)) as Ho.
  destruct (execute_pairing _ _ _ _ _ _) as [r1 [session' w']]. destruct Hs as [-> ->]. destruct Ho as ((_ & _ & Ho) & Hy).
  assert (∀ p, p ≠ path → h_dbs (set_cli_world path w' t1).1 !! p = h_dbs t.1 !! p) as Hother.
  { intros p Hp. cbn. rewrite lookup_insert_ne by done. by apply Ro. }
  destruct r1 as [sas|e]; (split; [exact Hother|]); rewrite set_cli_world_table.
  - destruct Ho as (Hst & s0 & p & rn & sig & _ & _ & Hk & Ht & _ & Htab). cbn. specialize (Hy sas eq_refl).
    unfold InteractiveCliConfirm in Hy. destruct (ce_input env) as [line|]; [|done]. apply bool_decide_eq_true in Hy.
    split; [eauto|]. split; [done|]. exists p, (db_table path t1.1). done.
  - destruct Ho as [Htab _]. cbn. by rewrite Htab.
Qed.

(** The labels of [bridge-cli peers] are those of the trust database.  The
    command lists the peers that the scan found, each with the state that the
    database of the data directory records for it (or with UNKNOWN when reading the
    database failed), so no peer is shown as trusted that is not; without a database
    every peer is shown as untrusted.  The command changes no record and creates no
    database. *)
Theorem run_peers_labels `{Ed25519, Sha256, Blake3, Hex, ServiceInfo, Postcard Frame,
    Postcard PairingMessage, Postcard TransferMessage, Postcard ClipboardMessage, Postcard BeaconMessage,
    Debug Frame, Debug PairingMessage, Debug TransferMessage, ClipboardBackend B, !Ed25519Laws, !HexLaws}
    (env : CliEnv B) (port : u16) (dir : string) (m : gmap NodeId TrustedPeer) (t t' : Host * Io)
    (out : list (DiscoveredPeer * string)) :
  let path := trust_path dir in
  run_peers env port dir t = (Ok out, t') → represents (db_table path t.1) m →
  scan env port = Ok out.*1 ∧ db_table path t'.1 = db_table path t.1
  ∧ if db_exists path t.1
    then Forall (label_ok path m t) out
    else Forall (λ pl, pl.2 = "[UNTRUSTED / NO TRUST DB]") out ∧ t' = t.
Proof.
  intros path E R. unfold run_peers in E. fold path in E. unfold mbind at 1, st_bind at 1, gets in E.
  destruct (db_exists path t.1).
  - apply st_bind_Ok_inv in E as (o & t1 & E1 & E). apply st_bind_Ok_inv in E1 as ([] & t2 & Eo & E1).
    unfold mret, st_ret in E1. simplify_eq. apply st_bind_Ok_inv in E as (peers & t2 & Es & E). unfold lift in Es.
    simplify_eq. assert (db_table path t2.1 = db_table path t.1) as Hs.
    { pose proof (open_store_tables "" path t.1) as Hs. unfold on_host, zoom in Eo.
      destruct (open_store "" path t.1). by simplify_eq/=. }
    destruct (label_peers_spec path m peers t2) as (out' & t3 & E3 & Ep & Hok & Ht & _); [by rewrite Hs|].
    rewrite E3 in E. simplify_eq. rewrite Ht. split_and!; try done. eapply Forall_impl; [exact Hok|].
    intros pl [?|[? Hne]]; [by left|right]. split; [done|]. intros Hf. apply Hne.
    pose proof (open_store_faults "" path t.1 Hf) as Hf'. unfold on_host, zoom in Eo.
    destruct (open_store "" path t.1). by simplify_eq/=.
  - apply st_bind_Ok_inv in E as (o & t1 & E1 & E). unfold mret, st_ret in E1. simplify_eq.
    apply st_bind_Ok_inv in E as (peers & t2 & Es & E). unfold lift in Es. simplify_eq.
    rewrite label_peers_none in E. simplify_eq. rewrite <-list_fmap_compose, list_fmap_id. split_and!; try done.
    by apply Forall_fmap, Forall_true.
Qed.

(** Revoking a stranger succeeds, and founds a database.  On a machine whose data
    directory has no trust database, [bridge-cli trust revoke] of any identifier
    reports success; afterwards there is a database, and it knows nobody. *)
Theorem revoke_unknown `{Ed25519, Sha256, Blake3, Hex, !HexLaws} (dir : string) (n : NodeId) (t : Host * Io) :
  h_dbs t.1 !! trust_path dir = None → fs_fault (h_fs t.1) = None →
  ∃ t', run_trust_revoke dir (NodeId_to_hex n) t = (Ok n, t')
    ∧ db_exists (trust_path dir) t'.1 = true ∧ db_table (trust_path dir) t'.1 = ∅.
Proof.
  intros Hdb Hf. destruct t as [[fs dbs] io]. cbn in Hdb, Hf.
  assert (∃ t1, on_host (open_store "" (trust_path dir)) ({| h_fs := fs; h_dbs := dbs |}, io) = (Ok tt, t1)
    ∧ h_dbs t1.1 !! trust_path dir = Some (TrustStore_open empty_db).2) as (t1 & E1 & Hd1).
  { eexists. split.
    - unfold on_host, zoom, open_store, mbind, st_bind, on_files, st_map_err, zoom, fs_create_dir_all, fs_change. cbn. rewrite Hf. cbn.
      unfold on_db, st_map_err, zoom. cbn. rewrite Hdb. reflexivity.
    - apply lookup_insert_eq. }
  unfold run_trust_revoke. rewrite (st_bind_ok _ _ _ _ _ E1), NodeId_hex_ok. erewrite st_bind_ok by reflexivity.
  eexists. split.
  - erewrite st_bind_ok; [reflexivity|]. unfold on_host, zoom, on_db, st_map_err, zoom. rewrite Hd1. reflexivity.
  - unfold db_exists, db_table. cbn. rewrite lookup_insert_eq. by split.
Qed.

(** [bridge-cli identity] never shows the node's identity: with and without
    [--generate] it prints a key made from fresh entropy and reads no file. *)
Theorem identity_always_fresh `{Ed25519, Sha256, Blake3, Hex, ServiceInfo, Lowercase, Postcard Frame,
    Postcard PairingMessage, Postcard TransferMessage, Postcard ClipboardMessage, Postcard BeaconMessage,
    Debug Frame, Debug PairingMessage, Debug TransferMessage, ClipboardBackend B} (env : CliEnv B) (generate : bool)
    (t : Host * Io) :
  execute_cli env (CIdentity generate) t = (Ok (OutIdentity (IdentityKey_generate (ce_entropy env))), t).
Proof. by destruct generate. Qed.

(** ** Witnesses *)

Section Witnesses.
Import Toy FrameWire PairingWire TransferWire ClipboardWire BeaconWire.

#[local] Instance cli_debug_frame : Debug Frame := λ _, "Frame".
#[local] Instance cli_debug_pairing : Debug PairingMessage := λ _, "PairingMessage".
#[local] Instance cli_debug_transfer : Debug TransferMessage := λ _, "TransferMessage".
#[local] Instance cli_service_info : ServiceInfo := λ ty inst _ _ _ _, Ok (inst +:+ "." +:+ ty).

(** A machine whose data directory knows the sample peer, and the peer's beacon. *)
Definition cli_host : Host :=
  {| h_fs := {| files := ∅; fs_fault := None |}; h_dbs := {[trust_path "data" := sample_store]} |}.
Definition cli_term : Host * Io := (cli_host, conn [] []).
Definition cli_beacon : BeaconMessage :=
  Announcement ProtocolVersion_CURRENT sample_node "Phone" Android 9000 Capabilities_all 2.
Definition cli_env : CliEnv MemoryClipboardBackend := {|
  ce_entropy := arr_rep 32 x0a; ce_entropy' := arr_rep 32 x0b; ce_nonce := nonce_c; ce_pair_nonce := nonce_s;
  ce_ping := Z.of_nat; ce_now := 1; ce_now' := 2; ce_now'' := 3; ce_input := Some "y"; ce_connect := Ok tt;
  ce_rd := id; ce_lan := demo_lan;
  ce_heard := [(InUdp (URecv (BEACON_MAGIC ++ [BEACON_VERSION] ++ enc c_beacon cli_beacon) disc_src), 5)];
  ce_start := demo_env; ce_inputs := [] |}.

Lemma cli_peers_run :
  match (run_peers cli_env 42424 "data" cli_term).1 with Ok out => out.*2 | Err _ => [] end = ["[Trusted]"].
Proof. vm_compute. reflexivity. Qed.

Example run_peers_labels_witness : ∃ out t',
  run_peers cli_env 42424 "data" cli_term = (Ok out, t') ∧ out.*2 = ["[Trusted]"]
  ∧ Forall (label_ok (trust_path "data") sample_map cli_term) out.
Proof.
  destruct (run_peers cli_env 42424 "data" cli_term) as [[out|e] t'] eqn:E.
  - exists out, t'. split; [reflexivity|]. split.
    + pose proof cli_peers_run as Hl. rewrite E in Hl. exact Hl.
    + exact (proj2 (proj2 (run_peers_labels cli_env 42424 "data" sample_map cli_term t' out E sample_represents))).
  - exfalso. pose proof cli_peers_run as Hl. rewrite E in Hl. discriminate.
Defined.

Lemma cli_revoked : ∃ t', run_trust_revoke "data" (NodeId_to_hex sample_node) cli_term = (Ok sample_node, t')
  ∧ h_fs t'.1 = h_fs cli_host ∧ ∃ s, h_dbs t'.1 !! trust_path "data" = Some s ∧ sql_faults s = [].
Proof.
  unfold run_trust_revoke. eexists. split.
  - erewrite st_bind_ok by (vm_compute; reflexivity). rewrite NodeId_hex_ok.
    erewrite st_bind_ok by reflexivity. erewrite st_bind_ok by reflexivity. reflexivity.
  - split; [reflexivity|]. eexists. split; [apply lookup_insert_eq|reflexivity].
Qed.

Lemma cli_start h s : h_fs h = h_fs cli_host → h_dbs h !! trust_path "data" = Some s → sql_faults s = [] →
  ∃ rt h', start_node demo_config demo_env h = (Ok rt, h').
Proof.
  destruct h as [fs dbs]. cbn. intros -> Hdb Hs.
  assert (∃ h1, open_store "Failed to open persistent trust store" (trust_path "data")
    {| h_fs := {| files := {[key_path "data" := arr (IdentityKey_to_bytes (IdentityKey_generate (arr_rep 32 x0a)))]};
                  fs_fault := None |}; h_dbs := dbs |} = (Ok tt, h1)) as [h1 E1].
  { unfold open_store. erewrite st_bind_ok by reflexivity. destruct (TrustStore_open s) as [r s1] eqn:Eo.
    erewrite on_db_run by (cbn; rewrite Hdb; exact Eo).
    assert (r = Ok tt) as ->; [|eauto]. revert Eo. unfold TrustStore_open, init_schema, mbind, st_bind, sql.
    rewrite Hs. cbn. destruct (decide _); by intros [= <- _]. }
  unfold start_node. eexists _, _.
  erewrite st_bind_ok by reflexivity. erewrite st_bind_ok by reflexivity. erewrite st_bind_ok by reflexivity. cbv zeta.
  erewrite st_bind_ok by exact E1. erewrite st_bind_ok by reflexivity. erewrite st_bind_ok by reflexivity. cbv iota beta.
  cbn [discovery_mode demo_config nc_enable_mdns nc_enable_udp].
  erewrite st_bind_ok by reflexivity. erewrite st_bind_ok by reflexivity. reflexivity.
Qed.

Lemma cli_known : is_Some (db_table (trust_path "data") cli_term.1 !! NodeId_to_hex sample_node).
Proof. eexists. apply lookup_insert_eq. Qed.

Lemma cli_refused : Forall (λ i, ∀ id, refused id i) [RtAccept (conn [] []) nonce_s 1; RtBroadcast].
Proof. repeat constructor. Qed.

Example revoked_shut_out_witness : ∃ (rt : Runtime (DynBackend MemoryClipboardBackend)) t' h',
  run_trust_revoke "data" (NodeId_to_hex sample_node) cli_term = (Ok sample_node, t')
  ∧ start_node demo_config demo_env t'.1 = (Ok rt, h')
  ∧ rt_registry (runtime_run [RtAccept (conn [] []) nonce_s 1; RtBroadcast] rt) !! sample_node = None.
Proof.
  destruct cli_revoked as (t' & Er & Hf & s & Hdb & Hs). destruct (cli_start t'.1 s Hf Hdb Hs) as (rt & h' & Est).
  exists rt, t', h'. split; [exact Er|]. split; [exact Est|].
  exact (proj1 (revoked_shut_out demo_config demo_env (NodeId_to_hex sample_node) cli_term t' sample_node h' rt
    [RtAccept (conn [] []) nonce_s 1; RtBroadcast] Er cli_known Est cli_refused)).
Defined.
End Witnesses.
