(* ===== verification/Args.v ===== *)
(** * Args: the command line of [bridge-cli] ([tools/bridge-cli/src/{lib,main}.rs])

    The [derive] declarations of [Cli], [Commands] and [TrustAction]: which options
    each command has, with their short names and defaults, and how the values become
    a command.  Splitting the words of the command line into options is the [clap]
    library's (the class [Clap]); so is printing usage errors.  [main] joins it with
    [execute_cli]. *)
From S2P Require Import Prelude Text External Codec Core Protocol Transport Fs Keys Trust Pairing TransferMsg Transfer Clipboard Session Discovery Node Runtime Cli.

(** ** [u16::from_str] and its like *)

Definition digit10 (b : byte) : option Z :=
  let z := b2z b in if decide (48 ≤ z ≤ 57) then Some (z - 48) else None.
Definition decimal_step (w : Z) (acc : option Z) (b : byte) : option Z :=
  a ← acc; d ← digit10 b; if decide (a * 10 + d < 2 ^ w) then Some (a * 10 + d) else None.
(** Of a type with [w] bits.  ([clap] reads a [u16] through an [i64], which also takes
    a minus sign before zeros.) *)
Definition uint_from_str (w : Z) (s : string) : option Z :=
  let l := as_bytes s in
  match l with
  | [] => None
  | b :: rest =>
    if decide (b2z b = 43) then
      match rest with [] => None | _ => foldl (decimal_step w) (Some 0) rest end
    else foldl (decimal_step w) (Some 0) l
  end.

(** ** The declarations *)

(** An option; one without a default must be given.  A flag is given without a value. *)
Record Arg := { arg_long : string; arg_short : option string; arg_default : option string; arg_flag : bool }.
Definition opt (long : string) (short default : option string) : Arg :=
  {| arg_long := long; arg_short := short; arg_default := default; arg_flag := false |}.
Definition flag (long : string) (short : option string) : Arg :=
  {| arg_long := long; arg_short := short; arg_default := Some "false"; arg_flag := true |}.

Definition log_level_arg : Arg := opt "log-level" (Some "l") (Some "info").
Definition data_dir_arg : Arg := opt "data-dir" None (Some "./data").
Definition broadcast_port_arg : Arg := opt "broadcast-port" None (Some "42424").
Definition duration_arg : Arg := opt "duration" (Some "d") (Some "3").
Definition peer_arg : Arg := opt "peer" (Some "p") None.
Definition name_arg (default : string) : Arg := opt "name" (Some "n") (Some default).

(** The commands, by the names that the derive gives them. *)
Inductive Subcommand := SNode | SDiscover | SPeers | SPing | SSendFile | SPair | STrustList | STrustRevoke | SIdentity.
Definition subcommand_path (s : Subcommand) : list string :=
  match s with
  | SNode => ["node"] | SDiscover => ["discover"] | SPeers => ["peers"] | SPing => ["ping"]
  | SSendFile => ["send-file"] | SPair => ["pair"] | STrustList => ["trust"; "list"]
  | STrustRevoke => ["trust"; "revoke"] | SIdentity => ["identity"]
  end.
Definition subcommand_of (path : list string) : option Subcommand :=
  snd <$> list_find (λ s, subcommand_path s = path)
    [SNode; SDiscover; SPeers; SPing; SSendFile; SPair; STrustList; STrustRevoke; SIdentity].

(** The options of each. *)
Definition command_args (s : Subcommand) : list Arg :=
  match s with
  | SNode => [
      name_arg "BridgeOS-Node"; opt "port" (Some "p") (Some "0"); opt "device-type" (Some "d") (Some "windows");
      opt "receive-dir" (Some "r") (Some "./received"); data_dir_arg; broadcast_port_arg; flag "no-mdns" None;
      flag "no-udp" None; flag "memory-clipboard" None]
  | SDiscover => [duration_arg; broadcast_port_arg]
  | SPeers => [duration_arg; broadcast_port_arg; data_dir_arg]
  | SPing => [peer_arg; opt "count" (Some "c") (Some "3"); name_arg "BridgeOS-PingClient"]
  | SSendFile => [peer_arg; opt "file" (Some "f") None; name_arg "BridgeOS-Sender"; data_dir_arg]
  | SPair => [peer_arg; name_arg "BridgeOS-PairClient"; data_dir_arg]
  | STrustList => [data_dir_arg]
  | STrustRevoke => [data_dir_arg; opt "node-id" (Some "n") None]
  | SIdentity => [flag "generate" (Some "g")]
  end.

(** ** From options to a command *)

(** What was given on the command line, by the long name; a flag has the value [true]. *)
Notation Matches := (gmap string string).
(** [SocketAddr::from_str], with the address as it prints. *)
Class SocketText := parse_socket_addr : string → result string string.

Definition default_of (args : list Arg) (long : string) : option string :=
  a ← list_find (λ a, arg_long a = long) args; arg_default a.2.
Definition value (args : list Arg) (given : Matches) (long : string) : result string string :=
  match given !! long with
  | Some v => Ok v
  | None => ok_or ("the following required arguments were not provided: --" +:+ long) (default_of args long)
  end.
Definition number (w : Z) (args : list Arg) (given : Matches) (long : string) : result string Z :=
  v ← value args given long;
  ok_or ("invalid value '" +:+ v +:+ "' for '--" +:+ long +:+ "'") (uint_from_str w v).
Definition is_set (args : list Arg) (given : Matches) (long : string) : result string bool :=
  v ← value args given long; Ok (bool_decide (v = "true")).

Record Cli := { cli_command : Commands; cli_log_level : string }.

Section FromMatches.
Context `{SocketText}.

Definition address (args : list Arg) (given : Matches) (long : string) : result string string :=
  v ← value args given long;
  map_err (λ e, "invalid value '" +:+ v +:+ "' for '--" +:+ long +:+ "': " +:+ e) (parse_socket_addr v).

Definition command_from (s : Subcommand) (given : Matches) : result string Commands :=
  let args := command_args s in
  match s with
  | SNode =>
    name ← value args given "name"; port ← number 16 args given "port";
    device_type ← value args given "device-type"; receive_dir ← value args given "receive-dir";
    data_dir ← value args given "data-dir"; broadcast_port ← number 16 args given "broadcast-port";
    no_mdns ← is_set args given "no-mdns"; no_udp ← is_set args given "no-udp";
    memory_clipboard ← is_set args given "memory-clipboard";
    Ok (CNode name port device_type receive_dir data_dir broadcast_port no_mdns no_udp memory_clipboard)
  | SDiscover =>
    duration ← number 64 args given "duration"; broadcast_port ← number 16 args given "broadcast-port";
    Ok (CDiscover duration broadcast_port)
  | SPeers =>
    duration ← number 64 args given "duration"; broadcast_port ← number 16 args given "broadcast-port";
    data_dir ← value args given "data-dir";
    Ok (CPeers duration broadcast_port data_dir)
  | SPing =>
    peer ← address args given "peer"; count ← number 64 args given "count"; name ← value args given "name";
    Ok (CPing peer (Z.to_nat count) name)
  | SSendFile =>
    peer ← address args given "peer"; file ← value args given "file"; name ← value args given "name";
    data_dir ← value args given "data-dir";
    Ok (CSendFile peer file name data_dir)
  | SPair =>
    peer ← address args given "peer"; name ← value args given "name"; data_dir ← value args given "data-dir";
    Ok (CPair peer name data_dir)
  | STrustList => data_dir ← value args given "data-dir"; Ok (CTrust TrustList data_dir)
  | STrustRevoke =>
    data_dir ← value args given "data-dir"; node_id ← value args given "node-id";
    Ok (CTrust (TrustRevoke node_id) data_dir)
  | SIdentity => generate ← is_set args given "generate"; Ok (CIdentity generate)
  end.

Definition Cli_from (path : list string) (given : Matches) : result string Cli :=
  s ← ok_or "unrecognized subcommand" (subcommand_of path);
  command ← command_from s given;
  log_level ← value [log_level_arg] given "log-level";
  Ok {| cli_command := command; cli_log_level := log_level |}.
End FromMatches.

(** ** [main] *)

(** The words of the command line as the command they name and the options given. *)
Class Clap := clap_matches : list string → result string (list string * Matches).

Inductive MainError := MUsage (msg : string) | MFailed (e : NodeError).

Section Main.
Context `{Ed25519, Sha256, Blake3, Hex, ServiceInfo, Lowercase}.
Context `{Postcard Frame, Postcard PairingMessage, Postcard TransferMessage, Postcard ClipboardMessage,
          Postcard BeaconMessage}.
Context `{Debug Frame, Debug PairingMessage, Debug TransferMessage, ClipboardBackend B, SocketText, Clap}.

Definition Cli_parse (words : list string) : result string Cli :=
  '(path, given) ← clap_matches words; Cli_from path given.

(** [env_filter]: the log filter of the environment, if it has a valid one.  The
    value has the filter that is installed. *)
Definition main (env : CliEnv B) (env_filter : result string string) (words : list string) :
    st (Host * Io) MainError (string * CliOutput B) :=
  cli ← lift (map_err MUsage (Cli_parse words));
  let filter := match env_filter with Ok f => f | Err _ => cli_log_level cli end in
  output ← st_map_err MFailed (execute_cli env (cli_command cli));
  mret (filter, output).
End Main.

(** ** Lemmas: numbers *)

Lemma decimal_none w l : foldl (decimal_step w) None l = None.
Proof. by induction l. Qed.

(** A sequence of digits is read as a number; a sign is no digit. *)
Lemma uint_from_digits w s z :
  s ≠ "" → foldl (decimal_step w) (Some 0) (as_bytes s) = Some z → uint_from_str w s = Some z.
Proof.
  intros Hs E. unfold uint_from_str. destruct (as_bytes s) as [|b l] eqn:Eb.
  { destruct Hs. by rewrite <-(of_as_bytes s), Eb. }
  case_decide as Hb; [|done]. cbn [foldl] in E. unfold decimal_step at 2, digit10 in E. rewrite Hb in E. cbn in E.
  by rewrite decimal_none in E.
Qed.

Lemma digit10_char x : (x < 10)%N → digit10 (Ascii.byte_of_ascii (pretty_N_char x)) = Some (Z.of_N x).
Proof.
  intros Hx. assert (x = 0 ∨ x = 1 ∨ x = 2 ∨ x = 3 ∨ x = 4 ∨ x = 5 ∨ x = 6 ∨ x = 7 ∨ x = 8 ∨ x = 9)%N as Hc by lia.
  repeat destruct Hc as [->|Hc]; try subst x; reflexivity.
Qed.

Lemma pretty_go_read w x s :
  Z.of_N x < 2 ^ w →
  foldl (decimal_step w) (Some 0) (as_bytes (pretty_N_go x s)) = foldl (decimal_step w) (Some (Z.of_N x)) (as_bytes s).
Proof.
  revert s. induction (N.lt_wf_0 x) as [x _ IH]; intros s Hw.
  assert (x = 0 ∨ 0 < x)%N as [->|Hx] by lia; [done|]. rewrite pretty_N_go_step by done.
  pose proof (N.div_mod x 10 ltac:(lia)) as Hd. pose proof (N.mod_lt x 10 ltac:(lia)) as Hm.
  pose proof (N.div_lt x 10 Hx ltac:(lia)) as Hlt. rewrite IH; [|done|lia].
  change (as_bytes (String ?c s)) with (Ascii.byte_of_ascii c :: as_bytes s). cbn [foldl]. unfold decimal_step at 2.
  rewrite digit10_char by done. cbn [mbind option_bind].
  replace (Z.of_N (x `div` 10) * 10 + Z.of_N (x `mod` 10)) with (Z.of_N x) by lia. by rewrite decide_True.
Qed.

Lemma pretty_go_nonempty x c s : pretty_N_go x (String c s) ≠ "".
Proof.
  revert c s. induction (N.lt_wf_0 x) as [x _ IH]; intros c s.
  assert (x = 0 ∨ 0 < x)%N as [->|Hx] by lia; [done|]. rewrite pretty_N_go_step by done. apply IH. by apply N.div_lt.
Qed.

(** Reading what [{}] prints of an unsigned integer. *)
Lemma uint_from_dec w z : in_width w z → uint_from_str w (dec z) = Some z.
Proof.
  intros [Hz Hw]. unfold dec. destruct z as [|p|p]; [| |lia].
  - apply uint_from_digits; [done|]. change (as_bytes (pretty 0)) with [x30]. cbn [foldl]. unfold decimal_step.
    change (digit10 x30) with (Some 0). cbn [mbind option_bind]. by rewrite decide_True.
  - assert (pretty (Z.pos p) = pretty_N_go (N.pos p) "") as -> by done. apply uint_from_digits.
    + rewrite pretty_N_go_step by lia. apply pretty_go_nonempty.
    + by rewrite (pretty_go_read w (N.pos p) "").
Qed.

Lemma uint_from_str_width w s z : 0 ≤ w → uint_from_str w s = Some z → in_width w z.
Proof.
  intros Hw. assert (∀ l a, in_width w a → foldl (decimal_step w) (Some a) l = Some z → in_width w z) as Hf.
  { induction l as [|b l IH]; intros a Ha; cbn [foldl]; [by intros [= <-]|]. unfold decimal_step at 2, digit10. cbn.
    case_decide as Hd; cbn; [|by rewrite decimal_none]. case_decide; [|by rewrite decimal_none].
    apply IH. destruct Ha. split; lia. }
  assert (in_width w 0) as H0 by (split; [lia|apply Z.pow_pos_nonneg; lia]).
  unfold uint_from_str. destruct (as_bytes s) as [|b l]; [done|]. case_decide; [|by apply (Hf _ 0)].
  destruct l; [done|]. by apply (Hf _ 0).
Qed.

(** ** Lemmas: writing a command *)

(** The integers of a command fit their types. *)
Definition command_valid (c : Commands) : Prop :=
  match c with
  | CNode _ port _ _ _ bport _ _ _ => in_width 16 port ∧ in_width 16 bport
  | CDiscover duration bport | CPeers duration bport _ => in_width 64 duration ∧ in_width 16 bport
  | CPing _ count _ => in_width 64 (Z.of_nat count)
  | _ => True
  end.

Definition command_peer (c : Commands) : option string :=
  match c with CPing peer _ _ | CSendFile peer _ _ _ | CPair peer _ _ => Some peer | _ => None end.

Definition give_flag (long : string) (b : bool) (given : Matches) : Matches :=
  if b then <[long := "true"]> given else given.
(** Every option of a command written out. *)
Definition command_line (c : Commands) : Subcommand * Matches :=
  match c with
  | CNode name port device_type receive_dir data_dir bport no_mdns no_udp memory_clipboard =>
    (SNode, give_flag "no-mdns" no_mdns (give_flag "no-udp" no_udp (give_flag "memory-clipboard" memory_clipboard
       {["name" := name; "port" := dec port; "device-type" := device_type; "receive-dir" := receive_dir;
         "data-dir" := data_dir; "broadcast-port" := dec bport]})))
  | CDiscover duration bport => (SDiscover, {["duration" := dec duration; "broadcast-port" := dec bport]})
  | CPeers duration bport data_dir =>
    (SPeers, {["duration" := dec duration; "broadcast-port" := dec bport; "data-dir" := data_dir]})
  | CPing peer count name => (SPing, {["peer" := peer; "count" := dec (Z.of_nat count); "name" := name]})
  | CSendFile peer file name data_dir =>
    (SSendFile, {["peer" := peer; "file" := file; "name" := name; "data-dir" := data_dir]})
  | CPair peer name data_dir => (SPair, {["peer" := peer; "name" := name; "data-dir" := data_dir]})
  | CTrust TrustList data_dir => (STrustList, {["data-dir" := data_dir]})
  | CTrust (TrustRevoke node_id) data_dir => (STrustRevoke, {["data-dir" := data_dir; "node-id" := node_id]})
  | CIdentity generate => (SIdentity, give_flag "generate" generate ∅)
  end.

Lemma value_given args given long v : given !! long = Some v → value args given long = Ok v.
Proof. intros E. unfold value. by rewrite E. Qed.
Lemma number_given w args given long z :
  given !! long = Some (dec z) → in_width w z → number w args given long = Ok z.
Proof. intros E Hz. unfold number. rewrite (value_given _ _ _ _ E). cbn. by rewrite uint_from_dec. Qed.
Lemma address_given `{SocketText} args given long a :
  given !! long = Some a → parse_socket_addr a = Ok a → address args given long = Ok a.
Proof. intros E Ha. unfold address. rewrite (value_given _ _ _ _ E). cbn. by rewrite Ha. Qed.
(** A flag is what was written, and off when nothing was. *)
Lemma is_set_given args given long b :
  given !! long = (if b : bool then Some "true" else None) → default_of args long = Some "false" →
  is_set args given long = Ok b.
Proof. intros E Hd. unfold is_set, value. rewrite E, Hd. by destruct b. Qed.

Lemma give_flag_ne long long' b given : long ≠ long' → give_flag long b given !! long' = given !! long'.
Proof. intros Hl. destruct b; [by apply lookup_insert_ne|done]. Qed.
Lemma give_flag_eq long b given : given !! long = None → give_flag long b given !! long = if b then Some "true" else None.
Proof. intros Hl. destruct b; [apply lookup_insert_eq|done]. Qed.

(** Finds an option among those given. *)
Ltac find_given :=
  repeat first [rewrite lookup_insert_ne by done | rewrite give_flag_ne by done | rewrite lookup_singleton_ne by done];
  first [apply lookup_insert_eq | apply lookup_singleton_eq | apply lookup_empty | reflexivity
        | apply give_flag_eq; find_given].
(** Reads the options of a command one by one. *)
Ltac read_given :=
  repeat first
    [ erewrite value_given by find_given; cbn [mbind result_bind]
    | erewrite number_given by (find_given || eassumption); cbn [mbind result_bind]
    | erewrite address_given by (find_given || eassumption); cbn [mbind result_bind]
    | erewrite is_set_given by (reflexivity || find_given); cbn [mbind result_bind] ].

Lemma command_from_line `{SocketText} c log_level :
  command_valid c → (∀ a, command_peer c = Some a → parse_socket_addr a = Ok a) →
  command_from (command_line c).1 (<["log-level" := log_level]> (command_line c).2) = Ok c.
Proof.
  intros Hv Ha.
  destruct c as [name port dt rd dd bp nm nu mc|du bp|du bp dd|peer n name|peer file name dd|peer name dd|[|id] dd|g];
    cbn [command_line fst snd command_from command_valid command_peer] in *; try specialize (Ha _ eq_refl);
    repeat match goal with Hw : in_width _ _ ∧ _ |- _ => destruct Hw end; read_given; try done.
  by rewrite Nat2Z.id.
Qed.

Lemma subcommand_of_path s : subcommand_of (subcommand_path s) = Some s.
Proof. by destruct s. Qed.

Lemma number_width w args given long z : 0 ≤ w → number w args given long = Ok z → in_width w z.
Proof.
  intros Hw. unfold number. destruct (value args given long) as [v|]; [|done]. cbn.
  destruct (uint_from_str w v) as [x|] eqn:E; [|done]. intros [= <-]. by eapply uint_from_str_width.
Qed.

Lemma result_bind_inv {E A B} (f : A → result E B) r b : mbind (M := result E) f r = Ok b → ∃ a, r = Ok a ∧ f a = Ok b.
Proof. destruct r as [a|]; [|done]. eauto. Qed.

Lemma address_parsed `{SocketText} args given long a : address args given long = Ok a → ∃ text, parse_socket_addr text = Ok a.
Proof.
  unfold address. intros (v & _ & E)%result_bind_inv. destruct (parse_socket_addr v) as [x|] eqn:Ev; [|done].
  injection E as <-. eauto.
Qed.

(** ** Properties *)


(** A command that is parsed is a value of its type.  Whatever is given, the ports
    of a command are 16-bit numbers and its duration and count 64-bit ones, and a
    peer's address is one that [SocketAddr] reads. *)
Theorem command_typed `{SocketText} (path : list string) (given : Matches) (cli : Cli) :
  Cli_from path given = Ok cli →
  command_valid (cli_command cli)
  ∧ ∀ a, command_peer (cli_command cli) = Some a → ∃ text, parse_socket_addr text = Ok a.
Proof.
  unfold Cli_from. destruct (subcommand_of path) as [s|]; [|done]. cbn.
  destruct (command_from s given) as [c|] eqn:Ec; [|done]. cbn.
  destruct (value _ given "log-level"); [|done]. cbn. intros [= <-]. cbn. unfold command_from in Ec.
  destruct s; cbn zeta in Ec; repeat (apply result_bind_inv in Ec as (? & ? & Ec)); injection Ec as <-; cbn;
    (split; [|by intros a [= <-]; eapply address_parsed]); split_and?; try done; try (by eapply number_width; [|done]).
  all: match goal with Hn : number 64 _ _ _ = Ok ?z |- _ => pose proof (number_width 64 _ _ _ _ ltac:(lia) Hn) as [? ?] end.
  all: rewrite Z2Nat.id by lia; by split.
Qed.

(** No two options of a command, [--log-level] included, share a name or a letter:
    [clap] panics on such a declaration. *)
Theorem options_distinct (s : Subcommand) :
  NoDup (arg_long <$> log_level_arg :: command_args s) ∧ NoDup (omap arg_short (log_level_arg :: command_args s)).
Proof. destruct s; (split; apply (bool_decide_eq_true_1 _); by vm_compute). Qed.

(** ** Witnesses *)

(** A splitter of words that knows [--long value], [-s value] and flags. *)
Module ToyClap.
Fixpoint options (args : list Arg) (words : list string) (given : Matches) : result string Matches :=
  match words with
  | [] => Ok given
  | w :: rest =>
    match list_find (λ a, w = "--" +:+ arg_long a ∨ Some w = String.append "-" <$> arg_short a) args with
    | None => Err ("unexpected argument '" +:+ w +:+ "' found")
    | Some (_, a) =>
      if arg_flag a then options args rest (<[arg_long a := "true"]> given)
      else match rest with
           | v :: rest => options args rest (<[arg_long a := v]> given)
           | [] => Err ("a value is required for '--" +:+ arg_long a +:+ "'")
           end
    end
  end.
Definition matches (words : list string) : result string (list string * Matches) :=
  let path := match words with _ :: "trust" :: a :: _ => ["trust"; a] | _ :: c :: _ => [c] | _ => [] end in
  s ← ok_or "unrecognized subcommand" (subcommand_of path);
  given ← options (log_level_arg :: command_args s) (drop (1 + length path) words) ∅;
  Ok (path, given).
#[export] Instance clap : Clap := matches.
(** Takes every text for an address. *)
#[export] Instance socket_text : SocketText := Ok.
End ToyClap.

Section Witnesses.
Import ToyClap.


Example command_typed_witness : ∃ cli, Cli_from ["node"] {["port" := "9801"]} = Ok cli ∧ command_valid (cli_command cli).
Proof.
  destruct (Cli_from ["node"] {["port" := "9801"]}) as [cli|e] eqn:E; [|vm_compute in E; discriminate].
  exists cli. split; [reflexivity|]. exact (proj1 (command_typed ["node"] {["port" := "9801"]} cli E)).
Defined.
End Witnesses.
