(* ===== verification/EndToEnd.v ===== *)
(** * EndToEnd: two devices, composed

    Properties of a user's whole operation, which span the components and both ends
    of a connection: what one side writes is what the other side reads, byte for
    byte, so the two halves of a statement speak of one exchange. *)
From S2P Require Import Prelude Channel Text External Codec Core Protocol Transport Fs Keys Trust Pairing TransferMsg Transfer Clipboard Session Discovery Node Broadcast Runtime Cli.

(** ** Frames on a working connection *)

Section Wire.
Context `{Postcard Frame, !PostcardLaws Frame}.

(** The frame [f] is a value of its type and travels as [bs]. *)
Definition travels_as (f : Frame) (bs : list byte) : Prop := valid f ∧ encode_frame f = Ok bs.

Lemma net_io_send ctx f bs r t fs :
  travels_as f bs → net_io ctx (send_frame f) (conn r t, fs) = (Ok tt, (conn r (t ++ bs), fs)).
Proof.
  intros [_ E]. unfold net_io, st_map_err, zoom. cbn [fst snd]. by rewrite (send_frame_ok _ _ bs E).
Qed.

Lemma net_recv_frame ctx none f bs k t fs :
  travels_as f bs → net_recv ctx none (conn (bs ++ k) t, fs) = (Ok f, (conn k t, fs)).
Proof.
  intros [Hv E]. unfold net_recv, net_io, st_map_err, zoom, mbind, st_bind. cbn [fst snd].
  by rewrite (recv_frame_sent _ _ bs k Hv E).
Qed.

(** *** The client's handshake and probes *)

Section Client.
Context `{Ed25519, Sha256, Blake3, Hex, Debug Frame}.

Lemma connect_run addr k name cn sh b1 b2 b3 b4 r fs :
  travels_as (Handshake (HClientHello (hello_of_client k name cn))) b1 →
  travels_as (Handshake (HServerHello sh)) b2 →
  travels_as (Handshake (HAuthResponse
    {| ar_signature := sign_handshake_challenge k cn (sh_server_nonce sh) |})) b3 →
  travels_as (Handshake (HAuthResult AuthResult_ok)) b4 →
  connect_and_handshake (Ok tt) addr k name cn (conn (b2 ++ b4 ++ r) [], fs) = (Ok sh, (conn r (b1 ++ b3), fs)).
Proof.
  intros T1 T2 T3 T4. unfold connect_and_handshake. erewrite st_bind_ok by reflexivity.
  erewrite st_bind_ok by (exact (net_io_send _ _ _ _ _ _ T1)).
  erewrite st_bind_ok by (exact (net_recv_frame _ _ _ _ _ _ _ T2)). cbv beta iota zeta.
  erewrite st_bind_ok by (exact (net_io_send _ _ _ _ _ _ T3)).
  by erewrite st_bind_ok by (exact (net_recv_frame _ _ _ _ _ _ _ T4)).
Qed.

Context (ping pong : u64 → list byte).
Definition probe (x : u64) : Prop :=
  travels_as (Control (Ping x)) (ping x) ∧ travels_as (Control (Pong x)) (pong x).

Lemma ping_loop_run nonces n r t fs :
  Forall probe nonces →
  ping_loop nonces n (conn (concat (map pong nonces) ++ r) t, fs)
  = (Ok (n + length nonces)%nat, (conn r (t ++ concat (map ping nonces)), fs)).
Proof.
  intros Hp. revert n t. induction Hp as [|x nonces [T1 T2] Hp IH]; intros n t; cbn [ping_loop map concat length app].
  - by rewrite Nat.add_0_r, app_nil_r.
  - erewrite st_bind_ok by (exact (net_io_send _ _ _ _ _ _ T1)). rewrite <-app_assoc.
    erewrite st_bind_ok by (exact (net_recv_frame _ _ _ _ _ _ _ T2)). cbv beta iota.
    rewrite decide_True, IH by done. by rewrite <-app_assoc, Nat.add_succ_r.
Qed.
End Client.
End Wire.

Section Server.
Context `{Ed25519, Sha256, Blake3, Hex}.
Context `{Postcard Frame, Postcard PairingMessage, Postcard TransferMessage, Postcard ClipboardMessage}.
Context `{Debug Frame, Debug PairingMessage, Debug TransferMessage, ClipboardBackend B, !PostcardLaws Frame}.

Definition with_stream (io : Io) (n : Node B) : Node B :=
  with_sw (nd_session n, set_io io (nd_world n)) n.

Lemma on_stream_recv ctx f bs k t (n : Node B) :
  travels_as f bs → w_io (nd_world n) = conn (bs ++ k) t →
  on_stream ctx recv_frame n = (Ok (Some f), with_stream (conn k t) n).
Proof.
  intros [Hv E] Hw. unfold on_stream, st_map_err, zoom. rewrite Hw.
  by rewrite (recv_frame_sent _ _ bs k Hv E).
Qed.

Lemma on_stream_send ctx f bs r t (n : Node B) :
  travels_as f bs → w_io (nd_world n) = conn r t →
  on_stream ctx (send_frame f) n = (Ok tt, with_stream (conn r (t ++ bs)) n).
Proof.
  intros [_ E] Hw. unfold on_stream, st_map_err, zoom. rewrite Hw. by rewrite (send_frame_ok _ _ bs E).
Qed.

(** A ping is answered with its nonce. *)
Lemma node_round_ping cid dir env ping pong x k t (n : Node B) :
  probe ping pong x → w_io (nd_world n) = conn (ping x ++ k) t →
  node_round cid dir (NFrame env) n = (Ok true, with_stream (conn k (t ++ pong x)) n).
Proof.
  intros [T1 T2] Hw. cbn [node_round]. rewrite (st_bind_ok _ _ _ _ _ (on_stream_recv _ _ _ _ _ _ T1 Hw)).
  cbn [handle_node_frame].
  by rewrite (st_bind_ok _ _ _ _ _ (on_stream_send "" _ (pong x) k t (with_stream (conn k t) n) T2 eq_refl)).
Qed.

Lemma node_round_bye cid dir env reason bye k t (n : Node B) :
  travels_as (Control (Disconnect reason)) bye → w_io (nd_world n) = conn (bye ++ k) t →
  node_round cid dir (NFrame env) n = (Ok false, with_stream (conn k t) n).
Proof.
  intros Tb Hw. cbn [node_round]. by rewrite (st_bind_ok _ _ _ _ _ (on_stream_recv _ _ _ _ _ _ Tb Hw)).
Qed.

Lemma node_loop_pings cid dir ping pong bye nonces env envs k t (n : Node B) :
  Forall (probe ping pong) nonces → travels_as (Control (Disconnect Graceful)) bye → length envs = length nonces →
  w_io (nd_world n) = conn (concat (map ping nonces) ++ bye ++ k) t →
  node_loop cid dir (map NFrame envs ++ [NFrame env]) n
  = (Ok true, unregister (with_stream (conn k (t ++ concat (map pong nonces))) n)).
Proof.
  intros Hp Tb. revert envs t n. induction Hp as [|x nonces Hx Hp IH]; intros [|e envs] t n Hl Hw; try done.
  - cbn [map concat app node_loop] in *. rewrite app_nil_r.
    by rewrite (st_bind_ok _ _ _ _ _ (node_round_bye cid dir env _ _ _ _ _ Tb Hw)).
  - cbn [map concat app node_loop] in *. rewrite <-app_assoc in Hw.
    rewrite (st_bind_ok _ _ _ _ _ (node_round_ping cid dir e _ _ _ _ _ _ Hx Hw)). cbv beta iota.
    erewrite IH; [|by injection Hl|reflexivity]. by rewrite <-app_assoc.
Qed.
End Server.

(** *** A clipboard frame at a running node *)

Section Applied.
Context `{Ed25519, Sha256, Blake3, Hex, ServiceInfo}.
Context `{Postcard Frame, Postcard PairingMessage, Postcard TransferMessage, Postcard ClipboardMessage,
          Postcard BeaconMessage}.
Context `{Debug Frame, Debug PairingMessage, Debug TransferMessage, ClipboardBackend B, !PostcardLaws Frame}.

(** The event is not one that the broadcaster sends. *)
Definition silent_event (ev : ClipboardSyncEvent) : Prop :=
  match ev with OutgoingBroadcastReady _ _ => False | _ => True end.

(** The broadcaster is idle: it waits for an event and has read all there are. *)
Definition caught_up (rt : Runtime B) : Prop := rt_cast rt = CastReading ∧ rt_seen rt = length (en_events (rt_clip rt)).

Lemma rt_broadcast_skip ev evs (rt : Runtime B) :
  rt_cast rt = CastReading → drop (rt_seen rt) (en_events (rt_clip rt)) = ev :: evs → silent_event ev →
  (length evs < DEFAULT_EVENT_CAPACITY)%nat →
  rt_broadcast rt = set_engine (rt_clip rt) (S (rt_seen rt)) CastReading rt.
Proof.
  intros Hc Hd Hs Hl. unfold rt_broadcast. rewrite Hc, (recv_at_value _ _ _ evs ev) by done. by destruct ev.
Qed.

(** A clipboard frame on a trusted connection goes to the engine. *)
Lemma rt_round_clipboard id c f bs k t env (rt : Runtime B) :
  rt_conns rt !! id = Some c → state_is_trusted (state (rc_session c)) = true → rc_io c = conn (bs ++ k) t →
  travels_as (Data f) bs → df_channel f = CHANNEL_CLIPBOARD →
  rt_round id (RtFrame env) rt
  = set_conns (<[id := {| rc_session := rc_session c; rc_io := conn k t; rc_queue := rc_queue c |}]> (rt_conns rt))
      (rt_next rt) (set_engine (handle_incoming_frame f (rt_clip rt)).2 (rt_seen rt) (rt_cast rt) rt).
Proof.
  intros Ec Ht Hio Tf Hch. unfold rt_round. rewrite Ec. cbn [node_round].
  set (n := {| nd_session := rc_session c; nd_world := shared_world (rc_io c) rt; nd_registry := rt_registry rt |}).
  rewrite (st_bind_ok _ _ _ _ _ (on_stream_recv "Failed to read frame" _ bs k t n Tf Hio)).
  cbn [handle_node_frame]. rewrite Hch. rewrite decide_False, decide_True by done.
  unfold mbind, st_bind, gets, modify. cbn. rewrite Ht. cbn. by destruct rt.
Qed.
End Applied.

(** *** A node on the network and a scan *)

Section Seen.
Context `{Ed25519, Sha256, Blake3, Hex, ServiceInfo}.
Context `{Postcard Frame, Postcard PairingMessage, Postcard TransferMessage, Postcard ClipboardMessage,
          Postcard BeaconMessage}.
Context `{Debug Frame, Debug PairingMessage, Debug TransferMessage, ClipboardBackend B}.

(** A scan that goes on: the UDP worker runs, without an identity of its own. *)
Definition listening (d : UnifiedDiscovery) : Prop :=
  shared_ok (un_shared d)
  ∧ ∃ u, un_udp d = Some u ∧ ud_worker u = true ∧ ud_local_node_id u = None ∧ ud_advertising_info u = None.

Lemma unified_start_running daemon mode bport d0 browse sock d :
  mode ≠ MdnsOnly → UnifiedDiscovery_new daemon (unified_config mode bport) = Ok d0 →
  unified_start_discovery browse sock d0 = (Ok tt, d) → listening d.
Proof.
  intros Hm Hn Hs. unfold UnifiedDiscovery_new in Hn. destruct mode, daemon; cbn in Hn; simplify_eq;
    unfold unified_start_discovery, mdns_start_discovery, udp_start_discovery in Hs; cbn in Hs;
    repeat case_match; simplify_eq/=; (split; [by split; [|intros ???]|]); eexists; (split; [reflexivity|done]).
Qed.

(** A started node advertises itself over UDP, from sequence number 1. *)
Lemma start_discovery_running env id config port mode d :
  mode ≠ MdnsOnly → start_discovery_on env id config port mode = Ok d →
  un_shared d = Shared_new ∧ ∃ u, un_udp d = Some u ∧ ud_worker u = true
    ∧ ud_config u = lan_udp_config (nc_broadcast_port config)
    ∧ ud_advertising_info u = Some {| la_node_id := id; la_device_name := nc_name config;
        la_device_type := nc_device_type config; la_port := port; la_capabilities := Capabilities_all; la_seq := 1 |}.
Proof.
  intros Hm. unfold start_discovery_on, UnifiedDiscovery_new. destruct mode, (le_daemon env); cbn; try done;
    unfold unified_advertise; cbn; repeat case_match; cbn; try done;
    unfold unified_start_discovery, mdns_advertise, mdns_start_discovery, udp_start_discovery in *; cbn in *;
    repeat case_match; intros; simplify_eq/=; (split; [done|]); eexists; (split; [reflexivity|done]).
Qed.

Lemma start_node_discovery config (env : StartEnv B) h (rt : Runtime (DynBackend B)) h' port :
  start_node config env h = (Ok rt, h') → nc_enable_udp config = true → sv_local_addr env = Ok port →
  ∃ mode, mode ≠ MdnsOnly
    ∧ start_discovery_on (sv_lan env) (IdentityKey_node_id (rt_identity rt)) config port mode = Ok (rt_discovery rt).
Proof.
  intros E Hu Hp. unfold start_node in E. do 6 (apply st_bind_Ok_inv in E as (? & ? & ?E & E)).
  destruct (discovery_mode _ _) as [mode|] eqn:Em; [|done]. apply st_bind_Ok_inv in E as (d & h6 & Ed & E).
  apply st_bind_Ok_inv in E as (h7 & h8 & E7 & E). unfold mret, st_ret in E. unfold lift in *. rewrite Hp in *.
  simplify_eq/=. exists mode. split; [|done]. rewrite Hu in Em. destruct (nc_enable_mdns config); by simplify_eq/=.
Qed.

(** The worker stops only when reading the socket fails. *)
Lemma unified_run_listening trace d :
  Forall (λ it, it.1 ≠ InUdp URecvError) trace → listening d → listening (unified_run trace d).
Proof.
  intros Ht. revert d. induction Ht as [|[i t] trace Hi Ht IH]; intros d Hd; [done|]. cbn. apply IH. clear IH.
  destruct Hd as (Hok & u & Eu & Hw & Hm & Ha). split.
  { destruct (unified_step_round i t d) as (k & -> & _). by apply do_round_ok. }
  destruct i as [i|i]; cbn [fst snd unified_step].
  - rewrite Eu, Hw. destruct i as [| |dg src| |]; cbn; rewrite ?Ha; [..|done|]; eexists; (split; [reflexivity|done]).
  - destruct (un_mdns d) as [m|]; [|by exists u]. destruct (md_worker m); [|by exists u].
    destruct (mdns_step i t (m, un_shared d)). by exists u.
Qed.
End Seen.

(** *** A frame that the sender of a file does not expect *)

Lemma clipboard_channel `{Postcard ClipboardMessage} m f : clipboard_to_data_frame m = Ok f → df_channel f = CHANNEL_CLIPBOARD.
Proof. unfold clipboard_to_data_frame. destruct (to_allocvec _); [|done]. by intros [= <-]. Qed.

(** The sender ends with an error at the first frame of another channel. *)
Lemma offer_interrupted `{Blake3, Hex, Postcard Frame, !PostcardLaws Frame, Postcard TransferMessage, Debug Frame,
    Debug TransferMessage} path m ob f bs rest t fs :
  carried_as (Offer m) ob → travels_as (Data f) bs → df_channel f ≠ CHANNEL_FILE_TRANSFER →
  ∃ e, offer_and_stream path m (conn (bs ++ rest) t, fs) = (Err e, (conn rest (t ++ ob), fs)).
Proof.
  intros Co Tf Hch. unfold offer_and_stream. rewrite (st_bind_ok _ _ _ _ _ (net_send_conn _ _ _ _ _ _ Co)).
  unfold net_reply. eexists. apply st_bind_err. rewrite (st_bind_ok _ _ _ _ _ (net_recv_frame _ _ _ _ _ _ _ Tf)).
  unfold from_data_frame. rewrite decide_True by done. reflexivity.
Qed.

(** *** A machine on which everything works *)

Section Healthy.
Context `{Ed25519, Sha256, Blake3, Hex, ServiceInfo}.
Context `{Postcard Frame, Postcard PairingMessage, Postcard TransferMessage, Postcard ClipboardMessage,
          Postcard BeaconMessage}.
Context `{Debug Frame, Debug PairingMessage, Debug TransferMessage, ClipboardBackend B}.

(** The network and the operating system answer what a node asks of them. *)
Record healthy_env (config : NodeConfig) (env : StartEnv B) : Prop := {
  hv_bind : sv_bind env = Ok tt;
  hv_port : is_ok (sv_local_addr env) = true;
  hv_daemon : le_daemon (sv_lan env) = Ok tt;
  hv_registered : le_registered (sv_lan env) = Ok tt;
  hv_browse : le_browse (sv_lan env) = Ok tt;
  hv_socket : is_ok (create_udp_socket (le_sock (sv_lan env)) (uc_bind_addr (lan_udp_config (nc_broadcast_port config)))) = true;
  hv_service ty i host ips port props : is_ok (ServiceInfo_new ty i host ips port props) = true;
  hv_mechanism : nc_enable_mdns config || nc_enable_udp config = true }.
(** Neither the disk nor the trust database fails. *)
Record healthy_disk (config : NodeConfig) (h : Host) : Prop := {
  hd_files : fs_fault (h_fs h) = None;
  hd_database : sql_faults (default empty_db (h_dbs h !! trust_path (nc_data_dir config))) = [] }.

Lemma create_dir_ok fs : fs_fault fs = None → fs_create_dir_all fs = (Ok tt, fs).
Proof. intros Hf. unfold fs_create_dir_all, fs_change. rewrite Hf. by destruct fs. Qed.
Lemma on_files_ok {E A} (f : E → NodeError) (m : st Fs E A) h a fs :
  m (h_fs h) = (Ok a, fs) → on_files f m h = (Ok a, set_host_fs fs h).
Proof. intros E1. unfold on_files, st_map_err, zoom. by rewrite E1. Qed.
Lemma set_host_fs_same h : set_host_fs (h_fs h) h = h.
Proof. by destruct h. Qed.

Lemma open_schema_ok db : sql_faults db = [] → ∃ db', TrustStore_open db = (Ok tt, db') ∧ sql_faults db' = [].
Proof.
  intros Hs. unfold TrustStore_open, init_schema, mbind, st_bind, sql. rewrite Hs. cbn.
  case_decide; cbn; eauto.
Qed.

Lemma start_discovery_ok config env id port mode :
  healthy_env config env → ∃ d, start_discovery_on (sv_lan env) id config port mode = Ok d.
Proof.
  intros [_ _ Hd Hr Hb Hs Hi _]. destruct (create_udp_socket _ _) as [sock|] eqn:Es; [|done]. cbn in Es.
  unfold start_discovery_on, UnifiedDiscovery_new. rewrite Hd, Hr, Hb.
  destruct mode; cbn; unfold unified_advertise, mdns_advertise; cbn;
    try (match goal with |- context [ServiceInfo_new ?a ?b ?c ?d ?e ?f] =>
           specialize (Hi a b c d e f); destruct (ServiceInfo_new a b c d e f); [|done] end);
    cbn; unfold unified_start_discovery, mdns_start_discovery, udp_start_discovery; cbn; rewrite ?Es; cbn; eauto.
Qed.

(** A node starts when the key file can be had. *)
Lemma start_node_ok config (env : StartEnv B) h key fs :
  healthy_env config env → healthy_disk config h →
  load_or_generate (sv_entropy env) (key_path (nc_data_dir config)) (h_fs h) = (Ok key, fs) → fs_fault fs = None →
  ∃ rt h', start_node config env h = (Ok rt, h') ∧ rt_identity rt = key ∧ rt_fs rt = fs ∧ sql_faults (rt_store rt) = [].
Proof.
  intros He [Hf Hs] Hk Hf'. destruct (open_schema_ok _ Hs) as (db & Edb & Hdb).
  pose proof (create_dir_ok _ Hf) as Hc. unfold start_node.
  rewrite (st_bind_ok _ _ _ _ _ (on_files_ok _ _ h _ _ Hc)), set_host_fs_same.
  rewrite (st_bind_ok _ _ _ _ _ (on_files_ok _ _ h _ _ Hc)), set_host_fs_same.
  rewrite (st_bind_ok _ _ _ _ _ (on_files_ok _ _ h _ _ Hk)). cbv zeta. set (h1 := set_host_fs fs h).
  assert (open_store "Failed to open persistent trust store" (trust_path (nc_data_dir config)) h1
    = (Ok tt, set_db (trust_path (nc_data_dir config)) db h1)) as Eo.
  { unfold open_store. rewrite (st_bind_ok _ _ _ _ _ (on_files_ok _ _ h1 _ _ (create_dir_ok fs Hf'))).
    change (set_host_fs fs h1) with h1. by rewrite (on_db_run _ _ _ h1 _ db Edb). }
  rewrite (st_bind_ok _ _ _ _ _ Eo). rewrite (hv_bind _ _ He). erewrite st_bind_ok by reflexivity.
  pose proof (hv_port _ _ He) as Hp. destruct (sv_local_addr env) as [port|]; [|done]. erewrite st_bind_ok by reflexivity.
  pose proof (hv_mechanism _ _ He) as Hm.
  destruct (discovery_mode _ _) as [mode|] eqn:Em; [|by destruct (nc_enable_mdns config), (nc_enable_udp config)].
  destruct (start_discovery_ok config env (IdentityKey_node_id key) port mode He) as [d Ed]. rewrite Ed.
  erewrite st_bind_ok by reflexivity. erewrite st_bind_ok by reflexivity. eexists _, _. split; [reflexivity|].
  cbn. by rewrite lookup_insert_eq.
Qed.
End Healthy.

(** What is under an absolute path has an absolute path. *)
Lemma path_join_absolute dir name :
  starts_with (as_bytes "/") (as_bytes dir) = true → starts_with (as_bytes "/") (as_bytes (path_join dir name)) = true.
Proof.
  intros Hd. destruct dir as [|c dir]; [done|]. unfold path_join. destruct (starts_with (as_bytes "/") (as_bytes name)) eqn:En;
    [done|]. rewrite bool_decide_eq_false_2 by done. by destruct (bool_decide _).
Qed.

(** A key file of 32 bytes is the identity. *)
Lemma load_key_file `{Ed25519, Hex} e path fs secret :
  files fs !! path = Some (arr secret) → load_or_generate e path fs = (Ok (IdentityKey_from_bytes secret), fs).
Proof.
  intros Hkey. unfold load_or_generate, gets, mbind, st_bind, fs_exists. rewrite Hkey. cbn.
  unfold IdentityStorage_load, mbind, st_bind, st_map_err, fs_read. rewrite Hkey. cbn.
  rewrite decide_True by apply arr_length. by rewrite to_array_arr.
Qed.

(** ** Properties *)

(** C11: every ping is answered.  [bridge-cli ping] against a running node whose trust
    store answers for the client (whatever it answers: ping needs no trust): the two
    ends, each reading what the other writes, complete the handshake; the client sends
    its probes, counts every one of them as received and takes its leave, and the node
    has answered exactly the probes and removed the client from its registry. *)
Theorem ping_over_wire `{Ed25519, Sha256, Blake3, Hex, Postcard Frame, Postcard PairingMessage,
    Postcard TransferMessage, Postcard ClipboardMessage, Debug Frame, Debug PairingMessage, Debug TransferMessage,
    ClipboardBackend B, !PostcardLaws Frame, !Ed25519Laws}
    (addr name sname dir : string) (kc ks : IdentityKey) (cn sn : array 32) (now : u64) (nonces : list u64)
    (ping pong : u64 → list byte) (b1 b2 b3 b4 bye : list byte) (fs : Fs) (w : World B) (registry : gmap NodeId nat)
    (cid : nat) (env : RoundEnv) (envs : list RoundEnv) (trusted : bool) :
  let sh := {| sh_agreed_version := ProtocolVersion_CURRENT; sh_node_id := IdentityKey_node_id ks;
    sh_device_name := sname; sh_server_nonce := sn;
    sh_negotiated_capabilities := caps_intersect Capabilities_all Capabilities_all |} in
  travels_as (Handshake (HClientHello (hello_of_client kc name cn))) b1 →
  travels_as (Handshake (HServerHello sh)) b2 →
  travels_as (Handshake (HAuthResponse {| ar_signature := sign_handshake_challenge kc cn sn |})) b3 →
  travels_as (Handshake (HAuthResult AuthResult_ok)) b4 →
  Forall (probe ping pong) nonces → travels_as (Control (Disconnect Graceful)) bye → length envs = length nonces →
  (is_trusted (IdentityKey_node_id kc) (public_key kc) (w_store w)).1 = Ok trusted →
  let to_node := b1 ++ b3 ++ concat (map ping nonces) ++ bye in
  let to_client := b2 ++ b4 ++ concat (map pong nonces) in
  w_io w = conn to_node [] →
  run_ping (Ok tt) addr kc name cn nonces (conn to_client [], fs) = (Ok (length nonces), (conn [] to_node, fs))
  ∧ ∃ w', handle_connection cid ks dir sname sn now (map NFrame envs ++ [NFrame env]) (w, registry)
      = (Ok true, (w', delete (IdentityKey_node_id kc) registry))
    ∧ w_io w' = conn [] to_client.
Proof.
  intros sh T1 T2 T3 T4 Hp Tb Hl Ht to_node to_client Hw. split.
  - unfold run_ping. erewrite st_bind_ok by (exact (connect_run addr _ _ _ _ _ _ _ _ _ fs T1 T2 T3 T4)).
    rewrite <-(app_nil_r (concat (map pong nonces))).
    erewrite st_bind_ok by (exact (ping_loop_run ping pong nonces 0 [] _ fs Hp)).
    unfold ignore, mbind, st_bind. rewrite (net_io_send _ _ _ _ _ _ Tb). cbn.
    unfold to_node. by rewrite <-!app_assoc.
  - destruct (server_handshake_serves ks sname Windows (Some dir) sn now w kc name cn trusted b1 b2 b3 b4
      (concat (map ping nonces) ++ bye)) as (s & w1 & E & Hio & Hn & _ & Hs); try done; try apply T1; try apply T2;
      try apply T3; try apply T4.
    unfold handle_connection. rewrite E. rewrite <-(app_nil_r bye) in Hio.
    set (n := {| nd_session := s; nd_world := w1; nd_registry := registry |}).
    set (n1 := if state_is_trusted (state s) then register cid n else n).
    assert (nd_world n1 = w1 ∧ nd_session n1 = s ∧ delete (IdentityKey_node_id kc) (nd_registry n1)
      = delete (IdentityKey_node_id kc) registry) as (Hw1 & Hs1 & Hr1).
    { unfold n1. destruct (state_is_trusted (state s)); [|done]. split_and!; try done. cbn. rewrite Hn.
      apply delete_insert_eq. }
    erewrite (node_loop_pings cid dir ping pong bye nonces env envs [] (b2 ++ b4) n1); [|done..|by rewrite Hw1].
    eexists. split; [cbn; rewrite Hs1, Hn, Hr1; reflexivity|]. cbn. unfold to_client. by rewrite <-app_assoc.
Qed.



(** C37: a copy on the receiving device breaks a file transfer to it.  The node
    registers the connection of every trusted peer for clipboard changes, that of a
    sender of files included.  When the user of the node copies something while the
    sender waits for the answer to its offer, the frame that announces the copy is
    what the node writes next, and the sender, which expects an answer of the
    transfer, gives up with an error. *)
Theorem copy_breaks_send `{Ed25519, Sha256, Blake3, Hex, ServiceInfo, Postcard Frame, Postcard PairingMessage,
    Postcard TransferMessage, Postcard ClipboardMessage, Postcard BeaconMessage, Debug Frame, Debug PairingMessage,
    Debug TransferMessage, ClipboardBackend B, !PostcardLaws Frame}
    (rt : Runtime B) (k : NodeId) (id : nat) (cn : RtConn) (c : ClipboardContent) (now : Z) (f : DataFrame)
    (bs ob t rest : list byte) (path : string) (m : FileManifest) (cfs : Fs) :
  rt_registry rt !! k = Some id → rt_conns rt !! id = Some cn → state_is_trusted (state (rc_session cn)) = true →
  rc_queue cn = [] → rc_io cn = conn [] t → caught_up rt →
  map_Forall (λ id c, registered rt id = true → has_room c = true) (rt_conns rt) →
  policy_validate (en_policy (rt_clip rt)) c false = Ok tt →
  should_suppress (en_guard (rt_clip rt)) (content_compute_hash c) = false →
  clipboard_to_data_frame (Sync (ClipboardEntry_new (en_local_node_id (rt_clip rt)) (en_sequence (rt_clip rt))
                                   c false now)) = Ok f →
  travels_as (Data f) bs → carried_as (Offer m) ob →
  let rt' := runtime_run [RtCopied c now; RtBroadcast; RtBroadcast; RtBroadcast; RtConnRound id (RtOutbound 0)] rt in
  rc_io <$> rt_conns rt' !! id = Some (conn [] (t ++ bs))
  ∧ ∃ e, offer_and_stream path m (conn (bs ++ rest) [], cfs) = (Err e, (conn rest ob, cfs)).
Proof.
  intros Hreg Ec Ht Hq Hio [Hc Hs] Hroom Hp Hn Ef Tf Co rt'. split.
  - unfold rt'. rewrite (copy_reaches_peer rt k id cn c now f bs); try done; [|by apply Tf|by rewrite Hio..]. by rewrite Hio.
  - apply (offer_interrupted path m ob f bs rest [] cfs Co Tf). by rewrite (clipboard_channel _ _ Ef).
Qed.


(** C34: a file offer can replace the identity of a node.  The file name of an offer is
    joined to the receive directory as it is, so a name that is an absolute path names
    that file: when a trusted peer offers 32 bytes of its choice under the path of the
    node's key file, the node takes them, reports success, and the next time it
    starts it has the identity whose secret key the peer has chosen. *)
Theorem offer_replaces_identity `{Ed25519, Blake3, !Blake3Laws, Hex, Postcard Frame, Postcard TransferMessage, Debug Frame,
    Debug TransferMessage, !PostcardLaws Frame, !PostcardLaws TransferMessage}
    (rd : nat → nat) (receive_dir data_dir : string) (m : FileManifest) (secret entropy : array 32) (fs : Fs)
    (cb ab : Z → list byte) (acb fb gb payload k t : list byte) :
  describes m (arr secret) → fm_filename m = key_path data_dir → starts_with (as_bytes "/") (as_bytes data_dir) = true →
  fs_fault fs = None → files fs !! part_of receive_dir m = None → valid (Offer m) →
  TransferMessage_to_bytes (Offer m) = Ok payload → carried_as (Accept (fm_file_id m) 0) acb →
  chunk_wire m (arr secret) cb ab → carried_as (Finished (fm_file_id m) (fm_blake3_root_hash m)) fb →
  carried_as (Complete (fm_file_id m)) gb →
  ∃ fs', handle_file_transfer rd payload receive_dir (conn (cb 0 ++ fb ++ k) t, fs)
      = (Ok tt, (conn k (t ++ acb ++ ab 0 ++ gb), fs'))
    ∧ load_or_generate entropy (key_path data_dir) fs' = (Ok (IdentityKey_from_bytes secret), fs').
Proof.
  intros Hd Hname Habs Hf Hpart Hv Hpay Hacb Hw Hfb Hgb.
  assert (fm_total_chunks m = 1) as Htc.
  { destruct Hd as (Hs & Hsz & _). rewrite arr_zlen in Hsz. destruct Hs as [_ ->]. by rewrite Hsz. }
  destruct (handle_file_transfer_run rd receive_dir m (arr secret) [] fs cb ab acb fb gb payload k t)
    as (fs' & E & Hfile & _); try done; [by rewrite Htc|by rewrite Hpart|apply prefix_nil|].
  change (zlen [] / CHUNK_SIZE) with 0 in E. rewrite Htc in E.
  change (seqZ 0 (1 - 0)) with [0] in E. cbn [map concat] in E. rewrite !app_nil_r in E.
  exists fs'. split; [exact E|]. apply load_key_file. rewrite <-Hfile. f_equal. unfold final_of. rewrite Hname.
  assert (starts_with (as_bytes "/") (as_bytes (key_path data_dir)) = true) as Hk.
  { by apply path_join_absolute, path_join_absolute. }
  unfold path_join. by rewrite Hk.
Qed.

(** An offer of an untrusted peer is not answered.  The node takes it off the stream and
    writes nothing; the sender, which has written it and has no timeout, waits for as
    long as the connection lasts (its only way on is the end of the stream). *)
Theorem untrusted_offer_unanswered `{Ed25519, Sha256, Blake3, Hex, Postcard Frame, Postcard PairingMessage,
    Postcard TransferMessage, Postcard ClipboardMessage, Debug Frame, Debug PairingMessage, Debug TransferMessage,
    ClipboardBackend B, !PostcardLaws Frame, !PostcardLaws TransferMessage}
    (cid : nat) (dir path : string) (env : RoundEnv) (n : Node B) (m : FileManifest) (cfs : Fs) (ob k t : list byte) :
  carried_as (Offer m) ob → state_is_trusted (state (nd_session n)) = false → w_io (nd_world n) = conn (ob ++ k) t →
  node_round cid dir (NFrame env) n = (Ok true, with_stream (conn k t) n)
  ∧ offer_and_stream path m (conn [] [], cfs)
    = (Err (NBail "Peer closed connection while awaiting Accept"), (conn [] ob, cfs)).
Proof.
  intros Co Hu Hio. split.
  - destruct Co as (Hm & d & Ed & Hvd & E). destruct (to_data_frame_ok _ Hm) as (f & Ef & Hch & _).
    assert (f = d) as -> by congruence. cbn [node_round].
    rewrite (st_bind_ok _ _ _ _ _ (on_stream_recv "Failed to read frame" (Data d) ob k t n (conj Hvd E) Hio)).
    cbn [handle_node_frame]. rewrite Hch. rewrite decide_False, decide_False, decide_True by done.
    unfold mbind, st_bind, gets. cbn. by rewrite Hu.
  - unfold offer_and_stream. by rewrite (st_bind_ok _ _ _ _ _ (net_send_conn _ _ _ [] [] cfs Co)).
Qed.

(** ** Witnesses *)

Section Witnesses.
Import Toy FrameWire PairingWire TransferWire ClipboardWire BeaconWire.

#[local] Instance e2e_debug_frame : Debug Frame := λ _, "Frame".
#[local] Instance e2e_debug_pairing : Debug PairingMessage := λ _, "PairingMessage".
#[local] Instance e2e_debug_transfer : Debug TransferMessage := λ _, "TransferMessage".
#[local] Instance e2e_service_info : ServiceInfo := λ ty inst _ _ _ _, Ok (inst +:+ "." +:+ ty).

Definition ping_bytes (x : u64) : list byte := bytes_of (Control (Ping x)).
Definition pong_bytes (x : u64) : list byte := bytes_of (Control (Pong x)).
Definition bye_frame : Frame := Control (Disconnect Graceful).
(** What the phone sends: the handshake, two probes and its leave; and the answers. *)
Definition phone_says : list byte :=
  bytes_of demo_f1 ++ bytes_of demo_f3 ++ concat (map ping_bytes [7; 8]) ++ bytes_of bye_frame.
Definition laptop_says : list byte :=
  bytes_of (Handshake (HServerHello demo_sh)) ++ bytes_of demo_f4 ++ concat (map pong_bytes [7; 8]).

Lemma demo_probe x : x = 7 ∨ x = 8 → probe ping_bytes pong_bytes x.
Proof. by intros [->| ->]; repeat split; vm_compute. Qed.

Example ping_over_wire_witness :
  run_ping (Ok tt) "10.0.0.2:9801" key_b "Phone" nonce_c [7; 8]
    (conn laptop_says [], {| files := ∅; fs_fault := None |})
  = (Ok 2%nat, (conn [] phone_says, {| files := ∅; fs_fault := None |})).
Proof.
  destruct demo_encoded as (E1 & E2 & E3 & E4).
  refine (proj1 (ping_over_wire "10.0.0.2:9801" "Phone" "Laptop" "in" key_b key_a nonce_c nonce_s 100 [7; 8]
    ping_bytes pong_bytes (bytes_of demo_f1) (bytes_of (Handshake (HServerHello demo_sh))) (bytes_of demo_f3)
    (bytes_of demo_f4) (bytes_of bye_frame) {| files := ∅; fs_fault := None |}
    (world_of (conn phone_says []) empty_store) ∅ 1 refuse_env [refuse_env; refuse_env] false _ _ _ _ _ _ _ _ _)).
  - split; [repeat split; vm_compute; congruence|exact E1].
  - split; [repeat split; vm_compute; congruence|exact E2].
  - split; [exact I|exact E3].
  - split; [vm_compute; repeat split; congruence|exact E4].
  - constructor; [apply demo_probe; by left|]. constructor; [apply demo_probe; by right|constructor].
  - split; [exact I|vm_compute; reflexivity].
  - reflexivity.
  - vm_compute. reflexivity.
  - reflexivity.
Defined.

(** Two nodes with one connection between them. *)
Definition pair_rt (e : ClipboardSyncEngine MemoryClipboardBackend) (io : Io) : Runtime MemoryClipboardBackend := {|
  rt_identity := key_a; rt_name := "Laptop"; rt_receive_dir := "in"; rt_store := empty_store;
  rt_fs := {| files := ∅; fs_fault := None |}; rt_clip := e; rt_seen := 0; rt_cast := CastReading;
  rt_registry := {[remote_node_id demo_a := 0%nat]};
  rt_conns := {[0%nat := {| rc_session := with_session_state STrusted demo_a; rc_io := io; rc_queue := [] |}]};
  rt_next := 1; rt_discovery := no_discovery |}.


Definition laptop_beacon : BeaconMessage :=
  Announcement ProtocolVersion_CURRENT (IdentityKey_node_id key_a) "Laptop" Windows 9801 Capabilities_all 2.
Definition scan_env : CliEnv MemoryClipboardBackend := {|
  ce_entropy := arr_rep 32 x0a; ce_entropy' := arr_rep 32 x0b; ce_nonce := nonce_c; ce_pair_nonce := nonce_s;
  ce_ping := Z.of_nat; ce_now := 1; ce_now' := 2; ce_now'' := 3; ce_input := None; ce_connect := Ok tt;
  ce_rd := id; ce_lan := demo_lan;
  ce_heard := [(InUdp UPrune, 4)] ++ [(InUdp (URecv (BEACON_MAGIC ++ [BEACON_VERSION] ++ enc c_beacon laptop_beacon) disc_src), 5)];
  ce_start := demo_env; ce_inputs := [] |}.


Definition small_manifest : FileManifest := create_manifest_from_bytes "id" "a.txt" (as_bytes "hello").
Definition small_offer : list byte :=
  match to_data_frame (Offer small_manifest) with Ok d => bytes_of (Data d) | Err _ => [] end.

Example copy_breaks_send_witness :
  ∃ e, offer_and_stream "a.txt" small_manifest (conn (bytes_of (Data hello_frame) ++ []) [], {| files := ∅; fs_fault := None |})
    = (Err e, (conn [] small_offer, {| files := ∅; fs_fault := None |})).
Proof.
  set (cn := {| rc_session := with_session_state STrusted demo_a; rc_io := conn [] []; rc_queue := [] |}).
  refine (proj2 (copy_breaks_send (pair_rt engine_a (conn [] [])) (remote_node_id demo_a) 0 cn hello 1000 hello_frame
    (bytes_of (Data hello_frame)) small_offer [] [] "a.txt" small_manifest {| files := ∅; fs_fault := None |}
    _ _ _ _ _ _ _ _ _ _ _ _));
    [apply lookup_singleton_eq|reflexivity..|done| |reflexivity|reflexivity|vm_compute; reflexivity| |].
  - intros id c E _. cbn [pair_rt rt_conns] in E. apply lookup_singleton_Some in E as [_ <-]. reflexivity.
  - split; [vm_compute; repeat split; congruence|vm_compute; reflexivity].
  - split; [repeat split; vm_compute; congruence|]. eexists. split; [vm_compute; reflexivity|].
    split; [vm_compute; repeat split; congruence|vm_compute; reflexivity].
Defined.

Lemma demo_healthy : healthy_env demo_config demo_env.
Proof. split; reflexivity. Qed.


(** An offer of a key under the path of a node's key file. *)
Definition evil_secret : array 32 := arr_rep 32 x0b.
Definition evil_manifest : FileManifest := create_manifest_from_bytes "id" (key_path "/home/user/data") (arr evil_secret).
Definition evil_payload : list byte :=
  match TransferMessage_to_bytes (Offer evil_manifest) with Ok b => b | Err _ => [] end.

Lemma carried_evil msg :
  msg ∈ [Accept "id" 0; TData (chunk_of evil_manifest (arr evil_secret) 0); Ack "id" 0;
         Finished "id" (fm_blake3_root_hash evil_manifest); Complete "id"] →
  carried_as msg (transfer_wire msg).
Proof.
  intros Hin. repeat (apply elem_of_cons in Hin as [->|Hin];
    [split; [repeat split; vm_compute; congruence|];
     eexists; split; [reflexivity|]; split; [repeat split; vm_compute; congruence|vm_compute; reflexivity]|]).
  by apply not_elem_of_nil in Hin.
Qed.

Example offer_replaces_identity_witness : ∃ fs',
  (load_or_generate (arr_rep 32 x01) (key_path "/home/user/data") fs').1 = Ok (IdentityKey_from_bytes evil_secret).
Proof.
  destruct (offer_replaces_identity (λ _, 64%nat) "in" "/home/user/data" evil_manifest evil_secret (arr_rep 32 x01)
    {| files := {[key_path "/home/user/data" := arr (IdentityKey_to_bytes key_a)]}; fs_fault := None |}
    (λ i, transfer_wire (TData (chunk_of evil_manifest (arr evil_secret) i))) (λ i, transfer_wire (Ack "id" i))
    (transfer_wire (Accept "id" 0)) (transfer_wire (Finished "id" (fm_blake3_root_hash evil_manifest)))
    (transfer_wire (Complete "id")) evil_payload [] []) as (fs' & _ & E).
  - split; [split; [vm_compute; congruence|reflexivity]|split; reflexivity].
  - reflexivity.
  - reflexivity.
  - reflexivity.
  - reflexivity.
  - repeat split; vm_compute; congruence.
  - vm_compute. reflexivity.
  - apply carried_evil. set_solver.
  - intros i Hi. change (fm_total_chunks evil_manifest) with 1 in Hi. assert (i = 0) as -> by lia.
    split; apply carried_evil; set_solver.
  - apply carried_evil. set_solver.
  - apply carried_evil. set_solver.
  - exists fs'. rewrite E. reflexivity.
Defined.
End Witnesses.
