(* ===== verification/UnitTests.v ===== *)
(** * UnitTests: the [#[cfg(test)]] modules of the crates

    Each unit test of the sources, run on the model: a test is the conjunction of its
    assertions, and an [expect] or [unwrap] that would panic fails it.  The tests are
    written against the interfaces of the external libraries; they are evaluated with
    the wire format of the development and, where they sign or hash, with the sample
    implementation of [External.Toy], so that for those the result says that the
    model's own logic passes and not that a given cipher does.  [all_tests] is at the
    end. *)
From S2P Require Import Prelude Text External Codec Core Protocol Transport Keys Clipboard Windows Session Notifications Discovery.

(** ** Assertions *)

Definition expect {E A} (r : result E A) (k : A → bool) : bool := match r with Ok a => k a | Err _ => false end.
Definition expect_err {E A} (r : result E A) (k : E → bool) : bool := match r with Ok _ => false | Err e => k e end.
Definition expect_some {A} (o : option A) (k : A → bool) : bool := match o with Some a => k a | None => false end.
Definition is_err {E A} (r : result E A) : bool := expect_err r (λ _, true).
Definition assert_eq {A} `{EqDecision A} (x y : A) : bool := bool_decide (x = y).
Definition assert_ne {A} `{EqDecision A} (x y : A) : bool := negb (assert_eq x y).

(** ** [bridge-core/src/types.rs] *)

Section Types.
Context `{Hex}.

Definition test_protocol_version_compatibility : bool :=
  let v1_0 := ProtocolVersion_new 1 0 in
  let v1_1 := ProtocolVersion_new 1 1 in
  let v2_0 := ProtocolVersion_new 2 0 in
  is_compatible_with v1_0 v1_1 && is_compatible_with v1_1 v1_0 && negb (is_compatible_with v1_0 v2_0).

Definition test_node_id_hex_roundtrip : bool :=
  let raw := arr_rep 32 (z2b 42) in
  let id := NodeId_from_bytes raw in
  let hex_str := NodeId_to_hex id in
  assert_eq (str_len hex_str) 64 && assert_eq (NodeId_to_string id) hex_str
  && expect (NodeId_from_hex hex_str) (λ parsed, assert_eq parsed id)
  && expect (NodeId_from_str hex_str) (λ parsed_str, assert_eq parsed_str id)
  && assert_eq (DeviceType_from_str "windows") Windows && assert_eq (DeviceType_from_str "Android") Android
  && assert_eq (DeviceType_from_str "darwin") MacOS && assert_eq (DeviceType_from_str "unknown_os") UnknownDevice.

Definition test_capabilities_bitwise_operations : bool :=
  let caps := Capabilities_default in
  negb (caps_contains caps CAP_FILE_TRANSFER) &&
  let caps := caps_insert caps CAP_FILE_TRANSFER in
  let caps := caps_insert caps CAP_CLIPBOARD_TEXT in
  caps_contains caps CAP_FILE_TRANSFER && caps_contains caps CAP_CLIPBOARD_TEXT
  && negb (caps_contains caps CAP_REMOTE_INPUT) &&
  let peer_caps := Capabilities_from_bits (Z.lor CAP_FILE_TRANSFER CAP_REMOTE_INPUT) in
  let agreed := caps_intersect caps peer_caps in
  caps_contains agreed CAP_FILE_TRANSFER && negb (caps_contains agreed CAP_CLIPBOARD_TEXT)
  && negb (caps_contains agreed CAP_REMOTE_INPUT).
End Types.

(** ** [bridge-discovery/src/beacon.rs] *)

Section Beacons.
Context `{Postcard BeaconMessage}.

#[local] Instance BeaconMessage_eq_dec : EqDecision BeaconMessage.
Proof. solve_decision. Defined.

Definition is_invalid_packet (e : DiscoveryError) : bool := match e with DInvalidPacket _ => true | _ => false end.

Definition test_beacon_announcement_encode_decode_roundtrip : bool :=
  let node_id := NodeId_from_bytes (arr_rep 32 (z2b 0x42)) in
  let msg := Announcement ProtocolVersion_CURRENT node_id "TestDevice" Windows 8888 Capabilities_all 101 in
  expect (encode_beacon msg) (λ encoded,
    assert_eq (take 4 encoded) BEACON_MAGIC && assert_eq (encoded !! 4%nat) (Some BEACON_VERSION)
    && expect (decode_beacon encoded) (λ decoded, assert_eq decoded msg && assert_eq (beacon_node_id decoded) node_id)).

Definition test_beacon_goodbye_roundtrip : bool :=
  let node_id := NodeId_from_bytes (arr_rep 32 (z2b 0x99)) in
  let msg := Goodbye node_id 42 in
  expect (encode_beacon msg) (λ encoded, expect (decode_beacon encoded) (λ decoded,
    assert_eq decoded msg && assert_eq (beacon_node_id decoded) node_id)).

Definition test_beacon_query_roundtrip : bool :=
  let sender_id := NodeId_from_bytes (arr_rep 32 (z2b 0x12)) in
  let msg := Query sender_id 1 in
  expect (encode_beacon msg) (λ encoded, expect (decode_beacon encoded) (λ decoded,
    assert_eq decoded msg && assert_eq (beacon_node_id decoded) sender_id)).

Definition test_decode_invalid_magic : bool :=
  let buf := as_bytes "XXXX" ++ [BEACON_VERSION] in
  let buf := buf ++ replicate 10 (z2b 0) in
  expect_err (decode_beacon buf) is_invalid_packet.

Definition test_decode_invalid_version : bool :=
  let buf := BEACON_MAGIC in
  let buf := buf ++ [z2b 99] in
  let buf := buf ++ replicate 10 (z2b 0) in
  expect_err (decode_beacon buf) is_invalid_packet.

Definition test_decode_too_short : bool := expect_err (decode_beacon (as_bytes "BR")) is_invalid_packet.

Definition test_decode_device_name_truncation : bool :=
  let node_id := NodeId_from_bytes (arr_rep 32 (z2b 0x55)) in
  let long_name := of_bytes (replicate 128 (z2b 65)) in
  let msg := Announcement ProtocolVersion_CURRENT node_id long_name Android 7000 Capabilities_default 1 in
  expect (encode_beacon msg) (λ encoded, expect (decode_beacon encoded) (λ decoded,
    match decoded with
    | Announcement _ _ device_name _ _ _ _ => assert_eq (length (as_bytes device_name)) MAX_DEVICE_NAME_LEN
    | _ => false
    end)).

Definition test_decode_zero_port_rejected : bool :=
  let node_id := NodeId_from_bytes (arr_rep 32 (z2b 0x55)) in
  let msg := Announcement ProtocolVersion_CURRENT node_id "ZeroPort" Linux 0 Capabilities_default 1 in
  expect (encode_beacon msg) (λ encoded, expect_err (decode_beacon encoded) is_invalid_packet).
End Beacons.

(** ** [bridge-discovery/src/peer.rs] *)

Definition addr4 (a b c d : Z) (port : u16) : SocketAddr := {|
  sa_ip := V4 (default (arr_rep 4 (z2b 0)) (to_array 4 [z2b a; z2b b; z2b c; z2b d])); sa_port := port |}.

(** [now] and the later times are what [SystemTime::now] answers. *)
Definition test_peer_directory_crud (now now' now'' : Z) : bool :=
  let directory := PeerDirectory_new in
  dir_is_empty directory &&
  let node_id := NodeId_from_bytes (arr_rep 32 (z2b 1)) in
  let peer := DiscoveredPeer_new node_id "Laptop-Node" Windows [addr4 192 168 1 100 8443] Capabilities_all now in
  let '(inserted, is_new, directory) := insert_or_update peer now' directory in
  is_new && assert_eq (dp_node_id inserted) node_id && assert_eq (dir_len directory) 1%nat
  && dir_contains node_id directory &&
  let updated_peer := {| dp_node_id := dp_node_id peer; dp_device_name := "Laptop-Renamed";
    dp_device_type := dp_device_type peer; dp_addresses := dp_addresses peer;
    dp_capabilities := dp_capabilities peer; dp_last_seen := dp_last_seen peer |} in
  let '(updated, is_new_2, directory) := insert_or_update updated_peer now'' directory in
  negb is_new_2 && assert_eq (dp_device_name updated) "Laptop-Renamed" && assert_eq (dir_len directory) 1%nat
  && expect_some (dir_get node_id directory) (λ fetched, assert_eq (dp_device_name fetched) "Laptop-Renamed") &&
  let list := dir_list directory in
  assert_eq (length list) 1%nat && expect_some (list !! 0%nat) (λ p, assert_eq (dp_node_id p) node_id) &&
  let '(removed, directory) := dir_remove node_id directory in
  expect_some removed (λ p, assert_eq (dp_node_id p) node_id)
  && dir_is_empty directory && negb (dir_contains node_id directory).

Definition test_peer_directory_prune_expired (now now' : Z) : bool :=
  let directory := PeerDirectory_new in
  let node_id := NodeId_from_bytes (arr_rep 32 (z2b 2)) in
  let peer := DiscoveredPeer_new node_id "Phone-Node" Android [addr4 192 168 1 105 8443] Capabilities_default now in
  let peer := touch (now - from_secs 10) peer in
  let directory := <[node_id := peer]> directory in
  assert_eq (dir_len directory) 1%nat &&
  let '(pruned, directory) := prune_expired (from_secs 5) now' directory in
  assert_eq (length pruned) 1%nat && expect_some (pruned !! 0%nat) (λ p, assert_eq (dp_node_id p) node_id)
  && dir_is_empty directory.

(** ** [bridge-discovery/src/{service,udp,unified}.rs] *)

Section Discoveries.
Context `{Hex, ServiceInfo, Postcard BeaconMessage}.

Definition loopback (port : u16) : SocketAddr := addr4 127 0 0 1 port.

(** [ServiceInfo::new] keeps the port, the address and the properties that it is
    given, and [get_fullname] joins the instance and the service type. *)
Definition test_txt_record_serialization_and_parsing (now : Z) : bool :=
  let node_id := NodeId_from_bytes (arr_rep 32 (z2b 7)) in
  let caps := caps_insert (caps_insert Capabilities_default CAP_FILE_TRANSFER) CAP_CLIPBOARD_TEXT in
  let props := peer_to_txt_properties node_id "DevPC" Windows caps in
  assert_eq (props !! "node_id") (Some (NodeId_to_hex node_id)) && assert_eq (props !! "name") (Some "DevPC")
  && assert_eq (props !! "type") (Some "Windows") && assert_eq (props !! "caps") (Some (lower_hex (flags caps))) &&
  let service_info := {| rs_fullname := "DevPC-Node." +:+ BRIDGEOS_SERVICE_TYPE; rs_port := 9000;
    rs_addresses := [sa_ip (loopback 0)]; rs_properties := props |} in
  expect (parse_service_info service_info now) (λ peer,
    assert_eq (dp_node_id peer) node_id && assert_eq (dp_device_name peer) "DevPC"
    && assert_eq (dp_device_type peer) Windows && assert_eq (dp_capabilities peer) caps
    && assert_eq (length (dp_addresses peer)) 1%nat && assert_eq (dp_addresses peer !! 0%nat) (Some (loopback 9000))).

Definition test_discovery_service_creation_and_shutdown : bool :=
  let config := DiscoveryConfig_default in
  expect (MdnsDiscovery_own (Ok tt) config) (λ ms,
    let '(discovery, shared) := ms in
    dir_is_empty (sh_directory shared) &&
    let '(r, discovery) := mdns_start_discovery (Ok tt) discovery in
    is_ok r && negb (md_worker (mdns_shutdown (Ok tt) discovery))).

Definition test_udp_discovery_config_defaults : bool :=
  let config := UdpConfig_default in
  assert_eq (uc_broadcast_port config) DEFAULT_UDP_BROADCAST_PORT
  && assert_eq (length (uc_broadcast_targets config)) 1%nat
  && expect_some (uc_broadcast_targets config !! 0%nat) (λ t, assert_eq (sa_port t) DEFAULT_UDP_BROADCAST_PORT)
  && uc_query_on_start config && uc_goodbye_on_shutdown config.

Definition local_config : UdpConfig := {|
  uc_broadcast_port := uc_broadcast_port UdpConfig_default; uc_bind_addr := loopback 0;
  uc_broadcast_targets := [loopback 0]; uc_beacon_interval := uc_beacon_interval UdpConfig_default;
  uc_ttl := uc_ttl UdpConfig_default; uc_prune_interval := uc_prune_interval UdpConfig_default;
  uc_query_on_start := uc_query_on_start UdpConfig_default;
  uc_goodbye_on_shutdown := uc_goodbye_on_shutdown UdpConfig_default |}.

Definition test_udp_discovery_advertise_and_stop : bool :=
  expect (UdpDiscovery_own local_config) (λ us,
    let discovery := us.1 in
    let node_id := NodeId_from_bytes (arr_rep 32 (z2b 0x77)) in
    let caps := caps_insert Capabilities_default CAP_FILE_TRANSFER in
    let discovery := udp_advertise node_id "TestPC" Windows 9000 caps discovery in
    expect_some (ud_advertising_info discovery) (λ adv,
      assert_eq (la_node_id adv) node_id && assert_eq (la_device_name adv) "TestPC" && assert_eq (la_port adv) 9000
      && assert_eq (la_capabilities adv) caps) &&
    let discovery := udp_stop_advertising discovery in
    match ud_advertising_info discovery with Some _ => false | None => true end).

Definition millis (ms : Z) : Z := ms * 1000000.

Definition test_udp_discovery_create_and_shutdown (os : SocketOs) (ephemeral : bool) : bool :=
  let config := {| uc_broadcast_port := uc_broadcast_port UdpConfig_default; uc_bind_addr := loopback 0;
    uc_broadcast_targets := [loopback 0]; uc_beacon_interval := millis 50; uc_ttl := millis 200;
    uc_prune_interval := millis 50; uc_query_on_start := false; uc_goodbye_on_shutdown := false |} in
  expect (UdpDiscovery_own config) (λ us,
    let '(discovery, shared) := us in
    let '(r, discovery) := udp_start_discovery os discovery in
    is_ok r && dir_is_empty (sh_directory shared) &&
    let '(discovery, _) := udp_shutdown ephemeral (discovery, shared) in
    negb (ud_worker discovery)).

Definition test_unified_discovery_modes (os : SocketOs) (ephemeral : bool) : bool :=
  let config_udp_only := {| uf_mode := UdpOnly; uf_mdns := uf_mdns UnifiedDiscoveryConfig_default;
                            uf_udp := local_config |} in
  expect (UnifiedDiscovery_new (Ok tt) config_udp_only) (λ unified_udp,
    assert_eq (uf_mode (un_config unified_udp)) UdpOnly
    && match un_mdns unified_udp, un_udp unified_udp with None, Some _ => true | _, _ => false end &&
    let '(r, unified_udp) := unified_start_discovery (Ok tt) os unified_udp in
    is_ok r && negb (un_is_running (unified_shutdown (Ok tt) ephemeral unified_udp))) &&
  let mdns_cfg := {| dc_service_type := "_bridgeos-unified-test._tcp.local."; dc_ttl := from_secs 3;
                     dc_prune_interval := millis 500 |} in
  let config_mdns_only := {| uf_mode := MdnsOnly; uf_mdns := mdns_cfg;
                             uf_udp := uf_udp UnifiedDiscoveryConfig_default |} in
  expect (UnifiedDiscovery_new (Ok tt) config_mdns_only) (λ unified_mdns,
    assert_eq (uf_mode (un_config unified_mdns)) MdnsOnly
    && match un_mdns unified_mdns, un_udp unified_mdns with Some _, None => true | _, _ => false end &&
    let '(r, unified_mdns) := unified_start_discovery (Ok tt) os unified_mdns in
    is_ok r && negb (un_is_running (unified_shutdown (Ok tt) ephemeral unified_mdns))).
End Discoveries.

(** ** [bridge-identity/src/keys.rs] *)

Section KeyTests.
Context `{Ed25519, Sha256}.

(** [e1], [e2]: the entropy of the generated keys. *)
Definition test_identity_key_generation_and_node_id (e1 e2 : array 32) : bool :=
  let key1 := IdentityKey_generate e1 in
  let key2 := IdentityKey_generate e2 in
  assert_ne (IdentityKey_node_id key1) (IdentityKey_node_id key2)
  && assert_eq (NodeId_as_bytes (IdentityKey_node_id key1)) (arr (PublicKey_to_bytes (public_key key1))).

Definition test_signing_and_verification (e : array 32) : bool :=
  let key := IdentityKey_generate e in
  let message := as_bytes "Hello, BridgeOS zero-trust network!" in
  let sig := IdentityKey_sign key message in
  let pubkey := public_key key in
  is_ok (PublicKey_verify pubkey message sig) && is_err (PublicKey_verify pubkey (as_bytes "Tampered message") sig).

Definition test_handshake_challenge_verification (e : array 32) : bool :=
  let client_key := IdentityKey_generate e in
  let client_nonce := arr_rep 32 (z2b 1) in
  let server_nonce := arr_rep 32 (z2b 2) in
  let signature := sign_handshake_challenge client_key client_nonce server_nonce in
  is_ok (verify_handshake_challenge (public_key client_key) client_nonce server_nonce signature)
  && is_err (verify_handshake_challenge (public_key client_key) (arr_rep 32 (z2b 3)) server_nonce signature).
End KeyTests.

(** ** [bridge-notifications/src/{guard,policy}.rs] *)

Section NotificationTests.
Context `{Blake3, Hex, Lowercase}.

(** [make_entry] of the guard's tests; [now]: the clock of [NotificationEntry::new]. *)
Definition make_entry (now : Z) (origin : NodeId) (id text : string) : NotificationEntry :=
  NotificationEntry_new origin 1 id "com.test" "TestApp" "Title" text Normal now.

Definition test_dedup_same_content (now : Z) : bool :=
  let guard := NotificationGuard_new in
  let origin := NodeId_from_bytes (arr_rep 32 (z2b 1)) in
  let entry := make_entry now origin "notif:1" "Hello" in
  negb (is_duplicate guard entry) &&
  let guard := record_posted entry guard in
  is_duplicate guard entry.

Definition test_dedup_updated_content (now now' : Z) : bool :=
  let guard := NotificationGuard_new in
  let origin := NodeId_from_bytes (arr_rep 32 (z2b 1)) in
  let entry_v1 := make_entry now origin "notif:1" "Hello" in
  let entry_v2 := make_entry now' origin "notif:1" "Updated text" in
  let guard := record_posted entry_v1 guard in
  is_duplicate guard entry_v1 && negb (is_duplicate guard entry_v2).

Definition test_dismiss_suppresses_redelivery (now : Z) : bool :=
  let guard := NotificationGuard_new in
  let origin := NodeId_from_bytes (arr_rep 32 (z2b 2)) in
  let hex := hex_encode (arr (node_bytes origin)) in
  let entry := make_entry now origin "notif:2" "Dismissed notification" in
  let guard := record_posted entry guard in
  negb (is_dismissed guard hex "notif:2") &&
  let guard := record_dismissed hex "notif:2" guard in
  is_dismissed guard hex "notif:2" && negb (is_duplicate guard entry).

Definition test_clear_all_marks_all_dismissed (now now' : Z) : bool :=
  let guard := NotificationGuard_new in
  let origin := NodeId_from_bytes (arr_rep 32 (z2b 3)) in
  let hex := hex_encode (arr (node_bytes origin)) in
  let e1 := make_entry now origin "notif:a" "Notification A" in
  let e2 := make_entry now' origin "notif:b" "Notification B" in
  let guard := record_posted e1 guard in
  let guard := record_posted e2 guard in
  let guard := record_clear_all hex guard in
  is_dismissed guard hex "notif:a" && is_dismissed guard hex "notif:b".

Definition test_ring_eviction_at_capacity (now : nat → Z) : bool :=
  let guard := NotificationGuard_new in
  let origin := NodeId_from_bytes (arr_rep 32 (z2b 4)) in
  let guard := foldl (λ guard i,
    let entry := make_entry (now i) origin ("notif:" +:+ dec (Z.of_nat i)) ("Text " +:+ dec (Z.of_nat i)) in
    record_posted entry guard) guard (seq 0 (S RING_CAPACITY)) in
  bool_decide (guard_len guard ≤ RING_CAPACITY)%nat.

(** [make_entry] of the policy's tests. *)
Definition make_policy_entry (now : Z) (app_id title text : string) : NotificationEntry :=
  NotificationEntry_new (NodeId_from_bytes (arr_rep 32 (z2b 1))) 1 "notif:1" app_id "TestApp" title text Normal now.
Definition set_app_id (app_id : string) (e : NotificationEntry) : NotificationEntry := {|
  ne_origin := ne_origin e; ne_sequence := ne_sequence e; ne_posted_at_ms := ne_posted_at_ms e;
  ne_notification_id := ne_notification_id e; ne_app_id := app_id; ne_app_name := ne_app_name e;
  ne_title := ne_title e; ne_text := ne_text e; ne_sub_text := ne_sub_text e; ne_urgency := ne_urgency e;
  ne_state := ne_state e; ne_icon_hash := ne_icon_hash e; ne_icon_data := ne_icon_data e;
  ne_is_ongoing := ne_is_ongoing e |}.
Definition set_urgency (u : NotificationUrgency) (ongoing : bool) (e : NotificationEntry) : NotificationEntry := {|
  ne_origin := ne_origin e; ne_sequence := ne_sequence e; ne_posted_at_ms := ne_posted_at_ms e;
  ne_notification_id := ne_notification_id e; ne_app_id := ne_app_id e; ne_app_name := ne_app_name e;
  ne_title := ne_title e; ne_text := ne_text e; ne_sub_text := ne_sub_text e; ne_urgency := u;
  ne_state := ne_state e; ne_icon_hash := ne_icon_hash e; ne_icon_data := ne_icon_data e; ne_is_ongoing := ongoing |}.

Definition test_policy_blocks_sensitive_app (now : Z) : bool :=
  let policy := NotificationPolicy_default in
  let entry := make_policy_entry now "com.google.android.apps.authenticator2" "Test" "Body" in
  should_block policy (set_app_id "com.google.android.apps.authenticator2" entry).

Definition test_policy_blocks_otp_keyword (now : Z) : bool :=
  let policy := NotificationPolicy_default in
  should_block policy (make_policy_entry now "com.myapp" "Verification Code: 123456" "Use within 30s.").

Definition test_policy_passes_normal_notification (now : Z) : bool :=
  let policy := NotificationPolicy_default in
  negb (should_block policy (make_policy_entry now "com.whatsapp" "Alice: Hey!" "How are you?")).

Definition test_policy_blocks_low_urgency_in_strict_mode (now : Z) : bool :=
  let policy := NotificationPolicy_strict in
  let entry := make_policy_entry now "com.myapp" "Background sync" "Synced 5 files." in
  should_block policy (set_urgency Low (ne_is_ongoing entry) entry).

Definition test_policy_blocks_ongoing_in_strict_mode (now : Z) : bool :=
  let policy := NotificationPolicy_strict in
  let entry := make_policy_entry now "com.spotify" "Now Playing" "Track name here" in
  should_block policy (set_urgency Normal true entry).

Definition test_policy_passes_ongoing_in_default_mode (now : Z) : bool :=
  let policy := NotificationPolicy_default in
  let entry := make_policy_entry now "com.spotify" "Now Playing" "Track name here" in
  negb (should_block policy (set_urgency Normal true entry)).
End NotificationTests.

(** ** [bridge-protocol/src/codec.rs] and [bridge-transport/src/framed.rs] *)

Section Frames.
Context `{Postcard Frame}.

Definition test_encode_decode_roundtrip : bool :=
  let frame := Control (Ping 987654321) in
  expect (encode_frame frame) (λ encoded,
    assert_eq (take 4 encoded) MAGIC && expect (decode_frame encoded) (λ decoded, assert_eq frame decoded)).

Definition test_client_hello_roundtrip : bool :=
  let hello := {| ch_version := ProtocolVersion_CURRENT; ch_node_id := NodeId_from_bytes (arr_rep 32 (z2b 7));
    ch_device_name := "Desktop-Win11"; ch_client_nonce := arr_rep 32 (z2b 12);
    ch_capabilities := Capabilities_all |} in
  let frame := Handshake (HClientHello hello) in
  expect (encode_frame frame) (λ encoded, expect (decode_frame encoded) (λ decoded, assert_eq frame decoded)).

Definition test_invalid_magic_rejected : bool :=
  expect (encode_frame (Control (Pong 1))) (λ encoded,
    let encoded := <[0%nat := z2b 88]> encoded in
    expect_err (decode_frame encoded) (λ err, assert_eq err InvalidMagic)).

Definition test_incomplete_frame_rejected : bool :=
  expect (encode_frame (Control (Pong 1))) (λ encoded,
    let truncated := take (length encoded - 2) encoded in
    expect_err (decode_frame truncated) (λ err, match err with Framing _ => true | _ => false end)).

(** The two ends of [duplex]: what one end has written waits at the other.  Its
    buffer of 64 KiB holds all that these tests send. *)
Definition duplex : Io * Io := (conn [] [], conn [] []).
Definition carry (from to : Io) : Io * Io := (with_tx [] (tx_room from) from, with_rx (rx to ++ tx from) to).

Definition test_framed_stream_ping_pong : bool :=
  let '(client, server) := duplex in
  let ping := Control (Ping 42) in
  let '(r, client) := send_frame ping client in
  is_ok r &&
  let '(client, server) := carry client server in
  let '(r, server) := recv_frame server in
  expect r (λ o, expect_some o (λ received, assert_eq received ping)) &&
  let pong := Control (Pong 42) in
  let '(r, server) := send_frame pong server in
  is_ok r &&
  let '(server, client) := carry server client in
  let '(r, client) := recv_frame client in
  expect r (λ o, expect_some o (λ client_recv, assert_eq client_recv pong)).

Definition test_data_channel_frame_transfer : bool :=
  let '(client, server) := duplex in
  let test_data := as_bytes "BridgeOS Clipboard Synchronization Payload" in
  let frame := Data (DataFrame_new CHANNEL_CLIPBOARD test_data) in
  let '(r, client) := send_frame frame client in
  is_ok r &&
  let '(client, server) := carry client server in
  let '(r, server) := recv_frame server in
  expect r (λ o, expect_some o (λ recv, match recv with
    | Data data => assert_eq (df_channel data) CHANNEL_CLIPBOARD && assert_eq (df_payload data) test_data
    | _ => false
    end)).

(** A dropped peer is the end of the stream, with nothing left to read. *)
Definition test_clean_eof_handling : bool :=
  let '(_, server) := duplex in
  expect (recv_frame server).1 (λ res, match res with None => true | Some _ => false end).
End Frames.

(** ** [bridge-clipboard/src/backend/windows.rs] *)

Section WindowsTests.
Context `{Win32 W}.

(** [nanos]: the clock. *)
Definition test_windows_clipboard_set_get_unicode (nanos : Z) (w : W) : bool :=
  expect (WindowsClipboardBackend_new (Ok tt) [] w) (λ backend,
    let unique_payload := "BridgeOS Unit Test Payload: " +:+ dec nanos in
    let '(r, backend) := windows_set_content (Text unique_payload) backend in
    is_ok r &&
    let '(r, backend) := windows_get_content backend in
    expect r (λ retrieved, assert_eq retrieved (Some (Text unique_payload)))).

(** The listener's message loop has one round before the subscriber looks. *)
Definition test_windows_clipboard_event_notification (nanos : Z) (w : W) : bool :=
  expect (WindowsClipboardBackend_new (Ok tt) [] w) (λ backend,
    let unique_payload := "BridgeOS Event Notification: " +:+ dec nanos in
    let '(r, backend) := windows_set_content (Text unique_payload) backend in
    is_ok r &&
    let '(_, listener) := message_pump [true] (wb_listener backend) in
    match ls_tx listener with Text t :: _ => assert_eq t unique_payload | _ => false end).
End WindowsTests.

(** ** All of them *)

(** The guard of the eviction test stays within its bounds whatever the clock says. *)
Lemma ring_eviction_passes `{Blake3, Hex} now : test_ring_eviction_at_capacity now = true.
Proof.
  unfold test_ring_eviction_at_capacity. set (post := λ (g : NotificationGuard) (i : nat), _).
  assert (∀ l g, nguard_ok g → (∀ k, ng_states g !! k ≠ Some Dismissed) → nguard_ok (foldl post g l)) as Hp.
  { induction l as [|i l IH]; intros g Hg Hd; [done|]. cbn [foldl]. apply IH.
    - apply record_posted_ok; [done|]. unfold is_dismissed. apply bool_decide_eq_false, Hd.
    - intros k. unfold post, record_posted. set (key := guard_key _).
      repeat case_match; cbn; (destruct (decide (k = key)) as [->|];
        [by rewrite lookup_insert_eq|rewrite lookup_insert_ne by done; try apply Hd]).
      all: intros [_ Hk]%lookup_delete_Some; by apply (Hd k). }
  apply bool_decide_eq_true, nguard_ok_size, Hp; [apply nguard_ok_new|]. intros k. cbn. by rewrite lookup_empty.
Qed.

Section Run.
Import Toy FrameWire BeaconWire NotificationWire ToyWin.

#[local] Instance test_service_info : ServiceInfo := λ ty inst _ _ _ _, Ok (inst +:+ "." +:+ ty).

Definition core_tests : list bool := [
  test_protocol_version_compatibility; test_node_id_hex_roundtrip; test_capabilities_bitwise_operations].
Definition discovery_tests : list bool := [
  test_beacon_announcement_encode_decode_roundtrip; test_beacon_goodbye_roundtrip; test_beacon_query_roundtrip;
  test_decode_invalid_magic; test_decode_invalid_version; test_decode_too_short;
  test_decode_device_name_truncation; test_decode_zero_port_rejected;
  test_peer_directory_crud 1 2 3; test_peer_directory_prune_expired (from_secs 20) (from_secs 20);
  test_txt_record_serialization_and_parsing 1; test_discovery_service_creation_and_shutdown;
  test_udp_discovery_config_defaults; test_udp_discovery_advertise_and_stop;
  test_udp_discovery_create_and_shutdown sockets_ok true; test_unified_discovery_modes sockets_ok true].
Definition identity_tests : list bool := [
  test_identity_key_generation_and_node_id (arr_rep 32 x01) (arr_rep 32 x02);
  test_signing_and_verification (arr_rep 32 x01); test_handshake_challenge_verification (arr_rep 32 x01)].
Definition notification_tests : list bool := [
  test_dedup_same_content 1; test_dedup_updated_content 1 2; test_dismiss_suppresses_redelivery 1;
  test_clear_all_marks_all_dismissed 1 2; test_ring_eviction_at_capacity Z.of_nat;
  test_policy_blocks_sensitive_app 1; test_policy_blocks_otp_keyword 1; test_policy_passes_normal_notification 1;
  test_policy_blocks_low_urgency_in_strict_mode 1; test_policy_blocks_ongoing_in_strict_mode 1;
  test_policy_passes_ongoing_in_default_mode 1].
Definition frame_tests : list bool := [
  test_encode_decode_roundtrip; test_client_hello_roundtrip; test_invalid_magic_rejected;
  test_incomplete_frame_rejected; test_framed_stream_ping_pong; test_data_channel_frame_transfer;
  test_clean_eof_handling].
Definition windows_tests : list bool := [
  test_windows_clipboard_set_get_unicode 1234567890 start; test_windows_clipboard_event_notification 1234567890 start].
Definition all_tests : list bool :=
  core_tests ++ discovery_tests ++ identity_tests ++ notification_tests ++ frame_tests ++ windows_tests.

Notation passed := (eq true).

Lemma core_tests_pass : Forall passed core_tests.
Proof. repeat (constructor; [by vm_compute|]). constructor. Qed.
Lemma discovery_tests_pass : Forall passed discovery_tests.
Proof. repeat (constructor; [by vm_compute|]). constructor. Qed.
Lemma identity_tests_pass : Forall passed identity_tests.
Proof. repeat (constructor; [by vm_compute|]). constructor. Qed.
Lemma notification_tests_pass : Forall passed notification_tests.
Proof.
  do 4 (constructor; [by vm_compute|]). constructor; [symmetry; apply ring_eviction_passes|].
  repeat (constructor; [by vm_compute|]). constructor.
Qed.
Lemma frame_tests_pass : Forall passed frame_tests.
Proof. repeat (constructor; [by vm_compute|]). constructor. Qed.
Lemma windows_tests_pass : Forall passed windows_tests.
Proof. repeat (constructor; [by vm_compute|]). constructor. Qed.

(** Every unit test of the sources passes on the model. *)
Theorem unit_tests_pass : Forall passed all_tests.
Proof.
  repeat apply Forall_app_2.
  - exact core_tests_pass.
  - exact discovery_tests_pass.
  - exact identity_tests_pass.
  - exact notification_tests_pass.
  - exact frame_tests_pass.
  - exact windows_tests_pass.
Qed.
End Run.
