(* ===== verification/Fixtures.v ===== *)
(** * Fixtures: the golden vectors of [tests/interop]

    [tests/integration/tests/interop_fixtures.rs] writes a file for each message of the
    protocol, with fixed contents, which other implementations of the protocol are to
    be checked against; [tests/interop/fixtures] has the files.  Here the same messages
    are encoded by the model, with the real hash functions ([Digests]), and compared
    with the files byte for byte: the wire formats, the derivation of the pairing code
    and the hash of clipboard content are those of the program.

    The vectors also show a disagreement: they derive a node's identifier from its
    public key with SHA-256, the program takes the key itself. *)
From S2P Require Import Prelude Text External Digests Codec Core Protocol Transport Fs Keys Trust Pairing TransferMsg Transfer Clipboard Windows Session Notifications Discovery UnitTests.

(** ** The test *)

Definition arr_of (n : nat) (l : list byte) : array n := default (arr_rep n x00) (to_array n l).
Definition pubkey_bytes : array 32 := arr_of 32 ((λ i, z2b (Z.of_nat i)) <$> seq 16 32).

Section Golden.
Context `{Sha256, Blake3, Hex}.
Context `{Postcard Frame, Postcard PairingMessage, Postcard ClipboardMessage, Postcard BeaconMessage}.

Definition expected_node_id : array 32 := sha_finalize (sha_update sha_new (arr pubkey_bytes)).
Definition fixture_node_id : NodeId := NodeId_from_bytes expected_node_id.

Definition frame_header_file : list byte :=
  let sample_payload := as_bytes "TESTPAYLOAD" in
  as_bytes "BRG1" ++ be_bytes 4 (zlen sample_payload) ++ sample_payload.
Definition client_hello_frame : Frame := Handshake (HClientHello {|
  ch_version := ProtocolVersion_new 1 0; ch_node_id := fixture_node_id; ch_device_name := "Pixel-7-Android";
  ch_client_nonce := arr_rep 32 (z2b 0xaa); ch_capabilities := Capabilities_all |}).
Definition server_hello_frame : Frame := Handshake (HServerHello {|
  sh_agreed_version := ProtocolVersion_new 1 0; sh_node_id := NodeId_from_bytes (arr_rep 32 (z2b 0x55));
  sh_device_name := "Desktop-Win11"; sh_server_nonce := arr_rep 32 (z2b 0xbb);
  sh_negotiated_capabilities := Capabilities_all |}).
Definition auth_response_frame : Frame := Handshake (HAuthResponse {| ar_signature := arr_rep 64 (z2b 0xcc) |}).
Definition auth_result_frame : Frame := Handshake (HAuthResult AuthResult_ok).
Definition ping_frame : Frame := Control (Ping 1234567890).
Definition pong_frame : Frame := Control (Pong 1234567890).
Definition disconnect_frame : Frame := Control (Disconnect Graceful).

Definition sas_fixture : SasVerification :=
  SasVerification_derive (NodeId_from_bytes (arr_rep 32 (z2b 0x11))) (NodeId_from_bytes (arr_rep 32 (z2b 0x22)))
    (arr_rep 32 (z2b 0x33)) (arr_rep 32 (z2b 0x44)).

Definition pairing_req : PairingRequest := {|
  rq_node_id := fixture_node_id; rq_public_key := pubkey_bytes; rq_device_name := "Pixel-7-Android";
  rq_device_type := Android; rq_nonce := arr_rep 32 (z2b 0x44); rq_timestamp := 1700000000 |}.
Definition pairing_resp : PairingResponse := {|
  rp_node_id := NodeId_from_bytes (arr_rep 32 (z2b 0x55)); rp_public_key := arr_rep 32 (z2b 0x66);
  rp_device_name := "Desktop-Win11"; rp_device_type := Core.Windows; rp_nonce := arr_rep 32 (z2b 0x77);
  rp_timestamp := 1700000001 |}.
Definition pairing_conf : PairingConfirm := {|
  pc_node_id := fixture_node_id; pc_confirmed := true; pc_signature := replicate 64 (z2b 0x88) |}.

Definition clip_content : ClipboardContent := Text "Hello from BridgeOS cross-platform clipboard!".
Definition clip_entry : ClipboardEntry := {|
  ce_metadata := {| cm_origin := fixture_node_id; cm_sequence := 1; cm_timestamp_ms := 1700000000000;
    cm_content_hash := content_compute_hash clip_content; cm_format := content_format clip_content;
    cm_byte_size := byte_len clip_content; cm_is_sensitive := false |};
  ce_content := clip_content |}.
Definition beacon_msg : BeaconMessage :=
  Announcement (ProtocolVersion_new 1 0) fixture_node_id "Pixel-7-Android" Android 45100 Capabilities_all 1.

(** [encode_frame(&Frame::Data(df)).unwrap()], of a message that became a data frame. *)
Definition data_frame {E} (df : result E DataFrame) : option (list byte) :=
  match df with
  | Ok df => match encode_frame (Data df) with Ok bs => Some bs | Err _ => None end
  | Err _ => None
  end.
Definition frame_file (f : Frame) : option (list byte) :=
  match encode_frame f with Ok bs => Some bs | Err _ => None end.

(** The files that the test writes. *)
Definition golden_files : list (string * option (list byte)) := [
  ("frame_header.bin", Some frame_header_file);
  ("handshake_client_hello.bin", frame_file client_hello_frame);
  ("handshake_server_hello.bin", frame_file server_hello_frame);
  ("handshake_auth_response.bin", frame_file auth_response_frame);
  ("handshake_auth_result.bin", frame_file auth_result_frame);
  ("control_ping.bin", frame_file ping_frame);
  ("control_pong.bin", frame_file pong_frame);
  ("control_disconnect.bin", frame_file disconnect_frame);
  ("pairing_request_frame.bin", data_frame (pairing_to_data_frame (Request pairing_req)));
  ("pairing_response_frame.bin", data_frame (pairing_to_data_frame (Response pairing_resp)));
  ("pairing_confirm_frame.bin", data_frame (pairing_to_data_frame (Confirm pairing_conf)));
  ("clipboard_sync_frame.bin", data_frame (clipboard_to_data_frame (Sync clip_entry)));
  ("udp_beacon_announcement.bin", match encode_beacon beacon_msg with Ok bs => Some bs | Err _ => None end)].

(** The check of the test on what it has written. *)
Definition decodes_to (f : Frame) : bool :=
  expect (encode_frame f) (λ bytes, expect (decode_frame bytes) (λ decoded, assert_eq decoded f)).
Definition test_generate_and_verify_golden_fixtures : bool :=
  forallb (λ f, match f.2 with Some _ => true | None => false end) golden_files
  && decodes_to client_hello_frame && decodes_to server_hello_frame && decodes_to auth_response_frame
  && decodes_to auth_result_frame && decodes_to ping_frame
  && expect (clipboard_to_data_frame (Sync clip_entry)) (λ df, decodes_to (Data df))
  && expect (encode_beacon beacon_msg) (λ bytes,
       expect (decode_beacon bytes) (λ decoded, assert_eq decoded beacon_msg)).
End Golden.

(** ** The files *)

Definition stored_files : list (string * string) := [
  ("frame_header.bin", "425247310000000b544553545041594c4f4144");
  ("handshake_client_hello.bin", "42524731000000550000010089c7460452eddff119fea0419e785c74de2ffb139dbe74323aca4a01e198a5dc0f506978656c2d372d416e64726f6964aaaaaaaaaaaaaaaaaaaaaaaaaaaaaaaaaaaaaaaaaaaaaaaaaaaaaaaaaaaaaaaa3f");
  ("handshake_server_hello.bin", "42524731000000530001010055555555555555555555555555555555555555555555555555555555555555550d4465736b746f702d57696e3131bbbbbbbbbbbbbbbbbbbbbbbbbbbbbbbbbbbbbbbbbbbbbbbbbbbbbbbbbbbbbbbb3f");
  ("handshake_auth_response.bin", "4252473100000043000240cccccccccccccccccccccccccccccccccccccccccccccccccccccccccccccccccccccccccccccccccccccccccccccccccccccccccccccccccccccccccccccccc");
  ("handshake_auth_result.bin", "425247310000000400030100");
  ("control_ping.bin", "42524731000000070100d285d8cc04");
  ("control_pong.bin", "42524731000000070101d285d8cc04");
  ("control_disconnect.bin", "4252473100000003010200");
  ("pairing_request_frame.bin", "425247310000007a0205770089c7460452eddff119fea0419e785c74de2ffb139dbe74323aca4a01e198a5dc101112131415161718191a1b1c1d1e1f202122232425262728292a2b2c2d2e2f0f506978656c2d372d416e64726f696401444444444444444444444444444444444444444444444444444444444444444480e2cfaa06");
  ("pairing_response_frame.bin", "425247310000007802057501555555555555555555555555555555555555555555555555555555555555555566666666666666666666666666666666666666666666666666666666666666660d4465736b746f702d57696e313100777777777777777777777777777777777777777777777777777777777777777781e2cfaa06");
  ("pairing_confirm_frame.bin", "42524731000000660205630289c7460452eddff119fea0419e785c74de2ffb139dbe74323aca4a01e198a5dc014088888888888888888888888888888888888888888888888888888888888888888888888888888888888888888888888888888888888888888888888888888888");
  ("clipboard_sync_frame.bin", "425247310000007d02017a0089c7460452eddff119fea0419e785c74de2ffb139dbe74323aca4a01e198a5dc0180d095ffbc31c4790e5ec04c95b0c30c6be67cff8f4b2dceaad35dc28ed45d0a237f6211b028002d00002d48656c6c6f2066726f6d204272696467654f532063726f73732d706c6174666f726d20636c6970626f61726421");
  ("udp_beacon_announcement.bin", "425247420100010089c7460452eddff119fea0419e785c74de2ffb139dbe74323aca4a01e198a5dc0f506978656c2d372d416e64726f696401ace0023f01")].

Section Checked.
Import Toy Std FrameWire PairingWire ClipboardWire BeaconWire.

(** Every golden file is what the model writes. *)
Theorem golden_files_agree :
  (λ f, (f.1, hex_encode <$> f.2)) <$> golden_files = (λ f, (f.1, Some f.2)) <$> stored_files.
Proof. by vm_compute. Qed.

(** [sas_derivation.json]. *)
Theorem golden_sas :
  sas_fixture = {| numeric_pin := 60121; formatted_pin := "060-121"; hex_fingerprint := "52b815c9" |}.
Proof. by vm_compute. Qed.

(** [node_id_derivation.json]. *)
Lemma golden_node_id :
  hex_encode (arr expected_node_id) = "89c7460452eddff119fea0419e785c74de2ffb139dbe74323aca4a01e198a5dc".
Proof. by vm_compute. Qed.

Lemma golden_test_passes : test_generate_and_verify_golden_fixtures = true.
Proof. by vm_compute. Qed.

End Checked.

(** ** Identifiers *)

Section Identifiers.
Import Toy Std.

Lemma fixture_id_derived : node_bytes fixture_node_id ≠ pubkey_bytes.
Proof. apply (bool_decide_eq_false_1 (node_bytes fixture_node_id = pubkey_bytes)). by vm_compute. Qed.
End Identifiers.

Section Refused.
Import Std.
Context `{Ed25519, !Ed25519Laws, Hex}.

End Refused.

Section Witness.
Import Toy.

End Witness.
