(* ===== verification/IntegrationTests.v ===== *)
(** * IntegrationTests: the [tests/] directories of the crates

    The integration tests of the identity, transfer, clipboard and notification crates
    and the parsing tests of [bridge-cli], translated as those of [UnitTests] and run
    on the model with the real hash functions.  Random keys, nonces and clock readings
    are arguments.  Not here: the tests that start both ends of a connection or of
    discovery as tasks, whose interleavings [Session], [Node], [EndToEnd] and
    [Discovery] quantify over, and the two transfers of 192 KiB, which are instances of
    the theorems of [Transfer]. *)
From S2P Require Import Prelude Text External Digests Codec Core Protocol Transport Fs Keys Trust Pairing TransferMsg Transfer Clipboard Windows Session Notifications Discovery Node Runtime Cli Args UnitTests.

(** A call that must succeed, and what is asserted after it. *)
Definition after {S E A} (m : st S E A) (s : S) (k : A → S → bool) : bool :=
  let '(r, s) := m s in expect r (λ a, k a s).
(** A call that must fail. *)
Definition after_err {S E A} (m : st S E A) (s : S) (k : E → bool) : bool := expect_err (m s).1 k.

(** ** [bridge-identity/tests/pairing_and_trust_test.rs] *)

Section IdentityTests.
Context `{Ed25519, Sha256, Hex}.

Definition peer_of (key : IdentityKey) (name : string) (ty : DeviceType) (first last : u64) (state : TrustState) :
    TrustedPeer := {|
  tp_node_id := IdentityKey_node_id key; tp_public_key := public_key key; tp_device_name := name;
  tp_device_type := ty; tp_first_paired_at := first; tp_last_seen_at := last; tp_trust_state := state |}.
(** [TrustStore::open_in_memory().expect(..)]. *)
Definition in_memory (k : TrustStore → bool) : bool :=
  let '(r, store) := TrustStore_open_in_memory in is_ok r && k store.

Definition test_trust_store_in_memory_crud (entropy : array 32) : bool :=
  in_memory (λ store,
  let key := IdentityKey_generate entropy in
  let node_id := IdentityKey_node_id key in
  let peer := peer_of key "Phone-Pixel" Android 1000 1050 Trusted in
  after (save_peer peer) store (λ _ store,
  after (get_peer node_id) store (λ found store,
  expect_some found (λ retrieved,
    assert_eq (tp_node_id retrieved) node_id && assert_eq (tp_public_key retrieved) (public_key key)
    && assert_eq (tp_device_name retrieved) "Phone-Pixel" && assert_eq (tp_device_type retrieved) Android
    && assert_eq (tp_first_paired_at retrieved) 1000 && assert_eq (tp_last_seen_at retrieved) 1050
    && assert_eq (tp_trust_state retrieved) Trusted) &&
  after (update_last_seen node_id 2000) store (λ _ store,
  after (get_peer node_id) store (λ found store,
  expect_some found (λ updated, assert_eq (tp_last_seen_at updated) 2000) &&
  after list_peers store (λ peers store,
  assert_eq (length peers) 1%nat &&
  after list_trusted_peers store (λ trusted store,
  assert_eq (length trusted) 1%nat &&
  after (delete_peer node_id) store (λ deleted store,
  deleted && after (get_peer node_id) store (λ found _, negb (bool_decide (is_Some found))))))))))).

(** The database of the second [open] is the one that the first left. *)
Definition test_trust_store_disk_persistence_across_restarts (entropy1 entropy2 : array 32) : bool :=
  let key1 := IdentityKey_generate entropy1 in
  let key2 := IdentityKey_generate entropy2 in
  let peer1 := peer_of key1 "Desktop-Win" Core.Windows 500 550 Trusted in
  let peer2 := peer_of key2 "Laptop-Mac" MacOS 600 600 Pending in
  let '(r, store) := TrustStore_open {| peers_table := ∅; schema_versions := []; sql_faults := [] |} in
  is_ok r &&
  after (save_peer peer1) store (λ _ store,
  after (save_peer peer2) store (λ _ store,
  let '(r, store) := TrustStore_open store in
  is_ok r &&
  after (get_peer (IdentityKey_node_id key1)) store (λ p1 store,
  expect_some p1 (λ p1, assert_eq (tp_device_name p1) "Desktop-Win" && assert_eq (tp_trust_state p1) Trusted) &&
  after (get_peer (IdentityKey_node_id key2)) store (λ p2 store,
  expect_some p2 (λ p2, assert_eq (tp_device_name p2) "Laptop-Mac" && assert_eq (tp_trust_state p2) Pending) &&
  after list_trusted_peers store (λ trusted_only _,
  assert_eq (length trusted_only) 1%nat
  && expect_some (head trusted_only) (λ p, assert_eq (tp_node_id p) (IdentityKey_node_id key1))))))).

Definition test_is_trusted_validates_public_key_and_detects_impersonation (genuine imposter unknown : array 32) : bool :=
  in_memory (λ store,
  let genuine_key := IdentityKey_generate genuine in
  let imposter_key := IdentityKey_generate imposter in
  let unknown_key := IdentityKey_generate unknown in
  let peer := peer_of genuine_key "Genuine-Peer" Linux 100 100 Trusted in
  after (save_peer peer) store (λ _ store,
  after (is_trusted (IdentityKey_node_id genuine_key) (public_key genuine_key)) store (λ trusted store,
  trusted &&
  after (is_trusted (IdentityKey_node_id unknown_key) (public_key unknown_key)) store (λ unknown_trusted store,
  negb unknown_trusted &&
  after_err (is_trusted (IdentityKey_node_id genuine_key) (public_key imposter_key)) store (λ e,
    match e with KeyMismatch node_id _ _ => assert_eq node_id (IdentityKey_node_id genuine_key) | _ => false end))))).

Definition test_revocation_lifecycle (entropy : array 32) : bool :=
  in_memory (λ store,
  let key := IdentityKey_generate entropy in
  let peer := peer_of key "Revocable-Device" Android 100 100 Trusted in
  after (save_peer peer) store (λ _ store,
  after (is_trusted (IdentityKey_node_id key) (public_key key)) store (λ trusted store,
  trusted &&
  after (revoke_peer (IdentityKey_node_id key)) store (λ _ store,
  after (get_peer (IdentityKey_node_id key)) store (λ p store,
  expect_some p (λ p, assert_eq (tp_trust_state p) Revoked) &&
  after_err (is_trusted (IdentityKey_node_id key) (public_key key)) store (λ e,
    match e with PeerRevoked id => assert_eq id (IdentityKey_node_id key) | _ => false end)))))).

Definition test_pairing_session_mutual_sas_derivation_and_finalization
    (alice bob alice_nonce bob_nonce : array 32) (now : u64) : bool :=
  let alice_key := IdentityKey_generate alice in
  let bob_key := IdentityKey_generate bob in
  let '(alice_session, req) := new_initiator alice_key "Alice-Laptop" Core.Windows alice_nonce now in
  expect (new_responder bob_key "Bob-Phone" Android req bob_nonce now) (λ '(bob_session, resp, bob_sas),
  after (initiator_receive_response resp now) alice_session (λ alice_sas alice_session,
  assert_eq (numeric_pin alice_sas) (numeric_pin bob_sas)
  && assert_eq (formatted_pin alice_sas) (formatted_pin bob_sas)
  && assert_eq (hex_fingerprint alice_sas) (hex_fingerprint bob_sas)
  && assert_eq (str_len (formatted_pin alice_sas)) 7 &&
  expect (confirm alice_session) (λ alice_confirm,
  expect (confirm bob_session) (λ bob_confirm,
  after (finalize bob_confirm) alice_session (λ bob_trusted_by_alice _,
  after (finalize alice_confirm) bob_session (λ alice_trusted_by_bob _,
  assert_eq (tp_trust_state bob_trusted_by_alice) Trusted
  && assert_eq (tp_device_name bob_trusted_by_alice) "Bob-Phone"
  && assert_eq (tp_trust_state alice_trusted_by_bob) Trusted
  && assert_eq (tp_device_name alice_trusted_by_bob) "Alice-Laptop")))))).

Definition test_pairing_symmetry_regardless_of_initiator : bool :=
  let node_a := NodeId_from_bytes (arr_rep 32 (z2b 0x11)) in
  let node_b := NodeId_from_bytes (arr_rep 32 (z2b 0xee)) in
  let nonce_a := arr_rep 32 (z2b 0xaa) in
  let nonce_b := arr_rep 32 (z2b 0xbb) in
  let sas1 := SasVerification_derive node_a node_b nonce_a nonce_b in
  let sas2 := SasVerification_derive node_b node_a nonce_b nonce_a in
  assert_eq sas1 sas2.

(** The test gives the rejection the identifier of the peer that Bob sees. *)
Definition test_pairing_user_rejection (alice bob alice_nonce bob_nonce : array 32) (now : u64) : bool :=
  let alice_key := IdentityKey_generate alice in
  let bob_key := IdentityKey_generate bob in
  let '(alice_session, req) := new_initiator alice_key "Alice-Laptop" Core.Windows alice_nonce now in
  expect (new_responder bob_key "Bob-Phone" Android req bob_nonce now) (λ '(bob_session, resp, _),
  after (initiator_receive_response resp now) alice_session (λ _ alice_session,
  expect_some (ps_remote_peer bob_session) (λ remote,
  let bob_rejection := {| pc_node_id := tp_node_id remote; pc_confirmed := false; pc_signature := [] |} in
  is_err (finalize bob_rejection alice_session).1))).

Definition test_identity_storage_save_and_load (entropy1 entropy2 : array 32) : bool :=
  let keyfile := "tmp/device.key" in
  after (load_or_generate entropy1 keyfile) {| files := ∅; fs_fault := None |} (λ key1 fs,
  fs_exists keyfile fs &&
  after (load_or_generate entropy2 keyfile) fs (λ key2 _,
  assert_eq (IdentityKey_node_id key1) (IdentityKey_node_id key2)
  && assert_eq (IdentityKey_to_bytes key1) (IdentityKey_to_bytes key2))).
End IdentityTests.

(** ** [bridge-transfer/tests/transfer_test.rs] *)

Section TransferTests.
Context `{Blake3, Hex, Postcard TransferMessage}.

(** The tests in memory touch no file. *)
Definition no_files : Fs := {| files := ∅; fs_fault := None |}.
Definition flip_first (l : list byte) : list byte := match l with b :: l => z2b (Z.lxor (b2z b) 0xFF) :: l | [] => [] end.

Definition test_small_file_memory_transfer : bool :=
  let data := as_bytes "BridgeOS small payload transfer testing" in
  let manifest := create_manifest_from_bytes "small1" "test.txt" data in
  assert_eq (fm_total_chunks manifest) 1 && assert_eq (fm_total_size manifest) (zlen data) &&
  expect (FileSender_from_bytes data manifest 0) (λ sender,
  let receiver := to_memory manifest in
  after (next_chunk no_files) sender (λ next _,
  expect_some next (λ chunk,
  assert_eq (fc_chunk_index chunk) 0 && assert_eq (fc_offset chunk) 0 && verify_hash chunk &&
  after (receive_chunk chunk) (receiver, no_files) (λ _ '(receiver, _),
  is_complete receiver && expect (finalize_memory receiver) (λ final_bytes, assert_eq final_bytes data))))).

Definition test_corrupted_chunk_rejection : bool :=
  let data := as_bytes "BridgeOS Corrupted Chunk Test Data" in
  let manifest := create_manifest_from_bytes "corrupt1" "corrupt.txt" data in
  expect (FileSender_from_bytes data manifest 0) (λ sender,
  let receiver := to_memory manifest in
  after (next_chunk no_files) sender (λ next _,
  expect_some next (λ chunk,
  let chunk := {| fc_file_id := fc_file_id chunk; fc_chunk_index := fc_chunk_index chunk;
    fc_offset := fc_offset chunk; fc_blake3_hash := fc_blake3_hash chunk; fc_data := flip_first (fc_data chunk) |} in
  after_err (receive_chunk chunk) (receiver, no_files) (λ e,
    match e with Raise (ChunkHashMismatch index _ _) => assert_eq index 0 | _ => false end)))).

Definition test_corrupted_root_hash_detection : bool :=
  let data := as_bytes "BridgeOS Root Hash Validation" in
  let manifest := create_manifest_from_bytes "roothash1" "file.txt" data in
  let manifest := {| fm_file_id := fm_file_id manifest; fm_filename := fm_filename manifest;
    fm_total_size := fm_total_size manifest; fm_total_chunks := fm_total_chunks manifest;
    fm_blake3_root_hash := default (fm_blake3_root_hash manifest)
      (to_array 32 (flip_first (arr (fm_blake3_root_hash manifest)))) |} in
  expect (FileSender_from_bytes data manifest 0) (λ sender,
  let receiver := to_memory manifest in
  after (next_chunk no_files) sender (λ next _,
  expect_some next (λ chunk,
  verify_hash chunk &&
  after (receive_chunk chunk) (receiver, no_files) (λ _ '(receiver, _),
  expect_err (finalize_memory receiver) (λ e, match e with RootHashMismatch _ _ => true | _ => false end))))).

Definition test_empty_file_transfer : bool :=
  let manifest := create_manifest_from_bytes "empty1" "empty.txt" [] in
  assert_eq (fm_total_chunks manifest) 0 && assert_eq (fm_total_size manifest) 0 &&
  expect (FileSender_from_bytes [] manifest 0) (λ sender,
  let receiver := to_memory manifest in
  after (next_chunk no_files) sender (λ next _,
  assert_eq next None && is_complete receiver
  && expect (finalize_memory receiver) (λ finalized, assert_eq finalized []))).

(** [to_data_frame] then [from_data_frame]. *)
Definition transfer_roundtrips (msg : TransferMessage) : bool :=
  expect (to_data_frame msg) (λ data_frame, expect (from_data_frame data_frame) (λ decoded, assert_eq decoded msg)).
Definition test_wire_transfer_message_data_frame_roundtrip : bool :=
  let manifest := create_manifest_from_bytes "wire1" "wire.bin" (as_bytes "Postcard serialization wire test") in
  transfer_roundtrips (Offer manifest) && transfer_roundtrips (Accept "wire1" 3)
  && transfer_roundtrips (TData (FileChunk_new "wire1" 3 (3 * CHUNK_SIZE) [x01; x02; x03])).
End TransferTests.

(** ** [bridge-clipboard/tests/clipboard_test.rs] *)

Section ClipboardTests.
Context `{Blake3, Hex, Postcard ClipboardMessage}.

Definition clip_engine (b : Z) : ClipboardSyncEngine MemoryClipboardBackend :=
  ClipboardSyncEngine_new (NodeId_from_bytes (arr_rep 32 (z2b b))) MemoryClipboardBackend_new ClipboardPolicy_default.

Definition test_clipboard_content_hashing_and_wire_roundtrip (now : Z) : bool :=
  let node_id := NodeId_from_bytes (arr_rep 32 (z2b 0x11)) in
  let text_content := Text "Hello BridgeOS Clipboard!" in
  assert_eq (content_format text_content) FText && assert_eq (byte_len text_content) 25 &&
  let hash := content_compute_hash text_content in
  assert_ne hash (arr_rep 32 x00) &&
  let entry := ClipboardEntry_new node_id 1 text_content false now in
  assert_eq (cm_origin (ce_metadata entry)) node_id && assert_eq (cm_sequence (ce_metadata entry)) 1
  && assert_eq (cm_content_hash (ce_metadata entry)) hash && is_ok (validate_integrity entry) &&
  expect (clipboard_to_data_frame (Sync entry)) (λ frame,
  assert_eq (df_channel frame) CHANNEL_CLIPBOARD &&
  expect (clipboard_from_data_frame frame) (λ decoded_msg,
    match decoded_msg with
    | Sync decoded_entry =>
      assert_eq (cm_origin (ce_metadata decoded_entry)) node_id
      && assert_eq (cm_sequence (ce_metadata decoded_entry)) 1
      && assert_eq (ce_content decoded_entry) text_content && is_ok (validate_integrity decoded_entry)
    | _ => false
    end)).

Definition test_echo_guard_deduplication_and_sequence_tracking : bool :=
  let guard := EchoGuard_new 4 in
  let node_a := NodeId_from_bytes (arr_rep 32 x01) in
  let hash_1 := arr_rep 32 (z2b 0xAA) in
  let hash_2 := arr_rep 32 (z2b 0xBB) in
  let hash_3 := arr_rep 32 (z2b 0xCC) in
  let guard := record_sent hash_1 guard in
  should_suppress guard hash_1 && negb (should_suppress guard hash_2) &&
  let '(fresh, guard) := record_received node_a 1 hash_1 guard in
  negb fresh &&
  let '(fresh, guard) := record_received node_a 1 hash_2 guard in
  fresh && should_suppress guard hash_2 && assert_eq (last_sequence guard node_a) (Some 1) &&
  let '(fresh, guard) := record_received node_a 1 hash_3 guard in
  negb fresh &&
  let '(fresh, guard) := record_received node_a 0 hash_3 guard in
  negb fresh &&
  let '(fresh, guard) := record_received node_a 2 hash_3 guard in
  fresh && assert_eq (last_sequence guard node_a) (Some 2) &&
  let h6 := arr_rep 32 (z2b 0x66) in
  let guard := record_sent (arr_rep 32 (z2b 0x44)) guard in
  let guard := record_sent (arr_rep 32 (z2b 0x55)) guard in
  let guard := record_sent h6 guard in
  negb (should_suppress guard hash_1) && should_suppress guard h6.

Definition test_clipboard_policy_enforcement : bool :=
  let policy := {| max_text_bytes := 100; max_image_bytes := 500; allow_images := false; allow_html := true;
    filter_sensitive := true; enabled := true |} in
  let normal_text := Text "Short text" in
  is_ok (policy_validate policy normal_text false)
  && expect_err (policy_validate policy normal_text true) (λ e,
       match e with SensitiveContentBlocked => true | _ => false end) &&
  let long_text := Text (of_bytes (replicate 101 (z2b 65))) in
  expect_err (policy_validate policy long_text false) (λ e,
    match e with OversizedPayload size max => assert_eq size 101 && assert_eq max 100 | _ => false end) &&
  let img := Image Png (replicate 50 x00) 10 10 in
  expect_err (policy_validate policy img false) (λ e, match e with UnsupportedFormat _ => true | _ => false end).

Definition test_end_to_end_bidirectional_sync_and_loopback_suppression (now : Z) : bool :=
  let engine_a := clip_engine 0x0A in
  let engine_b := clip_engine 0x0B in
  let test_str := "Copied on Node A" in
  after (handle_local_change (Text test_str) false now) engine_a (λ frame_opt _,
  expect_some frame_opt (λ frame,
  assert_eq (df_channel frame) CHANNEL_CLIPBOARD &&
  after (handle_incoming_frame frame) engine_b (λ event engine_b,
  match event with
  | Some (RemoteApplied origin sequence _ format) =>
    assert_eq origin (en_local_node_id engine_a) && assert_eq sequence 1 && assert_eq format FText
  | _ => false
  end &&
  after get_content (en_backend engine_b) (λ content_b _,
  assert_eq content_b (Some (Text test_str)) &&
  after (handle_local_change (Text test_str) false now) engine_b (λ loopback_frame engine_b,
  match loopback_frame with None => true | Some _ => false end &&
  match en_events engine_b with
  | RemoteApplied _ _ _ _ :: EchoSuppressed _ _ :: _ => true
  | _ => false
  end))))).

Definition test_corrupted_hash_rejection (now : Z) : bool :=
  let engine := clip_engine 0x01 in
  let entry := ClipboardEntry_new (NodeId_from_bytes (arr_rep 32 x02)) 1 (Text "Valid content") false now in
  let meta := ce_metadata entry in
  let entry := {| ce_metadata := {| cm_origin := cm_origin meta; cm_sequence := cm_sequence meta;
      cm_timestamp_ms := cm_timestamp_ms meta; cm_content_hash := arr_rep 32 (z2b 0xFF);
      cm_format := cm_format meta; cm_byte_size := cm_byte_size meta; cm_is_sensitive := cm_is_sensitive meta |};
    ce_content := ce_content entry |} in
  expect (clipboard_to_data_frame (Sync entry)) (λ frame,
  after_err (handle_incoming_frame frame) engine (λ e, match e with HashMismatch _ _ => true | _ => false end)).

Definition test_image_clipboard_sync_roundtrip (now : Z) : bool :=
  let engine_b := clip_engine 0x02 in
  let fake_png := z2b <$> [0x89; 0x50; 0x4E; 0x47; 0x0D; 0x0A; 0x1A; 0x0A; 0x00; 0x01] in
  let image_content := Image Png fake_png 1920 1080 in
  let entry := ClipboardEntry_new (NodeId_from_bytes (arr_rep 32 x01)) 42 image_content false now in
  expect (clipboard_to_data_frame (Sync entry)) (λ frame,
  after (handle_incoming_frame frame) engine_b (λ evt engine_b,
  match evt with Some (RemoteApplied _ _ _ (FImage Png)) => true | _ => false end &&
  after get_content (en_backend engine_b) (λ received _,
  assert_eq received (Some image_content)))).
End ClipboardTests.

(** ** [bridge-notifications/tests/notification_test.rs] *)

Section NotificationTests.
Context `{Blake3, Hex, Lowercase, Postcard NotificationMessage}.
#[local] Instance NotificationMessage_eq_dec : EqDecision NotificationMessage.
Proof. solve_decision. Defined.

Definition node_rep (b : Z) : NodeId := NodeId_from_bytes (arr_rep 32 (z2b b)).
Definition make_engine (id_byte : Z) : EngineInner := EngineInner_new (node_rep id_byte) NotificationPolicy_default.
(** [NotificationMessage::Post(entry).to_data_frame().unwrap()], handled. *)
Definition deliver (msg : NotificationMessage) (engine : EngineInner) (k : EngineInner → bool) : bool :=
  expect (notification_to_data_frame msg) (λ frame, after (notification_handle_frame frame) engine (λ _, k)).
(** [try_recv] of a subscriber that has read [n] events. *)
Definition try_recv (n : nat) (engine : EngineInner) : option NotificationSyncEvent := ei_events engine !! n.
Definition is_received (e : NotificationSyncEvent) : bool := match e with EvReceived _ => true | _ => false end.

Definition notification_roundtrips (msg : NotificationMessage) : bool :=
  expect (notification_to_data_frame msg) (λ frame,
    expect (notification_from_data_frame frame) (λ decoded, assert_eq msg decoded)).

Definition test_post_message_wire_roundtrip (now : Z) : bool :=
  notification_roundtrips (Post (NotificationEntry_new (node_rep 0x01) 1 "notif:1" "com.whatsapp" "WhatsApp"
    "Alice: Hey!" "How are you?" Normal now)).
Definition test_dismiss_message_wire_roundtrip : bool := notification_roundtrips (Dismiss (node_rep 0x01) "notif:42" 7).
Definition test_action_invoked_wire_roundtrip : bool :=
  notification_roundtrips (ActionInvoked (node_rep 0x02) "notif:10" 1 (AReply "On my way!")).
Definition test_clear_all_wire_roundtrip : bool := notification_roundtrips (ClearAll (node_rep 0x03) 99).
Definition test_wrong_channel_rejected : bool :=
  is_err (notification_from_data_frame (DataFrame_new 1 (as_bytes "not-a-notification"))).

Definition test_engine_receives_notification (now : Z) : bool :=
  let entry := NotificationEntry_new (node_rep 0x20) 1 "msg:1" "com.telegram" "Telegram" "Bob: Hello" "Are you free?" Normal now in
  deliver (Post entry) (make_engine 0x10) (λ engine, expect_some (try_recv 0 engine) is_received).

Definition test_engine_deduplication_suppresses_identical (now : Z) : bool :=
  let entry := NotificationEntry_new (node_rep 0x21) 1 "msg:dup" "com.signal" "Signal" "New message" "Hey there" Normal now in
  deliver (Post entry) (make_engine 0x11) (λ engine,
  expect_some (try_recv 0 engine) is_received &&
  deliver (Post entry) engine (λ engine, match try_recv 1 engine with None => true | Some _ => false end)).

Definition test_engine_updated_content_is_delivered (now now' : Z) : bool :=
  let entry_v1 := NotificationEntry_new (node_rep 0x22) 1 "msg:update" "com.mail" "Mail" "1 new email" "From: Alice" Normal now in
  let entry_v2 := NotificationEntry_new (node_rep 0x22) 2 "msg:update" "com.mail" "Mail" "3 new emails"
    "From: Alice, Bob, Carol" Normal now' in
  deliver (Post entry_v1) (make_engine 0x12) (λ engine,
  expect_some (try_recv 0 engine) (λ _, true) &&
  deliver (Post entry_v2) engine (λ engine, expect_some (try_recv 1 engine) (λ _, true))).

Definition test_engine_dismiss_emits_event : bool :=
  deliver (Dismiss (node_rep 0x23) "notif:abc" 1) (make_engine 0x13) (λ engine,
  expect_some (try_recv 0 engine) (λ e, match e with EvDismissed _ _ => true | _ => false end)).

Definition test_engine_dismissed_notification_not_redelivered (now : Z) : bool :=
  let post := Post (NotificationEntry_new (node_rep 0x24) 1 "notif:once" "com.app" "App" "Title" "Body" Normal now) in
  deliver post (make_engine 0x14) (λ engine,
  expect_some (try_recv 0 engine) (λ _, true) &&
  deliver (Dismiss (node_rep 0x24) "notif:once" 2) engine (λ engine,
  expect_some (try_recv 1 engine) (λ _, true) &&
  deliver post engine (λ engine, match try_recv 2 engine with None => true | Some _ => false end))).

Definition test_engine_clear_all_emits_event : bool :=
  deliver (ClearAll (node_rep 0x25) 1) (make_engine 0x15) (λ engine,
  expect_some (try_recv 0 engine) (λ e, match e with EvClearedAll _ => true | _ => false end)).

Definition test_engine_policy_blocks_2fa_notification (now : Z) : bool :=
  let entry := NotificationEntry_new (node_rep 0x26) 1 "otp:1" "com.bank" "MyBank" "Verification Code: 492817"
    "Use this code within 60 seconds" High now in
  deliver (Post entry) (make_engine 0x16) (λ engine,
  expect_some (try_recv 0 engine) (λ e, match e with EvPolicyBlocked _ _ => true | _ => false end)).

Definition test_engine_build_post_returns_message (now : Z) : bool :=
  match (build_post "notif:local" "com.myapp" "MyApp" "You have a new message" "Click to view" Normal now (make_engine 0x17)).1 with
  | Some (Post entry) => assert_eq (ne_app_id entry) "com.myapp" && assert_eq (ne_sequence entry) 1
  | _ => false
  end.

Definition test_engine_build_post_sensitive_returns_none (now : Z) : bool :=
  match (build_post "otp:out" "com.authenticator" "Authenticator" "Verification Code: 123456" "30s remaining" High now
           (make_engine 0x18)).1 with
  | None => true
  | Some _ => false
  end.

Definition test_engine_build_dismiss_and_action : bool :=
  let '(dismiss_msg, engine) := build_dismiss "notif:abc" (make_engine 0x19) in
  match dismiss_msg with Dismiss _ _ _ => true | _ => false end &&
  let '(action_msg, _) := build_action "notif:abc" (AReply "Sure, on my way!") engine in
  match action_msg with ActionInvoked _ _ _ _ => true | _ => false end.

Definition test_size_limit_truncates_title (now : Z) : bool :=
  let long_title := of_bytes (replicate 512 (z2b 65)) in
  let entry := enforce_size_limits
    (NotificationEntry_new (node_rep 0x01) 1 "size:1" "com.verbose" "VerboseApp" long_title "Body text" Normal now) in
  bool_decide (str_len (ne_title entry) ≤ 256).

Definition test_engine_active_notification_snapshot (now : Z) : bool :=
  let entry := NotificationEntry_new (node_rep 0x2a) 1 "snap:1" "com.gmail" "Gmail" "New email" "Hello!" Normal now in
  deliver (Post entry) (make_engine 0x1a) (λ engine,
  let active := active_notifications (node_rep 0x2a) engine in
  assert_eq (length active) 1%nat
  && expect_some (head active) (λ e, assert_eq (ne_notification_id e) "snap:1")).
End NotificationTests.

(** ** [bridge-cli/tests/cli_tests.rs]: parsing *)

Section ParsingTests.
Context `{SocketText, Clap}.

Definition test_cli_parsing_node : bool :=
  expect (Cli_parse ["bridge-cli"; "node"; "--name"; "desktop-a"; "--port"; "9801"; "--receive-dir";
                     "./custom_received"; "--broadcast-port"; "42425"; "--no-mdns"; "--no-udp"]) (λ cli,
    match cli_command cli with
    | CNode name port device_type receive_dir _ broadcast_port no_mdns no_udp _ =>
      assert_eq name "desktop-a" && assert_eq port 9801 && assert_eq device_type "windows"
      && assert_eq receive_dir "./custom_received" && assert_eq broadcast_port 42425 && no_mdns && no_udp
    | _ => false
    end).
Definition test_cli_parsing_node_memory_clipboard : bool :=
  expect (Cli_parse ["bridge-cli"; "node"; "--memory-clipboard"]) (λ cli,
    match cli_command cli with CNode _ _ _ _ _ _ _ _ memory_clipboard => memory_clipboard | _ => false end).
Definition test_cli_parsing_ping : bool :=
  expect (Cli_parse ["bridge-cli"; "ping"; "--peer"; "127.0.0.1:9801"; "--count"; "10"; "--name"; "ping-bot"]) (λ cli,
    match cli_command cli with
    | CPing peer count name =>
      bool_decide (Ok peer = parse_socket_addr "127.0.0.1:9801") && assert_eq count 10%nat && assert_eq name "ping-bot"
    | _ => false
    end).
Definition test_cli_parsing_send_file : bool :=
  expect (Cli_parse ["bridge-cli"; "send-file"; "--peer"; "127.0.0.1:9801"; "--file"; "./test.txt"; "--name"; "sender-bot"]) (λ cli,
    match cli_command cli with
    | CSendFile peer file name _ =>
      bool_decide (Ok peer = parse_socket_addr "127.0.0.1:9801") && assert_eq file "./test.txt" && assert_eq name "sender-bot"
    | _ => false
    end).
Definition test_cli_parsing_discover : bool :=
  expect (Cli_parse ["bridge-cli"; "discover"; "--duration"; "5"; "--broadcast-port"; "42424"]) (λ cli,
    match cli_command cli with
    | CDiscover duration broadcast_port => assert_eq duration 5 && assert_eq broadcast_port 42424
    | _ => false
    end).
(** The length of the key that [run_identity] generates is part of its type. *)
Definition test_cli_parsing_identity : bool :=
  expect (Cli_parse ["bridge-cli"; "identity"; "--generate"]) (λ cli,
    match cli_command cli with CIdentity generate => generate | _ => false end).
End ParsingTests.

(** ** All of them *)

Section Run.
Import Toy Std TransferWire ClipboardWire NotificationWire ToyClap.
#[local] Instance test_lowercase : Lowercase := to_ascii_lowercase.
Notation passed := (eq true).

Definition identity_integration : list bool := [
  test_trust_store_in_memory_crud (arr_rep 32 x01);
  test_trust_store_disk_persistence_across_restarts (arr_rep 32 x01) (arr_rep 32 x02);
  test_is_trusted_validates_public_key_and_detects_impersonation (arr_rep 32 x01) (arr_rep 32 x02) (arr_rep 32 x03);
  test_revocation_lifecycle (arr_rep 32 x01);
  test_pairing_session_mutual_sas_derivation_and_finalization (arr_rep 32 x01) (arr_rep 32 x02) (arr_rep 32 x03) (arr_rep 32 x04) 7;
  test_pairing_symmetry_regardless_of_initiator;
  test_pairing_user_rejection (arr_rep 32 x01) (arr_rep 32 x02) (arr_rep 32 x03) (arr_rep 32 x04) 7;
  test_identity_storage_save_and_load (arr_rep 32 x01) (arr_rep 32 x02)].
Definition transfer_integration : list bool := [
  test_small_file_memory_transfer; test_corrupted_chunk_rejection; test_corrupted_root_hash_detection;
  test_empty_file_transfer; test_wire_transfer_message_data_frame_roundtrip].
Definition clipboard_integration : list bool := [
  test_clipboard_content_hashing_and_wire_roundtrip 1; test_echo_guard_deduplication_and_sequence_tracking;
  test_clipboard_policy_enforcement; test_end_to_end_bidirectional_sync_and_loopback_suppression 1;
  test_corrupted_hash_rejection 1; test_image_clipboard_sync_roundtrip 1].
Definition notification_integration : list bool := [
  test_post_message_wire_roundtrip 1; test_dismiss_message_wire_roundtrip; test_action_invoked_wire_roundtrip;
  test_clear_all_wire_roundtrip; test_wrong_channel_rejected; test_engine_receives_notification 1;
  test_engine_deduplication_suppresses_identical 1; test_engine_updated_content_is_delivered 1 2;
  test_engine_dismiss_emits_event; test_engine_dismissed_notification_not_redelivered 1;
  test_engine_clear_all_emits_event; test_engine_policy_blocks_2fa_notification 1;
  test_engine_build_post_returns_message 1; test_engine_build_post_sensitive_returns_none 1;
  test_engine_build_dismiss_and_action; test_size_limit_truncates_title 1; test_engine_active_notification_snapshot 1].
Definition parsing_integration : list bool := [
  test_cli_parsing_node; test_cli_parsing_node_memory_clipboard; test_cli_parsing_ping; test_cli_parsing_send_file;
  test_cli_parsing_discover; test_cli_parsing_identity].

(** Every integration test that is translated passes on the model. *)
Theorem integration_tests_pass :
  Forall passed (identity_integration ++ transfer_integration ++ clipboard_integration
                 ++ notification_integration ++ parsing_integration).
Proof. repeat (constructor; [by vm_compute|]). constructor. Qed.
End Run.
